(* ===== verification/_CoqProject ===== *)
-Q . S2P
Prelude.v
MemList.v
MemListSpec.v
MemListRuns.v
MemBlock.v
MemBlockSpec.v
MemExamples.v
RlcUmEntity.v
RlcUmHeader.v
RlcUmReassembly.v
RlcUmReassemblySpec.v
RlcUmHeaderSpec.v
RlcUmDar.v
RlcUmDarSpec.v
RlcUmDarRefine.v
RlcUmReceiver.v
RlcUmSegment.v
RlcUmSegmentSpec.v
RlcUm.v
RlcUmLink.v
RlcUmLife.v
RlcUmExamples.v
OsaSnow3g.v
OsaSnow3gSpec.v
OsaStream.v
OsaStreamSpec.v
OsaStreamLocal.v
OsaExamples.v
PdcpPrimitives.v
PdcpSequence.v
PdcpSequenceSpec.v
PdcpSecurity.v
PdcpSecuritySpec.v
Pdcp.v
PdcpSpec.v
PdcpExamples.v
PdcpOverUm.v
RlcAmEntity.v
RlcAmSn.v
RlcAmStatus.v
RlcAmStatusSpec.v
RlcAmRetransmit.v
RlcAmHolesSpec.v
RlcAmArqSpec.v
RlcAmStatusRefine.v
RlcAmExamples.v
RlcAmRx.v
RlcAmReassembly.v
RlcAmRxList.v
RlcAmReceiver.v
RlcAmStatusReport.v
RlcAmSender.v
RlcAmSegment.v
RlcAmResegment.v
RlcAm.v
RlcAmRxListSpec.v
RlcAmHeaderSpec.v
RlcAmReassemblySpec.v
RlcAmReceiverSpec.v
RlcAmStatusReportSpec.v
RlcAmSegmentsSpec.v
RlcAmReportTotal.v
RlcAmRxExamples.v
RlcAmPlanSpec.v
RlcAmSegmentSpec.v
RlcAmSendSpec.v
RlcAmWalkSpec.v
RlcAmSenderSpec.v
RlcAmGrantSpec.v
RlcAmStream.v
RlcAmEnds.v
RlcAmLink.v
RlcAmTxExamples.v
