(* ===== verification/Prelude.v ===== *)
(** * Verification of the LTE user plane of OpenAirInterface

    The repository is a software LTE stack in C.  This library models its user
    plane below IP, from the packets given to PDCP down to the transport blocks
    exchanged with MAC, and the security algorithms of that path:

<<
      IP, RRC, GTP-U            outside; their calls are recorded
        PDCP  v10.1.0           Pdcp*.v       openair2/LAYER2/PDCP_v10.1.0
          OSA security          Osa*.v        openair2/UTIL/OSA
        RLC UM v9.3.0           RlcUm*.v      openair2/LAYER2/RLC/UM_v9.3.0
        RLC AM v9.3.0           RlcAm*.v      openair2/LAYER2/RLC/AM_v9.3.0
          memory blocks, lists  Mem*.v        openair2/UTIL/MEM, openair2/UTIL/LISTS
      MAC                       outside; its grants and blocks are arguments
>>

    PDCP numbers and protects an SDU, RLC UM cuts and concatenates SDUs into the
    transport blocks MAC asks for, the peer RLC UM reorders and reassembles, the
    peer PDCP infers the COUNT of what arrives and removes the protection.
    [PdcpOverUm] composes the layers.  RLC AM keeps what it sends until the peer
    acknowledges it in a STATUS PDU.  Packets travel in memory blocks, taken from
    pools and queued in linked lists.

    ** Files, and what they correspond to under src/

    - [Prelude]: C integers as [Z] with their wrap-around ([u8], [u16], [s32],
      ...), the error monad [res], memory as lists of bytes ([rd], [rd_n],
      [wr]), record update, the tactics and the hint databases.
    - [MemList]: [list.c], [list2.c] on a heap of blocks, links included.
      [MemBlock]: [mem_block.c], the pools.
    - [RlcUmEntity]: [rlc_um_entity.h], [rlc_um_structs.h], [rlc_um_constants.h]
      (the two records [um_tx] and [um_rx] are the transmitting and the receiving
      fields of [rlc_um_entity_t]), [rlc_um_fsm.c], [rlc_um_control_primitives.c].
    - [RlcUmHeader], [RlcUmReassembly], [RlcUmDar]: [rlc_um_dar.c],
      [rlc_um_reassembly.c], [rlc_um_receiver.c].
    - [RlcUmSegment]: [rlc_um_segment.c].  [RlcUm]: [rlc_um.c].
    - [OsaSnow3g]: [osa_snow3g.c], [osa_rijndael.c].  [OsaStream]:
      [osa_stream_eea.c], [osa_stream_eia.c].
    - [PdcpPrimitives]: [pdcp_primitives.c], [pdcp_util.c].  [PdcpSequence]:
      [pdcp_sequence_manager.c] and the record of [pdcp.h].  [PdcpSecurity]:
      [pdcp_security.c].  [Pdcp]: [pdcp_data_req] and [pdcp_data_ind] of [pdcp.c].

    - [RlcAmEntity]: the transmitting fields of [rlc_am_entity_t] as the record
      [am_tx], [rlc_am_windows.c] (its half for the transmitter),
      [rlc_am_timer_poll_retransmit.c], [rlc_am_in_sdu.c].  [RlcAmStatus]: the
      format of STATUS PDUs in [rlc_am_status_report.c].  [RlcAmRetransmit]:
      [rlc_am_segments_holes.c], [rlc_am_nack_pdu] and [rlc_am_ack_pdu] of
      [rlc_am_retransmit.c], and the processing of STATUS PDUs.
    - [RlcAmRx]: the receiving fields of [rlc_am_entity_t] as the record [am_rx],
      the rest of [rlc_am_windows.c], [rlc_am_timer_reordering.c],
      [rlc_am_timer_status_prohibit.c], the decoder of [rlc_am_receiver.c].
      [RlcAmRxList]: [rlc_am_rx_list.c]; the buffer is the list of its blocks,
      from the head on (the links are the matter of [MemList]).
      [RlcAmReassembly]: [rlc_am_reassembly.c].  [RlcAmReceiver]: the rest of
      [rlc_am_receiver.c], and [rlc_am_rx] of [rlc_am.c].  [RlcAmStatusReport]:
      [rlc_am_send_status_pdu] of [rlc_am_status_report.c].
      [RlcAmSender]: the rest of the transmitting fields as the record [am_send],
      [rlc_am_data_req], polling and copies for MAC.  [RlcAmSegment]:
      [rlc_am_segment.c].  [RlcAmResegment]: [rlc_am_retransmit_get_subsegment] of
      [rlc_am_retransmit.c].  [RlcAm]: the whole entity, [rlc_am.c] and
      [rlc_am_init.c].

    The other files hold no code of the program: [...Spec], [MemListRuns],
    [RlcUmDarRefine], [RlcUmReceiver], [RlcUmLink], [RlcUmLife], [RlcAmSn],
    [RlcAmStream], [RlcAmEnds], [RlcAmLink],
    [RlcAmStatusRefine], [RlcAmReportTotal],
    [OsaStreamLocal], [PdcpOverUm] hold abstract specifications and theorems,
    [...Examples] the theorems at concrete inputs and the behaviour outside of
    their hypotheses.

    ** The model

    A function of the code is a function on the record of the entity it is given
    a pointer to, with its results beside the new record; names are those of the
    code.  [Err] stands for what the code does not survive: an assertion
    ([EAssert]), an access outside of an object ([EBounds]), a null pointer
    ([ENull]), a double free ([EFree]).  [EFuel] never arises, as the theorems
    that give [Ok] show: the loops over sequence numbers have one turn per
    number of a cycle ([sn_fuel], 1025 in RLC AM, where the walk over a STATUS
    PDU has one turn more per entry, 1023 at most), the loops over length
    indicators one per byte of the PDU, those over the SDUs or the holes of a PDU
    one per element of the array, all others are structural.

    A pointer into a buffer is a displacement, or the list of the bytes from it
    to the end of the object, so reads and writes beyond it show.  A mutex is
    the boolean whether [trylock] succeeds.  Where a function takes a block the
    memory manager is an argument that may refuse it ([get_free_mem_block],
    [pool]): [MemBlockSpec] shows what the real one gives, a block of its own of
    more bytes than asked for.  Parameters are also AES in counter
    mode and AES-CMAC, which the code takes from libraries.  What the code
    relies on of them is a named hypothesis of the theorems that need it
    (counter mode is an exclusive or with a key stream which depends on key and
    counter block alone; CMAC depends on its message).  Constants of generated
    or platform headers are the record [build].  The host is little endian and
    [OAI_EMU] is not defined.

    ** What the theorems show

    - Memory.  [mem_blocks_never_shared] follows the pools from their
      initialisation on under any allocations and releases: no block is held
      twice or lost.  [get_free_mem_block_spec] says which pool serves a request.
      [list_runs_refine], proved once against the interface [BlockList] that both
      kinds of lists implement, refines them to sequences.
    - RLC UM.  [um_link_lossless] is the contract of the layer: what one entity
      accepts the other delivers, complete, once and in order, when blocks arrive
      in any order within half the window.  It rests on the specification of
      segmentation ([segment_makes_pdu]), on the decoder of the header
      ([get_pdu_infos_encode]), on the
      refinement of reassembly ([reassembly_refines]), and on a simulation of
      the receiver by one that counts without wrapping
      ([RlcUmDarSpec], [RlcUmDarRefine]): [receiver_window_invariant],
      [receiver_in_order_no_duplicate] under any losses, repetitions and timer
      ticks, [receiver_reorders], [reordering_timeout], [window_tests_spec].
      [tx_run_state], [config_req_ready] and [fsm_notify_event_spec] are the state of the sender and the life of an entity.
    - RLC AM.  [am_link_lossless] is the contract of the layer: two entities over
      a medium that loses, delays, repeats and reorders blocks and loses STATUS
      PDUs.  Whatever the run, what has been delivered is the beginning of what was
      accepted, what has not arrived is still held, and nothing is left when
      everything has arrived.  It is an invariant over runs of the five operations of
      the link ([RlcAmLink]), whose steps are the theorems below put on the whole
      entity ([RlcAmEnds]).  [am_segment_makes_pdu] is segmentation, against the same
      description of a cut as in RLC UM.  [am_status_refines] is what a STATUS PDU does to the transmitter,
      from the bytes to the PDUs released and to VT(A), and that the invariant
      [am_ok] of the retransmission buffer holds after it.  [am_status_roundtrip]
      is its format, proved on strings of bits with readers and writers that
      compose; [am_add_hole_inserts] the list of the parts to retransmit.
      [am_receiver_lossless] is the contract of the receiver: what arrives of a
      stream of PDUs, in any order and more than once, is delivered in sequence.
      It rests on the decoder ([am_get_data_pdu_infos_encode]), on the order of
      the buffer ([am_rx_insert_sorted]), and on reassembly;
      [am_rx_segments_complete] is about PDUs that come in segments.
      [am_status_report_truthful] says what a receiver reports,
      [am_status_report_terminates] that it does so whatever its buffer, and
      [am_status_exchange] puts both ends together: what the transmitter releases
      has arrived, and what has not arrived it keeps.
    - Security.  [stream_encrypt_involutive], [eia1_spec] with [mul64_ring] (the
      code on words against the polynomial evaluation of the standard),
      [snow3g_words], [lfsr_clock_injective], and the published test data.
    - PDCP.  [pdcp_bearer_delivers] is the contract of the layer;
      [pdcp_security_roundtrip], [pdcp_rx_follows_tx], [pdcp_tx_numbers],
      [pdcp_rx_infers_count], [pdcp_count_tx_spec], [pdcp_headers_roundtrip] its
      parts; [pdcp_data_req_refused] its errors.
      [pdcp_over_um] puts the two layers together.
    - Flaws.  The [...Examples] files, [pdcp_bad_mac_delivered] among them, prove what the code does where it departs from
      its comments or from the standard it implements.

    ** Not modelled

    Traces, displays, measurements of time and statistics reports, everywhere.  Of
    PDCP: the configuration by RRC and the exchange with the IP layer.  RLC TM and
    the dispatch of [rlc.c].  MAC schedulers, the physical layer, RRC, NAS and the
    core network: they revolve around generated ASN.1 structures, message passing
    between tasks or SIMD intrinsics. *)
From stdpp Require Export prelude gmap.
From Stdlib Require Export ZArith Lia.

Local Open Scope Z_scope.

(** ** C integers

    A value of a C integer type is a [Z]; storing into an object of the type
    wraps.  [%] and [/] of C truncate towards zero: [Z.rem] and [Z.quot]. *)

Definition wrapU (w z : Z) : Z := z mod 2 ^ w.
Definition wrapS (w z : Z) : Z := (z + 2 ^ (w - 1)) mod 2 ^ w - 2 ^ (w - 1).

Abbreviation u8 := (wrapU 8).
Abbreviation u16 := (wrapU 16).
Abbreviation u32 := (wrapU 32).
Abbreviation s8 := (wrapS 8).
Abbreviation s16 := (wrapS 16).
Abbreviation s32 := (wrapS 32).

Declare Scope c_scope.
Delimit Scope c_scope with c.
Infix "%%" := Z.rem (at level 40, left associativity) : c_scope.
Infix ".<<" := Z.shiftl (at level 41, left associativity) : c_scope.
Infix ".>>" := Z.shiftr (at level 41, left associativity) : c_scope.
Infix ".&" := Z.land (at level 44, left associativity) : c_scope.
Infix ".^" := Z.lxor (at level 46, left associativity) : c_scope.
Infix ".|" := Z.lor (at level 48, left associativity) : c_scope.

(** A C value used as a condition. *)
Definition truth (z : Z) : bool := negb (z =? 0).

Definition in_u (w z : Z) : Prop := 0 <= z < 2 ^ w.
Abbreviation byte := (in_u 8).
Abbreviation bytes := (Forall (in_u 8)).

Lemma wrapU_small w z : 0 <= z < 2 ^ w -> wrapU w z = z.
Proof. apply Z.mod_small. Qed.

Lemma wrapU_range w z : 0 <= w -> 0 <= wrapU w z < 2 ^ w.
Proof. intros. apply Z.mod_pos_bound. lia. Qed.

Lemma wrapS_small w z :
  0 < w -> - 2 ^ (w - 1) <= z < 2 ^ (w - 1) -> wrapS w z = z.
Proof.
  intros Hw Hz. unfold wrapS. rewrite Z.mod_small; [lia|].
  replace (2 ^ w) with (2 * 2 ^ (w - 1)); [lia|].
  rewrite <- Z.pow_succ_r by lia. f_equal; lia.
Qed.

Lemma u8_small z : 0 <= z < 256 -> u8 z = z.
Proof. apply (wrapU_small 8). Qed.
Lemma u16_small z : 0 <= z < 65536 -> u16 z = z.
Proof. apply (wrapU_small 16). Qed.
Lemma u32_small z : 0 <= z < 4294967296 -> u32 z = z.
Proof. apply (wrapU_small 32). Qed.
Lemma s16_small z : -32768 <= z < 32768 -> s16 z = z.
Proof. apply (wrapS_small 16). lia. Qed.
Lemma s32_small z : -2147483648 <= z < 2147483648 -> s32 z = z.
Proof. apply (wrapS_small 32). lia. Qed.

Create Rewrite HintDb cint.
#[export] Hint Rewrite u8_small u16_small u32_small s16_small s32_small
  using lia : cint.

(** Splits every quotient and remainder by a literal, then [lia]. *)
Ltac div_lia := Z.div_mod_to_equations; lia.

(** ** Bits *)

(** Two bit fields placed side by side are added. *)
Lemma lor_shiftl_add hi lo k :
  0 <= k -> 0 <= lo < 2 ^ k -> Z.lor (Z.shiftl hi k) lo = hi * 2 ^ k + lo.
Proof.
  intros Hk Hlo.
  rewrite <- Z.shiftl_mul_pow2 by lia.
  rewrite Z.add_nocarry_lxor; [rewrite Z.lxor_lor; [done|]|];
    apply Z.bits_inj'; intros i Hi;
    rewrite Z.land_spec, Z.bits_0, Z.shiftl_spec by lia;
    (destruct (Z.lt_ge_cases i k);
      [rewrite (Z.testbit_neg_r _ (i - k)) by lia; apply andb_false_l|]);
    rewrite <- (Z.mod_small lo (2 ^ k)), Z.mod_pow2_bits_high by lia;
    apply andb_false_r.
Qed.

Lemma land_ones_mod z k : 0 <= k -> Z.land z (2 ^ k - 1) = z mod 2 ^ k.
Proof. intros. rewrite <- Z.land_ones by lia. f_equal. rewrite Z.ones_equiv. lia. Qed.

(** The operations on bits stay within a width. *)
Section width.
Variable w : Z.
Hypothesis w_pos : 0 <= w.

Lemma in_u_testbit a : in_u w a <-> 0 <= a /\ forall i, w <= i -> Z.testbit a i = false.
Proof.
  unfold in_u. split.
  - intros Ha. split; [lia|]. intros i Hi.
    rewrite <- (Z.mod_small a (2 ^ w)) by done. apply Z.mod_pow2_bits_high. lia.
  - intros [H0 Hb]. split; [done|]. replace a with (a mod 2 ^ w); [apply Z.mod_pos_bound; lia|].
    apply Z.bits_inj'. intros i Hi. destruct (Z.lt_ge_cases i w).
    + by rewrite Z.mod_pow2_bits_low.
    + rewrite Z.mod_pow2_bits_high by lia. symmetry. by apply Hb.
Qed.

Lemma in_u_lxor a b : in_u w a -> in_u w b -> in_u w (Z.lxor a b).
Proof.
  rewrite !in_u_testbit. intros [Ha Ha'] [Hb Hb']. split; [by apply Z.lxor_nonneg|].
  intros i Hi. rewrite Z.lxor_spec, Ha', Hb' by done. done.
Qed.

Lemma in_u_lor a b : in_u w a -> in_u w b -> in_u w (Z.lor a b).
Proof.
  rewrite !in_u_testbit. intros [Ha Ha'] [Hb Hb']. split; [by apply Z.lor_nonneg|].
  intros i Hi. rewrite Z.lor_spec, Ha', Hb' by done. done.
Qed.

Lemma in_u_land a b : 0 <= a -> in_u w b -> in_u w (Z.land a b).
Proof.
  rewrite !in_u_testbit. intros Ha [Hb Hb'].
  split; [apply Z.land_nonneg; by right|].
  intros i Hi. by rewrite Z.land_spec, Hb', andb_false_r.
Qed.

Lemma in_u_wrap a : in_u w (wrapU w a).
Proof. by apply wrapU_range. Qed.

Lemma in_u_shiftr a k : 0 <= k -> in_u w a -> in_u w (Z.shiftr a k).
Proof.
  rewrite !in_u_testbit. intros Hk [Ha Ha']. split; [by apply Z.shiftr_nonneg|].
  intros i Hi. rewrite Z.shiftr_spec by lia. apply Ha'. lia.
Qed.
End width.

Lemma in_u_shiftl w v a k : 0 <= v -> 0 <= k -> v + k <= w -> in_u v a -> in_u w (Z.shiftl a k).
Proof.
  intros Hv Hk Hw. rewrite !in_u_testbit by lia. intros [Ha Ha'].
  split; [by apply Z.shiftl_nonneg|].
  intros i Hi. rewrite Z.shiftl_spec by lia. apply Ha'. lia.
Qed.

Lemma in_u_weaken w v a : 0 <= v <= w -> in_u v a -> in_u w a.
Proof.
  unfold in_u. intros Hv Ha. pose proof (Z.pow_le_mono_r 2 v w). lia.
Qed.

Create HintDb width.
#[export] Hint Resolve in_u_lxor in_u_lor in_u_wrap : width.

(** A property of bytes decided by running through all of them. *)
Lemma byte_forall (f : Z -> bool) :
  forallb f (Z.of_nat <$> seq 0 256) = true -> forall b, in_u 8 b -> f b = true.
Proof.
  intros Hf b Hb. rewrite forallb_forall in Hf. apply Hf, list_elem_of_In.
  apply list_elem_of_fmap. exists (Z.to_nat b). unfold in_u in Hb.
  change (2 ^ 8) with 256 in Hb. split; [lia|]. apply elem_of_seq. lia.
Qed.

(** A contiguous mask selects a field: [k] bits from bit [a]. *)
Lemma land_field z a k :
  0 <= a -> 0 <= k ->
  Z.shiftr (Z.land z (Z.shiftl (2 ^ k - 1) a)) a = (z / 2 ^ a) mod 2 ^ k.
Proof.
  intros. rewrite Z.shiftr_land, Z.shiftr_shiftl_l by lia.
  rewrite Z.sub_diag, Z.shiftl_0_r, land_ones_mod, Z.shiftr_div_pow2 by lia. done.
Qed.

(** ** Fallible computations

    [EAssert] is the failure of an [AssertFatal] or [assert]; [EBounds] an
    access outside the object (undefined behaviour of the C program); [ENull]
    the dereference of a null pointer; [EFree] the second release of a block;
    [EFuel] is an artefact of the model, a loop
    cut by its fuel, which the termination theorems exclude. *)

Inductive err := EAssert | EBounds | ENull | EFree | EFuel.
#[export] Instance err_eq_dec : EqDecision err.
Proof. solve_decision. Defined.

Inductive res (A : Type) := Ok (a : A) | Err (e : err).
Arguments Ok {A} _.
Arguments Err {A} _.

#[export] Instance res_ret : MRet res := fun A a => Ok a.
#[export] Instance res_bind : MBind res :=
  fun A B f m => match m with Ok a => f a | Err e => Err e end.

Lemma res_bind_ok {A B} (m : res A) (f : A -> res B) b :
  (m ≫= f) = Ok b <-> exists a, m = Ok a /\ f a = Ok b.
Proof.
  destruct m; cbn; split.
  - eauto.
  - by intros (a' & [= <-] & H).
  - discriminate.
  - by intros (a' & [=] & H).
Qed.

Lemma res_bind_assoc {A B C} (m : res A) (f : A -> res B) (g : B -> res C) :
  (m ≫= f) ≫= g = m ≫= (fun x => f x ≫= g).
Proof. by destruct m. Qed.

Lemma res_bind_ret {A} (m : res A) : m ≫= Ok = m.
Proof. by destruct m. Qed.

Lemma res_ok_bind {A B} (a : A) (f : A -> res B) : (Ok a ≫= f) = f a.
Proof. done. Qed.

Definition res_guard (b : bool) (e : err) : res unit :=
  if b then Ok tt else Err e.

Lemma Ok_inj {A} (a b : A) : Ok a = Ok b -> a = b.
Proof. congruence. Qed.

(** Inverts every [_ ≫= _ = Ok _] of the context. *)
Ltac res_inv :=
  repeat match goal with
  | H : (_ ≫= _) = Ok _ |- _ =>
      apply res_bind_ok in H; destruct H as (? & ? & ?)
  | H : Ok _ = Ok _ |- _ => apply Ok_inj in H
  | H : Err _ = Ok _ |- _ => discriminate H
  | H : mret _ = Ok _ |- _ => apply Ok_inj in H
  | x : (_ * _)%type |- _ => destruct x
  end; simplify_eq/=.

(** ** Memory objects: lists of bytes accessed with bounds *)

Definition zlen {A} (l : list A) : Z := Z.of_nat (length l).
Arguments zlen : simpl never.

Definition rd {A} (l : list A) (i : Z) : res A :=
  if bool_decide (0 <= i) then
    match l !! Z.to_nat i with Some b => Ok b | None => Err EBounds end
  else Err EBounds.

(** [memcpy] out of [l]: [n] elements from offset [off]. *)
Definition rd_n {A} (l : list A) (off n : Z) : res (list A) :=
  if bool_decide (0 <= off /\ 0 <= n /\ off + n <= zlen l)
  then Ok (take (Z.to_nat n) (drop (Z.to_nat off) l))
  else Err EBounds.

(** [memcpy] into [l]: [src] at offset [off]. *)
Definition wr {A} (l : list A) (off : Z) (src : list A) : res (list A) :=
  if bool_decide (0 <= off /\ off + zlen src <= zlen l)
  then Ok (take (Z.to_nat off) l ++ src ++ drop (Z.to_nat off + length src) l)
  else Err EBounds.

Section memory.
Context {A : Type}.
Implicit Types l a b c src : list A.

Lemma zlen_nonneg l : 0 <= zlen l.
Proof. unfold zlen. lia. Qed.
Lemma to_nat_zlen l : Z.to_nat (zlen l) = length l.
Proof. apply Nat2Z.id. Qed.
Lemma zlen_app a b : zlen (a ++ b) = zlen a + zlen b.
Proof. unfold zlen. rewrite length_app. lia. Qed.
Lemma zlen_cons x l : zlen (x :: l) = 1 + zlen l.
Proof. unfold zlen. cbn [length]. lia. Qed.
Lemma zlen_nil : zlen (@nil A) = 0.
Proof. done. Qed.
Lemma zlen_take n l : zlen (take n l) = Z.min (Z.of_nat n) (zlen l).
Proof. unfold zlen. rewrite length_take. lia. Qed.
Lemma zlen_drop n l : zlen (drop n l) = Z.max 0 (zlen l - Z.of_nat n).
Proof. unfold zlen. rewrite length_drop. lia. Qed.

Lemma rd_app_here a x b : rd (a ++ x :: b) (zlen a) = Ok x.
Proof.
  unfold rd, zlen. rewrite bool_decide_true, Nat2Z.id by lia.
  by rewrite list_lookup_middle.
Qed.

Lemma rd_app_off a l i : 0 <= i -> rd (a ++ l) (zlen a + i) = rd l i.
Proof.
  intros Hi. unfold rd, zlen. rewrite !bool_decide_true by lia.
  rewrite lookup_app_r by lia.
  by replace (Z.to_nat (Z.of_nat (length a) + i) - length a)%nat with (Z.to_nat i) by lia.
Qed.
Lemma rd_app_next a x y b : rd (a ++ x :: y :: b) (zlen a + 1) = Ok y.
Proof. by rewrite rd_app_off. Qed.
Lemma rd_app_next2 a x y z b : rd (a ++ x :: y :: z :: b) (zlen a + 2) = Ok z.
Proof. by rewrite rd_app_off. Qed.

Lemma rd_ok l i : 0 <= i < zlen l -> exists x, rd l i = Ok x.
Proof.
  intros Hi. unfold rd. rewrite bool_decide_true by lia.
  destruct (lookup_lt_is_Some_2 l (Z.to_nat i)) as [x ->]; [unfold zlen in Hi; lia|].
  eauto.
Qed.

Lemma rd_n_app a b c : rd_n (a ++ b ++ c) (zlen a) (zlen b) = Ok b.
Proof.
  unfold rd_n. rewrite bool_decide_true
    by (rewrite !zlen_app; pose proof (zlen_nonneg a);
        pose proof (zlen_nonneg b); pose proof (zlen_nonneg c); lia).
  unfold zlen. rewrite !Nat2Z.id, drop_app_length, take_app_length. done.
Qed.

Lemma wr_app a b c src :
  length src = length b -> wr (a ++ b ++ c) (zlen a) src = Ok (a ++ src ++ c).
Proof.
  intros Hl. unfold wr. rewrite bool_decide_true.
  - unfold zlen. rewrite Nat2Z.id, take_app_length, Hl.
    rewrite <- drop_drop, drop_app_length, drop_app_length. done.
  - rewrite !zlen_app. pose proof (zlen_nonneg a). pose proof (zlen_nonneg c).
    unfold zlen in *. lia.
Qed.

Lemma wr_ok l off src :
  0 <= off -> off + zlen src <= zlen l ->
  exists l', wr l off src = Ok l' /\ zlen l' = zlen l.
Proof.
  intros H1 H2. unfold wr. rewrite bool_decide_true by done.
  eexists; split; [reflexivity|].
  rewrite !zlen_app, zlen_take, zlen_drop. unfold zlen in *. lia.
Qed.

Lemma list_split l n : 0 <= n <= zlen l -> exists a b, l = a ++ b /\ zlen a = n.
Proof.
  intros Hn. exists (take (Z.to_nat n) l), (drop (Z.to_nat n) l).
  rewrite take_drop, zlen_take. split; [done|lia].
Qed.
End memory.

Create Rewrite HintDb zlen.
#[export] Hint Rewrite @to_nat_zlen @zlen_app @zlen_cons @zlen_nil @zlen_take @zlen_drop : zlen.

(** ** Lists *)

(** Induction two elements at a time. *)
Lemma pair_list_ind {A} (P : list A -> Prop) :
  P [] -> (forall x, P [x]) ->
  (forall x y l, P l -> P (x :: y :: l)) -> forall l, P l.
Proof.
  intros H0 H1 H2. fix IH 1. intros [|x [|y l]]; [done|done|]. apply H2, IH.
Qed.

(** A [Forall] over an explicit list: one goal per element. *)
Ltac forall_list := repeat first [apply Forall_nil; exact I | apply Forall_cons; split].

Fixpoint sumZ (l : list Z) : Z :=
  match l with [] => 0 | x :: l => x + sumZ l end.

Lemma sumZ_app l k : sumZ (l ++ k) = sumZ l + sumZ k.
Proof. induction l as [|x l IH]; cbn; lia. Qed.

Lemma sumZ_nonneg l : Forall (Z.le 0) l -> 0 <= sumZ l.
Proof. induction 1; cbn; lia. Qed.

(** ** Functional update of records

    [r <| f := v |>] is [r] with field [f] replaced.  A record opts in with an
    instance of [Eta], its eta expansion. *)

Class Eta (R : Type) := eta : R -> R.
Class Update {R T : Type} (f : R -> T) := update : T -> R -> R.

Ltac mk_update :=
  lazymatch goal with
  | |- @Update ?R ?T ?f =>
      let v := fresh "v" in
      let r := fresh "r" in
      refine (fun (v : T) (r : R) => _);
      let e := eval hnf in (eta r) in
      lazymatch eval pattern (f r) in e with
      | ?g _ => let b := eval cbv beta in (g v) in exact b
      end
  end.
#[export] Hint Extern 0 (Update _) => mk_update : typeclass_instances.

Arguments update {R T} f {_} v r : simpl never.
Notation "r <| f := v |>" := (update f v r)
  (at level 1, f at level 200, v at level 200, left associativity,
   format "r  <| f  :=  v |>").
