(* ===== verification/MemList.v ===== *)
(** Memory blocks and the lists they are linked in ([mem_block.h], [list.h],
    [list.c], [list2.c]).

    The blocks live in a heap from addresses to blocks; a pointer is an address
    or NULL.  [list_t] and [list2_t] have the same fields and share one record;
    the names of the lists, for traces, are left out.  A list given to a
    function is never a null pointer. *)
From S2P Require Import Prelude.

Local Open Scope Z_scope.

Abbreviation addr := positive.
Abbreviation ptr := (option positive).

(** [mem_block_t]; [data] points into the array of a pool, [Some (pool, index)],
    or is NULL. *)
Record mem_block := MemBlock {
  next : ptr;
  previous : ptr;
  pool_id : Z;
  data : option (Z * Z)
}.
#[export] Instance mem_block_eta : Eta mem_block := fun b =>
  MemBlock (next b) (previous b) (pool_id b) (data b).

Abbreviation heap := (gmap addr mem_block).

(** [list_t] and [list2_t]. *)
Record list_t := List {
  head_ : ptr;
  tail_ : ptr;
  nb_elements : Z
}.
#[export] Instance list_eta : Eta list_t := fun l =>
  List (head_ l) (tail_ l) (nb_elements l).

(** ** Access through pointers *)

Definition load (h : heap) (p : ptr) : res mem_block :=
  match p with
  | None => Err ENull
  | Some x => match h !! x with Some b => Ok b | None => Err EBounds end
  end.

Definition store (h : heap) (p : ptr) (f : mem_block -> mem_block) : res heap :=
  match p with
  | None => Err ENull
  | Some x => match h !! x with Some b => Ok (<[x := f b]> h) | None => Err EBounds end
  end.

(** [p->next = q] and [p->previous = q]. *)
Definition set_next (h : heap) (p q : ptr) : res heap := store h p (fun b => b <| next := q |>).
Definition set_previous (h : heap) (p q : ptr) : res heap :=
  store h p (fun b => b <| previous := q |>).

Definition count_up (n : Z) (l : list_t) : list_t :=
  l <| nb_elements := s32 (nb_elements l + n) |>.

(** ** [list.c] *)

Definition list_init : list_t := List None None 0.

Definition list_get_head (l : list_t) : ptr := head_ l.

Definition list_remove_head (h : heap) (l : list_t) : res (ptr * heap * list_t) :=
  let head := head_ l in
  match head with
  | None => Ok (head, h, l)
  | Some _ =>
      b ← load h head;
      let l := count_up (-1) (l <| head_ := next b |>) in
      match head_ l with
      | None => Ok (head, h, l <| tail_ := None |>)
      | Some _ => h ← set_next h head None; Ok (head, h, l)
      end
  end.

(** The [while] loop of [list_remove_element], from [head] on; there are as many
    turns as blocks. *)
Fixpoint remove_loop (fuel : nat) (elementP head : ptr) (h : heap) (l : list_t)
    : res (heap * list_t) :=
  match head with
  | None => Ok (h, l)
  | Some _ =>
      match fuel with
      | O => Err EFuel
      | S fuel =>
          b ← load h head;
          if bool_decide (next b = elementP) then
            e ← load h elementP;
            h ← set_next h head (next e);
            let l := count_up (-1) l in
            Ok (h, if bool_decide (tail_ l = elementP) then l <| tail_ := head |> else l)
          else remove_loop fuel elementP (next b) h l
      end
  end.

(** The element is returned in any case. *)
Definition list_remove_element (elementP : ptr) (h : heap) (l : list_t)
    : res (heap * list_t) :=
  match elementP with
  | None => Ok (h, l)
  | Some _ =>
      if bool_decide (head_ l = elementP) then
        '(_, h, l) ← list_remove_head h l; Ok (h, l)
      else remove_loop (S (size h)) elementP (head_ l) h l
  end.

Definition list_add_head (elementP : ptr) (h : heap) (l : list_t) : res (heap * list_t) :=
  match elementP with
  | None => Ok (h, l)
  | Some _ =>
      let head := head_ l in
      let l := count_up 1 l in
      match head with
      | None => Ok (h, l <| head_ := elementP |> <| tail_ := elementP |>)
      | Some _ =>
          h ← set_next h elementP head;
          Ok (h, l <| head_ := elementP |>)
      end
  end.

Definition list_add_tail_eurecom (elementP : ptr) (h : heap) (l : list_t)
    : res (heap * list_t) :=
  match elementP with
  | None => Ok (h, l)
  | Some _ =>
      let l := count_up 1 l in
      h ← set_next h elementP None;
      let tail := tail_ l in
      match tail with
      | None => Ok (h, l <| head_ := elementP |> <| tail_ := elementP |>)
      | Some _ => h ← set_next h tail elementP; Ok (h, l <| tail_ := elementP |>)
      end
  end.

(** The second list is the one the elements go to; the first is returned
    emptied. *)
Definition list_add_list (h : heap) (sub l : list_t) : res (heap * list_t * list_t) :=
  match head_ sub with
  | None => Ok (h, sub, l)
  | Some _ =>
      '(h, l) ← (
        match tail_ l with
        | None => Ok (h, l <| head_ := head_ sub |>)
        | Some _ => h ← set_next h (tail_ l) (head_ sub); Ok (h, l)
        end);
      let l := count_up (nb_elements sub) (l <| tail_ := tail_ sub |>) in
      Ok (h, List None None 0, l)
  end.

(** ** [list2.c]: the doubly linked lists *)

Definition list2_init : list_t := List None None 0.

Definition list2_get_head (l : list_t) : ptr := head_ l.
Definition list2_get_tail (l : list_t) : ptr := tail_ l.

Definition list2_remove_element (elementP : ptr) (h : heap) (l : list_t)
    : res (heap * list_t) :=
  match elementP with
  | None => Ok (h, l)
  | Some _ =>
      e ← load h elementP;
      '(h, l) ← (
        if bool_decide (elementP = head_ l) then
          let l := l <| head_ := next e |> in
          match head_ l with
          | None => Ok (h, l <| tail_ := None |>)
          | Some _ =>
              h ← set_previous h (next e) None;
              h ← set_next h elementP None;
              Ok (h, l)
          end
        else if bool_decide (elementP = tail_ l) then
          let l := l <| tail_ := previous e |> in
          h ← set_next h (tail_ l) None;
          h ← set_previous h elementP None;
          Ok (h, l)
        else
          h ← set_next h (previous e) (next e);
          e ← load h elementP;
          h ← set_previous h (next e) (previous e);
          h ← set_next h elementP None;
          h ← set_previous h elementP None;
          Ok (h, l));
      Ok (h, count_up (-1) l)
  end.

Definition list2_remove_head (h : heap) (l : list_t) : res (ptr * heap * list_t) :=
  let head := head_ l in
  match head with
  | None => Ok (head, h, l)
  | Some _ =>
      b ← load h head;
      let l := count_up (-1) (l <| head_ := next b |>) in
      match head_ l with
      | None => Ok (head, h, l <| tail_ := None |>)
      | Some _ =>
          h ← set_previous h (head_ l) None;
          h ← set_next h head None;
          Ok (head, h, l)
      end
  end.

Definition list2_remove_tail (h : heap) (l : list_t) : res (ptr * heap * list_t) :=
  let tail := tail_ l in
  match tail with
  | None => Ok (tail, h, l)
  | Some _ =>
      let l := count_up (-1) l in
      '(h, l) ← (
        if bool_decide (head_ l = tail) then
          Ok (h, l <| head_ := None |> <| tail_ := None |>)
        else
          b ← load h tail;
          h ← set_next h (previous b) None;
          Ok (h, l <| tail_ := previous b |>));
      h ← set_previous h tail None;
      Ok (tail, h, l)
  end.

Definition list2_add_head (elementP : ptr) (h : heap) (l : list_t) : res (heap * list_t) :=
  match elementP with
  | None => Ok (h, l)
  | Some _ =>
      let head := head_ l in
      let l := count_up 1 l in
      match head with
      | None => Ok (h, l <| head_ := elementP |> <| tail_ := elementP |>)
      | Some _ =>
          h ← set_next h elementP head;
          h ← set_previous h head elementP;
          h ← set_previous h elementP None;
          Ok (h, l <| head_ := elementP |>)
      end
  end.

Definition list2_add_tail (elementP : ptr) (h : heap) (l : list_t) : res (heap * list_t) :=
  match elementP with
  | None => Ok (h, l)
  | Some _ =>
      let l := count_up 1 l in
      h ← set_next h elementP None;
      let tail := tail_ l in
      match tail with
      | None =>
          h ← set_previous h elementP None;
          Ok (h, l <| head_ := elementP |> <| tail_ := elementP |>)
      | Some _ =>
          h ← set_next h tail elementP;
          h ← set_previous h elementP tail;
          Ok (h, l <| tail_ := elementP |>)
      end
  end.

(** The count of the first list is left as it was. *)
Definition list2_add_list (h : heap) (sub l : list_t) : res (heap * list_t * list_t) :=
  '(h, sub, l) ← (
    match head_ sub with
    | None => Ok (h, sub, l)
    | Some _ =>
        '(h, l) ← (
          match tail_ l with
          | None => Ok (h, l <| head_ := head_ sub |>)
          | Some _ =>
              h ← set_next h (tail_ l) (head_ sub);
              h ← set_previous h (head_ sub) (tail_ l);
              Ok (h, l)
          end);
        Ok (h, sub <| head_ := None |> <| tail_ := None |>, l <| tail_ := tail_ sub |>)
    end);
  Ok (h, sub, count_up (nb_elements sub) l).
