(* ===== verification/MemListSpec.v ===== *)
(** Lists of memory blocks: what [list.c] and [list2.c] promise.  A list of the
    heap stands for a sequence of addresses, each operation computes the
    operation on sequences, and touches nothing but the links of the blocks
    involved. *)
From S2P Require Import Prelude.
From S2P Require Import MemList.

Local Open Scope Z_scope.

(** ** Segments *)

(** The blocks [xs] linked from [p] on, up to a block [qq] whose successor is
    [qn]; [pp] is in front of them.  The links back are right if [dbl]. *)
Fixpoint seg (dbl : bool) (h : heap) (pp p qq qn : ptr) (xs : list addr) : Prop :=
  match xs with
  | [] => p = qn /\ pp = qq
  | x :: xs =>
      p = Some x /\
      exists b, h !! x = Some b /\ (dbl = true -> previous b = pp)
                /\ seg dbl h (Some x) (next b) qq qn xs
  end.

(** [l] stands for the sequence [xs]. *)
Definition is_list (dbl : bool) (h : heap) (l : list_t) (xs : list addr) : Prop :=
  seg dbl h None (head_ l) (tail_ l) None xs /\ NoDup xs /\ nb_elements l = zlen xs.

(** Block [x] is in no list. *)
Definition detached (dbl : bool) (h : heap) (x : addr) : Prop :=
  exists b, h !! x = Some b /\ next b = None /\ (dbl = true -> previous b = None).

(** What a block is, beside its links. *)
Definition payload (b : mem_block) : Z * option (Z * Z) := (pool_id b, data b).

(** [h'] is [h] but for the links of the blocks of [xs]. *)
Definition relinked (xs : list addr) (h h' : heap) : Prop :=
  (forall y, y ∉ xs -> h' !! y = h !! y) /\
  (forall y, payload <$> h' !! y = payload <$> h !! y).

Lemma relinked_refl xs h : relinked xs h h.
Proof. split; intros; reflexivity. Qed.

Lemma relinked_trans xs ys h1 h2 h3 :
  relinked xs h1 h2 -> relinked ys h2 h3 -> relinked (xs ++ ys) h1 h3.
Proof.
  intros [A1 B1] [A2 B2]. split; intros y.
  - rewrite not_elem_of_app. intros [? ?]. by rewrite A2, A1.
  - by rewrite B2.
Qed.

Lemma relinked_sub xs ys h h' : xs ⊆ ys -> relinked xs h h' -> relinked ys h h'.
Proof. intros Hs [A B]. split; [|done]. intros y Hy. apply A. set_solver. Qed.

Lemma relinked_insert xs x b b' h h1 :
  relinked xs h h1 -> h1 !! x = Some b -> x ∈ xs -> payload b' = payload b ->
  relinked xs h (<[x := b']> h1).
Proof.
  intros [A B] Hx Hin Hp. split; intros y.
  - intros Hy. rewrite lookup_insert_ne by set_solver. auto.
  - rewrite <- B. destruct (decide (x = y)) as [<-|]; [|by rewrite lookup_insert_ne].
    by rewrite lookup_insert_eq, Hx; cbn; rewrite Hp.
Qed.

Lemma relinked_frame xs h h' y : relinked xs h h' -> y ∉ xs -> h' !! y = h !! y.
Proof. intros [A _]. apply A. Qed.

(** ** Segments split, join and do not see other blocks *)

Lemma seg_frame dbl h h' xs pp p qq qn :
  (forall x, x ∈ xs -> h' !! x = h !! x) ->
  seg dbl h pp p qq qn xs -> seg dbl h' pp p qq qn xs.
Proof.
  revert pp p. induction xs as [|x xs IH]; intros pp p Hf; [done|].
  intros (-> & b & Hb & Hp & Hs). split; [done|].
  exists b. split; [rewrite Hf by set_solver; done|]. split; [done|].
  apply IH; [|done]. set_solver.
Qed.

Lemma seg_app dbl h xs ys pp p qq qn :
  seg dbl h pp p qq qn (xs ++ ys) <->
  exists m n, seg dbl h pp p m n xs /\ seg dbl h m n qq qn ys.
Proof.
  revert pp p. induction xs as [|x xs IH]; intros pp p; cbn.
  - split; [intros; by exists pp, p|]. by intros (m & n & [-> ->] & ?).
  - setoid_rewrite IH. split.
    + intros (-> & b & Hb & Hp & m & n & ? & ?). exists m, n. eauto 10.
    + intros (m & n & (-> & b & Hb & Hp & ?) & ?). eauto 10.
Qed.

Lemma seg_one dbl h x pp p qq qn :
  seg dbl h pp p qq qn [x] <->
  p = Some x /\ qq = Some x /\
  exists b, h !! x = Some b /\ (dbl = true -> previous b = pp) /\ next b = qn.
Proof.
  cbn. split.
  - intros (-> & b & ? & ? & <- & <-). split; [done|]. split; [done|]. by exists b.
  - intros (-> & -> & b & ? & ? & <-). split; [done|]. by exists b.
Qed.

Lemma seg_in dbl h xs pp p qq qn x :
  seg dbl h pp p qq qn xs -> x ∈ xs -> is_Some (h !! x).
Proof.
  revert pp p. induction xs as [|y xs IH]; intros pp p; [set_solver|].
  intros (_ & b & Hb & _ & Hs) [->|Hx]%elem_of_cons; eauto.
Qed.

(** The two ends of a list. *)
Lemma seg_head dbl h xs pp p qq : seg dbl h pp p qq None xs -> p = head xs.
Proof. destruct xs; cbn; tauto. Qed.

Lemma seg_last dbl h xs p qq qn : seg dbl h None p qq qn xs -> qq = last xs.
Proof.
  destruct xs as [|x xs _] using rev_ind; [cbn; by intros [_ <-]|].
  rewrite last_snoc, seg_app. intros (m & n & _ & Hs).
  by apply seg_one in Hs as (_ & -> & _).
Qed.

Lemma is_list_frame dbl h h' l xs :
  (forall x, x ∈ xs -> h' !! x = h !! x) -> is_list dbl h l xs -> is_list dbl h' l xs.
Proof. intros Hf (? & ? & ?). split; [by eapply seg_frame|done]. Qed.

Lemma is_list_relinked dbl h h' l xs ys :
  relinked ys h h' -> xs ## ys -> is_list dbl h l xs -> is_list dbl h' l xs.
Proof.
  intros [Hr _] Hd. apply is_list_frame. intros x Hx. apply Hr.
  intros Hy. by apply (Hd x).
Qed.

Lemma is_list_head dbl h l xs : is_list dbl h l xs -> head_ l = head xs.
Proof. intros (Hs & _). by eapply seg_head. Qed.

Lemma is_list_tail dbl h l xs : is_list dbl h l xs -> tail_ l = last xs.
Proof. intros (Hs & _). by eapply seg_last. Qed.

Lemma is_list_nil dbl h : is_list dbl h (List None None 0) [].
Proof. split; [done|]. split; [constructor|done]. Qed.

Lemma is_list_in dbl h l xs x : is_list dbl h l xs -> x ∈ xs -> is_Some (h !! x).
Proof. intros (Hs & _). by eapply seg_in. Qed.

(** A link back or forth written at a block. *)
Lemma store_ok h x b f : h !! x = Some b -> store h (Some x) f = Ok (<[x := f b]> h).
Proof. intros H. unfold store. by rewrite H. Qed.

Lemma load_ok h x b : h !! x = Some b -> load h (Some x) = Ok b.
Proof. intros H. unfold load. by rewrite H. Qed.

Lemma nb_up l n : nb_elements (count_up n l) = s32 (nb_elements l + n).
Proof. done. Qed.

(** The first or the last block of a segment with another link. *)
Lemma seg_set_last dbl h h' ys t pp p qq qn qn' b' :
  seg dbl h pp p qq qn (ys ++ [t]) ->
  (forall y, y ∈ ys -> h' !! y = h !! y) ->
  h' !! t = Some b' -> next b' = qn' ->
  (forall b, h !! t = Some b -> previous b' = previous b) ->
  seg dbl h' pp p (Some t) qn' (ys ++ [t]).
Proof.
  rewrite !seg_app. intros (m & n & Hs & (-> & _ & b & Hb & Hp & _)%seg_one) Hf Ht <- Hpv.
  exists m, (Some t). split; [by eapply seg_frame|].
  apply seg_one. split; [done|]. split; [done|]. exists b'. split; [done|].
  split; [|done]. intros Hd. rewrite (Hpv b Hb). auto.
Qed.

Lemma seg_set_first dbl h h' x xs pp pp' p qq qn b' :
  seg dbl h pp p qq qn (x :: xs) ->
  (forall y, y ∈ xs -> h' !! y = h !! y) ->
  h' !! x = Some b' -> (dbl = true -> previous b' = pp') ->
  (forall b, h !! x = Some b -> next b' = next b) ->
  seg dbl h' pp' (Some x) qq qn (x :: xs).
Proof.
  intros (-> & b & Hb & _ & Hs) Hf Hx Hp Hn. split; [done|]. exists b'.
  split; [done|]. split; [done|]. rewrite (Hn b Hb). by eapply seg_frame.
Qed.

(** The shapes of a list: empty, or with a first and a last block. *)
Lemma is_list_cases dbl h l xs :
  is_list dbl h l xs ->
  xs = [] /\ head_ l = None /\ tail_ l = None
  \/ exists x t ys zs, xs = x :: ys /\ xs = zs ++ [t] /\
       head_ l = Some x /\ tail_ l = Some t.
Proof.
  intros Hl. pose proof (is_list_head _ _ _ _ Hl). pose proof (is_list_tail _ _ _ _ Hl).
  destruct xs as [|x ys]; [by left|right].
  destruct (exists_last (l := x :: ys)) as (zs & t & E); [done|].
  exists x, t, ys, zs. split; [done|]. split; [done|]. split; [done|].
  rewrite E, last_snoc in *. done.
Qed.

Lemma notin_snoc (ys : list addr) t : NoDup (ys ++ [t]) -> t ∉ ys.
Proof. intros (_ & Hd & _)%NoDup_app Ht. apply (Hd t Ht). set_solver. Qed.

Lemma nodup_snoc (xs : list addr) x : NoDup xs -> x ∉ xs -> NoDup (xs ++ [x]).
Proof.
  intros Hn Hx. apply NoDup_app. split; [done|]. split; [|apply NoDup_singleton].
  intros y Hy ->%list_elem_of_singleton. done.
Qed.

(** The links of the blocks of a list and of one more. *)
Ltac heap_simp :=
  repeat first
    [ rewrite lookup_insert_eq
    | rewrite lookup_insert_ne by (congruence || set_solver) ].

(** The value of a field after an update. *)
Ltac list_simp :=
  unfold count_up, update in *;
  cbn [head_ tail_ nb_elements next previous pool_id data] in *.

(** Executes the reads and writes of blocks whose contents are known. *)
Ltac exec :=
  list_simp;
  repeat first
    [ rewrite res_ok_bind
    | unfold set_next, set_previous;
      erewrite store_ok by (heap_simp; first [eassumption | reflexivity])
    | erewrite load_ok by (heap_simp; first [eassumption | reflexivity]) ];
  list_simp.

(** [relinked] of a heap after writes. *)
Ltac relink :=
  repeat (eapply relinked_insert;
    [|heap_simp; first [eassumption | reflexivity] | set_solver | reflexivity]);
  apply relinked_refl.

(** A block of a list, and the links written there. *)
Ltac at_block := eexists; heap_simp; split; [reflexivity | list_simp; split; done].

(** ** Counting *)

Lemma nb_succ dbl h l xs : is_list dbl h l xs -> zlen xs < 2 ^ 31 - 1 ->
  s32 (nb_elements l + 1) = zlen xs + 1.
Proof.
  intros (_ & _ & ->) H. pose proof (zlen_nonneg xs). apply s32_small. lia.
Qed.

Lemma nb_pred dbl h l xs : is_list dbl h l xs -> xs <> [] -> zlen xs < 2 ^ 31 ->
  s32 (nb_elements l + -1) = zlen xs - 1.
Proof.
  intros (_ & _ & ->) Hne H. destruct xs as [|x ys]; [done|].
  rewrite zlen_cons in *. pose proof (zlen_nonneg ys). rewrite s32_small; lia.
Qed.

(** A list is what its segment, the absence of repetitions and its count say. *)
Lemma is_list_intro dbl h l xs :
  seg dbl h None (head_ l) (tail_ l) None xs -> NoDup xs -> nb_elements l = zlen xs ->
  is_list dbl h l xs.
Proof. done. Qed.


(** ** The segment after an operation

    [t] was the last block, or [y] the first; the other blocks are as before. *)

Lemma seg_grow_tail dbl h h' zs t x p qq b b' :
  seg dbl h None p qq None (zs ++ [t]) ->
  (forall z, z ∈ zs -> h' !! z = h !! z) ->
  h !! t = Some b -> h' !! t = Some (b <| next := Some x |>) ->
  h' !! x = Some b' -> next b' = None -> (dbl = true -> previous b' = Some t) ->
  seg dbl h' None p (Some x) None ((zs ++ [t]) ++ [x]).
Proof.
  intros Hs Hf Hb Ht Hx Hn Hp. apply seg_app. exists (Some t), (Some x). split.
  - eapply seg_set_last; [done..|]. intros ? E. by rewrite Hb in E; simplify_eq.
  - apply seg_one. eauto 10.
Qed.

Lemma seg_grow_head dbl h h' x y ys p qq b b' :
  seg dbl h None p qq None (y :: ys) ->
  (forall z, z ∈ ys -> h' !! z = h !! z) ->
  h' !! y = Some b -> (dbl = true -> previous b = Some x) ->
  (forall b1, h !! y = Some b1 -> next b = next b1) ->
  h' !! x = Some b' -> next b' = Some y -> (dbl = true -> previous b' = None) ->
  seg dbl h' None (Some x) qq None (x :: y :: ys).
Proof.
  intros Hs Hf Hy Hp Hn Hx Hn' Hp'. split; [done|]. exists b'.
  split; [done|]. split; [done|]. rewrite Hn'. by eapply seg_set_first.
Qed.

Lemma seg_join dbl h h' zs t y ys p qq q b b' :
  seg dbl h None p qq None (zs ++ [t]) -> seg dbl h None (Some y) q None (y :: ys) ->
  (forall z, z ∈ zs -> h' !! z = h !! z) -> (forall z, z ∈ ys -> h' !! z = h !! z) ->
  h !! t = Some b -> h' !! t = Some (b <| next := Some y |>) ->
  h' !! y = Some b' -> (dbl = true -> previous b' = Some t) ->
  (forall b1, h !! y = Some b1 -> next b' = next b1) ->
  seg dbl h' None p q None ((zs ++ [t]) ++ y :: ys).
Proof.
  intros Hs1 Hs2 Hf1 Hf2 Hb Ht Hy Hp Hn. apply seg_app. exists (Some t), (Some y). split.
  - eapply seg_set_last; [done..|]. intros ? E. by rewrite Hb in E; simplify_eq.
  - by eapply seg_set_first.
Qed.

(** The rest of a list without its first block [x], whose successor is [y]. *)
Lemma seg_rest dbl h h' x y ys p qq b' :
  seg dbl h None p qq None (x :: y :: ys) ->
  (forall z, z ∈ ys -> h' !! z = h !! z) ->
  h' !! y = Some b' -> (dbl = true -> previous b' = None) ->
  (forall b, h !! y = Some b -> next b' = next b) ->
  seg dbl h' None (Some y) qq None (y :: ys).
Proof.
  intros (_ & b & _ & _ & Hs) Hf Hy Hp Hn. by eapply seg_set_first.
Qed.

Lemma seg_next dbl h x y ys pp p qq qn b :
  seg dbl h pp p qq qn (x :: y :: ys) -> h !! x = Some b -> next b = Some y.
Proof. intros (_ & b' & Hb & _ & E & _) H. by simplify_eq. Qed.

Lemma seg_single dbl h x pp p qq qn b :
  seg dbl h pp p qq qn [x] -> h !! x = Some b -> next b = qn.
Proof. intros (_ & _ & b' & Hb & _ & E)%seg_one H. by simplify_eq. Qed.

(** [x] and [y] cut out of, or [x] between, what remains. *)
Lemma seg_skip dbl h h' xs z x ys pp p qq qn b bx :
  seg dbl h pp p qq qn (xs ++ z :: x :: ys) -> NoDup (xs ++ z :: x :: ys) ->
  (forall a, a ∈ xs -> h' !! a = h !! a) ->
  h !! z = Some b -> h' !! z = Some (b <| next := next bx |>) -> h !! x = Some bx ->
  (dbl = false \/ ys = []) -> (forall a, a ∈ ys -> h' !! a = h !! a) ->
  seg dbl h' pp p (if decide (ys = []) then Some z else qq) qn (xs ++ z :: ys).
Proof.
  intros Hs Hnd Hf Hb Hz Hx Hor Hf'.
  replace (xs ++ z :: x :: ys) with ((xs ++ [z]) ++ x :: ys) in * by (by rewrite <- app_assoc).
  replace (xs ++ z :: ys) with ((xs ++ [z]) ++ ys) by (by rewrite <- app_assoc).
  apply seg_app in Hs as (m & n & Hs1 & (-> & bx' & Hx' & _ & Hs2)). simplify_eq.
  apply seg_app. exists (Some z), (next bx'). split.
  - eapply seg_set_last; [done..|]. intros ? E. by rewrite Hb in E; simplify_eq.
  - destruct ys as [|y ys].
    + destruct Hs2 as [-> _]. done.
    + destruct Hor as [->|]; [|done]. destruct Hs2 as (-> & by' & Hy & _ & Hs2).
      rewrite decide_False by done. split; [done|]. exists by'.
      split; [rewrite Hf' by set_solver; done|]. split; [done|].
      eapply seg_frame; [|done]. intros a Ha. apply Hf'. set_solver.
Qed.

(** ** [list.c] *)

(** Reads the shape of a list into its head and its tail. *)
Ltac shape Hl E :=
  destruct (is_list_cases _ _ _ _ Hl)
    as [(-> & ? & ?)|(?x & ?t & ?ys & ?zs & E & ? & ? & ?)].

Section add.
Variables (h : heap) (l : list_t) (xs : list addr) (x : addr).
Hypothesis Hx : x ∉ xs.
Hypothesis Hz : zlen xs < 2 ^ 31 - 1.

Lemma list_add_tail_ok :
  is_list false h l xs -> is_Some (h !! x) ->
  exists h' l', list_add_tail_eurecom (Some x) h l = Ok (h', l') /\
    is_list false h' l' (xs ++ [x]) /\ relinked (x :: xs) h h'.
Proof.
  intros Hl [b Hb]. pose proof (nb_succ _ _ _ _ Hl Hz) as Hn.
  unfold list_add_tail_eurecom.
  destruct (is_list_cases _ _ _ _ Hl) as [(-> & E1 & E2)|(y & t & ys & zs & E0 & -> & E1 & E2)];
    destruct l as [hd tl nb]; list_simp; subst hd tl.
  - exec. do 2 eexists. split; [done|]. split; [|relink].
    apply is_list_intro; list_simp; [|apply NoDup_singleton|done].
    apply seg_one. split; [done|]. split; [done|]. at_block.
  - destruct (is_list_in _ _ _ _ t Hl) as [bt Hbt]; [set_solver|].
    exec. do 2 eexists. split; [done|]. destruct Hl as (Hs & Hd & _).
    split; [|relink].
    apply is_list_intro; list_simp; [|by apply nodup_snoc|by rewrite Hn, !zlen_app].
    apply notin_snoc in Hd. eapply seg_grow_tail; [done| |done|by heap_simp|by heap_simp|done..].
    intros z Hin. by heap_simp.
Qed.

Lemma list2_add_tail_ok :
  is_list true h l xs -> is_Some (h !! x) ->
  exists h' l', list2_add_tail (Some x) h l = Ok (h', l') /\
    is_list true h' l' (xs ++ [x]) /\ relinked (x :: xs) h h'.
Proof.
  intros Hl [b Hb]. pose proof (nb_succ _ _ _ _ Hl Hz) as Hn.
  unfold list2_add_tail.
  destruct (is_list_cases _ _ _ _ Hl) as [(-> & E1 & E2)|(y & t & ys & zs & E0 & -> & E1 & E2)];
    destruct l as [hd tl nb]; list_simp; subst hd tl.
  - exec. do 2 eexists. split; [done|]. split; [|relink].
    apply is_list_intro; list_simp; [|apply NoDup_singleton|done].
    apply seg_one. split; [done|]. split; [done|]. at_block.
  - destruct (is_list_in _ _ _ _ t Hl) as [bt Hbt]; [set_solver|].
    exec. do 2 eexists. split; [done|]. destruct Hl as (Hs & Hd & _).
    split; [|relink].
    apply is_list_intro; list_simp; [|by apply nodup_snoc|by rewrite Hn, !zlen_app].
    apply notin_snoc in Hd. eapply seg_grow_tail; [done| |done|by heap_simp|by heap_simp|done..].
    intros z Hin. by heap_simp.
Qed.

Lemma list_add_head_ok :
  is_list false h l xs -> detached false h x ->
  exists h' l', list_add_head (Some x) h l = Ok (h', l') /\
    is_list false h' l' (x :: xs) /\ relinked (x :: xs) h h'.
Proof.
  intros Hl (b & Hb & Hbn & _). pose proof (nb_succ _ _ _ _ Hl Hz) as Hn.
  unfold list_add_head.
  destruct (is_list_cases _ _ _ _ Hl) as [(-> & E1 & E2)|(y & t & ys & zs & -> & E0 & E1 & E2)];
    destruct l as [hd tl nb]; list_simp; subst hd tl.
  - do 2 eexists. split; [done|]. split; [|apply relinked_refl].
    apply is_list_intro; list_simp; [|apply NoDup_singleton|done].
    apply seg_one. split_and!; [done..|]. by exists b.
  - destruct (is_list_in _ _ _ _ y Hl) as [bt Hbt]; [set_solver|].
    exec. do 2 eexists. split; [done|]. destruct Hl as (Hs & Hd & _).
    split; [|relink].
    apply is_list_intro; list_simp; [|by constructor|rewrite Hn, (zlen_cons x); lia].
    eapply seg_grow_head; [done| |by heap_simp|done| |by heap_simp|done|done].
    + intros z Hin. by heap_simp.
    + intros b1 ?. by simplify_eq.
Qed.

Lemma list2_add_head_ok :
  is_list true h l xs -> detached true h x ->
  exists h' l', list2_add_head (Some x) h l = Ok (h', l') /\
    is_list true h' l' (x :: xs) /\ relinked (x :: xs) h h'.
Proof.
  intros Hl (b & Hb & Hbn & Hbp). pose proof (nb_succ _ _ _ _ Hl Hz) as Hn.
  unfold list2_add_head.
  destruct (is_list_cases _ _ _ _ Hl) as [(-> & E1 & E2)|(y & t & ys & zs & -> & E0 & E1 & E2)];
    destruct l as [hd tl nb]; list_simp; subst hd tl.
  - do 2 eexists. split; [done|]. split; [|apply relinked_refl].
    apply is_list_intro; list_simp; [|apply NoDup_singleton|done].
    apply seg_one. split_and!; [done..|]. by exists b.
  - destruct (is_list_in _ _ _ _ y Hl) as [bt Hbt]; [set_solver|].
    exec. do 2 eexists. split; [done|]. destruct Hl as (Hs & Hd & _).
    split; [|relink].
    apply is_list_intro; list_simp; [|by constructor|rewrite Hn, (zlen_cons x); lia].
    apply NoDup_cons in Hd as [Hy _].
    eapply seg_grow_head; [done| |by heap_simp|done| |by heap_simp|done|done].
    + intros z Hin. by heap_simp.
    + intros b1 ?. by simplify_eq.
Qed.
End add.

Section remove.
Variables (h : heap) (l : list_t).

Lemma list_remove_head_ok x xs :
  is_list false h l (x :: xs) -> zlen (x :: xs) < 2 ^ 31 ->
  exists h' l', list_remove_head h l = Ok (Some x, h', l') /\
    is_list false h' l' xs /\ detached false h' x /\ relinked [x] h h'.
Proof.
  intros Hl Hz. pose proof (nb_pred _ _ _ _ Hl ltac:(done) Hz) as Hn.
  pose proof (is_list_head _ _ _ _ Hl) as Eh. pose proof (is_list_tail _ _ _ _ Hl) as Et.
  destruct (is_list_in _ _ _ _ x Hl) as [b Hb]; [set_solver|].
  destruct Hl as (Hs & Hd & _). apply NoDup_cons in Hd as [Hx Hd].
  unfold list_remove_head. destruct l as [hd tl nb]; list_simp. rewrite zlen_cons in *.
  rewrite Eh in *. cbn [head] in *. rewrite (load_ok _ _ _ Hb). list_simp. rewrite res_ok_bind.
  destruct xs as [|y ys].
  - list_simp. rewrite (seg_single _ _ _ _ _ _ _ _ Hs Hb). do 2 eexists. split; [done|].
    split; [apply is_list_intro; [done..|]; list_simp; rewrite Hn; done|].
    split; [|apply relinked_refl]. exists b. split; [done|].
    by rewrite (seg_single _ _ _ _ _ _ _ _ Hs Hb).
  - pose proof (seg_next _ _ _ _ _ _ _ _ _ _ Hs Hb) as En. list_simp. rewrite En. exec.
    do 2 eexists. split; [done|]. split; [|split; [at_block|relink]].
    destruct (seg_in _ _ _ _ _ _ _ y Hs) as [b' Hb']; [set_solver|].
    apply is_list_intro; list_simp; [|done|rewrite Hn; lia].
    eapply seg_rest; [done| |by heap_simp|done|].
    + intros z Hin. by heap_simp.
    + intros b1 ?. by simplify_eq.
Qed.

Lemma list2_remove_head_ok x xs :
  is_list true h l (x :: xs) -> zlen (x :: xs) < 2 ^ 31 ->
  exists h' l', list2_remove_head h l = Ok (Some x, h', l') /\
    is_list true h' l' xs /\ detached true h' x /\ relinked (x :: xs) h h'.
Proof.
  intros Hl Hz. pose proof (nb_pred _ _ _ _ Hl ltac:(done) Hz) as Hn.
  pose proof (is_list_head _ _ _ _ Hl) as Eh. pose proof (is_list_tail _ _ _ _ Hl) as Et.
  destruct Hl as (Hs & Hd & _). apply NoDup_cons in Hd as [Hx Hd].
  pose proof Hs as (_ & b & Hb & Hp & _).
  unfold list2_remove_head. destruct l as [hd tl nb]; list_simp. rewrite zlen_cons in *.
  rewrite Eh in *. cbn [head] in *. rewrite (load_ok _ _ _ Hb). list_simp. rewrite res_ok_bind.
  destruct xs as [|y ys].
  - list_simp. rewrite (seg_single _ _ _ _ _ _ _ _ Hs Hb). do 2 eexists. split; [done|].
    split; [apply is_list_intro; [done..|]; list_simp; rewrite Hn; done|].
    split; [|apply relinked_refl]. exists b. split; [done|].
    rewrite (seg_single _ _ _ _ _ _ _ _ Hs Hb). split; auto.
  - pose proof (seg_next _ _ _ _ _ _ _ _ _ _ Hs Hb) as En. list_simp. rewrite En.
    destruct (seg_in _ _ _ _ _ _ _ y Hs) as [b' Hb']; [set_solver|].
    exec. do 2 eexists. split; [done|]. split; [|split; [|relink]].
    2: { eexists. heap_simp. split; [done|]. list_simp. auto. }
    pose proof Hd as [Hy _]%NoDup_cons.
    apply is_list_intro; list_simp; [|done|rewrite Hn; lia].
    eapply seg_rest; [done| |by heap_simp|done|].
    + intros z Hin. by heap_simp.
    + intros b1 ?. by simplify_eq.
Qed.

Lemma list2_remove_tail_ok zs t :
  is_list true h l (zs ++ [t]) -> zlen (zs ++ [t]) < 2 ^ 31 ->
  exists h' l', list2_remove_tail h l = Ok (Some t, h', l') /\
    is_list true h' l' zs /\ detached true h' t /\ relinked (zs ++ [t]) h h'.
Proof.
  intros Hl Hz. pose proof (nb_pred _ _ _ _ Hl (not_eq_sym (app_cons_not_nil zs [] t)) Hz) as Hn.
  pose proof (is_list_head _ _ _ _ Hl) as Eh. pose proof (is_list_tail _ _ _ _ Hl) as Et.
  rewrite last_snoc in Et. destruct Hl as (Hs & Hd & _). pose proof (notin_snoc _ _ Hd) as Ht.
  unfold list2_remove_tail. destruct l as [hd tl nb]; list_simp. rewrite Et, zlen_app in *.
  change (zlen [t]) with 1 in Hn.
  destruct zs as [|z zs _] using rev_ind.
  - cbn in Eh. subst hd. rewrite bool_decide_true by done.
    apply seg_one in Hs as (_ & _ & b & Hb & Hp & Hnx).
    exec. do 2 eexists. split; [done|]. split; [|split; [at_block|relink]].
    apply is_list_intro; [done|constructor|]. list_simp. rewrite Hn. done.
  - pose proof Hs as (m & n & _ & (-> & _ & b & Hb & Hp & Hnx)%seg_one)%seg_app.
    apply seg_app in Hs as (m' & n' & Hs & Hs').
    pose proof (seg_last _ _ _ _ _ _ Hs) as El. rewrite last_snoc in El. subst m'.
    apply seg_one in Hs' as (-> & _ & b' & Hb' & Hp' & _). simplify_eq.
    specialize (Hp' eq_refl).
    destruct (seg_in _ _ _ _ _ _ _ z Hs) as [bz Hbz]; [set_solver|].
    apply NoDup_app in Hd as (Hd & Hdis & _). pose proof (notin_snoc _ _ Hd) as Hz1.
    assert (z <> t) by (intros ->; apply Ht; set_solver).
    rewrite bool_decide_false.
    2: { destruct zs as [|a zs]; cbn; intros [= ->]; [done|]. apply Ht. set_solver. }
    rewrite (load_ok _ _ _ Hb'), res_ok_bind, Hp'. exec.
    do 2 eexists. split; [done|]. split; [|split; [at_block|relink]].
    apply is_list_intro; list_simp; [|done|rewrite Hn, zlen_app; lia].
    eapply seg_set_last; [done| |by heap_simp|done|].
    + intros a Ha. assert (a <> t) by (intros ->; apply Ht; set_solver). by heap_simp.
    + intros b1 ?. by simplify_eq.
Qed.
End remove.

(** ** Removal of an element *)

Lemma list_size dbl h l xs : is_list dbl h l xs -> (length xs <= size h)%nat.
Proof.
  intros Hl. pose proof Hl as (_ & Hd & _).
  rewrite <- (size_list_to_set (C := gset addr)), <- size_dom by done.
  apply subseteq_size. intros x. rewrite elem_of_list_to_set, elem_of_dom.
  by apply (is_list_in _ _ _ _ x Hl).
Qed.

(** The loop finds the block [z] in front of [x] and links it to what follows. *)
Lemma remove_loop_found h l x z bz bx xs ys : forall fuel pp p qq,
  seg false h pp p qq None (xs ++ z :: x :: ys) -> NoDup (xs ++ z :: x :: ys) ->
  (length xs < fuel)%nat -> h !! z = Some bz -> h !! x = Some bx ->
  remove_loop fuel (Some x) p h l =
    Ok (<[z := bz <| next := next bx |>]> h,
        let l := count_up (-1) l in
        if bool_decide (tail_ l = Some x) then l <| tail_ := Some z |> else l).
Proof.
  induction xs as [|a xs IH]; intros fuel pp p qq Hs Hd Hf Hz Hx;
    destruct fuel as [|fuel]; try (cbn in Hf; lia).
  - pose proof (seg_next _ _ _ _ _ _ _ _ _ _ Hs Hz) as En. destruct Hs as (-> & _).
    cbn [remove_loop]. rewrite (load_ok _ _ _ Hz), res_ok_bind, En, bool_decide_true by done.
    by rewrite (load_ok _ _ _ Hx); exec.
  - destruct Hs as (-> & b & Hb & _ & Hs). cbn [remove_loop].
    rewrite (load_ok _ _ _ Hb), res_ok_bind.
    pose proof (seg_head _ _ _ _ _ _ Hs) as En.
    cbn in Hd. apply NoDup_cons in Hd as [_ Hd]. rewrite bool_decide_false.
    + eapply IH; [done|done|cbn in Hf; lia|done|done].
    + rewrite En. apply NoDup_app in Hd as (_ & Hdis & Hd).
      destruct xs as [|c xs]; cbn; intros [= ->].
      * apply NoDup_cons in Hd as [Hd _]. set_solver.
      * apply (Hdis x); set_solver.
Qed.

(** It leaves the list alone when the element is not there. *)
Lemma remove_loop_absent h l x xs : forall fuel pp p qq,
  seg false h pp p qq None xs -> x ∉ xs -> (length xs < fuel)%nat ->
  remove_loop fuel (Some x) p h l = Ok (h, l).
Proof.
  induction xs as [|a xs IH]; intros fuel pp p qq Hs Hx Hf;
    destruct fuel as [|fuel]; try (cbn in Hf; lia).
  - destruct Hs as [-> _]. done.
  - destruct Hs as (-> & b & Hb & _ & Hs). cbn [remove_loop].
    rewrite (load_ok _ _ _ Hb), res_ok_bind.
    rewrite (seg_head _ _ _ _ _ _ Hs), bool_decide_false.
    2: { destruct xs; cbn; [done|]. intros [= ->]. set_solver. }
    rewrite <- (seg_head _ _ _ _ _ _ Hs).
    eapply IH; [done|set_solver|cbn in Hf; lia].
Qed.

Section remove_element.
Variables (h : heap) (l : list_t) (xs ys : list addr) (x : addr).
Hypothesis Hz : zlen (xs ++ x :: ys) < 2 ^ 31.

Lemma list_remove_element_ok :
  is_list false h l (xs ++ x :: ys) ->
  exists h' l', list_remove_element (Some x) h l = Ok (h', l') /\
    is_list false h' l' (xs ++ ys) /\ relinked (xs ++ x :: ys) h h'.
Proof.
  intros Hl. pose proof (list_size _ _ _ _ Hl) as Hsz.
  pose proof (is_list_head _ _ _ _ Hl) as Eh. pose proof (is_list_tail _ _ _ _ Hl) as Et.
  pose proof (nb_pred _ _ _ _ Hl (not_eq_sym (app_cons_not_nil xs ys x)) Hz) as Hn.
  unfold list_remove_element. destruct xs as [|z zs _] using rev_ind.
  - rewrite Eh, bool_decide_true by done.
    destruct (list_remove_head_ok h l x ys Hl Hz) as (h' & l' & -> & ? & ? & Hr).
    exists h', l'. split; [done|]. split; [done|]. eapply relinked_sub; [|done]. set_solver.
  - pose proof Hl as (Hs & Hd & _). rewrite <- !(app_assoc zs [z]) in *. cbn [app] in *.
    destruct (is_list_in _ _ _ _ z Hl) as [bz Hbz]; [set_solver|].
    destruct (is_list_in _ _ _ _ x Hl) as [bx Hbx]; [set_solver|].
    pose proof Hd as (Hd1 & Hdis & Hd2)%NoDup_app.
    rewrite bool_decide_false.
    2: { rewrite Eh. destruct zs as [|c zs]; cbn; intros [= ->]; [|apply (Hdis x); set_solver].
         apply NoDup_cons in Hd2 as [Hd2 _]. set_solver. }
    erewrite remove_loop_found; [|done|done| |done|done].
    2: { rewrite length_app in Hsz. cbn in Hsz. lia. }
    do 2 eexists. split; [done|]. split; [|relink].
    apply NoDup_cons in Hd2 as [Hz1 Hd2].
    assert (Hs' : seg false (<[z:=bz <|next := next bx|>]> h) None (head_ l)
      (if decide (ys = []) then Some z else tail_ l) None (zs ++ z :: ys)).
    { eapply seg_skip; [done|done| |done|by heap_simp|done|by left|].
      - intros a Ha. assert (a <> z) by (intros ->; apply (Hdis z); set_solver). by heap_simp.
      - intros a Ha. assert (a <> z) by (intros ->; set_solver). by heap_simp. }
    rewrite last_app in Et. cbn [last] in Et.
    apply is_list_intro.
    + destruct l as [hd tl nb]; list_simp. rewrite Et in *.
      destruct ys as [|y us]; [rewrite bool_decide_true by done; done|].
      rewrite decide_False in Hs' by done. rewrite bool_decide_false; [done|].
      intros E. apply NoDup_cons in Hd2 as [Hd2 _]. apply Hd2.
      change (last (x :: y :: us)) with (last (y :: us)) in E.
      destruct (last (y :: us)) eqn:El; [|by apply last_None in El].
      apply last_Some_elem_of. congruence.
    + apply NoDup_app. split; [done|]. split; [set_solver|].
      apply NoDup_cons. apply NoDup_cons in Hd2 as [? ?]. split; [set_solver|done].
    + cbv zeta. case_bool_decide; list_simp; rewrite Hn, !zlen_app, !zlen_cons; lia.
Qed.

Lemma list_remove_absent :
  is_list false h l xs -> x ∉ xs -> list_remove_element (Some x) h l = Ok (h, l).
Proof.
  intros Hl Hx. pose proof (list_size _ _ _ _ Hl). unfold list_remove_element.
  rewrite (is_list_head _ _ _ _ Hl), bool_decide_false.
  2: { destruct xs; cbn; [done|]. intros [= ->]. set_solver. }
  rewrite <- (is_list_head _ _ _ _ Hl). destruct Hl as (Hs & _).
  eapply remove_loop_absent; [done|done|lia].
Qed.
End remove_element.

(** Removal at an end of a doubly linked list is removal of its head or tail. *)
Lemma list2_remove_at_head h l x :
  head_ l = Some x ->
  list2_remove_element (Some x) h l = '(_, h, l) ← list2_remove_head h l; Ok (h, l).
Proof.
  intros Eh. unfold list2_remove_element, list2_remove_head. destruct l as [hd tl nb].
  list_simp. subst hd. rewrite bool_decide_true by done.
  destruct (load h (Some x)) as [b|]; [|done]. rewrite !res_ok_bind.
  destruct (next b) as [y|]; [|done].
  destruct (set_previous h (Some y) None) as [h1|]; [|done]. rewrite !res_ok_bind.
  by destruct (set_next h1 (Some x) None).
Qed.

Lemma list2_remove_at_tail h l x :
  head_ l <> Some x -> tail_ l = Some x ->
  list2_remove_element (Some x) h l = '(_, h, l) ← list2_remove_tail h l; Ok (h, l).
Proof.
  intros Eh Et. unfold list2_remove_element, list2_remove_tail. destruct l as [hd tl nb].
  list_simp. subst tl.
  rewrite !(bool_decide_false (hd = Some x)), (bool_decide_false (Some x = hd)) by congruence.
  rewrite bool_decide_true by done.
  destruct (load h (Some x)) as [b|]; [|done]. rewrite !res_ok_bind. list_simp.
  destruct (set_next h (previous b) None) as [h1|]; [|done]. rewrite !res_ok_bind.
  by destruct (set_previous h1 (Some x) None).
Qed.

Section remove_element2.
Variables (h : heap) (l : list_t).

(** In the middle both neighbours are linked to each other. *)
Lemma list2_remove_middle zs z x y us :
  is_list true h l (zs ++ z :: x :: y :: us) -> zlen (zs ++ z :: x :: y :: us) < 2 ^ 31 ->
  exists h' l', list2_remove_element (Some x) h l = Ok (h', l') /\
    is_list true h' l' (zs ++ z :: y :: us) /\ detached true h' x /\
    relinked (zs ++ z :: x :: y :: us) h h'.
Proof.
  intros Hl Hz. pose proof (is_list_head _ _ _ _ Hl) as Eh.
  pose proof (is_list_tail _ _ _ _ Hl) as Et.
  pose proof (nb_pred _ _ _ _ Hl (not_eq_sym (app_cons_not_nil zs _ z)) Hz) as Hn.
  destruct Hl as (Hs & Hd & _). unfold list2_remove_element.
  rewrite last_app in Et. cbn [last] in Et.
  replace (zs ++ z :: x :: y :: us) with ((zs ++ [z]) ++ x :: y :: us) in Hs
    by (by rewrite <- app_assoc).
  apply seg_app in Hs as (m & n & Hs1 & Hs2).
  pose proof (seg_last _ _ _ _ _ _ Hs1) as E. rewrite last_snoc in E. subst m.
  pose proof Hs2 as (-> & bx & Hx & Hpx & Hs3). specialize (Hpx eq_refl).
  pose proof Hs3 as (Hnx & by_ & Hy & Hpy & _).
  destruct (seg_in _ _ _ _ _ _ _ z Hs1) as [bz Hbz]; [set_solver|].
  pose proof Hd as (Hd1 & Hdis & Hd2)%NoDup_app.
  apply NoDup_cons in Hd2 as [Hz1 Hd2]. apply NoDup_cons in Hd2 as [Hx1 Hd2].
  pose proof Hd2 as [Hy1 _]%NoDup_cons.
  assert (z <> x /\ z <> y /\ x <> y) as (Hzx & Hzy & Hxy) by set_solver.
  rewrite (load_ok _ _ _ Hx), res_ok_bind, !bool_decide_false.
  2: { rewrite Et. intros E. destruct (last (y :: us)) eqn:El; [|by apply last_None in El].
       apply Hx1, last_Some_elem_of. cbn in E, El. congruence. }
  2: { rewrite Eh. destruct zs as [|c zs]; cbn; intros [= ->]; [done|].
       apply (Hdis c); set_solver. }
  rewrite Hpx, Hnx. exec. rewrite Hpx, Hnx. exec.
  do 2 eexists. split; [done|]. split; [|split; [at_block|relink]].
  assert (Hzs : forall a, a ∈ zs -> a <> z /\ a <> x /\ a <> y) by set_solver.
  apply is_list_intro; list_simp.
  - replace (zs ++ z :: y :: us) with ((zs ++ [z]) ++ y :: us) by (by rewrite <- app_assoc).
    apply seg_app. exists (Some z), (Some y). split.
    + eapply seg_set_last; [done| |by heap_simp|done|].
      * intros a Ha. destruct (Hzs a Ha) as (? & ? & ?). by heap_simp.
      * intros b1 ?. by simplify_eq.
    + rewrite Hnx in Hs3. eapply (seg_set_first _ h); [done| |by heap_simp|done|].
      * intros a Ha. assert (a <> z /\ a <> x /\ a <> y) as (? & ? & ?) by set_solver.
        by heap_simp.
      * intros b1 ?. by simplify_eq.
  - apply NoDup_app. split; [done|]. split; [set_solver|].
    apply NoDup_cons. split; [set_solver|done].
  - rewrite Hn, !zlen_app, !zlen_cons. lia.
Qed.

Lemma list2_remove_element_ok xs x ys :
  is_list true h l (xs ++ x :: ys) -> zlen (xs ++ x :: ys) < 2 ^ 31 ->
  exists h' l', list2_remove_element (Some x) h l = Ok (h', l') /\
    is_list true h' l' (xs ++ ys) /\ detached true h' x /\ relinked (xs ++ x :: ys) h h'.
Proof.
  intros Hl Hz. pose proof (is_list_head _ _ _ _ Hl) as Eh.
  pose proof (is_list_tail _ _ _ _ Hl) as Et.
  destruct xs as [|z zs _] using rev_ind; [|destruct ys as [|y us]].
  - rewrite list2_remove_at_head by done.
    destruct (list2_remove_head_ok h l x ys Hl Hz) as (h' & l' & -> & ? & ? & ?).
    by exists h', l'.
  - rewrite app_nil_r. rewrite list2_remove_at_tail.
    + destruct (list2_remove_tail_ok h l (zs ++ [z]) x Hl Hz) as (h' & l' & -> & ? & ? & ?).
      by exists h', l'.
    + rewrite Eh. destruct Hl as (_ & Hd & _). apply notin_snoc in Hd.
      destruct zs as [|c zs]; cbn; intros [= ->]; set_solver.
    + by rewrite Et, last_snoc.
  - rewrite <- !(app_assoc zs [z]) in *. by apply list2_remove_middle.
Qed.
End remove_element2.

(** ** Concatenation *)

Section add_list.
Variables (h : heap) (sub l : list_t) (xs ys : list addr).
Hypothesis Hdis : xs ## ys.
Hypothesis Hz : zlen xs + zlen ys < 2 ^ 31.

Lemma nb_join dbl :
  is_list dbl h l xs -> is_list dbl h sub ys ->
  s32 (nb_elements l + nb_elements sub) = zlen (xs ++ ys).
Proof.
  intros (_ & _ & ->) (_ & _ & ->). rewrite zlen_app.
  pose proof (zlen_nonneg xs). pose proof (zlen_nonneg ys). apply s32_small. lia.
Qed.

Lemma nodup_join : NoDup xs -> NoDup ys -> NoDup (xs ++ ys).
Proof. intros. apply NoDup_app. split; [done|]. split; [|done]. intros a Ha Hb. by apply (Hdis a). Qed.

Lemma list_add_list_ok :
  is_list false h l xs -> is_list false h sub ys ->
  exists h' sub' l', list_add_list h sub l = Ok (h', sub', l') /\
    is_list false h' l' (xs ++ ys) /\ is_list false h' sub' [] /\ relinked (xs ++ ys) h h'.
Proof.
  intros Hl Hk. pose proof (nb_join _ Hl Hk) as Hn.
  pose proof Hl as (Hs1 & Hd1 & _). pose proof Hk as (Hs2 & Hd2 & _).
  pose proof (nodup_join Hd1 Hd2) as Hd. unfold list_add_list.
  destruct (is_list_cases _ _ _ _ Hk) as [(-> & E1 & E2)|(y & ? & us & ? & -> & _ & E1 & _)].
  { rewrite E1. do 3 eexists. split; [done|]. rewrite app_nil_r.
    split; [done|]. split; [done|apply relinked_refl]. }
  rewrite E1 in *. assert (Hu : y ∉ xs) by (intros ?; apply (Hdis y); set_solver).
  destruct (is_list_in _ _ _ _ y Hk) as [b Hb]; [set_solver|].
  destruct (is_list_cases _ _ _ _ Hl) as [(-> & E3 & E4)|(? & t & ? & zs & _ & -> & E3 & E4)];
    rewrite E4 in *; destruct l as [hd tl nb]; list_simp.
  - rewrite res_ok_bind. do 3 eexists. split; [done|].
    split; [|split; [apply is_list_nil|apply relinked_refl]]. by apply is_list_intro.
  - destruct (is_list_in _ _ _ _ t Hl) as [bt Hbt]; [set_solver|].
    assert (Hu' : t ∉ y :: us) by (intros ?; apply (Hdis t); set_solver).
    pose proof (notin_snoc _ _ Hd1) as Ht.
    exec. do 3 eexists. split; [done|]. split; [|split; [apply is_list_nil|relink]].
    apply is_list_intro; [|done|done]. list_simp.
    eapply seg_join; [done|done| | |done|by heap_simp|by heap_simp|done|].
    + intros z Hin. by heap_simp.
    + intros z Hin. assert (z <> t) by set_solver. by heap_simp.
    + intros b1 ?. by simplify_eq.
Qed.

(** The first list keeps its count: it is not a well formed list any more. *)
Lemma list2_add_list_ok :
  is_list true h l xs -> is_list true h sub ys ->
  exists h' l', list2_add_list h sub l = Ok (h', List None None (zlen ys), l') /\
    is_list true h' l' (xs ++ ys) /\ relinked (xs ++ ys) h h'.
Proof.
  intros Hl Hk. pose proof (nb_join _ Hl Hk) as Hn.
  pose proof Hl as (Hs1 & Hd1 & _). pose proof Hk as (Hs2 & Hd2 & Hc).
  pose proof (nodup_join Hd1 Hd2) as Hd. unfold list2_add_list.
  destruct (is_list_cases _ _ _ _ Hk) as [(-> & E1 & E2)|(y & ? & us & ? & -> & _ & E1 & _)].
  { rewrite E1, res_ok_bind. destruct sub as [shd stl snb]; list_simp. subst.
    do 2 eexists. split; [done|]. rewrite app_nil_r in *.
    split; [|apply relinked_refl]. by apply is_list_intro; destruct l; list_simp. }
  rewrite E1 in *. assert (Hu : y ∉ xs) by (intros ?; apply (Hdis y); set_solver).
  destruct (is_list_in _ _ _ _ y Hk) as [b Hb]; [set_solver|].
  destruct (is_list_cases _ _ _ _ Hl) as [(-> & E3 & E4)|(? & t & ? & zs & _ & -> & E3 & E4)];
    rewrite E4 in *; destruct l as [hd tl nb], sub as [shd stl snb]; list_simp; subst snb shd.
  - rewrite !res_ok_bind. list_simp. do 2 eexists. split; [done|].
    split; [|apply relinked_refl]. by apply is_list_intro.
  - destruct (is_list_in _ _ _ _ t Hl) as [bt Hbt]; [set_solver|].
    assert (Hu' : t ∉ y :: us) by (intros ?; apply (Hdis t); set_solver).
    pose proof (notin_snoc _ _ Hd1) as Ht. pose proof Hd2 as [Hy _]%NoDup_cons.
    exec. do 2 eexists. split; [done|]. split; [|relink].
    apply is_list_intro; [|done|done]. list_simp.
    eapply seg_join; [done|done| | |done|by heap_simp|by heap_simp|done|].
    + intros z Hin. by heap_simp.
    + intros z Hin. assert (z <> t) by set_solver. by heap_simp.
    + intros b1 ?. by simplify_eq.
Qed.
End add_list.
