(* ===== verification/MemListRuns.v ===== *)
(** Lists of memory blocks: the interface [BlockList] which [list.c] and
    [list2.c] both implement, and runs of operations through it. *)
From S2P Require Import Prelude.
From S2P Require Import MemList.
From S2P Require Import MemListSpec.

Local Open Scope Z_scope.

(** ** The interface *)

(** What the users of a list of blocks rely on, whichever way it is linked. *)
Class BlockList := {
  bl_dbl : bool;
  bl_add_head : ptr -> heap -> list_t -> res (heap * list_t);
  bl_add_tail : ptr -> heap -> list_t -> res (heap * list_t);
  bl_remove_head : heap -> list_t -> res (ptr * heap * list_t);
  bl_remove_element : ptr -> heap -> list_t -> res (heap * list_t);
  bl_add_head_law h l xs x :
    x ∉ xs -> zlen xs < 2 ^ 31 - 1 -> is_list bl_dbl h l xs -> detached bl_dbl h x ->
    exists h' l', bl_add_head (Some x) h l = Ok (h', l') /\
      is_list bl_dbl h' l' (x :: xs) /\ relinked (x :: xs) h h';
  bl_add_tail_law h l xs x :
    x ∉ xs -> zlen xs < 2 ^ 31 - 1 -> is_list bl_dbl h l xs -> is_Some (h !! x) ->
    exists h' l', bl_add_tail (Some x) h l = Ok (h', l') /\
      is_list bl_dbl h' l' (xs ++ [x]) /\ relinked (x :: xs) h h';
  bl_remove_head_law h l x xs :
    is_list bl_dbl h l (x :: xs) -> zlen (x :: xs) < 2 ^ 31 ->
    exists h' l', bl_remove_head h l = Ok (Some x, h', l') /\
      is_list bl_dbl h' l' xs /\ detached bl_dbl h' x /\ relinked (x :: xs) h h';
  bl_remove_head_none h l :
    is_list bl_dbl h l [] -> bl_remove_head h l = Ok (None, h, l);
  bl_remove_law h l xs x ys :
    is_list bl_dbl h l (xs ++ x :: ys) -> zlen (xs ++ x :: ys) < 2 ^ 31 ->
    exists h' l', bl_remove_element (Some x) h l = Ok (h', l') /\
      is_list bl_dbl h' l' (xs ++ ys) /\ relinked (xs ++ x :: ys) h h' /\
      (bl_dbl = true \/ xs = [] -> detached bl_dbl h' x)
}.

#[export] Instance single_list : BlockList.
Proof.
  refine {| bl_dbl := false; bl_add_head := list_add_head;
            bl_add_tail := list_add_tail_eurecom; bl_remove_head := list_remove_head;
            bl_remove_element := list_remove_element |}.
  - intros. by apply list_add_head_ok.
  - intros. by apply list_add_tail_ok.
  - intros h l x xs Hl Hz. destruct (list_remove_head_ok h l x xs Hl Hz)
      as (h' & l' & -> & ? & ? & ?). exists h', l'. split_and!; [done..|].
    eapply relinked_sub; [|done]. set_solver.
  - intros h l Hl. unfold list_remove_head. by rewrite (is_list_head _ _ _ _ Hl).
  - intros h l xs x ys Hl Hz. destruct (list_remove_element_ok h l xs ys x Hz Hl)
      as (h' & l' & E & ? & ?). exists h', l'. split_and!; [done..|].
    intros [?| ->]; [done|]. cbn in Hl, Hz, E.
    destruct (list_remove_head_ok h l x ys Hl Hz) as (h1 & l1 & E1 & _ & ? & _).
    unfold list_remove_element in E.
    rewrite (is_list_head _ _ _ _ Hl), bool_decide_true, E1 in E by done.
    apply Ok_inj in E. by simplify_eq.
Defined.

#[export] Instance double_list : BlockList.
Proof.
  refine {| bl_dbl := true; bl_add_head := list2_add_head; bl_add_tail := list2_add_tail;
            bl_remove_head := list2_remove_head;
            bl_remove_element := list2_remove_element |}.
  - intros. by apply list2_add_head_ok.
  - intros. by apply list2_add_tail_ok.
  - intros. by apply list2_remove_head_ok.
  - intros h l Hl. unfold list2_remove_head. by rewrite (is_list_head _ _ _ _ Hl).
  - intros h l xs x ys Hl Hz. destruct (list2_remove_element_ok h l xs x ys Hl Hz)
      as (h' & l' & ? & ? & ? & ?). by exists h', l'.
Defined.

(** ** Runs of operations *)

Inductive list_op :=
| AddHead (x : addr)
| AddTail (x : addr)
| RemoveHead
| RemoveElement (x : addr).

(** What stands for a list: its sequence, and the blocks known to be detached. *)
Abbreviation view := (list addr * gset addr)%type.

(** The result, and the new sequence; no result where the operation is used
    against its contract. *)
Definition spec_step (dbl : bool) (blocks : gset addr) (op : list_op) (v : view)
    : option (ptr * view) :=
  let '(xs, free) := v in
  match op with
  | AddHead x =>
      if decide (x ∈ free) then Some (None, (x :: xs, free ∖ {[x]})) else None
  | AddTail x =>
      if decide (x ∈ blocks /\ (x ∉ xs)) then Some (None, (xs ++ [x], free ∖ {[x]})) else None
  | RemoveHead =>
      match xs with
      | [] => Some (None, v)
      | x :: xs => Some (Some x, (xs, {[x]} ∪ free))
      end
  | RemoveElement x =>
      match list_find (x =.) xs with
      | Some (i, _) =>
          Some (None, (take i xs ++ drop (S i) xs,
                       if dbl || bool_decide (i = O) then {[x]} ∪ free else free))
      | None => None
      end
  end.

Fixpoint spec_run (dbl : bool) (blocks : gset addr) (ops : list list_op) (v : view)
    : option (list ptr * view) :=
  match ops with
  | [] => Some ([], v)
  | op :: ops =>
      '(p, v) ← spec_step dbl blocks op v;
      '(ps, v) ← spec_run dbl blocks ops v;
      Some (p :: ps, v)
  end.

Section runs.
Context {BL : BlockList}.

Definition code_step (op : list_op) (h : heap) (l : list_t) : res (ptr * heap * list_t) :=
  match op with
  | AddHead x => '(h, l) ← bl_add_head (Some x) h l; Ok (None, h, l)
  | AddTail x => '(h, l) ← bl_add_tail (Some x) h l; Ok (None, h, l)
  | RemoveHead => bl_remove_head h l
  | RemoveElement x => '(h, l) ← bl_remove_element (Some x) h l; Ok (None, h, l)
  end.

Fixpoint code_run (ops : list list_op) (h : heap) (l : list_t)
    : res (list ptr * heap * list_t) :=
  match ops with
  | [] => Ok ([], h, l)
  | op :: ops =>
      '(p, h, l) ← code_step op h l;
      '(ps, h, l) ← code_run ops h l;
      Ok (p :: ps, h, l)
  end.

Definition view_ok (h : heap) (l : list_t) (v : view) : Prop :=
  is_list bl_dbl h l v.1 /\ forall x, x ∈ v.2 -> (x ∉ v.1) /\ detached bl_dbl h x.

(** The heap has the blocks it had, and they hold what they held. *)
Definition same_blocks (h h' : heap) : Prop :=
  forall y, payload <$> h' !! y = payload <$> h !! y.

Lemma same_dom h h' : same_blocks h h' -> dom h' = dom h.
Proof.
  intros H. apply set_eq. intros x. rewrite !elem_of_dom, <- !(fmap_is_Some payload).
  by rewrite H.
Qed.

Lemma detached_frame dbl h h' x xs :
  relinked xs h h' -> x ∉ xs -> detached dbl h x -> detached dbl h' x.
Proof. intros Hr Hx (b & Hb & ?). exists b. by rewrite (relinked_frame _ _ _ _ Hr Hx). Qed.

Lemma view_length h l v :
  view_ok h l v -> Z.of_nat (size h) < 2 ^ 31 - 1 -> zlen v.1 < 2 ^ 31 - 1.
Proof. intros [Hl _] Hs. pose proof (list_size _ _ _ _ Hl). unfold zlen. lia. Qed.

Lemma find_split (x : addr) xs i y :
  list_find (x =.) xs = Some (i, y) -> xs = take i xs ++ x :: drop (S i) xs.
Proof.
  intros (Hi & <- & _)%list_find_Some. by rewrite take_drop_middle.
Qed.

Lemma view_step op h l v p v' :
  view_ok h l v -> Z.of_nat (size h) < 2 ^ 31 - 1 ->
  spec_step bl_dbl (dom h) op v = Some (p, v') ->
  exists h' l', code_step op h l = Ok (p, h', l') /\ view_ok h' l' v' /\ same_blocks h h'.
Proof.
  intros Hv Hs Hstep. pose proof (view_length _ _ _ Hv Hs) as Hz.
  destruct v as [xs free], Hv as [Hl Hf]. cbn in Hl, Hf, Hz.
  destruct op as [x|x| |x]; cbn in Hstep |- *.
  - case_decide as Hx; [|done]. simplify_eq. destruct (Hf x Hx) as [Hn Hd].
    destruct (bl_add_head_law h l xs x Hn Hz Hl Hd) as (h' & l' & -> & Hl' & Hr).
    exists h', l'. split; [done|]. split; [|exact (proj2 Hr)]. split; [done|].
    intros y Hy. cbn in *. destruct (Hf y) as [? ?]; [set_solver|].
    split; [set_solver|]. eapply detached_frame; [done|set_solver|done].
  - case_decide as Hx; [|done]. simplify_eq. destruct Hx as [Hb%elem_of_dom Hn].
    destruct (bl_add_tail_law h l xs x Hn Hz Hl Hb) as (h' & l' & -> & Hl' & Hr).
    exists h', l'. split; [done|]. split; [|exact (proj2 Hr)]. split; [done|].
    intros y Hy. cbn in *. destruct (Hf y) as [? ?]; [set_solver|].
    split; [set_solver|]. eapply detached_frame; [done|set_solver|done].
  - destruct xs as [|x xs]; simplify_eq.
    { exists h, l. rewrite bl_remove_head_none by done. done. }
    destruct (bl_remove_head_law h l x xs Hl) as (h' & l' & -> & Hl' & Hd & Hr); [lia|].
    exists h', l'. split; [done|]. split; [|exact (proj2 Hr)]. split; [done|]. cbn.
    pose proof Hl as (_ & [Hx _]%NoDup_cons & _).
    intros y [Hy%elem_of_singleton|Hy]%elem_of_union; [subst y; done|].
    destruct (Hf y Hy) as [Hn ?]. split; [set_solver|]. by eapply detached_frame.
  - destruct (list_find (x =.) xs) as [[i y]|] eqn:E; [|done]. simplify_eq.
    apply find_split in E. rewrite E in Hl, Hz.
    destruct (bl_remove_law h l _ x _ Hl) as (h' & l' & -> & Hl' & Hr & Hd); [lia|].
    exists h', l'. split; [done|]. split; [|exact (proj2 Hr)]. split; [done|]. cbn.
    assert (Hsub : forall y, y ∉ xs -> y ∉ take i xs ++ drop (S i) xs).
    { intros z Hz'. rewrite E in Hz'. set_solver. }
    assert (Hold : forall y, y ∈ free ->
      (y ∉ take i xs ++ drop (S i) xs) /\ detached bl_dbl h' y).
    { intros z Hz'. destruct (Hf z Hz') as [Hn ?]. split; [by apply Hsub|].
      eapply detached_frame; [done| |done]. by rewrite <- E. }
    assert (Hx : x ∉ take i xs ++ drop (S i) xs).
    { destruct Hl as (_ & (_ & Hd1 & [Hd2 _]%NoDup_cons)%NoDup_app & _).
      intros [Hi|Hi]%elem_of_app; [|done]. apply (Hd1 x Hi). set_solver. }
    destruct (bl_dbl || bool_decide (i = O)) eqn:Hb; [|done].
    intros z [Hz0%elem_of_singleton|Hz0]%elem_of_union; [subst z|by auto]. split; [done|].
    apply Hd. apply orb_prop in Hb as [Hb|Hb]; [by left|right; by apply bool_decide_eq_true in Hb as ->].
Qed.

Lemma same_blocks_trans h1 h2 h3 : same_blocks h1 h2 -> same_blocks h2 h3 -> same_blocks h1 h3.
Proof. intros H1 H2 y. by rewrite H2. Qed.

Lemma runs_refine ops : forall h l v ps v',
  view_ok h l v -> Z.of_nat (size h) < 2 ^ 31 - 1 ->
  spec_run bl_dbl (dom h) ops v = Some (ps, v') ->
  exists h' l', code_run ops h l = Ok (ps, h', l') /\ view_ok h' l' v' /\ same_blocks h h'.
Proof.
  induction ops as [|op ops IH]; intros h l v ps v' Hv Hs Hr; cbn in Hr |- *.
  - simplify_eq. by exists h, l.
  - apply bind_Some in Hr as ([p v1] & H1 & Hr). apply bind_Some in Hr as ([ps1 v2] & H2 & ?).
    simplify_eq. destruct (view_step _ _ _ _ _ _ Hv Hs H1) as (h1 & l1 & -> & Hv1 & Hb).
    pose proof (same_dom _ _ Hb) as Ed. rewrite <- Ed in H2.
    destruct (IH h1 l1 v1 ps1 v' Hv1) as (h2 & l2 & E & ? & ?); [|done|].
    + by rewrite <- size_dom, Ed, size_dom.
    + exists h2, l2. rewrite res_ok_bind. cbn. rewrite E. split_and!; [done..|].
      by eapply same_blocks_trans.
Qed.

(** C14.  Lists of memory blocks are sequences.  Any run of additions at either
    end and of removals, used within its contract (a block is added once, at the
    head only when its links are clear, and removed only when there), on either
    kind of list, returns what the run on sequences returns, leaves a well
    linked list which stands for the resulting sequence, and changes nothing of
    the blocks but their links. *)
Theorem list_runs_refine h l xs free ops ps v' :
  is_list bl_dbl h l xs ->
  (forall x, x ∈ free -> (x ∉ xs) /\ detached bl_dbl h x) ->
  Z.of_nat (size h) < 2 ^ 31 - 1 ->
  spec_run bl_dbl (dom h) ops (xs, free) = Some (ps, v') ->
  exists h' l', code_run ops h l = Ok (ps, h', l') /\
    is_list bl_dbl h' l' v'.1 /\
    (forall x, x ∈ v'.2 -> (x ∉ v'.1) /\ detached bl_dbl h' x) /\
    (forall y, payload <$> h' !! y = payload <$> h !! y).
Proof.
  intros Hl Hf Hs Hr.
  destruct (runs_refine ops h l (xs, free) ps v') as (h' & l' & ? & [? ?] & ?); [done..|].
  by exists h', l'.
Qed.
End runs.
