(* ===== verification/MemBlock.v ===== *)
(** The memory manager ([mem_block.c], [mem_block.h]): fourteen pools of blocks
    of fixed sizes, each a list of its free blocks.  What the blocks contain is
    not modelled; traces and the checks of the debugging build are left out. *)
From S2P Require Import Prelude.
From S2P Require Import MemList.

Local Open Scope Z_scope.

Definition MEM_MNGT_MB0_BLOCK_SIZE : Z := 64.
Definition MEM_MNGT_MB12_BLOCK_SIZE : Z := 64 * 4096.
Definition MEM_MNGT_POOL_ID_COPY : Z := 13.

(** The size of the blocks of a pool, [MEM_MNGT_MBi_BLOCK_SIZE]. *)
Definition block_size (pool : Z) : Z := MEM_MNGT_MB0_BLOCK_SIZE * 2 ^ pool.

(** [MEM_MNGT_MBi_NB_BLOCKS] for a value of [MEM_SCALE], with or without
    [JUMBO_FRAMES]. *)
Definition pool_sizes (MEM_SCALE : nat) (jumbo : bool) : list nat :=
  [4096 * MEM_SCALE; 4096 * MEM_SCALE; 2048 * MEM_SCALE; 2048 * MEM_SCALE;
   1024 * MEM_SCALE; 1024 * MEM_SCALE; 1024 * MEM_SCALE; 64 * MEM_SCALE;
   (if jumbo then 256 else 16) * MEM_SCALE; 8 * MEM_SCALE; 0 * MEM_SCALE;
   0 * MEM_SCALE; 32 * MEM_SCALE; 1024]%nat.

(** [mem_pool]: [mem_blocks] and [mem_lists]. *)
Record mem_pool := MemPool {
  mem_blocks : heap;
  mem_lists : list list_t
}.
#[export] Instance mem_pool_eta : Eta mem_pool := fun m =>
  MemPool (mem_blocks m) (mem_lists m).

(** [&memory->mem_blocks[i]]. *)
Definition block_addr (i : nat) : addr := Pos.of_succ_nat i.

(** ** [pool_buffer_init] *)

(** The inner loop for a pool, from [index] on, [n] turns. *)
Fixpoint init_pool (n : nat) (pool_index : Z) (mb_index index : nat) (h : heap)
    (l : list_t) : res (heap * list_t) :=
  match n with
  | O => Ok (h, l)
  | S n =>
      let a := block_addr (mb_index + index) in
      let data := if pool_index <? MEM_MNGT_POOL_ID_COPY
                  then Some (pool_index, Z.of_nat index) else None in
      let h := <[a := MemBlock None None pool_index data]> h in
      '(h, l) ← list_add_tail_eurecom (Some a) h l;
      init_pool n pool_index mb_index (S index) h l
  end.

Fixpoint init_pools (sizes : list nat) (pool_index : Z) (mb_index : nat) (h : heap)
    : res (heap * list list_t) :=
  match sizes with
  | [] => Ok (h, [])
  | n :: sizes =>
      '(h, l) ← init_pool n pool_index mb_index 0 h list_init;
      '(h, ls) ← init_pools sizes (pool_index + 1) (mb_index + n) h;
      Ok (h, l :: ls)
  end.

Definition pool_buffer_init (sizes : list nat) : res mem_pool :=
  '(h, ls) ← init_pools sizes 0 0 ∅;
  Ok (MemPool h ls).

(** ** Release *)

Definition free_mem_block (leP : ptr) (m : mem_pool) : res mem_pool :=
  match leP with
  | None => Ok m
  | Some _ =>
      b ← load (mem_blocks m) leP;
      if pool_id b <=? MEM_MNGT_POOL_ID_COPY then
        l ← rd (mem_lists m) (pool_id b);
        '(h, l) ← list_add_tail_eurecom leP (mem_blocks m) l;
        ls ← wr (mem_lists m) (pool_id b) [l];
        Ok (MemPool h ls)
      else Ok m
  end.

(** ** Allocation *)

(** [while ((size)) { pool_selected += 1; size = size >> 1; }]. *)
Fixpoint select_pool (fuel : nat) (size pool_selected : Z) : res Z :=
  match fuel with
  | O => Err EFuel
  | S fuel =>
      if size =? 0 then Ok pool_selected
      else select_pool fuel (Z.shiftr size 1) (pool_selected + 1)
  end.

Section allocation.
(** [macphy_exit] of one target sets a flag and comes back, of the others it
    ends the process. *)
Variable exit_returns : bool.

Definition no_block (m : mem_pool) : res (ptr * mem_pool) :=
  _ ← res_guard exit_returns EAssert; Ok (None, m).

(** The [do ... while] loop: a pool after the other, up to pool 12. *)
Fixpoint try_pools (fuel : nat) (pool_selected : Z) (m : mem_pool)
    : res (ptr * mem_pool) :=
  match fuel with
  | O => Err EFuel
  | S fuel =>
      l ← rd (mem_lists m) pool_selected;
      '(le, h, l) ← list_remove_head (mem_blocks m) l;
      ls ← wr (mem_lists m) pool_selected [l];
      let m := MemPool h ls in
      match le with
      | Some _ => Ok (le, m)
      | None =>
          if pool_selected <? 12 then try_pools fuel (pool_selected + 1) m
          else no_block m
      end
  end.

Definition get_free_mem_block (sizeP : Z) (m : mem_pool) : res (ptr * mem_pool) :=
  let sizeP := u16 sizeP in
  if MEM_MNGT_MB12_BLOCK_SIZE <? sizeP then no_block m
  else
    pool_selected ← select_pool 32 (Z.shiftr sizeP 6) 0;
    try_pools 13 pool_selected m.

Definition get_free_copy_mem_block (m : mem_pool) : res (ptr * mem_pool) :=
  l ← rd (mem_lists m) MEM_MNGT_POOL_ID_COPY;
  '(le, h, l) ← list_remove_head (mem_blocks m) l;
  ls ← wr (mem_lists m) MEM_MNGT_POOL_ID_COPY [l];
  let m := MemPool h ls in
  match le with
  | Some _ => Ok (le, m)
  | None => no_block m
  end.

Definition copy_mem_block (leP destP : ptr) (h : heap) : res heap :=
  match destP, leP with
  | Some _, Some _ =>
      d ← load h destP;
      if pool_id d =? MEM_MNGT_POOL_ID_COPY then
        b ← load h leP; store h destP (fun d => d <| data := data b |>)
      else Ok h
  | _, _ => Ok h
  end.

(** ** [list_free] of [list.c] and [list2_free] of [list2.c]

    The list is emptied; there are at most as many turns as blocks. *)
Section free.
Variable remove_head : heap -> list_t -> res (ptr * heap * list_t).

Fixpoint free_loop (fuel : nat) (m : mem_pool) (l : list_t) : res (mem_pool * list_t) :=
  match fuel with
  | O => Err EFuel
  | S fuel =>
      '(le, h, l) ← remove_head (mem_blocks m) l;
      let m := m <| mem_blocks := h |> in
      match le with
      | None => Ok (m, l)
      | Some _ => m ← free_mem_block le m; free_loop fuel m l
      end
  end.
End free.

Definition list_free (m : mem_pool) (l : list_t) : res (mem_pool * list_t) :=
  free_loop list_remove_head (S (size (mem_blocks m))) m l.
Definition list2_free (m : mem_pool) (l : list_t) : res (mem_pool * list_t) :=
  free_loop list2_remove_head (S (size (mem_blocks m))) m l.
End allocation.
