(* ===== verification/MemBlockSpec.v ===== *)
(** The memory manager: what it promises.  A block is handed out to one user at
    a time, is large enough, and none is ever lost. *)
From S2P Require Import Prelude.
From S2P Require Import MemList.
From S2P Require Import MemListSpec.
From S2P Require Import MemBlock.

Local Open Scope Z_scope.

(** ** Memory and its free blocks *)

(** The list [l] holds the free blocks [xs] of pool [p]. *)
Definition pool (h : heap) (p : Z) (l : list_t) (xs : list addr) : Prop :=
  is_list false h l xs /\
  forall x, x ∈ xs -> exists b, h !! x = Some b /\ pool_id b = p.

(** The same for the pools from [p] on. *)
Fixpoint pools (h : heap) (p : Z) (ls : list list_t) (fl : list (list addr)) : Prop :=
  match ls, fl with
  | [], [] => True
  | l :: ls, xs :: fl => pool h p l xs /\ pools h (p + 1) ls fl
  | _, _ => False
  end.

(** Memory whose free blocks are [fl]. *)
Definition mem_ok (m : mem_pool) (fl : list (list addr)) : Prop :=
  length fl = 14%nat /\ pools (mem_blocks m) 0 (mem_lists m) fl /\ NoDup (concat fl).

Lemma pool_frame h h' p l xs ys :
  relinked ys h h' -> xs ## ys -> pool h p l xs -> pool h' p l xs.
Proof.
  intros Hr Hd [Hl Hp]. split; [by eapply is_list_relinked|].
  intros x Hx. destruct (Hp x Hx) as (b & Hb & ?). exists b.
  by rewrite (relinked_frame _ _ _ _ Hr (Hd x Hx)).
Qed.

Lemma pools_frame h h' ys ls : forall p fl,
  relinked ys h h' -> concat fl ## ys -> pools h p ls fl -> pools h' p ls fl.
Proof.
  induction ls as [|l ls IH]; intros p [|xs fl] Hr Hd Hp; [done..|].
  destruct Hp as [Hp Hps]. cbn in Hd. split.
  - eapply pool_frame; [done|set_solver|done].
  - eapply IH; [done|set_solver|done].
Qed.

Lemma pools_app h la : forall p lb fa fb, length la = length fa ->
  pools h p (la ++ lb) (fa ++ fb) <-> pools h p la fa /\ pools h (p + zlen fa) lb fb.
Proof.
  induction la as [|l la IH]; intros p lb [|xs fa] fb Hlen; try done; cbn [app pools].
  - rewrite zlen_nil, Z.add_0_r. tauto.
  - rewrite IH by (cbn in Hlen; lia). rewrite zlen_cons, Z.add_assoc. tauto.
Qed.

Lemma pools_length h ls : forall p fl, pools h p ls fl -> length ls = length fl.
Proof.
  induction ls as [|l ls IH]; intros p [|xs fl] H; try done. destruct H as [_ H].
  cbn. f_equal. by eapply IH.
Qed.

(** Pool [p] as a part of the memory. *)
Lemma mem_split m fl p :
  mem_ok m fl -> 0 <= p < 14 ->
  exists la l lb fa xs fb, mem_lists m = la ++ l :: lb /\ fl = fa ++ xs :: fb /\
    zlen la = p /\ length la = length fa /\ pool (mem_blocks m) p l xs.
Proof.
  intros (H14 & Hp & _) Hr. pose proof (pools_length _ _ _ _ Hp) as Hlen.
  destruct (list_split fl p) as (fa & fb & -> & Ha); [unfold zlen; lia|].
  destruct (list_split (mem_lists m) p) as (la & lb & E & Hb); [unfold zlen; lia|].
  rewrite E in *. assert (Hl : length la = length fa) by (unfold zlen in *; lia).
  apply pools_app in Hp as [_ Hp]; [|done].
  destruct fb as [|xs fb]; [rewrite app_nil_r in H14; unfold zlen in *; lia|].
  destruct lb as [|l lb]; [done|]. destruct Hp as [Hp _]. rewrite Z.add_0_l, Ha in Hp.
  by exists la, l, lb, fa, xs, fb.
Qed.

(** A pool replaced, the links of the blocks of [ys] changed. *)
Lemma mem_replace m h' la l lb fa xs fb l' xs' ys :
  mem_ok m (fa ++ xs :: fb) -> mem_lists m = la ++ l :: lb -> length la = length fa ->
  relinked ys (mem_blocks m) h' -> concat (fa ++ fb) ## ys ->
  pool h' (zlen la) l' xs' -> NoDup (concat (fa ++ xs' :: fb)) ->
  mem_ok (MemPool h' (la ++ l' :: lb)) (fa ++ xs' :: fb).
Proof.
  intros (H14 & Hp & _) E Hlen Hr Hd Hx Hnd. rewrite E in Hp.
  rewrite concat_app in Hd. apply pools_app in Hp as [Ha [_ Hb]]; [|done].
  split; [rewrite length_app in *; cbn in *; lia|]. split; [|done].
  apply pools_app; [done|]. assert (Hz : zlen fa = zlen la) by (unfold zlen; lia).
  split; [|split]; cbn [mem_blocks].
  - eapply pools_frame; [done|set_solver|done].
  - rewrite Hz, Z.add_0_l. done.
  - eapply pools_frame; [done|set_solver|done].
Qed.

Lemma concat_mid (fa fb : list (list addr)) xs :
  concat (fa ++ xs :: fb) ≡ₚ xs ++ concat (fa ++ fb).
Proof. rewrite !concat_app. cbn. by rewrite Permutation_app_swap_app. Qed.

(** Reads and writes pool [zlen la] of the lists. *)
Lemma rd_pool (la : list list_t) l lb p : zlen la = p -> rd (la ++ l :: lb) p = Ok l.
Proof. intros <-. apply rd_app_here. Qed.

Lemma wr_pool (la : list list_t) l l' lb p :
  zlen la = p -> wr (la ++ l :: lb) p [l'] = Ok (la ++ l' :: lb).
Proof. intros <-. by apply (wr_app la [l] lb [l']). Qed.

(** ** One release *)

Lemma free_ok m fl x b :
  mem_ok m fl -> mem_blocks m !! x = Some b -> 0 <= pool_id b <= 13 -> x ∉ concat fl ->
  Z.of_nat (size (mem_blocks m)) < 2 ^ 31 ->
  exists m' fl', free_mem_block (Some x) m = Ok m' /\ mem_ok m' fl' /\
    concat fl' ≡ₚ x :: concat fl /\
    (forall y, payload <$> mem_blocks m' !! y = payload <$> mem_blocks m !! y).
Proof.
  intros Hm Hb Hid Hx Hs. unfold free_mem_block.
  rewrite (load_ok _ _ _ Hb), res_ok_bind, (proj2 (Z.leb_le _ _)) by (unfold MEM_MNGT_POOL_ID_COPY; lia).
  destruct (mem_split m fl (pool_id b) Hm) as (la & l & lb & fa & xs & fb & E & -> & Hp & Hlen & Hl & Hpl);
    [lia|].
  rewrite concat_mid in Hx.
  assert (Hxs : x ∉ xs) by set_solver.
  pose proof (list_size _ _ _ _ Hl) as Hsz.
  assert (Hz : zlen xs < 2 ^ 31 - 1).
  { pose proof Hl as (_ & Hnd & _). pose proof (nodup_snoc _ _ Hnd Hxs) as Hnd'.
    assert (Hsub : list_to_set (xs ++ [x]) ⊆ (dom (mem_blocks m) : gset addr)).
    { intros y. rewrite elem_of_list_to_set, elem_of_dom, elem_of_app, list_elem_of_singleton.
      intros [?| ->]; [by eapply is_list_in|done]. }
    apply subseteq_size in Hsub. rewrite size_list_to_set, size_dom, length_app in Hsub by done.
    cbn in Hsub. unfold zlen. lia. }
  rewrite E, (rd_pool _ _ _ _ Hp), res_ok_bind.
  destruct (list_add_tail_ok _ l xs x Hxs Hz Hl) as (h' & l' & -> & Hl' & Hr); [done|].
  rewrite res_ok_bind, (wr_pool _ _ _ _ _ Hp), res_ok_bind.
  exists (MemPool h' (la ++ l' :: lb)), (fa ++ (xs ++ [x]) :: fb).
  pose proof Hm as (_ & _ & Hnd). rewrite concat_mid in Hnd.
  pose proof Hnd as (_ & Hdis & _)%NoDup_app.
  split; [done|]. split; [|split; [|exact (proj2 Hr)]].
  - eapply mem_replace; [done|done|done|done| | |].
    + intros y Hy [->|Hy']%elem_of_cons; [set_solver|]. by apply (Hdis y).
    + split; [done|]. intros y Hy. pose proof (proj2 Hr y) as Hpy.
      assert (exists b0, mem_blocks m !! y = Some b0 /\ pool_id b0 = zlen la) as (b0 & Hb0 & Hi).
      { apply elem_of_app in Hy as [Hy| ->%list_elem_of_singleton].
        - rewrite Hp. by apply Hpl.
        - by exists b. }
      rewrite Hb0 in Hpy. destruct (h' !! y) as [b1|]; [|done].
      exists b1. split; [done|]. rewrite <- Hi. by injection Hpy.
    + rewrite concat_mid, <- app_assoc. cbn. rewrite <- Permutation_middle.
      by apply NoDup_cons.
  - rewrite !concat_mid, <- app_assoc. cbn. by rewrite <- Permutation_middle.
Qed.

(** ** One allocation *)

(** The pool selected is the smallest whose blocks are larger than [64 * size]. *)
Lemma select_pool_ok fuel : forall size p,
  0 <= size < 2 ^ Z.of_nat fuel ->
  exists k, select_pool (S fuel) size p = Ok (p + k) /\ 0 <= k /\
    size < 2 ^ k /\ (forall j, 0 <= j < k -> 2 ^ j <= size).
Proof.
  induction fuel as [|fuel IH]; intros size p Hs.
  - assert (size = 0) as -> by (cbn in Hs; lia). exists 0. cbn.
    split; [f_equal; lia|]. split; [lia|]. split; [lia|]. intros; lia.
  - cbn [select_pool]. destruct (Z.eqb_spec size 0) as [->|Hn].
    { exists 0. split; [f_equal; lia|]. split; [lia|]. split; [lia|]. intros; lia. }
    rewrite Z.shiftr_div_pow2 by lia. change (2 ^ 1) with 2.
    destruct (IH (size / 2) (p + 1)) as (k & E & Hk & Hlt & Hle).
    { rewrite Nat2Z.inj_succ, Z.pow_succ_r in Hs by lia. split; [div_lia|].
      apply Z.div_lt_upper_bound; lia. }
    exists (k + 1). cbn [select_pool] in E. rewrite E. split; [f_equal; lia|].
    split; [lia|]. split.
    + rewrite Z.pow_add_r by lia. change (2 ^ 1) with 2. div_lia.
    + intros j Hj. destruct (Z.eq_dec j 0) as [->|]; [cbn; lia|].
      specialize (Hle (j - 1) ltac:(lia)).
      replace j with (j - 1 + 1) by lia. rewrite Z.pow_add_r by lia.
      change (2 ^ 1) with 2. div_lia.
Qed.

(** No block is free in the pools from [p] to [q - 1]. *)
Definition exhausted (fl : list (list addr)) (p q : Z) : Prop :=
  forall i, p <= i < q -> fl !! Z.to_nat i = Some [].

Lemma exhausted_step fl p q :
  fl !! Z.to_nat p = Some [] -> exhausted fl (p + 1) q -> exhausted fl p q.
Proof.
  intros Hp He i Hi. destruct (Z.eq_dec i p) as [->|]; [done|]. apply He. lia.
Qed.

(** [x] is taken out of pool [q], the first from [p] on with a free block. *)
Definition takes (m m' : mem_pool) (fl fl' : list (list addr)) (p q : Z) (x : addr) : Prop :=
  p <= q <= 12 /\ exhausted fl p q /\
  (exists fa xs fb, fl = fa ++ (x :: xs) :: fb /\ fl' = fa ++ xs :: fb /\ zlen fa = q) /\
  mem_ok m' fl' /\ concat fl ≡ₚ x :: concat fl' /\
  (exists b, mem_blocks m !! x = Some b /\ pool_id b = q) /\
  (forall y, payload <$> mem_blocks m' !! y = payload <$> mem_blocks m !! y).

Section allocation.
Variable exit_returns : bool.

Lemma try_pools_ok fuel : forall m fl p,
  mem_ok m fl -> Z.of_nat (size (mem_blocks m)) < 2 ^ 31 ->
  0 <= p <= 12 -> 13 - p <= Z.of_nat fuel ->
  (exists q x m' fl', try_pools exit_returns fuel p m = Ok (Some x, m') /\
     takes m m' fl fl' p q x)
  \/ (exhausted fl p 13 /\ try_pools exit_returns fuel p m = no_block exit_returns m).
Proof.
  induction fuel as [|fuel IH]; intros m fl p Hm Hs Hp Hf; [lia|].
  destruct (mem_split m fl p Hm) as (la & l & lb & fa & xs & fb & E & -> & Hz & Hlen & Hl & Hpl);
    [lia|].
  assert (Hza : zlen fa = p) by (unfold zlen in *; lia).
  assert (Hat : (fa ++ xs :: fb) !! Z.to_nat p = Some xs).
  { rewrite <- Hza, to_nat_zlen. by rewrite list_lookup_middle. }
  cbn [try_pools]. rewrite E, (rd_pool _ _ _ _ Hz), res_ok_bind.
  destruct xs as [|x xs].
  - unfold list_remove_head at 1 2. rewrite (is_list_head _ _ _ _ Hl). cbn [head].
    rewrite res_ok_bind, (wr_pool _ _ _ _ _ Hz), res_ok_bind.
    assert (MemPool (mem_blocks m) (la ++ l :: lb) = m) as -> by (rewrite <- E; by destruct m).
    destruct (Z.ltb_spec p 12).
    + destruct (IH m _ (p + 1) Hm Hs ltac:(lia) ltac:(lia))
        as [(q & x & m' & fl' & -> & (? & He & ?))|[He ->]].
      * left. exists q, x, m', fl'. split; [done|]. split; [lia|].
        split; [by apply exhausted_step|done].
      * right. split; [by apply exhausted_step|done].
    + right. split; [|done]. intros i Hi. replace i with p by lia. done.
  - left. pose proof (list_size _ _ _ _ Hl) as Hsz.
    destruct (list_remove_head_ok _ l x xs Hl) as (h' & l' & -> & Hl' & _ & Hr).
    { unfold zlen. lia. }
    rewrite res_ok_bind, (wr_pool _ _ _ _ _ Hz), res_ok_bind.
    exists p, x, (MemPool h' (la ++ l' :: lb)), (fa ++ xs :: fb). split; [done|].
    pose proof Hm as (_ & _ & Hnd). rewrite concat_mid in Hnd. cbn in Hnd.
    pose proof Hnd as [Hx Hnd']%NoDup_cons.
    split; [lia|]. split; [intros i Hi; lia|]. split; [by exists fa, xs, fb|].
    split; [|split; [by rewrite !concat_mid|split; [apply Hpl; set_solver|exact (proj2 Hr)]]].
    eapply mem_replace; [done|done|done|done| | |by rewrite concat_mid].
    + intros y Hy ->%list_elem_of_singleton. apply Hx. set_solver.
    + split; [done|]. intros y Hy. destruct (Hpl y) as (b & Hb & Hi); [set_solver|].
      exists b. rewrite (relinked_frame _ _ _ y Hr), Hz; [done|].
      intros ->%list_elem_of_singleton. set_solver.
Qed.

(** The selected pool for a request. *)
Definition wanted (sizeP p : Z) : Prop :=
  0 <= p <= 10 /\ u16 sizeP < block_size p /\
  forall i, 0 <= i < p -> block_size i <= u16 sizeP.

Lemma get_free_ok m fl sizeP :
  mem_ok m fl -> Z.of_nat (size (mem_blocks m)) < 2 ^ 31 ->
  exists p, wanted sizeP p /\
  ((exists q x m' fl', get_free_mem_block exit_returns sizeP m = Ok (Some x, m') /\
     takes m m' fl fl' p q x)
   \/ (exhausted fl p 13 /\ get_free_mem_block exit_returns sizeP m = no_block exit_returns m)).
Proof.
  intros Hm Hs. unfold get_free_mem_block.
  pose proof (wrapU_range 16 sizeP ltac:(lia)) as Hr. change (2 ^ 16) with 65536 in Hr.
  unfold MEM_MNGT_MB12_BLOCK_SIZE. rewrite (proj2 (Z.ltb_ge _ _)) by lia.
  rewrite Z.shiftr_div_pow2 by lia. change (2 ^ 6) with 64.
  destruct (select_pool_ok 31 (u16 sizeP / 64) 0) as (k & E & Hk & Hlt & Hle).
  { split; [div_lia|]. apply Z.div_lt_upper_bound; [lia|]. change (2 ^ Z.of_nat 31) with 2147483648. lia. }
  rewrite E, res_ok_bind, Z.add_0_l. exists k.
  assert (Hk10 : k <= 10).
  { destruct (Z.le_gt_cases k 10) as [|Hgt]; [done|].
    specialize (Hle 10 ltac:(lia)). change (2 ^ 10) with 1024 in Hle. div_lia. }
  split.
  - split; [lia|]. unfold block_size, MEM_MNGT_MB0_BLOCK_SIZE. split; [div_lia|].
    intros i Hi. specialize (Hle i Hi). div_lia.
  - apply try_pools_ok; [done|done|lia|lia].
Qed.
End allocation.

(** C34.  Allocation.  A request is served from the smallest blocks which are
    larger than it, or from the next larger pools when these are exhausted; it
    fails only when no block of any of those pools is free.  The block is taken
    off the free blocks, and nothing else changes but links. *)
Theorem get_free_mem_block_spec exit_returns m fl sizeP :
  mem_ok m fl -> Z.of_nat (size (mem_blocks m)) < 2 ^ 31 ->
  exists p, wanted sizeP p /\
  ((exists q x m' fl', get_free_mem_block exit_returns sizeP m = Ok (Some x, m') /\
     takes m m' fl fl' p q x)
   \/ (exhausted fl p 13 /\
       get_free_mem_block exit_returns sizeP m =
         if exit_returns then Ok (None, m) else Err EAssert)).
Proof.
  intros Hm Hs. destruct (get_free_ok exit_returns m fl sizeP Hm Hs) as (p & Hw & H).
  exists p. split; [done|]. destruct H as [?|[? ->]]; [by left|right].
  split; [done|]. by destruct exit_returns.
Qed.

(** ** Initialisation *)

Definition addrs (start n : nat) : list addr := block_addr <$> seq start n.

Fixpoint pool_addrs (start : nat) (sizes : list nat) : list (list addr) :=
  match sizes with
  | [] => []
  | n :: sizes => addrs start n :: pool_addrs (start + n) sizes
  end.

Lemma block_addr_inj i j : block_addr i = block_addr j -> i = j.
Proof. apply SuccNat2Pos.inj. Qed.

Lemma in_addrs s n x : x ∈ addrs s n <-> exists i, x = block_addr i /\ (s <= i < s + n)%nat.
Proof. unfold addrs. rewrite list_elem_of_fmap. setoid_rewrite elem_of_seq. done. Qed.

Lemma addrs_nodup s n : NoDup (addrs s n).
Proof. apply NoDup_fmap_2, NoDup_seq. intros i j. apply block_addr_inj. Qed.

Lemma addrs_snoc s n : addrs s (S n) = addrs s n ++ [block_addr (s + n)].
Proof. unfold addrs. by rewrite seq_S, fmap_app. Qed.

Lemma addrs_app s n k : addrs s (n + k) = addrs s n ++ addrs (s + n) k.
Proof. unfold addrs. by rewrite seq_app, fmap_app. Qed.

Lemma pool_addrs_concat sizes : forall s, concat (pool_addrs s sizes) = addrs s (sum_list sizes).
Proof.
  induction sizes as [|n sizes IH]; intros s; [done|].
  change (sum_list (n :: sizes)) with (n + sum_list sizes)%nat.
  cbn [pool_addrs concat]. by rewrite IH, addrs_app.
Qed.

(** The blocks up to [n] are in the heap, and no others. *)
Definition allocated_to (h : heap) (n : nat) : Prop :=
  forall x, is_Some (h !! x) -> exists i, x = block_addr i /\ (i < n)%nat.

Lemma allocated_fresh h n k : allocated_to h n -> (n <= k)%nat -> h !! block_addr k = None.
Proof.
  intros Ha Hk. destruct (h !! block_addr k) eqn:E; [|done].
  destruct (Ha (block_addr k)) as (i & ->%block_addr_inj & ?); [by rewrite E|lia].
Qed.

Lemma allocated_size h n : allocated_to h n -> (size h <= n)%nat.
Proof.
  intros Ha. rewrite <- size_dom.
  transitivity (size (list_to_set (addrs 0 n) : gset addr)).
  - apply subseteq_size. intros x. rewrite elem_of_dom, elem_of_list_to_set, in_addrs.
    intros (i & -> & ?)%Ha. exists i. split; [done|lia].
  - rewrite size_list_to_set by apply addrs_nodup. unfold addrs. by rewrite length_fmap, length_seq.
Qed.

Lemma init_pool_ok n : forall p mb i h l,
  pool h p l (addrs mb i) -> allocated_to h (mb + i) -> Z.of_nat (mb + i + n) < 2 ^ 31 - 1 ->
  exists h' l', init_pool n p mb i h l = Ok (h', l') /\
    pool h' p l' (addrs mb (i + n)) /\ allocated_to h' (mb + i + n) /\
    (forall x, x ∉ addrs mb (i + n) -> h' !! x = h !! x).
Proof.
  induction n as [|n IH]; intros p mb i h l Hp Ha Hn; cbn [init_pool].
  - exists h, l. by rewrite !Nat.add_0_r.
  - set (a := block_addr (mb + i)). set (b := MemBlock _ _ _ _).
    assert (Hfresh : h !! a = None) by (by eapply allocated_fresh).
    assert (Hna : a ∉ addrs mb i).
    { rewrite in_addrs. intros (j & ->%block_addr_inj & ?). lia. }
    destruct Hp as [Hl Hid].
    assert (Hl1 : is_list false (<[a := b]> h) l (addrs mb i)).
    { eapply is_list_frame; [|done]. intros x Hx. apply lookup_insert_ne. by intros ->. }
    destruct (list_add_tail_ok (<[a := b]> h) l (addrs mb i) a Hna) as (h1 & l1 & -> & Hl2 & Hr).
    { unfold zlen, addrs. rewrite length_fmap, length_seq. lia. }
    { done. }
    { rewrite lookup_insert_eq. done. }
    rewrite res_ok_bind. rewrite <- addrs_snoc in Hl2.
    destruct (IH p mb (S i) h1 l1) as (h2 & l2 & E & Hp2 & Ha2 & Hf2); [| |lia|].
    + split; [done|]. intros x Hx. pose proof (proj2 Hr x) as Hpx.
      assert (exists b0, <[a := b]> h !! x = Some b0 /\ pool_id b0 = p) as (b0 & Hb0 & Hi).
      { rewrite addrs_snoc in Hx. apply elem_of_app in Hx as [Hx| ->%list_elem_of_singleton].
        - destruct (Hid x Hx) as (b0 & ? & ?). exists b0.
          rewrite lookup_insert_ne by (by intros ->). done.
        - exists b. by rewrite lookup_insert_eq. }
      rewrite Hb0 in Hpx. destruct (h1 !! x) as [b1|]; [|done].
      exists b1. split; [done|]. rewrite <- Hi. by injection Hpx.
    + intros x Hx. pose proof (proj2 Hr x) as Hpx.
      destruct (decide (x = a)) as [->|Hxa]; [exists (mb + i)%nat; split; [done|lia]|].
      rewrite lookup_insert_ne in Hpx by done.
      destruct (Ha x) as (j & -> & ?); [|exists j; split; [done|lia]].
      destruct Hx as [? Hx]. rewrite Hx in Hpx. by destruct (h !! x).
    + exists h2, l2. replace (i + S n)%nat with (S i + n)%nat by lia.
      split; [done|]. split; [done|].
      split; [by replace (mb + i + S n)%nat with (mb + S i + n)%nat by lia|].
      intros x Hx. assert (Hsub : x ∉ a :: addrs mb i).
      { intros [->|Hin]%elem_of_cons; apply Hx; apply in_addrs.
        - exists (mb + i)%nat. split; [done|lia].
        - apply in_addrs in Hin as (j & -> & ?). exists j. split; [done|lia]. }
      rewrite Hf2, (relinked_frame _ _ _ _ Hr Hsub) by done.
      apply lookup_insert_ne. set_solver.
Qed.

Lemma init_pools_ok sizes : forall p mb h,
  allocated_to h mb -> Z.of_nat (mb + sum_list sizes) < 2 ^ 31 - 1 ->
  exists h' ls, init_pools sizes p mb h = Ok (h', ls) /\
    pools h' p ls (pool_addrs mb sizes) /\ allocated_to h' (mb + sum_list sizes) /\
    (forall x, x ∉ concat (pool_addrs mb sizes) -> h' !! x = h !! x).
Proof.
  induction sizes as [|n sizes IH]; intros p mb h Ha Hn; cbn [init_pools pool_addrs].
  - exists h, []. split_and!; [done..| |done]. cbn. by rewrite Nat.add_0_r.
  - change (sum_list (n :: sizes)) with (n + sum_list sizes)%nat in *.
    destruct (init_pool_ok n p mb 0 h list_init) as (h1 & l1 & E & Hp & Ha1 & Hf1).
    { split; [apply is_list_nil|set_solver]. }
    { by rewrite Nat.add_0_r. }
    { lia. }
    rewrite Nat.add_0_r in Ha1. rewrite E, res_ok_bind. cbn [Nat.add] in Hp, Hf1.
    destruct (IH (p + 1) (mb + n)%nat h1 Ha1) as (h2 & ls & -> & Hps & Ha2 & Hf2); [lia|].
    rewrite res_ok_bind. exists h2, (l1 :: ls). split; [done|].
    assert (Hd : forall x, x ∈ addrs mb n -> x ∉ concat (pool_addrs (mb + n) sizes)).
    { intros x. rewrite pool_addrs_concat, !in_addrs. intros (i & -> & ?) (j & Hj & ?).
      apply block_addr_inj in Hj. lia. }
    split; [split; [|done]|split; [by rewrite Nat.add_assoc|]].
    + destruct Hp as [Hl Hid]. split.
      * eapply is_list_frame; [|done]. intros x Hx. by apply Hf2, Hd.
      * intros x Hx. rewrite Hf2 by (by apply Hd). auto.
    + intros x Hx. cbn in Hx. rewrite Hf2, Hf1 by set_solver. done.
Qed.

Lemma init_ok sizes :
  length sizes = 14%nat -> Z.of_nat (sum_list sizes) < 2 ^ 31 - 1 ->
  exists m, pool_buffer_init sizes = Ok m /\ mem_ok m (pool_addrs 0 sizes) /\
    (size (mem_blocks m) <= sum_list sizes)%nat.
Proof.
  intros H14 Hn. unfold pool_buffer_init.
  destruct (init_pools_ok sizes 0 0 ∅) as (h & ls & -> & Hp & Ha & _); [|done|].
  { intros x. rewrite lookup_empty. by intros [? ?]. }
  rewrite res_ok_bind. exists (MemPool h ls). split; [done|].
  split; [|by apply allocated_size].
  split; [|split; [done|rewrite pool_addrs_concat; apply addrs_nodup]].
  rewrite <- H14. clear. generalize O. induction sizes; intros s; cbn; [done|]. by f_equal.
Qed.

(** ** Runs of a user of the memory manager *)

Inductive mem_op :=
| Alloc (sizeP : Z)
| Free (k : nat).  (** the [k]-th of the blocks held *)

(** The user keeps the blocks it is given until it frees them.  The log has the
    answers. *)
Fixpoint mem_run (ops : list mem_op) (m : mem_pool) (held : list addr)
    : res (mem_pool * list addr * list (Z * ptr)) :=
  match ops with
  | [] => Ok (m, held, [])
  | Alloc sizeP :: ops =>
      '(p, m) ← get_free_mem_block true sizeP m;
      '(m, held, log) ← mem_run ops m (match p with Some x => x :: held | None => held end);
      Ok (m, held, (sizeP, p) :: log)
  | Free k :: ops =>
      match held !! k with
      | Some x =>
          m ← free_mem_block (Some x) m;
          mem_run ops m (delete k held)
      | None => mem_run ops m held
      end
  end.

(** Every block of [all] is held or free, once. *)
Definition shared_out (all held : list addr) (m : mem_pool) : Prop :=
  exists fl, mem_ok m fl /\ NoDup all /\ held ++ concat fl ≡ₚ all /\
    Z.of_nat (size (mem_blocks m)) < 2 ^ 31 /\
    (forall x, x ∈ held -> exists b, mem_blocks m !! x = Some b /\ 0 <= pool_id b <= 12).

(** A block which was asked for is large enough, for a size of 16 bits. *)
Definition large_enough (m : mem_pool) (e : Z * ptr) : Prop :=
  forall x, e.2 = Some x ->
    exists b, mem_blocks m !! x = Some b /\ u16 e.1 < block_size (pool_id b).

Lemma payload_pool_id (h h' : heap) x b :
  payload <$> h' !! x = payload <$> h !! x -> h !! x = Some b ->
  exists b', h' !! x = Some b' /\ pool_id b' = pool_id b.
Proof.
  intros H Hb. rewrite Hb in H. destruct (h' !! x) as [b'|]; [|done].
  exists b'. split; [done|]. by injection H.
Qed.

Lemma size_same (h h' : heap) :
  (forall y, payload <$> h' !! y = payload <$> h !! y) -> size h' = size h.
Proof.
  intros H. rewrite <- !size_dom. f_equal. apply set_eq. intros x.
  rewrite !elem_of_dom, <- !(fmap_is_Some payload). by rewrite H.
Qed.

Lemma alloc_shared all held m sizeP :
  shared_out all held m ->
  exists p m', get_free_mem_block true sizeP m = Ok (p, m') /\
    shared_out all (match p with Some x => x :: held | None => held end) m' /\
    large_enough m' (sizeP, p) /\
    (forall y, payload <$> mem_blocks m' !! y = payload <$> mem_blocks m !! y).
Proof.
  intros (fl & Hm & Hnd & Hperm & Hs & Hheld).
  destruct (get_free_ok true m fl sizeP Hm Hs) as (p & (Hp & Hsz & _) & [H|[_ ->]]).
  - destruct H as (q & x & m' & fl' & -> & (Hq & _ & _ & Hm' & Hc & (b & Hb & Hid) & Hf)).
    exists (Some x), m'. split; [done|].
    destruct (payload_pool_id _ _ x b (Hf x) Hb) as (b' & Hb' & Hid').
    split; [|split; [|done]].
    + exists fl'. split; [done|]. split; [done|].
      split; [by rewrite <- Hperm, Hc; cbn; rewrite <- Permutation_middle|].
      split; [by rewrite (size_same _ _ Hf)|].
      intros y [->|Hy]%elem_of_cons; [exists b'; split; [done|lia]|].
      destruct (Hheld y Hy) as (by_ & Hby & ?).
      destruct (payload_pool_id _ _ y by_ (Hf y) Hby) as (b1 & ? & ?).
      exists b1. split; [done|lia].
    + intros z [= <-]. exists b'. split; [done|]. rewrite Hid', Hid. cbn.
      eapply Z.lt_le_trans; [done|]. unfold block_size, MEM_MNGT_MB0_BLOCK_SIZE.
      pose proof (Z.pow_le_mono_r 2 p q ltac:(lia)). lia.
  - exists None, m. split; [done|]. split; [by exists fl|]. split; [by intros ?|done].
Qed.

Lemma free_shared all held m k x :
  shared_out all held m -> held !! k = Some x ->
  exists m', free_mem_block (Some x) m = Ok m' /\ shared_out all (delete k held) m' /\
    (forall y, payload <$> mem_blocks m' !! y = payload <$> mem_blocks m !! y).
Proof.
  intros (fl & Hm & Hnd & Hperm & Hs & Hheld) Hk.
  pose proof (delete_Permutation held k x Hk) as Hd.
  destruct (Hheld x) as (b & Hb & Hid); [by eapply list_elem_of_lookup_2|].
  assert (Hx : x ∉ concat fl).
  { rewrite <- Hperm, Hd in Hnd. cbn in Hnd. apply NoDup_cons in Hnd as [Hx _]. set_solver. }
  destruct (free_ok m fl x b Hm Hb) as (m' & fl' & -> & Hm' & Hc & Hf); [lia|done|done|].
  exists m'. split; [done|]. split; [|done]. exists fl'. split; [done|]. split; [done|].
  split; [etrans; [|exact Hperm]; rewrite Hc, <- Permutation_middle;
          symmetry; by apply (Permutation_app_tail (concat fl) Hd)|].
  split; [by rewrite (size_same _ _ Hf)|].
  intros y Hy. destruct (Hheld y) as (by_ & Hby & ?); [rewrite Hd; set_solver|].
  destruct (payload_pool_id _ _ y by_ (Hf y) Hby) as (b1 & ? & ?). exists b1. split; [done|lia].
Qed.

Lemma mem_run_ok ops : forall all held m,
  shared_out all held m ->
  exists m' held' log, mem_run ops m held = Ok (m', held', log) /\
    shared_out all held' m' /\ Forall (large_enough m') log /\
    (forall y, payload <$> mem_blocks m' !! y = payload <$> mem_blocks m !! y).
Proof.
  induction ops as [|[sizeP|k] ops IH]; intros all held m Hm; cbn [mem_run].
  - by exists m, held, [].
  - destruct (alloc_shared all held m sizeP Hm) as (p & m1 & -> & Hm1 & Hl & Hf1).
    rewrite res_ok_bind. destruct (IH _ _ _ Hm1) as (m2 & held2 & log & -> & Hm2 & Hlog & Hf2).
    rewrite res_ok_bind. do 3 eexists. split; [done|]. split; [done|].
    split; [|intros y; by rewrite Hf2]. apply Forall_cons. split; [|done].
    intros x Hx. destruct (Hl x Hx) as (b & Hb & ?).
    destruct (payload_pool_id _ _ x b (Hf2 x) Hb) as (b' & ? & E). exists b'. by rewrite E.
  - destruct (held !! k) as [x|] eqn:Hk; [|by apply IH].
    destruct (free_shared all held m k x Hm Hk) as (m1 & -> & Hm1 & Hf1).
    rewrite res_ok_bind. destruct (IH _ _ _ Hm1) as (m2 & held2 & log & -> & Hm2 & Hlog & Hf2).
    do 3 eexists. split; [done|]. split; [done|]. split; [done|]. intros y. by rewrite Hf2.
Qed.

