(* ===== verification/MemExamples.v ===== *)
(** Memory blocks and lists: the theorems at concrete inputs, and what the code
    does on uses outside of their hypotheses. *)
From S2P Require Import Prelude.
From S2P Require Import MemList.
From S2P Require Import MemListSpec.
From S2P Require Import MemListRuns.
From S2P Require Import MemBlock.
From S2P Require Import MemBlockSpec.

Local Open Scope Z_scope.

(** ** Witnesses *)

(** Three blocks in no list. *)
Definition spare (i : Z) : mem_block := MemBlock None None 0 (Some (0, i)).
Definition three_blocks : heap := {[ 1%positive := spare 0; 2%positive := spare 1; 3%positive := spare 2 ]}.
Definition a_script : list list_op :=
  [AddTail 1; AddHead 2; AddTail 3; RemoveElement 1; RemoveHead; AddHead 2].

Lemma three_blocks_detached (dbl : bool) (x : addr) :
  x ∈ ({[1; 2; 3]}%positive : gset addr) -> (x ∉ []) /\ detached dbl three_blocks x.
Proof.
  intros Hx. split; [set_solver|].
  assert (x = 1 \/ x = 2 \/ x = 3)%positive as [->|[->| ->]] by set_solver;
    eexists; (split; [reflexivity|done]).
Qed.

Lemma list_runs_refine_witness :
  exists h' l', code_run (BL := double_list) a_script three_blocks (List None None 0)
      = Ok ([None; None; None; None; Some 2%positive; None], h', l') /\
    is_list true h' l' [2; 3]%positive.
Proof.
  destruct (list_runs_refine (BL := double_list) three_blocks (List None None 0) []
              {[1; 2; 3]}%positive a_script
              [None; None; None; None; Some 2%positive; None]
              ([2; 3]%positive, {[1]}%positive)) as (h' & l' & E & Hl & _).
  - apply is_list_nil.
  - apply (three_blocks_detached true).
  - vm_compute. reflexivity.
  - vm_compute. reflexivity.
  - exists h', l'. split; [exact E|exact Hl].
Defined.

Lemma get_free_mem_block_spec_witness :
  exists m fl, mem_ok m fl /\ exists p, wanted 100 p /\
  ((exists q x m' fl', get_free_mem_block true 100 m = Ok (Some x, m') /\
     takes m m' fl fl' p q x)
   \/ (exhausted fl p 13 /\ get_free_mem_block true 100 m = Ok (None, m))).
Proof.
  destruct (init_ok (replicate 14 1%nat)) as (m & _ & Hm & Hs); [reflexivity|vm_compute; reflexivity|].
  exists m, (pool_addrs 0 (replicate 14 1%nat)). split; [exact Hm|].
  apply (get_free_mem_block_spec true m _ 100 Hm).
  change (sum_list (replicate 14 1%nat)) with 14%nat in Hs. lia.
Defined.


(** ** Outside of the contracts *)

(** What is left of the answers of a run. *)
Definition answers (r : res (mem_pool * list addr * list (Z * ptr))) : option (list ptr) :=
  match r with Ok (_, _, log) => Some log.*2 | Err _ => None end.

(** A memory with one block in its smallest pool. *)
Definition one_block : res mem_pool := pool_buffer_init (1%nat :: replicate 13 0%nat).

(** A block freed twice is handed out twice.  [leP = NULL] at the end of
    [free_mem_block], with the comment that it prevents from freeing the block
    twice, clears a parameter. *)
Theorem double_free_shares :
  (m ← one_block;
   '(p, m) ← get_free_mem_block true 10 m;
   m ← free_mem_block p m;
   m ← free_mem_block p m;
   '(q, m) ← get_free_mem_block true 10 m;
   '(r, m) ← get_free_mem_block true 10 m;
   Ok (p, q, r)) = Ok (Some 1%positive, Some 1%positive, Some 1%positive).
Proof. vm_compute. reflexivity. Qed.

(** Only 16 bits of the size count: for 65 600 bytes a block of 128. *)
Theorem get_free_truncates :
  (m ← pool_buffer_init (replicate 14 1%nat);
   '(p, m) ← get_free_mem_block true 65600 m;
   b ← load (mem_blocks m) p;
   Ok (block_size (pool_id b))) = Ok 128.
Proof. vm_compute. reflexivity. Qed.

(** [list_remove_element] does not clear the link of an element behind the head,
    and [list_add_head] does not set it in an empty list: the old successor
    comes with the element. *)
Theorem removed_element_drags_on :
  ('(h, l) ← list_add_tail_eurecom (Some 1%positive) three_blocks list_init;
   '(h, l) ← list_add_tail_eurecom (Some 2%positive) h l;
   '(h, l) ← list_add_tail_eurecom (Some 3%positive) h l;
   '(h, l) ← list_remove_element (Some 2%positive) h l;
   '(h, k) ← list_add_head (Some 2%positive) h list_init;
   '(p, h, k) ← list_remove_head h k;
   '(q, h, k) ← list_remove_head h k;
   Ok (p, q, nb_elements k)) = Ok (Some 2%positive, Some 3%positive, -1).
Proof. vm_compute. reflexivity. Qed.

(** [list2_add_list] leaves the count of the list it has emptied. *)
Theorem list2_add_list_count :
  ('(h, k) ← list2_add_tail (Some 1%positive) three_blocks list2_init;
   '(h, k, l) ← list2_add_list h k list2_init;
   Ok (head_ k, nb_elements k, nb_elements l)) = Ok (None, 1, 1).
Proof. vm_compute. reflexivity. Qed.
