(* ===== verification/RlcUmEntity.v ===== *)
(** RLC UM v9.3.0: the state of an entity ([rlc_um_entity.h],
    [rlc_um_structs.h], [rlc_um_constants.h]), its protocol state machine
    ([rlc_um_fsm.c]), the t-Reordering timer ([rlc_um_dar.c]) and its
    configuration ([rlc_um_control_primitives.c]). *)
From S2P Require Import Prelude.

Local Open Scope Z_scope.

(** ** Constants *)

Definition RLC_UM_SN_10_BITS_MODULO : Z := 1024.
Definition RLC_UM_WINDOW_SIZE_SN_10_BITS : Z := 512.
Definition RLC_UM_SN_5_BITS_MODULO : Z := 32.
Definition RLC_UM_WINDOW_SIZE_SN_5_BITS : Z := 16.
Definition RLC_UM_SEGMENT_NB_MAX_LI_PER_PDU : Z := 24.
Definition RLC_SDU_MAX_SIZE_DATA_PLANE : Z := 9000.
Definition RLC_SDU_MAX_SIZE_CONTROL_PLANE : Z := 2000.
(** Pointers allocated for [dar_buffer]. *)
Definition DAR_BUFFER_SIZE : Z := 1024.

(** ** Data *)

Inductive rlc_protocol_state :=
  | RLC_NULL_STATE
  | RLC_DATA_TRANSFER_READY_STATE
  | RLC_RESET_PENDING_STATE
  | RLC_RESET_AND_SUSPEND_STATE
  | RLC_LOCAL_SUSPEND_STATE.
#[export] Instance rlc_protocol_state_eq_dec : EqDecision rlc_protocol_state.
Proof. solve_decision. Defined.

Record um_timer := UmTimer {
  frame_time_out : Z;
  frame_start : Z;
  time_out : Z;
  running : bool;
  timed_out : bool
}.
#[export] Instance um_timer_eta : Eta um_timer := fun t =>
  UmTimer (frame_time_out t) (frame_start t) (time_out t) (running t) (timed_out t).

(** A transport block from MAC: the memory from [data_ptr] on, and [size]. *)
Record mac_tb_ind := MacTbInd { data_ptr : list Z; ind_size : Z }.

(** A PDU given to MAC: the bytes of the block from the PDU on, and [tb_size]. *)
Record mac_tb_req := MacTbReq { pdu_data : list Z; tb_size : Z }.

(** An SDU of [input_sdus]: [rlc_um_tx_sdu_management_t] and its payload. *)
Record um_tx_sdu := UmTxSdu {
  sdu_payload : list Z;
  sdu_creation_time : Z;
  sdu_remaining_size : Z;
  sdu_segmented_size : Z;
  sdu_size : Z
}.
#[export] Instance um_tx_sdu_eta : Eta um_tx_sdu := fun s =>
  UmTxSdu (sdu_payload s) (sdu_creation_time s) (sdu_remaining_size s)
    (sdu_segmented_size s) (sdu_size s).

Record um_rx_stats := UmRxStats {
  stat_rx_pdcp_sdu : Z;
  stat_rx_pdcp_bytes : Z;
  stat_rx_data_pdus_duplicate : Z;
  stat_rx_data_bytes_duplicate : Z;
  stat_rx_data_pdu : Z;
  stat_rx_data_bytes : Z;
  stat_rx_data_pdu_dropped : Z;
  stat_rx_data_bytes_dropped : Z;
  stat_rx_data_pdu_out_of_window : Z;
  stat_rx_data_bytes_out_of_window : Z;
  stat_timer_reordering_timed_out : Z
}.
#[export] Instance um_rx_stats_eta : Eta um_rx_stats := fun s =>
  UmRxStats (stat_rx_pdcp_sdu s) (stat_rx_pdcp_bytes s)
    (stat_rx_data_pdus_duplicate s) (stat_rx_data_bytes_duplicate s)
    (stat_rx_data_pdu s) (stat_rx_data_bytes s)
    (stat_rx_data_pdu_dropped s) (stat_rx_data_bytes_dropped s)
    (stat_rx_data_pdu_out_of_window s) (stat_rx_data_bytes_out_of_window s)
    (stat_timer_reordering_timed_out s).

Definition um_rx_stats_zero : um_rx_stats := UmRxStats 0 0 0 0 0 0 0 0 0 0 0.

(** The receiving half of [rlc_um_entity_t].  [dar_buffer] maps a sequence
    number to its PDU, no entry being the null pointer.  Two fields stand for
    the environment: [pool], the answers [get_free_mem_block] will give to
    this half (exhausted means it succeeds), and [delivered], the SDUs given
    to [rlc_data_ind] so far. *)
Record um_rx := UmRx {
  is_data_plane : bool;
  rx_sn_length : Z;
  rx_header_min_length_in_bytes : Z;
  rx_sn_modulo : Z;
  rx_um_window_size : Z;
  vr_ur : Z;
  vr_ux : Z;
  vr_uh : Z;
  t_reordering : um_timer;
  output_sdu_in_construction : option (list Z);
  output_sdu_size_to_write : Z;
  dar_buffer : gmap Z mac_tb_ind;
  last_reassemblied_sn : Z;
  last_reassemblied_missing_sn : Z;
  reassembly_missing_sn_detected : bool;
  rx_stats : um_rx_stats;
  pool : list bool;
  delivered : list (list Z)
}.
#[export] Instance um_rx_eta : Eta um_rx := fun e =>
  UmRx (is_data_plane e) (rx_sn_length e) (rx_header_min_length_in_bytes e)
    (rx_sn_modulo e) (rx_um_window_size e) (vr_ur e) (vr_ux e) (vr_uh e)
    (t_reordering e) (output_sdu_in_construction e) (output_sdu_size_to_write e)
    (dar_buffer e) (last_reassemblied_sn e) (last_reassemblied_missing_sn e)
    (reassembly_missing_sn_detected e) (rx_stats e) (pool e) (delivered e).

(** The transmitting half. *)
Record um_tx := UmTx {
  tx_sn_length : Z;
  tx_header_min_length_in_bytes : Z;
  tx_sn_modulo : Z;
  tx_um_window_size : Z;
  vt_us : Z;
  input_sdus : list um_tx_sdu;
  buffer_occupancy : Z;
  nb_bytes_requested_by_mac : Z;
  pdus_to_mac_layer : list mac_tb_req;
  stat_tx_pdcp_sdu : Z;
  stat_tx_pdcp_bytes : Z;
  stat_tx_data_pdu : Z;
  stat_tx_data_bytes : Z
}.
#[export] Instance um_tx_eta : Eta um_tx := fun e =>
  UmTx (tx_sn_length e) (tx_header_min_length_in_bytes e) (tx_sn_modulo e)
    (tx_um_window_size e) (vt_us e) (input_sdus e) (buffer_occupancy e)
    (nb_bytes_requested_by_mac e) (pdus_to_mac_layer e) (stat_tx_pdcp_sdu e)
    (stat_tx_pdcp_bytes e) (stat_tx_data_pdu e) (stat_tx_data_bytes e).

Record um_entity := UmEntity {
  enb_module_id : Z;
  ue_module_id : Z;
  rb_id : Z;
  is_enb : bool;
  is_mxch : Z;
  initialized : bool;
  first_pdu : bool;
  protocol_state : rlc_protocol_state;
  um_rx_side : um_rx;
  um_tx_side : um_tx
}.
#[export] Instance um_entity_eta : Eta um_entity := fun e =>
  UmEntity (enb_module_id e) (ue_module_id e) (rb_id e) (is_enb e) (is_mxch e)
    (initialized e) (first_pdu e) (protocol_state e) (um_rx_side e)
    (um_tx_side e).

(** ** Protocol state machine *)

Module Fsm.
Definition CONFIG_REQ_ENTER_NULL_STATE_EVENT : Z := 0x00.
Definition CONFIG_REQ_ENTER_DATA_TRANSFER_READY_STATE_EVENT : Z := 0x01.
Definition RECEIVE_CRLC_SUSPEND_REQ_EVENT : Z := 0x10.
Definition TRANSMIT_CRLC_SUSPEND_CNF_EVENT : Z := 0x11.
Definition RECEIVE_CRLC_RESUME_REQ_EVENT : Z := 0x12.

(** The entity, the value returned, and whether [mac_xface->macphy_exit] has
    been called. *)
Definition rlc_um_fsm_notify_event (e : um_entity) (eventP : Z)
    : um_entity * Z * bool :=
  match protocol_state e with
  | RLC_NULL_STATE =>
      if eventP =? CONFIG_REQ_ENTER_DATA_TRANSFER_READY_STATE_EVENT then
        (e <| protocol_state := RLC_DATA_TRANSFER_READY_STATE |>, 1, false)
      else (e, 0, true)
  | RLC_DATA_TRANSFER_READY_STATE =>
      if eventP =? CONFIG_REQ_ENTER_NULL_STATE_EVENT then
        (e <| protocol_state := RLC_NULL_STATE |>, 1, false)
      else if (eventP =? RECEIVE_CRLC_SUSPEND_REQ_EVENT)
              || (eventP =? TRANSMIT_CRLC_SUSPEND_CNF_EVENT) then
        (e <| protocol_state := RLC_LOCAL_SUSPEND_STATE |>, 1, false)
      else (e, 0, false)
  | RLC_LOCAL_SUSPEND_STATE =>
      if eventP =? CONFIG_REQ_ENTER_NULL_STATE_EVENT then
        (e <| protocol_state := RLC_NULL_STATE |>, 1, false)
      else if eventP =? RECEIVE_CRLC_RESUME_REQ_EVENT then
        (e <| protocol_state := RLC_DATA_TRANSFER_READY_STATE |>, 1, false)
      else (e, 0, false)
  | _ => (e, 0, false)
  end.
End Fsm.

(** ** The t-Reordering timer *)

Definition rlc_um_stop_and_reset_timer_reordering (e : um_rx) : um_rx :=
  e <| t_reordering := (t_reordering e)
         <| running := false |> <| frame_time_out := 0 |>
         <| frame_start := 0 |> <| timed_out := false |> |>.

Definition rlc_um_start_timer_reordering (e : um_rx) (frameP : Z) : um_rx :=
  let t := t_reordering e in
  e <| t_reordering := t
         <| running := true |>
         <| frame_time_out := u32 (frameP + time_out t) |>
         <| frame_start := frameP |> <| timed_out := false |> |>.

Definition rlc_um_init_timer_reordering (e : um_rx) (time_outP : Z) : um_rx :=
  e <| t_reordering := (t_reordering e)
         <| running := false |> <| frame_time_out := 0 |>
         <| frame_start := 0 |> <| time_out := time_outP |>
         <| timed_out := false |> |>.

(** ** Life cycle and configuration *)

Module Config.
(** [memset] of the structure to zero; the environment fields remain. *)
Definition um_rx_zero (e : um_rx) : um_rx :=
  UmRx false 0 0 0 0 0 0 0 (UmTimer 0 0 0 false false) None 0 ∅ 0 0 false
    um_rx_stats_zero (pool e) (delivered e).
Definition um_tx_zero : um_tx := UmTx 0 0 0 0 0 [] 0 0 [] 0 0 0 0.
Definition um_zero (e : um_entity) : um_entity :=
  UmEntity 0 0 0 false 0 false false RLC_NULL_STATE
    (um_rx_zero (um_rx_side e)) um_tx_zero.

Definition rlc_um_init (e : um_entity) : um_entity :=
  if initialized e then e
  else
    let z := um_zero e in
    z <| um_rx_side := (um_rx_side z)
           <| rx_sn_length := 10 |>
           <| rx_header_min_length_in_bytes := 2 |> |>
      <| um_tx_side := (um_tx_side z)
           <| tx_sn_length := 10 |>
           <| tx_header_min_length_in_bytes := 2 |> |>
      <| first_pdu := true |>
      <| initialized := true |>.

Definition rlc_um_reset_state_variables (e : um_entity) : um_entity :=
  e <| um_tx_side := (um_tx_side e)
         <| buffer_occupancy := 0 |> <| vt_us := 0 |> |>
    <| um_rx_side := (um_rx_side e)
         <| vr_ur := 0 |> <| vr_ux := 0 |> <| vr_uh := 0 |> |>.

Definition rlc_um_cleanup (e : um_entity) : um_entity := um_zero e.

(** The receiver's part of [rlc_um_configure]; [None] is its early return. *)
Definition configure_rx_sn (e : um_rx) (rx_sn_field_lengthP : Z)
    : option um_rx :=
  if rx_sn_field_lengthP =? 10 then
    Some (e <| rx_sn_length := 10 |>
            <| rx_sn_modulo := RLC_UM_SN_10_BITS_MODULO |>
            <| rx_um_window_size := RLC_UM_WINDOW_SIZE_SN_10_BITS |>
            <| rx_header_min_length_in_bytes := 2 |>)
  else if rx_sn_field_lengthP =? 5 then
    Some (e <| rx_sn_length := 5 |>
            <| rx_sn_modulo := RLC_UM_SN_5_BITS_MODULO |>
            <| rx_um_window_size := RLC_UM_WINDOW_SIZE_SN_5_BITS |>
            <| rx_header_min_length_in_bytes := 1 |>)
  else if negb (rx_sn_field_lengthP =? 0) then None
  else Some e.

Definition configure_tx_sn (e : um_tx) (tx_sn_field_lengthP : Z)
    : option um_tx :=
  if tx_sn_field_lengthP =? 10 then
    Some (e <| tx_sn_length := 10 |>
            <| tx_sn_modulo := RLC_UM_SN_10_BITS_MODULO |>
            <| tx_um_window_size := RLC_UM_WINDOW_SIZE_SN_10_BITS |>
            <| tx_header_min_length_in_bytes := 2 |>)
  else if tx_sn_field_lengthP =? 5 then
    Some (e <| tx_sn_length := 5 |>
            <| tx_sn_modulo := RLC_UM_SN_5_BITS_MODULO |>
            <| tx_um_window_size := RLC_UM_WINDOW_SIZE_SN_5_BITS |>
            <| tx_header_min_length_in_bytes := 1 |>)
  else if negb (tx_sn_field_lengthP =? 0) then None
  else Some e.

(** The rest of [rlc_um_configure], reached when both lengths are accepted. *)
Definition configure_common (e : um_entity) (timer_reorderingP is_mXchP : Z)
    : um_entity :=
  let e :=
    if 0 <? is_mXchP then
      e <| um_tx_side := (um_tx_side e) <| tx_um_window_size := 0 |> |>
        <| um_rx_side := (um_rx_side e) <| rx_um_window_size := 0 |> |>
    else e in
  let e := e <| is_mxch := wrapS 8 is_mXchP |> in
  let r := um_rx_side e in
  let r := r <| last_reassemblied_sn := u16 (rx_sn_modulo r - 1) |>
             <| last_reassemblied_missing_sn := u16 (rx_sn_modulo r - 1) |>
             <| reassembly_missing_sn_detected := false |> in
  let r := rlc_um_init_timer_reordering r timer_reorderingP in
  let e := e <| um_rx_side := r |> <| first_pdu := true |> in
  rlc_um_reset_state_variables e.

Definition rlc_um_configure (e : um_entity)
    (timer_reorderingP rx_sn_field_lengthP tx_sn_field_lengthP is_mXchP : Z)
    : um_entity :=
  match configure_rx_sn (um_rx_side e) rx_sn_field_lengthP with
  | None => e
  | Some r =>
      let e := e <| um_rx_side := r |> in
      match configure_tx_sn (um_tx_side e) tx_sn_field_lengthP with
      | None => e
      | Some t =>
          configure_common (e <| um_tx_side := t |>) timer_reorderingP is_mXchP
      end
  end.

Definition rlc_um_set_debug_infos (e : um_entity)
    (enb_module_idP ue_module_idP : Z) (eNB_flagP srb_flagP : bool)
    (rb_idP : Z) : um_entity :=
  e <| enb_module_id := enb_module_idP |>
    <| ue_module_id := ue_module_idP |>
    <| rb_id := rb_idP |>
    <| um_rx_side := (um_rx_side e) <| is_data_plane := negb srb_flagP |> |>
    <| is_enb := eNB_flagP |>.

Record rlc_um_info := RlcUmInfo {
  timer_reordering : Z; sn_field_length : Z; is_mXch : Z }.

(** [found] is the entity [hashtable_get] returns for the bearer's key. *)
Definition config_req_rlc_um (found : option um_entity)
    (enb_module_idP ue_module_idP : Z) (eNB_flagP srb_flagP : bool)
    (config_um : rlc_um_info) (rb_idP : Z) : option um_entity :=
  match found with
  | None => None
  | Some e =>
      let e := rlc_um_init e in
      let '(e, rc, _) := Fsm.rlc_um_fsm_notify_event e
        Fsm.CONFIG_REQ_ENTER_DATA_TRANSFER_READY_STATE_EVENT in
      if truth rc then
        let e := rlc_um_set_debug_infos e enb_module_idP ue_module_idP
                   eNB_flagP srb_flagP rb_idP in
        Some (rlc_um_configure e (timer_reordering config_um)
                (sn_field_length config_um) (sn_field_length config_um)
                (is_mXch config_um))
      else Some e
  end.

Definition t_Reordering_tab : list Z :=
  [0;5;10;15;20;25;30;35;40;45;50;55;60;65;70;75;80;85;90;95;100;110;120;
   130;140;150;160;170;180;190;200].

Section asn1.
(** Values of the ASN.1 enumerations, which asn1c generates. *)
Variables SN_FieldLength_size5 SN_FieldLength_size10 T_Reordering_spare1 : Z.

Record dl_um_rlc := DlUmRlc { dl_sn_FieldLength : Z; dl_t_Reordering : Z }.

(** [None] is the [default] of the switch, which returns. *)
Definition sn_field_length_of (f : Z) : option Z :=
  if f =? SN_FieldLength_size5 then Some 5
  else if f =? SN_FieldLength_size10 then Some 10
  else None.

(** [ul] is the [sn_FieldLength] of [ul_rlc_pP], [None] a null pointer.  The
    trace of the request reads [dl_rlc_pP] before the test for null.  The
    checks for MBMS are those of the Release 10 build. *)
Definition config_req_rlc_um_asn1 (found : option um_entity)
    (enb_module_idP ue_module_idP : Z) (eNB_flagP srb_flagP : bool)
    (mbms_flagP : bool) (ul : option Z) (dl : option dl_um_rlc)
    (rb_idP : Z) : res um_entity :=
  _ ← (if mbms_flagP
       then res_guard (bool_decide (is_Some dl) && bool_decide (ul = None))
              EAssert
       else Ok tt);
  e ← (match found with Some e => Ok e | None => Err EAssert end);
  _ ← res_guard (bool_decide (is_Some dl)) ENull;
  let e := rlc_um_init e in
  let '(e, rc, _) := Fsm.rlc_um_fsm_notify_event e
    Fsm.CONFIG_REQ_ENTER_DATA_TRANSFER_READY_STATE_EVENT in
  if negb (truth rc) then Ok e
  else
    let e := rlc_um_set_debug_infos e enb_module_idP ue_module_idP
               eNB_flagP srb_flagP rb_idP in
    let ul_sn := match ul with
                 | Some f => sn_field_length_of f | None => Some 0 end in
    let dl_sn := match dl with
                 | Some c => sn_field_length_of (dl_sn_FieldLength c)
                 | None => Some 0 end in
    let t := match dl with
             | Some c =>
                 if dl_t_Reordering c <? T_Reordering_spare1
                 then Some (rd t_Reordering_tab (dl_t_Reordering c))
                 else None
             | None => Some (Ok 0) end in
    match ul_sn, dl_sn, t with
    | Some ul_sn, Some dl_sn, Some t =>
        t ← t;
        let mxch := if mbms_flagP then 1 else 0 in
        if eNB_flagP
        then Ok (rlc_um_configure e t ul_sn dl_sn mxch)
        else Ok (rlc_um_configure e t dl_sn ul_sn mxch)
    | _, _, _ => Ok e
    end.
End asn1.
End Config.
