(* ===== verification/RlcUmHeader.v ===== *)
(** RLC UM v9.3.0: decoding of the UMD PDU header
    ([rlc_um_get_pdu_infos] and [rlc_um_read_length_indicators] of
    [rlc_um_dar.c]), and the round trip of the length indicators. *)
From S2P Require Import Prelude.
From S2P Require Import RlcUmEntity.

Local Open Scope Z_scope.
Local Open Scope c_scope.

(** ** [rlc_um_get_pdu_infos] *)

Module PduInfo.
Record um_pdu_info := UmPduInfo {
fi : Z; e : Z; sn : Z; num_li : Z; li_list : list Z; hidden_size : Z;
payload : Z; payload_size : Z; header_size : Z }.
#[export] Instance um_pdu_info_eta : Eta um_pdu_info := fun i =>
UmPduInfo (fi i) (e i) (sn i) (num_li i) (li_list i) (hidden_size i)
  (payload i) (payload_size i) (header_size i).

(** [payload] is the offset of the pointer from [header_pP]. *)
Definition fixed_header (header_pP : list Z) (sn_lengthP : Z)
  : res um_pdu_info :=
if sn_lengthP =? 10 then
  b1 ← rd header_pP 0;
  b2 ← rd header_pP 1;
  Ok (UmPduInfo ((b1 .>> 3) .& 0x03) ((b1 .>> 2) .& 0x01)
        (b2 + ((b1 .& 0x03) .<< 8)) 0 [] 0 2 0 2)
else if sn_lengthP =? 5 then
  b1 ← rd header_pP 0;
  Ok (UmPduInfo ((b1 .>> 6) .& 0x03) ((b1 .>> 5) .& 0x01) (b1 .& 0x1F)
        0 [] 0 1 0 1)
else Err EAssert.

(** The [while (li_to_read)] loop: [e_li_p] is the offset of the current
  3-byte group, [li_length_in_bytes] alternates between 2 and 1, and
  [li_list] has 24 elements.  The result is the state after the loop and
  whether it was left by [return -2]. *)
Fixpoint li_loop (fuel : nat) (header_pP : list Z) (total_sizeP : Z)
  (e_li_p li_length_in_bytes sum_li : Z) (i : um_pdu_info)
  : res (bool * Z * Z * Z * um_pdu_info) :=
match fuel with
| O => Err EFuel
| S fuel =>
    let len := li_length_in_bytes .^ 3 in
    '(li, li_to_read, e_li_p, hsz) ← (
      if len =? 2 then
        _ ← res_guard (e_li_p + 1 <=? total_sizeP) EAssert;
        b1 ← rd header_pP e_li_p;
        b2 ← rd header_pP (e_li_p + 1);
        Ok ((u16 (b1 .<< 4) .& 0x07F0) .| (u8 (b2 .>> 4) .& 0x000F),
            b1 .& 0x80, e_li_p, 2)
      else
        _ ← res_guard (e_li_p + 2 <=? total_sizeP) EAssert;
        b2 ← rd header_pP (e_li_p + 1);
        b3 ← rd header_pP (e_li_p + 2);
        Ok ((u16 (b2 .<< 8) .& 0x0700) .| b3, b2 .& 0x08, e_li_p + 3, 1));
    (* li_list[num_li] = li *)
    _ ← res_guard (num_li i <? RLC_UM_SEGMENT_NB_MAX_LI_PER_PDU) EBounds;
    _ ← res_guard (num_li i <=? RLC_UM_SEGMENT_NB_MAX_LI_PER_PDU) EAssert;
    let i := i <| li_list := li_list i ++ [li] |>
               <| header_size := s16 (header_size i + hsz) |> in
    let sum_li := s32 (sum_li + li) in
    let i := i <| num_li := u16 (num_li i + 1) |> in
    if RLC_UM_SEGMENT_NB_MAX_LI_PER_PDU <? num_li i
    then Ok (true, e_li_p, len, sum_li, i)
    else if truth li_to_read
    then li_loop fuel header_pP total_sizeP e_li_p len sum_li i
    else Ok (false, e_li_p, len, sum_li, i)
end.

(** The value returned and [*pdu_info_pP]. *)
Definition rlc_um_get_pdu_infos (header_pP : list Z) (total_sizeP sn_lengthP : Z)
  : res (Z * um_pdu_info) :=
_ ← res_guard (0 <? total_sizeP) EAssert;
i ← fixed_header header_pP sn_lengthP;
'(failed, e_li_p, len, sum_li, i) ← (
  if truth (e i) then li_loop 26 header_pP total_sizeP (payload i) 1 0 i
  else Ok (false, payload i, 1, 0, i));
if (failed : bool) then Ok (-2, i)
else
    let i := i <| payload := if truth (e i)
                             then (if len =? 2 then e_li_p + 2 else e_li_p)
                             else payload i |>
               <| payload_size := s16 (total_sizeP - header_size i) |> in
    let i := if sum_li <? payload_size i
             then i <| hidden_size := s16 (payload_size i - sum_li) |>
             else i in
    Ok (0, i).

End PduInfo.

(** ** [rlc_um_read_length_indicators]

    [e_liP] is the memory from the first group on, [li_array_pP] what has been
    read so far.  The result holds the indicators and the value left in
    [*data_size_pP]; [None] is the return of -1. *)
Fixpoint read_li_loop (e_liP li_array_pP : list Z) (data_sizeP : Z)
    : res (option (list Z * Z)) :=
  match e_liP with
  | b1 :: b2 :: rest =>
      let e1 := (b1 .& 0x80) .>> 7 in
      let li1 := ((b1 .& 0x7F) .<< 4) + ((b2 .& 0xF0) .>> 4) in
      let lis := li_array_pP ++ [li1] in
      let size1 := s32 (data_sizeP - li1 - 2) in
      if truth e1 then
        match rest with
        | b3 :: rest' =>
            let e2 := (b2 .& 0x08) .>> 3 in
            let li2 := ((b2 .& 0x07) .<< 8) + (b3 .& 0xFF) in
            let lis := lis ++ [li2] in
            let size2 := s32 (size1 - li2 - 1) in
            if RLC_UM_SEGMENT_NB_MAX_LI_PER_PDU <=? zlen lis then Ok None
            else if e2 =? 0 then Ok (Some (lis, size2))
            else read_li_loop rest' lis size2
        | [] => Err EBounds
        end
      else if RLC_UM_SEGMENT_NB_MAX_LI_PER_PDU <=? zlen lis then Ok None
      else Ok (Some (lis, size1))
  | _ => Err EBounds
  end.

(** Bytes taken by [n] length indicators. *)
Definition li_header_len (n : Z) : Z := (n * 3 + 1) .>> 1.

(** The indicators, the displacement of [*data_ppP] and the new data size. *)
Definition rlc_um_read_length_indicators (e_liP : list Z) (data_sizeP : Z)
    : res (option (list Z * Z * Z)) :=
  r ← read_li_loop e_liP [] data_sizeP;
  Ok (match r with
      | None => None
      | Some (lis, sz) => Some (lis, li_header_len (zlen lis), sz)
      end).

(** ** Reference encoding of the length indicators (36.322, 6.2.1.3) *)

Fixpoint li_encode (lis : list Z) : list Z :=
  match lis with
  | [] => []
  | [l] => [l / 16; (l mod 16) * 16]
  | l1 :: l2 :: ls =>
      [128 + l1 / 16;
       (l1 mod 16) * 16 + (if decide (ls = []) then 0 else 8) + l2 / 256;
       l2 mod 256] ++ li_encode ls
  end.

(** ** The fixed part of the header as the receiver reads it *)

(** [rlc_um_try_reassembly]: [e], [fi] and the length of the fixed part. *)
Definition umd_fixed_part (rx_sn_length_ : Z) (data : list Z) : res (Z * Z * Z) :=
  b1 ← rd data 0;
  if rx_sn_length_ =? 10 then Ok ((b1 .& 0x04) .>> 2, (b1 .& 0x18) .>> 3, 2)
  else Ok ((b1 .& 0x20) .>> 5, (b1 .& 0xC0) .>> 6, 1).

(** [rlc_um_receive_process_dar]: the sequence number, [-1] when the length is
    neither of the two. *)
Definition umd_sn (rx_sn_length_ : Z) (data : list Z) : res Z :=
  if rx_sn_length_ =? 10 then
    b1 ← rd data 0;
    b2 ← rd data 1;
    Ok (s16 (((b1 .& 0x03) .<< 8) + b2))
  else if rx_sn_length_ =? 5 then
    b1 ← rd data 0;
    Ok (b1 .& 0x1F)
  else Ok (-1).

(** ** Lemmas *)

Lemma li_header_len_eq n : li_header_len n = (n * 3 + 1) / 2.
Proof. unfold li_header_len. by rewrite Z.shiftr_div_pow2. Qed.

Lemma li_header_len_pair n : li_header_len (2 + n) = 3 + li_header_len n.
Proof.
  rewrite !li_header_len_eq.
  replace ((2 + n) * 3 + 1) with (n * 3 + 1 + 3 * 2) by lia.
  rewrite Z.div_add by lia. lia.
Qed.

Lemma li_header_len_bound n : 0 <= n -> n <= li_header_len n <= 2 * n.
Proof.
  intros. rewrite li_header_len_eq. div_lia.
Qed.

Lemma li_encode_len lis : zlen (li_encode lis) = li_header_len (zlen lis).
Proof.
  induction lis as [|x|x y l IH] using pair_list_ind; [done|done|].
  change (li_encode (x :: y :: l)) with
    ([128 + x / 16;
      (x mod 16) * 16 + (if decide (l = []) then 0 else 8) + y / 256;
      y mod 256] ++ li_encode l).
  rewrite zlen_app, IH, !zlen_cons, zlen_nil.
  replace (1 + (1 + zlen l)) with (2 + zlen l) by lia.
  rewrite li_header_len_pair. lia.
Qed.

Lemma field_b7 x : (x .& 0x80) .>> 7 = (x / 128) mod 2.
Proof. apply (land_field x 7 1); lia. Qed.
Lemma field_b3 x : (x .& 0x08) .>> 3 = (x / 8) mod 2.
Proof. apply (land_field x 3 1); lia. Qed.
Lemma field_hi4 x : (x .& 0xF0) .>> 4 = (x / 16) mod 16.
Proof. apply (land_field x 4 4); lia. Qed.
Lemma field_lo7 x : x .& 0x7F = x mod 128.
Proof. apply (land_ones_mod x 7); lia. Qed.
Lemma field_lo3 x : x .& 0x07 = x mod 8.
Proof. apply (land_ones_mod x 3); lia. Qed.
Lemma field_b2 x : (x .& 0x04) .>> 2 = (x / 4) mod 2.
Proof. apply (land_field x 2 1); lia. Qed.
Lemma field_b34 x : (x .& 0x18) .>> 3 = (x / 8) mod 4.
Proof. apply (land_field x 3 2); lia. Qed.
Lemma field_b5 x : (x .& 0x20) .>> 5 = (x / 32) mod 2.
Proof. apply (land_field x 5 1); lia. Qed.
Lemma field_b67 x : (x .& 0xC0) .>> 6 = (x / 64) mod 4.
Proof. apply (land_field x 6 2); lia. Qed.
Lemma field_lo2 x : x .& 0x03 = x mod 4.
Proof. apply (land_ones_mod x 2); lia. Qed.
Lemma field_lo5 x : x .& 0x1F = x mod 32.
Proof. apply (land_ones_mod x 5); lia. Qed.
Lemma field_lo8 x : x .& 0xFF = x mod 256.
Proof. apply (land_ones_mod x 8); lia. Qed.

(** The mask after the shift. *)
Lemma field_3_2 x : (x .>> 3) .& 0x03 = (x / 8) mod 4.
Proof. rewrite field_lo2, Z.shiftr_div_pow2; done. Qed.
Lemma field_2_1 x : (x .>> 2) .& 0x01 = (x / 4) mod 2.
Proof. rewrite (land_ones_mod _ 1), Z.shiftr_div_pow2; done. Qed.
Lemma field_6_2 x : (x .>> 6) .& 0x03 = (x / 64) mod 4.
Proof. rewrite field_lo2, Z.shiftr_div_pow2; done. Qed.
Lemma field_5_1 x : (x .>> 5) .& 0x01 = (x / 32) mod 2.
Proof. rewrite (land_ones_mod _ 1), Z.shiftr_div_pow2; done. Qed.

Create Rewrite HintDb fields.
#[export] Hint Rewrite field_b7 field_b3 field_hi4 field_lo7 field_lo3
  field_lo8 field_b2 field_b34 field_b5 field_b67 field_lo2 field_lo5 : fields.

Definition li_ok (l : Z) : Prop := 0 <= l < 2048.

(** One group read back: the two indicators of a full group. *)
Lemma li_group_fields l1 l2 m :
  li_ok l1 -> li_ok l2 -> m = 0 \/ m = 8 ->
  let b1 := 128 + l1 / 16 in
  let b2 := (l1 mod 16) * 16 + m + l2 / 256 in
  let b3 := l2 mod 256 in
  (b1 / 128) mod 2 = 1 /\
  (b1 mod 128) * 2 ^ 4 + (b2 / 16) mod 16 = l1 /\
  (b2 / 8) mod 2 = m / 8 /\
  (b2 mod 8) * 2 ^ 8 + b3 mod 256 = l2.
Proof. unfold li_ok. cbn zeta. intros H1 H2 [-> | ->]; repeat split; div_lia. Qed.

Lemma li_single_fields l :
  li_ok l ->
  let b1 := l / 16 in
  let b2 := (l mod 16) * 16 in
  (b1 / 128) mod 2 = 0 /\ (b1 mod 128) * 2 ^ 4 + (b2 / 16) mod 16 = l.
Proof. unfold li_ok. cbn zeta. intros H1; split; div_lia. Qed.

Lemma li_encode_bytes lis : Forall li_ok lis -> bytes (li_encode lis).
Proof.
  unfold in_u.
  induction lis as [|x|x y l IH] using pair_list_ind; intros H; [constructor|..].
  - apply Forall_cons in H as [H _]. unfold li_ok in H.
    repeat constructor; change (2 ^ 8) with 256; div_lia.
  - inversion H as [|?? Hx Hyl]; inversion Hyl as [|?? Hy Hl]; subst.
    unfold li_ok in *. cbn. change (2 ^ 8) with 256.
    repeat constructor; [..|exact (IH Hl)];
      destruct (decide (l = [])); div_lia.
Qed.

(** One turn of the reading loop, by the fields of the group. *)
Lemma read_li_last b1 b2 rest acc sz :
  (b1 / 128) mod 2 = 0 ->
  let li := (b1 mod 128) * 2 ^ 4 + (b2 / 16) mod 16 in
  zlen acc + 1 < 24 ->
  read_li_loop (b1 :: b2 :: rest) acc sz
  = Ok (Some (acc ++ [li], s32 (sz - li - 2))).
Proof.
  intros He li Hn. cbn [read_li_loop]. autorewrite with fields.
  rewrite He, Z.shiftl_mul_pow2 by lia. cbn [truth Z.eqb negb]. fold li.
  rewrite zlen_app, zlen_cons, zlen_nil.
  rewrite (proj2 (Z.leb_gt _ _)); [done|].
  unfold RLC_UM_SEGMENT_NB_MAX_LI_PER_PDU. lia.
Qed.

Lemma read_li_group b1 b2 b3 rest acc sz :
  (b1 / 128) mod 2 = 1 ->
  let li1 := (b1 mod 128) * 2 ^ 4 + (b2 / 16) mod 16 in
  let li2 := (b2 mod 8) * 2 ^ 8 + b3 mod 256 in
  let sz' := s32 (s32 (sz - li1 - 2) - li2 - 1) in
  zlen acc + 2 < 24 ->
  read_li_loop (b1 :: b2 :: b3 :: rest) acc sz
  = if (b2 / 8) mod 2 =? 0 then Ok (Some (acc ++ [li1; li2], sz'))
    else read_li_loop rest (acc ++ [li1; li2]) sz'.
Proof.
  intros He li1 li2 sz' Hn. cbn [read_li_loop]. autorewrite with fields.
  rewrite He, !Z.shiftl_mul_pow2 by lia. cbn [truth Z.eqb negb].
  fold li1 li2. fold sz'. rewrite <- app_assoc. cbn [app].
  rewrite zlen_app, !zlen_cons, zlen_nil.
  rewrite (proj2 (Z.leb_gt _ _)); [done|].
  unfold RLC_UM_SEGMENT_NB_MAX_LI_PER_PDU. lia.
Qed.

(** Reading back what the reference encoding wrote. *)
Lemma read_li_encode lis : forall acc rest sz,
  lis <> [] -> Forall li_ok lis -> zlen acc + zlen lis < 24 ->
  sz < 2147483648 ->
  -2147483648 <= sz - sumZ lis - li_header_len (zlen lis) ->
  read_li_loop (li_encode lis ++ rest) acc sz
  = Ok (Some (acc ++ lis, sz - sumZ lis - li_header_len (zlen lis))).
Proof.
  induction lis as [|x|x y l IH] using pair_list_ind; intros acc rest sz Hne Hok
    Hn Hhi Hlo; [done|..].
  - apply Forall_cons in Hok as [Hok _].
    destruct (li_single_fields x Hok) as [He1 Hl1]. cbn zeta in He1, Hl1.
    rewrite zlen_cons, zlen_nil in *. change (li_header_len (1 + 0)) with 2 in *.
    cbn [li_encode app sumZ] in *. unfold li_ok in Hok.
    rewrite read_li_last, Hl1 by (done || lia).
    rewrite s32_small by lia. do 3 f_equal. lia.
  - apply Forall_cons in Hok as [Hx Hok]; apply Forall_cons in Hok as [Hy Hl].
    rewrite !zlen_cons in *.
    replace (1 + (1 + zlen l)) with (2 + zlen l) in * by lia.
    rewrite li_header_len_pair in *. cbn [sumZ] in *.
    assert (Hs : 0 <= sumZ l)
      by (apply sumZ_nonneg; eapply Forall_impl; [exact Hl|]; unfold li_ok; lia).
    pose proof (li_header_len_bound (zlen l) (zlen_nonneg l)).
    pose proof (zlen_nonneg l).
    change (li_encode (x :: y :: l)) with
      ([128 + x / 16;
        (x mod 16) * 16 + (if decide (l = []) then 0 else 8) + y / 256;
        y mod 256] ++ li_encode l).
    cbn [app].
    destruct (li_group_fields x y (if decide (l = []) then 0 else 8) Hx Hy)
      as (He1 & Hl1 & He2 & Hl2); [destruct (decide _); auto|].
    cbn zeta in *. unfold li_ok in Hx, Hy.
    rewrite read_li_group, Hl1, Hl2, He2 by (done || lia).
    rewrite (s32_small (sz - x - 2)), s32_small by lia.
    destruct (decide (l = [])) as [->|Hne']; cbn [Z.eqb].
    + cbn [sumZ]. change (li_header_len (zlen (@nil Z))) with 0.
      change (0 / 8 =? 0) with true. cbn match. do 3 f_equal. lia.
    + change (8 / 8 =? 0) with false. cbn match.
      rewrite IH by (try done; rewrite ?zlen_app, ?zlen_cons, ?zlen_nil; lia).
      rewrite <- app_assoc. do 3 f_equal. lia.
Qed.

(** ** The fixed part of the header, for both lengths of sequence numbers *)

Definition fi_of (starts ends : bool) : Z :=
  (if starts then 0 else 2) + (if ends then 0 else 1).

(** What the receiver and the transmitter assume of a header format. *)
Class UmdFormat := {
  fmt_len : Z;
  fmt_modulo : Z;
  fmt_window : Z;
  fmt_hlen : Z;
  fmt_encode : Z -> Z -> Z -> list Z;
  fmt_window_pos : 0 < fmt_window <= 512;
  fmt_modulo_eq : fmt_modulo = 2 * fmt_window;
  fmt_len_cases : (fmt_len = 10 /\ fmt_window = 512 /\ fmt_hlen = 2)
                  \/ (fmt_len = 5 /\ fmt_window = 16 /\ fmt_hlen = 1);
  fmt_hlen_range : 0 < fmt_hlen <= 2;
  fmt_encode_len fi eb sn_ : zlen (fmt_encode fi eb sn_) = fmt_hlen;
  fmt_encode_bytes fi eb sn_ :
    0 <= fi < 4 -> 0 <= eb < 2 -> 0 <= sn_ < fmt_modulo ->
    bytes (fmt_encode fi eb sn_);
  fmt_decode fi eb sn_ rest :
    0 <= fi < 4 -> 0 <= eb < 2 -> 0 <= sn_ < fmt_modulo ->
    umd_fixed_part fmt_len (fmt_encode fi eb sn_ ++ rest) = Ok (eb, fi, fmt_hlen);
  fmt_decode_sn fi eb sn_ rest :
    0 <= fi < 4 -> 0 <= eb < 2 -> 0 <= sn_ < fmt_modulo ->
    umd_sn fmt_len (fmt_encode fi eb sn_ ++ rest) = Ok sn_;
  fmt_decode_info fi eb sn_ rest :
    0 <= fi < 4 -> 0 <= eb < 2 -> 0 <= sn_ < fmt_modulo ->
    PduInfo.fixed_header (fmt_encode fi eb sn_ ++ rest) fmt_len
    = Ok (PduInfo.UmPduInfo fi eb sn_ 0 [] 0 fmt_hlen 0 fmt_hlen)
}.

Definition fixed_10 (fi eb sn_ : Z) : list Z :=
  [fi * 8 + eb * 4 + sn_ / 256; sn_ mod 256].
Definition fixed_5 (fi eb sn_ : Z) : list Z := [fi * 64 + eb * 32 + sn_].

Lemma rd_cons_0 {A} (x : A) l : rd (x :: l) 0 = Ok x.
Proof. done. Qed.
Lemma rd_cons_1 {A} (x y : A) l : rd (x :: y :: l) 1 = Ok y.
Proof. done. Qed.

(** The obligations of a format: a few divisions by constants. *)
Ltac fmt_solve :=
  unfold fixed_10, fixed_5, umd_fixed_part, umd_sn, PduInfo.fixed_header, in_u,
    RLC_UM_SN_10_BITS_MODULO, RLC_UM_SN_5_BITS_MODULO;
  intros; cbn [app]; change (2 ^ 8) with 256;
  rewrite ?rd_cons_0, ?rd_cons_1; cbn [mbind res_bind Z.eqb Pos.eqb];
  rewrite ?field_3_2, ?field_2_1, ?field_6_2, ?field_5_1;
  autorewrite with fields;
  rewrite ?Z.shiftl_mul_pow2, ?s16_small by div_lia;
  first [forall_list; div_lia | repeat f_equal; div_lia].

#[export] Program Instance fmt10 : UmdFormat | 10 := {|
  fmt_len := 10; fmt_modulo := RLC_UM_SN_10_BITS_MODULO;
  fmt_window := RLC_UM_WINDOW_SIZE_SN_10_BITS; fmt_hlen := 2;
  fmt_encode := fixed_10 |}.
Next Obligation. done. Qed.
Next Obligation. done. Qed.
Next Obligation. auto. Qed.
Next Obligation. done. Qed.
Next Obligation. done. Qed.
Next Obligation. fmt_solve. Qed.
Next Obligation. fmt_solve. Qed.
Next Obligation. fmt_solve. Qed.
Next Obligation. fmt_solve. Qed.

#[export] Program Instance fmt5 : UmdFormat | 20 := {|
  fmt_len := 5; fmt_modulo := RLC_UM_SN_5_BITS_MODULO;
  fmt_window := RLC_UM_WINDOW_SIZE_SN_5_BITS; fmt_hlen := 1;
  fmt_encode := fixed_5 |}.
Next Obligation. done. Qed.
Next Obligation. done. Qed.
Next Obligation. auto. Qed.
Next Obligation. done. Qed.
Next Obligation. done. Qed.
Next Obligation. fmt_solve. Qed.
Next Obligation. fmt_solve. Qed.
Next Obligation. fmt_solve. Qed.
Next Obligation. fmt_solve. Qed.

(** The UMD PDU of 36.322: segments which each end an SDU, announced by a
    length indicator, then the last segment, which takes the rest. *)
Record umd := Umd {
  umd_starts : bool;            (** the first byte is the first of an SDU *)
  umd_ends : bool;              (** the last byte is the last of an SDU *)
  umd_full : list (list Z);
  umd_last : list Z
}.

Definition umd_lis (u : umd) : list Z := (fun s => zlen s) <$> umd_full u.

Definition umd_encode `{UmdFormat} (u : umd) (sn_ : Z) : list Z :=
  fmt_encode (fi_of (umd_starts u) (umd_ends u))
    (if decide (umd_full u = []) then 0 else 1) sn_
  ++ li_encode (umd_lis u) ++ concat (umd_full u) ++ umd_last u.

Lemma fi_of_range starts ends : 0 <= fi_of starts ends < 4.
Proof. unfold fi_of. destruct starts, ends; lia. Qed.

