(* ===== verification/RlcUmReassembly.v ===== *)
(** RLC UM v9.3.0: reassembly of SDUs ([rlc_um_reassembly.c]) and the
    treatment of one PDU by the loop of [rlc_um_try_reassembly]
    ([rlc_um_dar.c]). *)
From S2P Require Import Prelude.
From S2P Require Import RlcUmEntity.
From S2P Require Import RlcUmHeader.

Local Open Scope Z_scope.
Local Open Scope c_scope.

(** ** [rlc_um_reassembly.c] *)

Definition rlc_um_clear_rx_sdu (e : um_rx) : um_rx :=
  e <| output_sdu_size_to_write := 0 |>.

Definition sdu_max_size (e : um_rx) : Z :=
  if is_data_plane e then RLC_SDU_MAX_SIZE_DATA_PLANE
  else RLC_SDU_MAX_SIZE_CONTROL_PLANE.

(** [get_free_mem_block] for the SDU under construction: a block whose
    contents do not matter, or none. *)
Definition get_output_block (e : um_rx) : um_rx :=
  match output_sdu_in_construction e with
  | Some _ => e
  | None =>
      match pool e with
      | false :: p => e <| pool := p |> <| output_sdu_size_to_write := 0 |>
      | true :: p =>
          e <| pool := p |> <| output_sdu_in_construction := Some [] |>
            <| output_sdu_size_to_write := 0 |>
      | [] =>
          e <| output_sdu_in_construction := Some [] |>
            <| output_sdu_size_to_write := 0 |>
      end
  end.

(** [src_pP] is the memory from the pointer on.  The block is the list of the
    bytes written so far, of which the first [output_sdu_size_to_write]
    count. *)
Definition rlc_um_reassembly (src_pP : list Z) (lengthP : Z) (e : um_rx)
    : res um_rx :=
  if lengthP <=? 0 then Ok e
  else
    let e := get_output_block e in
    match output_sdu_in_construction e with
    | Some blk =>
        if output_sdu_size_to_write e + lengthP <=? sdu_max_size e then
          src ← rd_n src_pP 0 lengthP;
          let off := Z.to_nat (output_sdu_size_to_write e) in
          Ok (e <| output_sdu_in_construction := Some (take off blk ++ src) |>
                <| output_sdu_size_to_write :=
                     s32 (output_sdu_size_to_write e + lengthP) |>)
        else Ok (e <| output_sdu_size_to_write := 0 |>)
    | None => Ok e
    end.

Definition rlc_um_send_sdu (e : um_rx) : um_rx :=
  match output_sdu_in_construction e with
  | Some blk =>
      let n := output_sdu_size_to_write e in
      let e :=
        if 0 <? n then
          e <| rx_stats := (rx_stats e)
                 <| stat_rx_pdcp_sdu := u32 (stat_rx_pdcp_sdu (rx_stats e) + 1) |>
                 <| stat_rx_pdcp_bytes :=
                      u32 (stat_rx_pdcp_bytes (rx_stats e) + n) |> |>
            <| delivered := delivered e ++ [take (Z.to_nat n) blk] |>
            <| output_sdu_in_construction := None |>
        else e in
      e <| output_sdu_size_to_write := 0 |>
  | None => e
  end.

(** ** One PDU of [rlc_um_try_reassembly] *)

Definition drop_pdu_stats (bytes_ : Z) (e : um_rx) : um_rx :=
  e <| rx_stats := (rx_stats e)
         <| stat_rx_data_pdu_dropped :=
              u32 (stat_rx_data_pdu_dropped (rx_stats e) + 1) |>
         <| stat_rx_data_bytes_dropped :=
              u32 (stat_rx_data_bytes_dropped (rx_stats e) + bytes_) |> |>.

Definition drop_bytes_stats (bytes_ : Z) (e : um_rx) : um_rx :=
  e <| rx_stats := (rx_stats e)
         <| stat_rx_data_bytes_dropped :=
              u32 (stat_rx_data_bytes_dropped (rx_stats e) + bytes_) |> |>.

(** The fixed part of the header of a stored PDU: [e], [fi], the displacement
    of [e_li_p] and [data_p], and [size]. *)
Definition pdu_fixed_part (e : um_rx) (tb : mac_tb_ind) : res (Z * Z * Z * Z) :=
  '(ebit, fi, off) ← umd_fixed_part (rx_sn_length e) (data_ptr tb);
  Ok (ebit, fi, off, ind_size tb - off).

(** A PDU without length indicators. *)
Definition reassemble_no_li (fi : Z) (data_p : list Z) (size_ tbsize : Z)
    (e : um_rx) : res um_rx :=
  if fi =? 0 then
    let e := rlc_um_clear_rx_sdu e in
    e ← rlc_um_reassembly data_p size_ e;
    Ok ((rlc_um_send_sdu e) <| reassembly_missing_sn_detected := false |>)
  else if fi =? 1 then
    let e := rlc_um_clear_rx_sdu e in
    e ← rlc_um_reassembly data_p size_ e;
    Ok (e <| reassembly_missing_sn_detected := false |>)
  else if fi =? 2 then
    e ← (if reassembly_missing_sn_detected e then Ok (drop_pdu_stats tbsize e)
         else e ← rlc_um_reassembly data_p size_ e; Ok (rlc_um_send_sdu e));
    Ok (e <| reassembly_missing_sn_detected := false |>)
  else if fi =? 3 then
    if reassembly_missing_sn_detected e then
      Ok (drop_pdu_stats tbsize (e <| reassembly_missing_sn_detected := true |>))
    else rlc_um_reassembly data_p size_ e
  else Err EAssert.

(** The loop over the length indicators, with the memory left at [data_p]. *)
Fixpoint reassemble_lis (li_array data_p : list Z) (e : um_rx)
    : res (um_rx * list Z) :=
  match li_array with
  | [] => Ok (e, data_p)
  | li :: lis =>
      e ← rlc_um_reassembly data_p li e;
      reassemble_lis lis (drop (Z.to_nat li) data_p) (rlc_um_send_sdu e)
  end.

(** The first segment of a PDU which does not start an SDU is skipped when the
    beginning of that SDU is missing. *)
Definition skip_first_li (li_array data_p : list Z) (e : um_rx)
    : res (list Z * list Z * um_rx) :=
  if reassembly_missing_sn_detected e then
    match li_array with
    | li0 :: lis =>
        Ok (lis, drop (Z.to_nat li0) data_p, drop_bytes_stats li0 e)
    | [] => Err EBounds
    end
  else Ok (li_array, data_p, e).

(** FI 00: complete SDUs only. *)
Definition reassemble_li_fi0 (li_array data_p : list Z) (size_ : Z) (e : um_rx)
    : res um_rx :=
  let e := rlc_um_clear_rx_sdu e in
  '(e, data_p) ← reassemble_lis li_array data_p e;
  e ← (if 0 <? size_ then
         e ← rlc_um_reassembly data_p size_ e; Ok (rlc_um_send_sdu e)
       else Ok e);
  Ok (e <| reassembly_missing_sn_detected := false |>).

(** FI 01: complete SDUs, then the beginning of one. *)
Definition reassemble_li_fi1 (li_array data_p : list Z) (size_ : Z) (e : um_rx)
    : res um_rx :=
  let e := rlc_um_clear_rx_sdu e in
  '(e, data_p) ← reassemble_lis li_array data_p e;
  e ← (if 0 <? size_ then rlc_um_reassembly data_p size_ e else Ok e);
  Ok (e <| reassembly_missing_sn_detected := false |>).

(** FI 10: the end of an SDU, then complete SDUs. *)
Definition reassemble_li_fi2 (li_array data_p : list Z) (size_ : Z) (e : um_rx)
    : res um_rx :=
  '(lis, data_p, e) ← skip_first_li li_array data_p e;
  '(e, data_p) ← reassemble_lis lis data_p e;
  e ← (if 0 <? size_ then
         e ← rlc_um_reassembly data_p size_ e; Ok (rlc_um_send_sdu e)
       else Ok e);
  Ok (e <| reassembly_missing_sn_detected := false |>).

(** FI 11: the end of an SDU, complete SDUs, the beginning of one. *)
Definition reassemble_li_fi3 (li_array data_p : list Z) (size_ : Z) (e : um_rx)
    : res um_rx :=
  '(lis, data_p, e) ← skip_first_li li_array data_p e;
  '(e, data_p) ← reassemble_lis lis data_p e;
  e ← (if 0 <? size_ then rlc_um_reassembly data_p size_ e else Err EAssert);
  Ok (e <| reassembly_missing_sn_detected := false |>).

Definition reassemble_li (fi : Z) (li_array data_p : list Z)
    (size_ tbsize : Z) (e : um_rx) : res um_rx :=
  if fi =? 0 then reassemble_li_fi0 li_array data_p size_ e
  else if fi =? 1 then reassemble_li_fi1 li_array data_p size_ e
  else if fi =? 2 then reassemble_li_fi2 li_array data_p size_ e
  else if fi =? 3 then reassemble_li_fi3 li_array data_p size_ e
  else Ok ((drop_pdu_stats tbsize e) <| reassembly_missing_sn_detected := true |>).

(** The treatment of the PDU [tb] of sequence number [sn_], up to its release. *)
Definition reassemble_pdu (sn_ : Z) (tb : mac_tb_ind) (e : um_rx) : res um_rx :=
  let e :=
    if Z.rem (last_reassemblied_sn e + 1) (rx_sn_modulo e) =? sn_ then e
    else rlc_um_clear_rx_sdu e in
  let e := e <| last_reassemblied_sn := u16 sn_ |> in
  '(ebit, fi, off, size_) ← pdu_fixed_part e tb;
  let data_p := drop (Z.to_nat off) (data_ptr tb) in
  if ebit =? 0 then reassemble_no_li fi data_p size_ (ind_size tb) e
  else
    r ← rlc_um_read_length_indicators data_p size_;
    match r with
    | Some (li_array, hlen, size_) =>
        reassemble_li fi li_array (drop (Z.to_nat hlen) data_p) size_ (ind_size tb) e
    | None => Ok e
    end.

(** A sequence number without PDU. *)
Definition reassemble_missing (sn_ : Z) (e : um_rx) : um_rx :=
  rlc_um_clear_rx_sdu
    (e <| last_reassemblied_missing_sn := u16 sn_ |>
       <| reassembly_missing_sn_detected := true |>).

(** ** The part of the state reassembly never touches *)

Definition rx_core (e : um_rx) : um_rx :=
  e <| output_sdu_in_construction := None |> <| output_sdu_size_to_write := 0 |>
    <| rx_stats := um_rx_stats_zero |> <| pool := [] |> <| delivered := [] |>
    <| reassembly_missing_sn_detected := false |>.

Create Rewrite HintDb rx_core.

Lemma core_clear e : rx_core (rlc_um_clear_rx_sdu e) = rx_core e.
Proof. reflexivity. Qed.

Lemma core_block e : rx_core (get_output_block e) = rx_core e.
Proof. unfold get_output_block. by repeat case_match. Qed.

Lemma core_reassembly src n e e' :
  rlc_um_reassembly src n e = Ok e' -> rx_core e' = rx_core e.
Proof.
  unfold rlc_um_reassembly. destruct (n <=? 0); [by intros [= <-]|].
  rewrite <- (core_block e).
  generalize (get_output_block e) as b; intros b H. cbn in H.
  repeat case_match; res_inv; done.
Qed.

Lemma core_send e : rx_core (rlc_um_send_sdu e) = rx_core e.
Proof. unfold rlc_um_send_sdu. by repeat case_match. Qed.

Lemma core_missing_flag b e :
  rx_core (e <| reassembly_missing_sn_detected := b |>) = rx_core e.
Proof. reflexivity. Qed.

Lemma core_drop_pdu n e : rx_core (drop_pdu_stats n e) = rx_core e.
Proof. reflexivity. Qed.

Lemma core_lis lis : forall data e e' d',
  reassemble_lis lis data e = Ok (e', d') -> rx_core e' = rx_core e.
Proof.
  induction lis as [|li lis IH]; intros data e e' d' H; cbn in H; res_inv; [done|].
  erewrite IH, core_send, core_reassembly by eassumption. done.
Qed.

Lemma core_skip lis data e lis' d' e' :
  skip_first_li lis data e = Ok (lis', d', e') -> rx_core e' = rx_core e.
Proof. unfold skip_first_li. intros. repeat case_match; res_inv; done. Qed.

#[export] Hint Rewrite core_clear core_send core_missing_flag core_drop_pdu
  : rx_core.

(** Follows the equations of the context back to the initial state. *)
Ltac core_chain :=
  repeat match goal with
  | H : reassemble_lis _ _ _ = Ok _ |- _ => apply core_lis in H
  | H : rlc_um_reassembly _ _ _ = Ok _ |- _ => apply core_reassembly in H
  | H : skip_first_li _ _ _ = Ok _ |- _ => apply core_skip in H
  end;
  autorewrite with rx_core in *; congruence.

Lemma core_no_li fi data n tbs e e' :
  reassemble_no_li fi data n tbs e = Ok e' -> rx_core e' = rx_core e.
Proof.
  unfold reassemble_no_li. intros. repeat case_match; res_inv; core_chain.
Qed.

Lemma core_li fi lis data n tbs e e' :
  reassemble_li fi lis data n tbs e = Ok e' -> rx_core e' = rx_core e.
Proof.
  unfold reassemble_li, reassemble_li_fi0, reassemble_li_fi1,
    reassemble_li_fi2, reassemble_li_fi3.
  intros. repeat case_match; res_inv; core_chain.
Qed.

(** Reassembling a PDU changes the window state only in
    [last_reassemblied_sn]. *)
Lemma core_pdu sn_ tb e e' :
  reassemble_pdu sn_ tb e = Ok e' ->
  rx_core e' = rx_core (e <| last_reassemblied_sn := u16 sn_ |>).
Proof.
  unfold reassemble_pdu. set (e0 := if _ =? sn_ then _ else _).
  assert (H0 : rx_core (e0 <| last_reassemblied_sn := u16 sn_ |>)
               = rx_core (e <| last_reassemblied_sn := u16 sn_ |>))
    by (unfold e0; by case_match).
  rewrite <- H0. generalize (e0 <| last_reassemblied_sn := u16 sn_ |>) as b.
  intros b H. res_inv. case_match; [by eapply core_no_li|].
  res_inv. repeat case_match; res_inv; [by eapply core_li|done].
Qed.

Lemma core_missing sn_ e :
  rx_core (reassemble_missing sn_ e)
  = rx_core (e <| last_reassemblied_missing_sn := u16 sn_ |>).
Proof. reflexivity. Qed.
