(* ===== verification/RlcUmReassemblySpec.v ===== *)
(** RLC UM v9.3.0: what reassembly promises.  A reference function on PDUs
    seen as segments, and the proof that [reassemble_pdu] computes it on the
    bytes of the PDU. *)
From S2P Require Import Prelude.
From S2P Require Import RlcUmEntity.
From S2P Require Import RlcUmHeader.
From S2P Require Import RlcUmReassembly.

Local Open Scope Z_scope.

(** ** Reference *)

(** A segment put behind the SDU under construction, which is given up when it
    would exceed [max] bytes. *)
Definition grow (max : Z) (partial s : list Z) : list Z :=
  if zlen s <=? 0 then partial
  else if zlen partial + zlen s <=? max then partial ++ s else [].

(** The end of an SDU: nothing is delivered when no byte is left. *)
Definition emit (q : list Z) : list (list Z) :=
  if 0 <? zlen q then [q] else [].

(** Segments which each end an SDU: what remains open and what is delivered. *)
Fixpoint feed (max : Z) (full : list (list Z)) (partial : list Z)
    : list Z * list (list Z) :=
  match full with
  | [] => (partial, [])
  | s :: full =>
      let '(p, out) := feed max full [] in (p, emit (grow max partial s) ++ out)
  end.

Definition feed_pdu (max : Z) (full : list (list Z)) (lst : list Z) (ends : bool)
    (partial : list Z) : list Z * list (list Z) :=
  let '(p, out) := feed max full partial in
  if ends then ([], out ++ emit (grow max p lst)) else (grow max p lst, out).

(** [partial] is the SDU under construction; [missing] tells that the
    beginning of the next one has been lost, its segments are skipped. *)
Definition ref_pdu (max : Z) (u : umd) (partial : list Z) (missing : bool)
    : list Z * bool * list (list Z) :=
  let keep r := let '(p, out) := r in (p, false, out) in
  if umd_starts u
  then keep (feed_pdu max (umd_full u) (umd_last u) (umd_ends u) [])
  else if missing then
    match umd_full u with
    | [] => (partial, negb (umd_ends u), [])
    | _ :: full => keep (feed_pdu max full (umd_last u) (umd_ends u) partial)
    end
  else keep (feed_pdu max (umd_full u) (umd_last u) (umd_ends u) partial).

(** A receiver which sees one slot after the other, [None] being a PDU that
    never came: the open SDU, whether its beginning is missing, and all the
    SDUs delivered. *)
Definition ref_slot (max : Z) (st : list Z * bool * list (list Z))
    (slot : option umd) : list Z * bool * list (list Z) :=
  let '(partial, missing, out) := st in
  match slot with
  | Some u =>
      let '(p, m, o) := ref_pdu max u partial missing in (p, m, out ++ o)
  | None => ([], true, out)
  end.

Definition ref_run (max : Z) (slots : list (option umd))
    : list Z * bool * list (list Z) :=
  foldl (ref_slot max) ([], false, []) slots.

Lemma ref_run_snoc max slots s :
  ref_run max (slots ++ [s]) = ref_slot max (ref_run max slots) s.
Proof. unfold ref_run. by rewrite foldl_app. Qed.

Definition umd_segs (u : umd) : list (list Z) := umd_full u ++ [umd_last u].

(** A PDU whose header can be read back and whose last segment, the one without
    length indicator, is not empty. *)
Record umd_ok (u : umd) : Prop := {
  umd_ok_lis : Forall li_ok (umd_lis u);
  umd_ok_num : zlen (umd_full u) < 24;
  umd_ok_last : 0 < zlen (umd_last u);
  umd_ok_size : sumZ (umd_lis u) + zlen (umd_last u) < 60000
}.

(** ** The state of the code against the state of the reference *)

Record reas_rel (e : um_rx) (partial : list Z) (missing : bool) : Prop := {
  rr_missing : reassembly_missing_sn_detected e = missing;
  rr_size : output_sdu_size_to_write e = zlen partial;
  rr_block : match output_sdu_in_construction e with
             | None => partial = []
             | Some blk => take (length partial) blk = partial
             end;
  rr_pool : Forall (eq true) (pool e)
}.

Lemma reas_rel_block e p m :
  reas_rel e p m ->
  exists blk, output_sdu_in_construction (get_output_block e) = Some blk /\
    reas_rel (get_output_block e) p m /\ take (length p) blk = p.
Proof.
  intros [Hm Hs Hb Hp]. unfold get_output_block.
  destruct (output_sdu_in_construction e) as [blk|] eqn:Eo.
  - exists blk. split; [done|]. split; [|done]. constructor; by rewrite ?Eo.
  - subst p. destruct (pool e) as [|b pl] eqn:Ep.
    + exists []. repeat split; try done. by rewrite <- Ep in Hp.
    + apply Forall_cons in Hp as [<- Hp]. exists []. by repeat split.
Qed.

Lemma reas_max e e' : rx_core e = rx_core e' -> sdu_max_size e = sdu_max_size e'.
Proof.
  intros H. unfold sdu_max_size.
  by replace (is_data_plane e) with (is_data_plane e')
    by (symmetry; exact (f_equal is_data_plane H)).
Qed.

Lemma reas_clear e p m : reas_rel e p m -> reas_rel (rlc_um_clear_rx_sdu e) [] m.
Proof.
  intros [Hm Hs Hb Hp]. split; try done.
  by destruct (output_sdu_in_construction (rlc_um_clear_rx_sdu e)).
Qed.

Lemma reas_flag e p m b :
  reas_rel e p m -> reas_rel (e <| reassembly_missing_sn_detected := b |>) p b.
Proof. by intros [Hm Hs Hb Hp]. Qed.

Lemma reas_drop_pdu n e p m : reas_rel e p m -> reas_rel (drop_pdu_stats n e) p m.
Proof. by intros [Hm Hs Hb Hp]. Qed.

Lemma sdu_max_size_bound e : 0 < sdu_max_size e <= 9000.
Proof.
  unfold sdu_max_size, RLC_SDU_MAX_SIZE_DATA_PLANE,
    RLC_SDU_MAX_SIZE_CONTROL_PLANE. destruct (is_data_plane e); lia.
Qed.

Lemma delivered_block e : delivered (get_output_block e) = delivered e.
Proof. unfold get_output_block. by repeat case_match. Qed.

Lemma reas_append e p m s rest :
  reas_rel e p m ->
  exists e', rlc_um_reassembly (s ++ rest) (zlen s) e = Ok e' /\
    reas_rel e' (grow (sdu_max_size e) p s) m /\ delivered e' = delivered e.
Proof.
  intros Hr. unfold rlc_um_reassembly, grow.
  destruct (Z.leb_spec (zlen s) 0) as [Hs|Hs]; [eauto|].
  destruct (reas_rel_block e p m Hr) as (blk & Hb & [Hm Hsz _ Hp] & Hpre).
  rewrite Hb, Hsz, (reas_max _ e (core_block e)).
  destruct (Z.leb_spec (zlen p + zlen s) (sdu_max_size e)) as [Hfit|_].
  - pose proof (rd_n_app [] s rest) as Hrd. cbn [app] in Hrd.
    change (zlen (@nil Z)) with 0 in Hrd. rewrite Hrd. cbn [mbind res_bind].
    eexists; split; [reflexivity|].
    pose proof (sdu_max_size_bound e). pose proof (zlen_nonneg p).
    rewrite s32_small by lia. split; [|apply delivered_block].
    rewrite to_nat_zlen, Hpre. split; [done| | |done].
    + change (zlen p + zlen s = zlen (p ++ s)). by rewrite zlen_app.
    + change (take (length (p ++ s)) (p ++ s) = p ++ s). by rewrite firstn_all.
  - eexists; split; [reflexivity|]. split; [|apply delivered_block].
    split; [done|done| |done]. cbn [length].
    match goal with |- match ?x with _ => _ end => by destruct x end.
Qed.

(** The end of an SDU: nothing is under construction any more. *)
Lemma reas_send e p m :
  reas_rel e p m ->
  reas_rel (rlc_um_send_sdu e) [] m /\
  delivered (rlc_um_send_sdu e) = delivered e ++ emit p.
Proof.
  intros [Hm Hs Hb Hp]. unfold rlc_um_send_sdu, emit.
  destruct (output_sdu_in_construction e) as [blk|] eqn:Eo.
  - rewrite Hs. destruct (Z.ltb_spec 0 (zlen p)).
    + rewrite to_nat_zlen, Hb. by repeat split.
    + rewrite app_nil_r. split; [|done]. split; [done|done| |done].
      change (match output_sdu_in_construction e with
              | Some blk => take (length (@nil Z)) blk = []
              | None => @nil Z = [] end). by rewrite Eo.
  - subst p. cbn. rewrite app_nil_r. split; [|done]. by split; rewrite ?Eo.
Qed.

(** The last segment of an SDU: append and send. *)
Lemma reas_append_send e p m s rest :
  reas_rel e p m ->
  exists e', rlc_um_reassembly (s ++ rest) (zlen s) e = Ok e' /\
    rx_core e' = rx_core e /\ reas_rel (rlc_um_send_sdu e') [] m /\
    delivered (rlc_um_send_sdu e')
    = delivered e ++ emit (grow (sdu_max_size e) p s).
Proof.
  intros Hr. destruct (reas_append e p m s rest Hr) as (e' & He & Hr' & Hd).
  exists e'. split; [done|]. split; [by eapply core_reassembly|].
  rewrite <- Hd. by apply reas_send.
Qed.

(** The loop over the length indicators feeds the reference. *)
Lemma reas_lis full : forall e p m rest,
  reas_rel e p m ->
  exists e', reassemble_lis ((fun s => zlen s) <$> full) (concat full ++ rest) e
             = Ok (e', rest) /\
    rx_core e' = rx_core e /\
    reas_rel e' (fst (feed (sdu_max_size e) full p)) m /\
    delivered e' = delivered e ++ snd (feed (sdu_max_size e) full p).
Proof.
  induction full as [|s full IH]; intros e p m rest Hr.
  - exists e. cbn. by rewrite app_nil_r.
  - cbn [fmap list_fmap concat reassemble_lis]. rewrite <- app_assoc.
    destruct (reas_append_send e p m s (concat full ++ rest) Hr)
      as (e1 & -> & Hc1 & Hr1 & Hd1). cbn [mbind res_bind].
    rewrite to_nat_zlen, drop_app_length.
    destruct (IH (rlc_um_send_sdu e1) [] m rest Hr1) as (e2 & -> & Hc2 & Hr2 & Hd2).
    exists e2. cbn [feed].
    rewrite (reas_max _ e) in Hr2, Hd2 by (by rewrite core_send).
    destruct (feed (sdu_max_size e) full []) as [p' out] eqn:E.
    rewrite core_send in Hc2. cbn [fst snd] in *.
    rewrite Hd2, Hd1, <- app_assoc. split; [done|]. split; [congruence|]. done.
Qed.

(** The end of a PDU, for both values of the second bit of FI. *)
Definition reas_last (ends : bool) (data : list Z) (n : Z) (e : um_rx) : res um_rx :=
  if ends then e ← rlc_um_reassembly data n e; Ok (rlc_um_send_sdu e)
  else rlc_um_reassembly data n e.

Lemma reas_last_ok ends e p m lst rest :
  reas_rel e p m ->
  exists e', reas_last ends (lst ++ rest) (zlen lst) e = Ok e' /\
    reas_rel e' (if ends then [] else grow (sdu_max_size e) p lst) m /\
    delivered e'
    = delivered e ++ (if ends then emit (grow (sdu_max_size e) p lst) else []).
Proof.
  intros Hr. unfold reas_last. destruct ends.
  - destruct (reas_append_send e p m lst rest Hr) as (e' & -> & _ & ? & ?).
    eauto.
  - destruct (reas_append e p m lst rest Hr) as (e' & -> & ? & ?).
    exists e'. by rewrite app_nil_r.
Qed.

(** Length indicators, then the last segment. *)
Lemma reas_lis_last ends e p m full lst rest :
  reas_rel e p m ->
  exists e1 e2,
    reassemble_lis ((fun s => zlen s) <$> full) (concat full ++ lst ++ rest) e
      = Ok (e1, lst ++ rest) /\
    reas_last ends (lst ++ rest) (zlen lst) e1 = Ok e2 /\
    reas_rel e2 (fst (feed_pdu (sdu_max_size e) full lst ends p)) m /\
    delivered e2 = delivered e ++ snd (feed_pdu (sdu_max_size e) full lst ends p).
Proof.
  intros Hr. destruct (reas_lis full e p m (lst ++ rest) Hr)
    as (e1 & H1 & Hc & Hr1 & Hd1).
  destruct (reas_last_ok ends e1 _ m lst rest Hr1) as (e2 & H2 & Hr2 & Hd2).
  exists e1, e2. split; [done|]. split; [done|]. unfold feed_pdu.
  rewrite (reas_max e1 e) in Hr2, Hd2 by done.
  destruct (feed (sdu_max_size e) full p) as [q out]. cbn [fst snd] in *.
  rewrite Hd2, Hd1, <- app_assoc. destruct ends; [done|]. by rewrite app_nil_r.
Qed.

(** What a step of the code must establish against the reference's result. *)
Definition reas_post (e : um_rx) (r : list Z * bool * list (list Z))
    (x : res um_rx) : Prop :=
  exists e', x = Ok e' /\ reas_rel e' (fst (fst r)) (snd (fst r)) /\
    delivered e' = delivered e ++ snd r.

Ltac fi_cases :=
  change (fi_of true true) with 0; change (fi_of true false) with 1;
  change (fi_of false true) with 2; change (fi_of false false) with 3.

(** The four cases of FI as one expression. *)
Lemma reassemble_no_li_eq st en data n tbs e :
  reassemble_no_li (fi_of st en) data n tbs e
  = if st then
      e ← reas_last en data n (rlc_um_clear_rx_sdu e);
      Ok (e <| reassembly_missing_sn_detected := false |>)
    else if reassembly_missing_sn_detected e then
      Ok ((drop_pdu_stats tbs e) <| reassembly_missing_sn_detected := negb en |>)
    else
      e ← reas_last en data n e;
      Ok (if en then e <| reassembly_missing_sn_detected := false |> else e).
Proof.
  destruct st, en; fi_cases;
    unfold reassemble_no_li, reas_last; cbn [Z.eqb Pos.eqb negb].
  - by rewrite res_bind_assoc.
  - done.
  - by destruct (reassembly_missing_sn_detected e).
  - destruct (reassembly_missing_sn_detected e); [done|by rewrite res_bind_ret].
Qed.

Lemma reassemble_li_eq st en lis data n tbs e :
  reassemble_li (fi_of st en) lis data n tbs e
  = '(lis, data, e) ← (if st then Ok (lis, data, rlc_um_clear_rx_sdu e)
                       else skip_first_li lis data e);
    '(e, data) ← reassemble_lis lis data e;
    e ← (if 0 <? n then reas_last en data n e
         else if st || en then Ok e else Err EAssert);
    Ok (e <| reassembly_missing_sn_detected := false |>).
Proof.
  destruct st, en; fi_cases; unfold reassemble_li, reassemble_li_fi0,
    reassemble_li_fi1, reassemble_li_fi2, reassemble_li_fi3, reas_last;
    cbn [Z.eqb Pos.eqb negb orb]; done.
Qed.

Lemma reas_no_li u e p m rest n :
  umd_full u = [] -> reas_rel e p m ->
  reas_post e (ref_pdu (sdu_max_size e) u p m)
    (reassemble_no_li (fi_of (umd_starts u) (umd_ends u)) (umd_last u ++ rest)
       (zlen (umd_last u)) n e).
Proof.
  destruct u as [st en full lst]. unfold ref_pdu.
  cbn [umd_starts umd_ends umd_full umd_last]. intros -> Hr.
  rewrite reassemble_no_li_eq, (rr_missing _ _ _ Hr).
  destruct st; [|destruct m].
  - destruct (reas_last_ok en _ [] m lst rest (reas_clear _ _ _ Hr))
      as (e' & -> & Hr' & Hd). cbn [mbind res_bind].
    eexists; split; [reflexivity|]. apply (reas_flag _ _ _ false) in Hr'.
    by destruct en.
  - eexists; split; [reflexivity|]. split; [|cbn; by rewrite app_nil_r].
    by apply (reas_flag _ p true), reas_drop_pdu.
  - destruct (reas_last_ok en _ p false lst rest Hr)
      as (e' & -> & Hr' & Hd). cbn [mbind res_bind].
    eexists; split; [reflexivity|].
    pose proof (reas_flag _ _ _ false Hr'). by destruct en.
Qed.

Lemma reas_li u e p m rest n :
  umd_full u <> [] -> 0 < zlen (umd_last u) -> reas_rel e p m ->
  reas_post e (ref_pdu (sdu_max_size e) u p m)
    (reassemble_li (fi_of (umd_starts u) (umd_ends u)) (umd_lis u)
       (concat (umd_full u) ++ umd_last u ++ rest) (zlen (umd_last u)) n e).
Proof.
  destruct u as [st en full lst]. unfold ref_pdu, umd_lis.
  cbn [umd_starts umd_ends umd_full umd_last]. intros Hne Hl Hr.
  rewrite reassemble_li_eq. unfold skip_first_li.
  rewrite (rr_missing _ _ _ Hr).
  assert (Hgo : forall e0 q fl, reas_rel e0 q m -> rx_core e0 = rx_core e ->
    delivered e0 = delivered e ->
    reas_post e (let '(p0, out) := feed_pdu (sdu_max_size e) fl lst en q in
                 (p0, false, out))
      ('(e1, data) ← reassemble_lis ((fun s => zlen s) <$> fl)
                       (concat fl ++ lst ++ rest) e0;
       e2 ← (if 0 <? zlen lst then reas_last en data (zlen lst) e1
             else if st || en then Ok e1 else Err EAssert);
       Ok (e2 <| reassembly_missing_sn_detected := false |>))).
  { intros e0 q fl Hr0 Hc0 Hd0.
    destruct (reas_lis_last en e0 q m fl lst rest Hr0)
      as (e1 & e2 & -> & H2 & Hr2 & Hd2). cbn [mbind res_bind].
    rewrite (proj2 (Z.ltb_lt _ _)), H2 by lia. cbn [mbind res_bind].
    eexists; split; [reflexivity|]. rewrite (reas_max e0 e) in Hr2, Hd2 by done.
    rewrite Hd0 in Hd2. destruct (feed_pdu _ fl lst en q) as [r o].
    split; [|done]. by apply reas_flag with (m := m). }
  destruct st; [|destruct m].
  - by apply (Hgo (rlc_um_clear_rx_sdu e) []); [eapply reas_clear| |].
  - destruct full as [|s full]; [done|]. cbn [fmap list_fmap mbind res_bind concat].
    rewrite to_nat_zlen, <- app_assoc, drop_app_length.
    by apply (Hgo (drop_bytes_stats (zlen s) e) p); [destruct Hr; split | |].
  - by apply (Hgo e p).
Qed.

Lemma umd_encode_nil_lis u : umd_full u = [] -> umd_lis u = [].
Proof. unfold umd_lis. by intros ->. Qed.

Lemma drop_fmt `{UmdFormat} fi eb sn_ l :
  drop (Z.to_nat fmt_hlen) (fmt_encode fi eb sn_ ++ l) = l.
Proof.
  rewrite <- (fmt_encode_len fi eb sn_), to_nat_zlen. apply drop_app_length.
Qed.

Lemma umd_lis_sum u : sumZ (umd_lis u) = zlen (concat (umd_full u)).
Proof.
  unfold umd_lis. induction (umd_full u) as [|s l IH]; [done|].
  cbn [fmap list_fmap sumZ concat]. rewrite zlen_app. unfold fmap in *. lia.
Qed.

Lemma umd_lis_len u : zlen (umd_lis u) = zlen (umd_full u).
Proof. unfold umd_lis, zlen. by rewrite length_fmap. Qed.

Lemma umd_encode_len `{UmdFormat} u sn_ :
  zlen (umd_encode u sn_)
  = fmt_hlen + li_header_len (zlen (umd_full u)) + sumZ (umd_lis u)
    + zlen (umd_last u).
Proof.
  unfold umd_encode. rewrite !zlen_app, fmt_encode_len, li_encode_len, umd_lis_sum.
  rewrite umd_lis_len. lia.
Qed.

(** The header of an encoded PDU is read back. *)
Lemma read_umd_lis u rest :
  umd_full u <> [] -> umd_ok u ->
  let body := concat (umd_full u) ++ umd_last u ++ rest in
  let hlen := li_header_len (zlen (umd_full u)) in
  rlc_um_read_length_indicators (li_encode (umd_lis u) ++ body)
    (hlen + sumZ (umd_lis u) + zlen (umd_last u))
  = Ok (Some (umd_lis u, hlen, zlen (umd_last u))).
Proof.
  intros Hne [Hlis Hn _ Hsz] body hlen. unfold rlc_um_read_length_indicators.
  pose proof (umd_lis_len u) as Hlen.
  pose proof (zlen_nonneg (umd_full u)) as Hz.
  pose proof (li_header_len_bound _ Hz) as Hb. fold hlen in Hb.
  pose proof (zlen_nonneg (umd_last u)).
  rewrite read_li_encode; cbn [app mbind res_bind]; rewrite ?Hlen; fold hlen;
    rewrite ?zlen_nil.
  - do 3 f_equal. lia.
  - unfold umd_lis. by destruct (umd_full u).
  - done.
  - lia.
  - lia.
  - lia.
Qed.

Section format.
Context `{F : UmdFormat}.

(** [reassemble_pdu] on the bytes of a PDU computes the reference function on
    its segments. *)
Lemma reassemble_pdu_ref u sn_ e p m rest :
  rx_sn_length e = fmt_len -> umd_ok u -> 0 <= sn_ < fmt_modulo ->
  reas_rel e p m ->
  let p0 := if Z.rem (last_reassemblied_sn e + 1) (rx_sn_modulo e) =? sn_
            then p else [] in
  reas_post e (ref_pdu (sdu_max_size e) u p0 m)
    (reassemble_pdu sn_ (MacTbInd (umd_encode u sn_ ++ rest)
                           (zlen (umd_encode u sn_))) e).
Proof.
  intros Hlen Hok Hsn Hr p0. unfold reassemble_pdu.
  set (e0 := if _ =? sn_ then _ else _).
  assert (Hr0 : reas_rel e0 p0 m)
    by (unfold e0, p0; case_match; [done|by eapply reas_clear]).
  assert (Hc0 : rx_core e0 = rx_core e) by (unfold e0; by case_match).
  assert (Hd0 : delivered e0 = delivered e) by (unfold e0; by case_match).
  clearbody e0 p0.
  set (e1 := e0 <| last_reassemblied_sn := u16 sn_ |>).
  assert (Hr1 : reas_rel e1 p0 m) by (by destruct Hr0).
  assert (Hmax : sdu_max_size e1 = sdu_max_size e) by (by apply (reas_max e0 e)).
  rewrite <- Hmax.
  unfold pdu_fixed_part. cbn [data_ptr ind_size].
  replace (rx_sn_length e1) with (fmt_len (UmdFormat := F))
    by (rewrite <- Hlen; symmetry; exact (f_equal rx_sn_length Hc0)).
  unfold reas_post. rewrite <- Hd0.
  change (delivered e0) with (delivered e1).
  assert (Hlen2 := umd_encode_len u sn_).
  rewrite Hlen2. unfold umd_encode. rewrite <- !app_assoc, fmt_decode
    by (try apply fi_of_range; try done; by destruct (decide _)).
  cbn [mbind res_bind]. rewrite drop_fmt.
  destruct (decide (umd_full u = [])) as [Hnil|Hne].
  - cbn [Z.eqb]. rewrite (umd_encode_nil_lis u Hnil), Hnil.
    change (zlen (@nil (list Z))) with 0. change (li_header_len 0) with 0.
    cbn [li_encode concat app sumZ].
    replace (fmt_hlen + 0 + 0 + zlen (umd_last u) - fmt_hlen)
      with (zlen (umd_last u)) by lia.
    by apply reas_no_li.
  - change (1 =? 0) with false. cbn match.
    replace (fmt_hlen + li_header_len (zlen (umd_full u)) + sumZ (umd_lis u)
             + zlen (umd_last u) - fmt_hlen)
      with (li_header_len (zlen (umd_full u)) + sumZ (umd_lis u)
            + zlen (umd_last u)) by lia.
    rewrite read_umd_lis by done. cbn [mbind res_bind].
    rewrite <- umd_lis_len, <- li_encode_len, to_nat_zlen, drop_app_length.
    apply reas_li; [done|by apply umd_ok_last|done].
Qed.

(** C15.  Reassembly of one PDU.  The code which undoes concatenation and
    segmentation (the switch on FI, the walk over the length indicators, the
    copies into the SDU buffer) computes, on the bytes of any well-formed
    PDU, the reference function on its segments: the same SDUs delivered, the
    same partial SDU kept (dropped first when the previous sequence number is
    not the one before), the same missing flag; it never reads or writes
    outside a buffer. *)
Theorem reassembly_refines u sn_ e p m rest :
  rx_sn_length e = fmt_len -> umd_ok u -> 0 <= sn_ < fmt_modulo ->
  reas_rel e p m ->
  let p0 := if Z.rem (last_reassemblied_sn e + 1) (rx_sn_modulo e) =? sn_
            then p else [] in
  let '(p', m', out) := ref_pdu (sdu_max_size e) u p0 m in
  exists e', reassemble_pdu sn_ (MacTbInd (umd_encode u sn_ ++ rest)
                                   (zlen (umd_encode u sn_))) e = Ok e' /\
    reas_rel e' p' m' /\ delivered e' = delivered e ++ out.
Proof.
  intros Hlen Hok Hsn Hr p0.
  pose proof (reassemble_pdu_ref u sn_ e p m rest Hlen Hok Hsn Hr) as H.
  unfold reas_post in H. fold p0 in H.
  by destruct (ref_pdu _ u p0 m) as [[p' m'] out].
Qed.
End format.
