(* ===== verification/RlcUmHeaderSpec.v ===== *)
(** RLC UM v9.3.0: decoding of the UMD PDU header.  What
    [rlc_um_get_pdu_infos] and [rlc_um_read_length_indicators] make of an
    encoded PDU, and of one with too many length indicators. *)
From S2P Require Import Prelude.
From S2P Require Import RlcUmEntity.
From S2P Require Import RlcUmHeader.
From S2P Require Import RlcUmReassemblySpec.

Local Open Scope Z_scope.
Local Open Scope c_scope.

(** ** One turn of the loop *)

Lemma li_hi_byte b : byte b -> u16 (b .<< 4) .& 0x07F0 = (b mod 128) .<< 4.
Proof.
  intros Hb. apply Z.eqb_eq.
  by apply (byte_forall (fun b => u16 (b .<< 4) .& 0x07F0 =? (b mod 128) .<< 4)).
Qed.

Lemma li_lo_byte b : byte b -> u8 (b .>> 4) .& 0x000F = (b / 16) mod 16.
Proof.
  intros Hb. apply Z.eqb_eq.
  by apply (byte_forall (fun b => u8 (b .>> 4) .& 0x000F =? (b / 16) mod 16)).
Qed.

Lemma li_hi3_byte b : byte b -> u16 (b .<< 8) .& 0x0700 = (b mod 8) .<< 8.
Proof.
  intros Hb. apply Z.eqb_eq.
  by apply (byte_forall (fun b => u16 (b .<< 8) .& 0x0700 =? (b mod 8) .<< 8)).
Qed.

Lemma truth_b7 b : byte b -> truth (b .& 0x80) = ((b / 128) mod 2 =? 1).
Proof.
  intros Hb. apply eqb_prop.
  by apply (byte_forall (fun b => eqb (truth (b .& 0x80)) ((b / 128) mod 2 =? 1))).
Qed.

Lemma truth_b3 b : byte b -> truth (b .& 0x08) = ((b / 8) mod 2 =? 1).
Proof.
  intros Hb. apply eqb_prop.
  by apply (byte_forall (fun b => eqb (truth (b .& 0x08)) ((b / 8) mod 2 =? 1))).
Qed.

Module PduInfoSpec.
Import PduInfo.

(** The information after [lis] more indicators, whose header takes [n] bytes. *)
Definition read_lis (i : um_pdu_info) (lis : list Z) (n : Z) : um_pdu_info :=
i <| li_list := li_list i ++ lis |> <| header_size := header_size i + n |>
  <| num_li := num_li i + zlen lis |>.

Lemma li_loop_first fuel pre b1 b2 rest total sum i :
byte b1 -> byte b2 -> (b1 / 128) mod 2 = 0 \/ (b1 / 128) mod 2 = 1 ->
let li := (b1 mod 128) * 2 ^ 4 + (b2 / 16) mod 16 in
zlen pre + 1 <= total -> 0 <= num_li i < 24 -> 0 <= sum < 1000000 ->
0 <= header_size i < 1000 ->
li_loop (S fuel) (pre ++ b1 :: b2 :: rest) total (zlen pre) 1 sum i
= if (b1 / 128) mod 2 =? 1
  then li_loop fuel (pre ++ b1 :: b2 :: rest) total (zlen pre) 2 (sum + li)
         (read_lis i [li] 2)
  else Ok (false, zlen pre, 2, sum + li, read_lis i [li] 2).
Proof.
intros H1 H2 _ li Ht Hn Hs Hh. cbn [li_loop]. change (1 .^ 3) with 2.
change (2 =? 2) with true. cbn match.
rewrite (proj2 (Z.leb_le (zlen pre + 1) total)) by done. cbn [res_guard mbind res_bind].
rewrite rd_app_here. cbn [mbind res_bind].
rewrite (rd_app_next pre). cbn [mbind res_bind].
rewrite li_hi_byte, li_lo_byte, truth_b7 by done.
rewrite lor_shiftl_add by (try div_lia). fold li.
assert (Hli : 0 <= li < 2048) by (unfold li; div_lia).
change RLC_UM_SEGMENT_NB_MAX_LI_PER_PDU with 24.
rewrite (proj2 (Z.ltb_lt (num_li i) 24)), (proj2 (Z.leb_le (num_li i) 24)) by lia.
cbn [res_guard mbind res_bind]. unfold update. cbn.
rewrite s32_small, s16_small, u16_small by lia.
rewrite (proj2 (Z.ltb_ge 24 (num_li i + 1))) by lia. done.
Qed.

Lemma li_loop_second fuel pre b1 b2 b3 rest total sum i :
byte b2 -> byte b3 ->
let li := (b2 mod 8) * 2 ^ 8 + b3 in
zlen pre + 2 <= total -> 0 <= num_li i < 24 -> 0 <= sum < 1000000 ->
0 <= header_size i < 1000 ->
li_loop (S fuel) (pre ++ b1 :: b2 :: b3 :: rest) total (zlen pre) 2 sum i
= if (b2 / 8) mod 2 =? 1
  then li_loop fuel (pre ++ b1 :: b2 :: b3 :: rest) total (zlen pre + 3) 1 (sum + li)
         (read_lis i [li] 1)
  else Ok (false, zlen pre + 3, 1, sum + li, read_lis i [li] 1).
Proof.
intros H2 H3 li Ht Hn Hs Hh. cbn [li_loop]. change (2 .^ 3) with 1.
change (1 =? 2) with false. cbn match.
rewrite (proj2 (Z.leb_le (zlen pre + 2) total)) by done. cbn [res_guard mbind res_bind].
rewrite (rd_app_next pre). cbn [mbind res_bind].
rewrite (rd_app_next2 pre). cbn [mbind res_bind].
rewrite li_hi3_byte, truth_b3 by done.
rewrite lor_shiftl_add by (try done; lia). fold li.
assert (Hli : 0 <= li < 2048)
  by (unfold li; unfold in_u in H3; change (2 ^ 8) with 256 in *; div_lia).
change RLC_UM_SEGMENT_NB_MAX_LI_PER_PDU with 24.
rewrite (proj2 (Z.ltb_lt (num_li i) 24)), (proj2 (Z.leb_le (num_li i) 24)) by lia.
cbn [res_guard mbind res_bind]. unfold update. cbn.
rewrite s32_small, s16_small, u16_small by lia.
rewrite (proj2 (Z.ltb_ge 24 (num_li i + 1))) by lia. done.
Qed.

Lemma li_loop_encode lis : forall fuel pre rest total sum i,
lis <> [] -> Forall li_ok lis -> (length lis <= fuel)%nat ->
0 <= num_li i -> num_li i + zlen lis <= 24 ->
0 <= sum -> sum <= 2048 * num_li i -> 0 <= header_size i <= 2 + 2 * num_li i ->
zlen pre + li_header_len (zlen lis) <= total ->
exists p len,
  li_loop fuel (pre ++ li_encode lis ++ rest) total (zlen pre) 1 sum i
  = Ok (false, p, len, sum + sumZ lis, read_lis i lis (li_header_len (zlen lis))) /\
  (if len =? 2 then p + 2 else p) = zlen pre + li_header_len (zlen lis).
Proof.
induction lis as [|x|x y l IH] using pair_list_ind;
  intros fuel pre rest total sum i Hne Hok Hf Hn0 Hn Hs0 Hs Hh Ht; [done|..].
- apply Forall_cons in Hok as [Hok _].
  destruct (li_single_fields x Hok) as [He1 Hl1]. cbn zeta in He1, Hl1.
  unfold li_ok in Hok. destruct fuel as [|fuel]; [cbn in Hf; lia|].
  change (zlen [x]) with 1 in *. change (li_header_len 1) with 2 in *.
  exists (zlen pre), 2. split; [|done]. cbn [li_encode app].
  rewrite li_loop_first; [|unfold in_u; change (2 ^ 8) with 256; div_lia..|auto|lia|lia|lia|lia].
  rewrite He1, Hl1. change (0 =? 1) with false. cbn match. cbn [sumZ].
  by rewrite Z.add_0_r.
- apply Forall_cons in Hok as [Hx Hok]; apply Forall_cons in Hok as [Hy Hl].
  destruct (li_group_fields x y (if decide (l = []) then 0 else 8) Hx Hy)
    as (He1 & Hl1 & He2 & Hl2); [destruct (decide _); auto|].
  cbn zeta in *. unfold li_ok in Hx, Hy.
  rewrite (Z.mod_small (y mod 256)) in Hl2 by div_lia.
  destruct fuel as [|[|fuel]]; [cbn in Hf; lia..|].
  rewrite !zlen_cons in *. replace (1 + (1 + zlen l)) with (2 + zlen l) in * by lia.
  rewrite li_header_len_pair in *. pose proof (zlen_nonneg l) as Hzl.
  pose proof (li_header_len_bound (zlen l) Hzl).
  change (li_encode (x :: y :: l)) with
    ([128 + x / 16;
      (x mod 16) * 16 + (if decide (l = []) then 0 else 8) + y / 256;
      y mod 256] ++ li_encode l).
  cbn [app].
  assert (Hb1 : byte (128 + x / 16)) by (unfold in_u; change (2 ^ 8) with 256; div_lia).
  assert (Hb2 : byte ((x mod 16) * 16 + (if decide (l = []) then 0 else 8) + y / 256))
    by (unfold in_u; change (2 ^ 8) with 256; destruct (decide _); div_lia).
  assert (Hb3 : byte (y mod 256)) by (unfold in_u; change (2 ^ 8) with 256; div_lia).
  rewrite li_loop_first by (done || lia || auto).
  rewrite He1, Hl1. change (1 =? 1) with true. cbn match.
  rewrite li_loop_second;
    [|done|done|lia|unfold read_lis, update; cbn; change (zlen [x]) with 1; lia..].
  rewrite He2, Hl2.
  assert (Hi : read_lis (read_lis i [x] 2) [y] 1 = read_lis i [x; y] 3).
  { unfold read_lis, update. cbn. rewrite <- app_assoc.
    change (zlen [x]) with 1. change (zlen [y]) with 1. change (zlen [x; y]) with 2.
    cbn. f_equal; lia. }
  rewrite Hi. cbn [sumZ]. destruct (decide (l = [])) as [->|Hne'].
  + change (0 / 8 =? 1) with false. cbn match. exists (zlen pre + 3), 1.
    split; [|done]. cbn [sumZ]. rewrite !Z.add_0_r, Z.add_assoc. done.
  + change (8 / 8 =? 1) with true. cbn match.
    edestruct (IH fuel (pre ++ [128 + x / 16; x mod 16 * 16 + 8 + y / 256; y mod 256])
      rest total (sum + x + y) (read_lis i [x; y] 3)) as (p & len & H1 & H2);
      try done; rewrite ?zlen_app, ?zlen_cons; change (zlen (@nil Z)) with 0;
      try (unfold read_lis, update; cbn; rewrite ?zlen_cons; change (zlen (@nil Z)) with 0; lia).
    { cbn in Hf. lia. }
    exists p, len. rewrite !zlen_app, !zlen_cons in *. change (zlen (@nil Z)) with 0 in *.
    rewrite <- !app_assoc in H1. cbn [app] in H1.
    replace (zlen pre + (1 + (1 + (1 + 0)))) with (zlen pre + 3) in H1 by lia.
    rewrite H1. split; [|lia]. do 2 f_equal.
    * f_equal. lia.
    * unfold read_lis, update. cbn. rewrite <- app_assoc, !zlen_cons.
      change (zlen (@nil Z)) with 0. f_equal; lia.
Qed.

Section header.
Context `{F : UmdFormat}.
Local Abbreviation M := (fmt_modulo (UmdFormat := F)).

End header.

(** The 25th indicator is written past the end of [li_list], before the test
  on their number. *)
Definition too_many_lis : umd := Umd true true (replicate 25 [0]) [0].

(** A header with 25 length indicators is not refused: the element past
  the end of [li_list] is written before their number is tested. *)
Theorem get_pdu_infos_25_lis :
rlc_um_get_pdu_infos (umd_encode too_many_lis 0) (zlen (umd_encode too_many_lis 0)) 10
= Err EBounds.
Proof. vm_compute. reflexivity. Qed.
End PduInfoSpec.

(** Round trip of the length indicators: what the reference encoding
    wrote, up to 23 of them, [rlc_um_read_length_indicators] reads back, moves
    the data pointer over them, and leaves the size of what follows the
    announced segments. *)
Theorem read_length_indicators_encode lis rest sz :
  lis <> [] -> Forall li_ok lis -> zlen lis < 24 -> 
  sumZ lis + li_header_len (zlen lis) <= sz < 2147483648 ->
  rlc_um_read_length_indicators (li_encode lis ++ rest) sz
  = Ok (Some (lis, zlen (li_encode lis), sz - sumZ lis - zlen (li_encode lis))).
Proof.
  intros Hne Hok Hn Hsz. unfold rlc_um_read_length_indicators.
  rewrite read_li_encode by (done || (change (zlen (@nil Z)) with 0; lia)).
  by rewrite li_encode_len.
Qed.
