(* ===== verification/RlcUmDar.v ===== *)
(** RLC UM v9.3.0: the duplicate avoidance and reordering receiver
    ([rlc_um_dar.c]) and the reception of transport blocks
    ([rlc_um_receiver.c]).

    Every [rlc_sn_t] is a signed and every [rlc_usn_t] an unsigned 16-bit
    integer; the conversions are written out where a value is stored or passed.
    The modulo of a configured entity is 32 or 1024, never 0. *)
From S2P Require Import Prelude.
From S2P Require Import RlcUmEntity.
From S2P Require Import RlcUmHeader.
From S2P Require Import RlcUmReassembly.

Local Open Scope Z_scope.
Local Open Scope c_scope.

(** ** The buffer: an array of [DAR_BUFFER_SIZE] pointers *)

Definition dar_in_bounds (i : Z) : bool := (0 <=? i) && (i <? DAR_BUFFER_SIZE).

(** [dar_buffer[i]] read and written. *)
Definition dar_read (e : um_rx) (i : Z) : res (option mac_tb_ind) :=
  if dar_in_bounds i then Ok (dar_buffer e !! i) else Err EBounds.
Definition dar_write (e : um_rx) (i : Z) (p : option mac_tb_ind) : res um_rx :=
  if dar_in_bounds i
  then Ok (e <| dar_buffer := partial_alter (fun _ => p) i (dar_buffer e) |>)
  else Err EBounds.

Definition rlc_um_remove_pdu_from_dar_buffer (e : um_rx) (snP : Z)
    : res (option mac_tb_ind * um_rx) :=
  pdu ← dar_read e (u16 snP);
  e ← dar_write e (u16 snP) None;
  Ok (pdu, e).

Definition rlc_um_get_pdu_from_dar_buffer (e : um_rx) (snP : Z)
    : res (option mac_tb_ind) := dar_read e (u16 snP).

Definition rlc_um_store_pdu_in_dar_buffer (e : um_rx) (pdu_pP : mac_tb_ind)
    (snP : Z) : res um_rx := dar_write e (u16 snP) (Some pdu_pP).

(** ** Windows *)

Definition rlc_um_in_window (e : um_rx) (lower_boundP snP higher_boundP : Z) : Z :=
  let lower_boundP := s16 lower_boundP in
  let snP := s16 snP in
  let higher_boundP := s16 higher_boundP in
  let modulus := s16 (s16 (vr_uh e) - rx_um_window_size e) in
  let lower_boundP := s16 ((lower_boundP - modulus) %% rx_sn_modulo e) in
  let higher_boundP := s16 ((higher_boundP - modulus) %% rx_sn_modulo e) in
  let snP := s16 ((snP - modulus) %% rx_sn_modulo e) in
  if snP <? lower_boundP then -2
  else if higher_boundP <? snP then -1
  else if lower_boundP =? snP then
    if higher_boundP =? snP then 3 else 1
  else if higher_boundP =? snP then 2
  else 0.

Definition rlc_um_in_reordering_window (e : um_rx) (snP : Z) : Z :=
  let snP := s16 snP in
  let modulus := s16 (vr_uh e - rx_um_window_size e) in
  let snP := s16 ((snP - modulus) %% rx_sn_modulo e) in
  if (0 <=? snP) && (snP <? rx_um_window_size e) then 0 else -1.

(** ** [rlc_um_try_reassembly] *)

(** One turn of the loop for [sn]: the stored PDU is reassembled and released,
    a missing one is noted. *)
Definition try_reassembly_step (sn_ : Z) (e : um_rx) : res um_rx :=
  slot ← dar_read e sn_;
  match slot with
  | Some tb =>
      e ← reassemble_pdu sn_ tb e;
      dar_write e sn_ None
  | None => Ok (reassemble_missing sn_ e)
  end.

Fixpoint try_reassembly_loop (fuel : nat) (end_snP sn_ : Z) (e : um_rx)
    : res um_rx :=
  match fuel with
  | O => Err EFuel
  | S fuel =>
      e ← try_reassembly_step sn_ e;
      let sn_ := s16 ((sn_ + 1) %% rx_sn_modulo e) in
      if (sn_ =? vr_uh e) || (sn_ =? end_snP) then Ok e
      else try_reassembly_loop fuel end_snP sn_ e
  end.

(** One turn per sequence number is enough. *)
Definition sn_fuel (e : um_rx) : nat := Z.to_nat (rx_sn_modulo e).

Definition rlc_um_try_reassembly (start_snP end_snP : Z) (e : um_rx)
    : res um_rx :=
  let start_snP := s16 start_snP in
  let end_snP := s16 end_snP in
  let end_snP :=
    if end_snP <? 0 then s16 (end_snP + rx_sn_modulo e) else end_snP in
  let start_snP :=
    if start_snP <? 0 then s16 (start_snP + rx_sn_modulo e) else start_snP in
  if start_snP =? end_snP then Ok e
  else try_reassembly_loop (sn_fuel e) end_snP start_snP e.

(** ** Expiry of t-Reordering *)

Definition timer_expired (t : um_timer) (frameP : Z) : bool :=
  ((frame_start t <? frame_time_out t)
   && ((frame_time_out t <=? frameP) || (frameP <? frame_start t)))
  || ((frame_time_out t <? frame_start t)
      && (frameP <? frame_start t) && (frame_time_out t <=? frameP)).

Definition next_ur (e : um_rx) : um_rx :=
  e <| vr_ur := u16 ((vr_ur e + 1) %% rx_sn_modulo e) |>.

(** [while (get(vr_ur)) vr_ur++]. *)
Fixpoint skip_received (fuel : nat) (e : um_rx) : res um_rx :=
  match fuel with
  | O => Err EFuel
  | S fuel =>
      slot ← rlc_um_get_pdu_from_dar_buffer e (vr_ur e);
      match slot with
      | Some _ => skip_received fuel (next_ur e)
      | None => Ok e
      end
  end.

(** The restart or stop which ends the expiry. *)
Definition restart_timer (frameP : Z) (e : um_rx) : um_rx :=
  if rlc_um_in_window e (vr_ur e) (vr_uh e) (vr_uh e) =? 2
  then (rlc_um_start_timer_reordering e frameP) <| vr_ux := vr_uh e |>
  else rlc_um_stop_and_reset_timer_reordering e.

(** [lockedP] tells that [pthread_mutex_trylock] took the mutex. *)
Definition rlc_um_check_timer_dar_time_out (e : um_rx) (frameP : Z)
    (lockedP : bool) : res um_rx :=
  if running (t_reordering e) && timer_expired (t_reordering e) frameP then
    let e := e <| rx_stats := (rx_stats e)
                    <| stat_timer_reordering_timed_out :=
                         u32 (stat_timer_reordering_timed_out (rx_stats e) + 1) |> |> in
    if lockedP then
      let old_vr_ur := vr_ur e in
      let e := e <| vr_ur := vr_ux e |> in
      e ← skip_received (S (sn_fuel e)) e;
      e ← rlc_um_try_reassembly old_vr_ur (vr_ur e) e;
      Ok (restart_timer frameP e)
    else Ok e
  else Ok e.

(** ** [rlc_um_receive_process_dar] *)

Definition out_of_window_stats (n : Z) (e : um_rx) : um_rx :=
  e <| rx_stats := (rx_stats e)
         <| stat_rx_data_pdu_out_of_window :=
              u32 (stat_rx_data_pdu_out_of_window (rx_stats e) + 1) |>
         <| stat_rx_data_bytes_out_of_window :=
              u32 (stat_rx_data_bytes_out_of_window (rx_stats e) + n) |> |>.
Definition duplicate_stats (n : Z) (e : um_rx) : um_rx :=
  e <| rx_stats := (rx_stats e)
         <| stat_rx_data_pdus_duplicate :=
              u32 (stat_rx_data_pdus_duplicate (rx_stats e) + 1) |>
         <| stat_rx_data_bytes_duplicate :=
              u32 (stat_rx_data_bytes_duplicate (rx_stats e) + n) |> |>.

(** Discard, or place in the reception buffer.  The boolean tells that the
    function goes on; [freed] that the block has been released already. *)
Definition dar_place (tb : mac_tb_ind) (tb_sizeP sn_ : Z) (freed : bool)
    (e : um_rx) : res (um_rx * bool) :=
  let in_window :=
    rlc_um_in_window e (vr_uh e - rx_um_window_size e) sn_ (vr_ur e) in
  if (in_window =? 1) || (in_window =? 0) then
    _ ← res_guard (negb freed) EFree;
    Ok (out_of_window_stats tb_sizeP e, false)
  else
    slot ← rlc_um_get_pdu_from_dar_buffer e sn_;
    match slot with
    | Some _ =>
        let in_window := rlc_um_in_window e (vr_ur e) sn_ (vr_uh e) in
        let e := duplicate_stats tb_sizeP e in
        if in_window =? 0 then
          _ ← res_guard (negb freed) EFree;
          Ok (e, false)
        else
          '(_, e) ← rlc_um_remove_pdu_from_dar_buffer e sn_;
          e ← rlc_um_store_pdu_in_dar_buffer e tb sn_;
          Ok (e, true)
    | None =>
        e ← rlc_um_store_pdu_in_dar_buffer e tb sn_;
        Ok (e, true)
    end.

(** A PDU outside of the reordering window moves the window. *)
Definition dar_outside (sn_ : Z) (e : um_rx) : res um_rx :=
  if rlc_um_in_reordering_window e sn_ <? 0 then
    let e := e <| vr_uh := u16 ((sn_ + 1) %% rx_sn_modulo e) |> in
    let in_window := vr_uh e - rx_um_window_size e in
    let in_window :=
      if in_window <? 0 then in_window + rx_sn_modulo e else in_window in
    e ← (if negb (rlc_um_in_reordering_window e (vr_ur e) =? 0)
         then rlc_um_try_reassembly (vr_ur e) in_window e
         else Ok e);
    Ok (if rlc_um_in_reordering_window e (vr_ur e) <? 0
        then e <| vr_ur := u16 in_window |> else e)
  else Ok e.

(** [do vr_ur++; while (get(vr_ur) && vr_ur != vr_uh)]. *)
Fixpoint advance_ur (fuel : nat) (e : um_rx) : res um_rx :=
  match fuel with
  | O => Err EFuel
  | S fuel =>
      let e := next_ur e in
      slot ← rlc_um_get_pdu_from_dar_buffer e (vr_ur e);
      match slot with
      | Some _ => if vr_ur e =? vr_uh e then Ok e else advance_ur fuel e
      | None => Ok e
      end
  end.

(** The PDU at VR(UR) has arrived. *)
Definition dar_advance (sn_ : Z) (e : um_rx) : res um_rx :=
  if sn_ =? vr_ur e then
    slot ← rlc_um_get_pdu_from_dar_buffer e (vr_ur e);
    match slot with
    | Some _ =>
        e ← advance_ur (S (sn_fuel e)) e;
        rlc_um_try_reassembly sn_ (vr_ur e) e
    | None => Ok e
    end
  else Ok e.

(** The two tests which stop t-Reordering. *)
Definition dar_stop_timer (e : um_rx) : um_rx :=
  let e :=
    if running (t_reordering e) && negb (vr_uh e =? vr_ux e)
       && (rlc_um_in_reordering_window e (vr_ux e) <? 0)
    then rlc_um_stop_and_reset_timer_reordering e else e in
  if running (t_reordering e) then
    let in_window := rlc_um_in_window e (vr_ur e) (vr_ux e) (vr_uh e) in
    if (in_window =? -2) || (in_window =? 1)
    then rlc_um_stop_and_reset_timer_reordering e else e
  else e.

Definition dar_start_timer (frameP : Z) (e : um_rx) : um_rx :=
  if negb (running (t_reordering e))
     && (rlc_um_in_window e (vr_ur e) (vr_uh e) (vr_uh e) =? 2)
  then (rlc_um_start_timer_reordering e frameP) <| vr_ux := vr_uh e |>
  else e.

Definition rlc_um_receive_process_dar (frameP : Z) (tb : mac_tb_ind)
    (tb_sizeP : Z) (e : um_rx) : res um_rx :=
  sn_ ← umd_sn (rx_sn_length e) (data_ptr tb);
  let freed := negb ((rx_sn_length e =? 10) || (rx_sn_length e =? 5)) in
  '(e, placed) ← dar_place tb tb_sizeP sn_ freed e;
  if negb placed then Ok e
  else
    e ← dar_outside sn_ e;
    e ← dar_advance sn_ e;
    Ok (dar_start_timer frameP (dar_stop_timer e)).

(** ** [rlc_um_receive] *)

Definition rlc_um_receive_one (frameP : Z) (tb : mac_tb_ind) (e : um_rx)
    : res um_rx :=
  let tb_size_in_bytes := u16 (ind_size tb) in
  let e := e <| rx_stats := (rx_stats e)
                  <| stat_rx_data_bytes :=
                       u32 (stat_rx_data_bytes (rx_stats e) + tb_size_in_bytes) |>
                  <| stat_rx_data_pdu :=
                       u32 (stat_rx_data_pdu (rx_stats e) + 1) |> |> in
  if 0 <? tb_size_in_bytes
  then rlc_um_receive_process_dar frameP tb tb_size_in_bytes e else Ok e.

Fixpoint rlc_um_receive (frameP : Z) (data : list mac_tb_ind) (e : um_rx)
    : res um_rx :=
  match data with
  | [] => Ok e
  | tb :: data => e ← rlc_um_receive_one frameP tb e; rlc_um_receive frameP data e
  end.
