(* ===== verification/RlcUmDarSpec.v ===== *)
(** RLC UM v9.3.0: what the receiver promises.  An abstract receiver which
    counts sequence numbers without wrapping, and the proof that the code of
    [rlc_um_dar.c] simulates it. *)
From S2P Require Import Prelude.
From S2P Require Import RlcUmEntity.
From S2P Require Import RlcUmHeader.
From S2P Require Import RlcUmReassembly.
From S2P Require Import RlcUmReassemblySpec.
From S2P Require Import RlcUmDar.

Local Open Scope Z_scope.

(** ** The abstract receiver *)

(** [a_slots] is the history of reassembly: for each sequence number from 0 on,
    the PDU reassembled or [None] for a missing one.  The number of slots is
    VR(UR); nothing wraps.  [a_max] is the maximum size of an SDU. *)
Record arx := ARx {
  a_max : Z;
  a_slots : list (option umd);
  a_ux : Z;
  a_uh : Z;
  a_running : bool;
  a_buf : gmap Z umd
}.
#[export] Instance arx_eta : Eta arx := fun a =>
  ARx (a_max a) (a_slots a) (a_ux a) (a_uh a) (a_running a) (a_buf a).

Definition a_ur (a : arx) : Z := zlen (a_slots a).

(** The next sequence number leaves the buffer for reassembly. *)
Definition a_pop (a : arx) : arx :=
  a <| a_slots := a_slots a ++ [a_buf a !! a_ur a] |>
    <| a_buf := delete (a_ur a) (a_buf a) |>.
Definition a_flush (t : Z) (a : arx) : arx :=
  Nat.iter (Z.to_nat (t - a_ur a)) a_pop a.

(** How many consecutive sequence numbers from [x] on are in the buffer. *)
Fixpoint run_len (n : nat) (b : gmap Z umd) (x : Z) : nat :=
  match n with
  | O => O
  | S n => match b !! x with Some _ => S (run_len n b (x + 1)) | None => O end
  end.
Definition first_missing (a : arx) (x : Z) : Z :=
  x + Z.of_nat (run_len (Z.to_nat (a_uh a - x)) (a_buf a) x).

Section abstract.
Variable ws : Z.

Definition a_move_window (x : Z) (a : arx) : arx :=
  if a_uh a <=? x then
    let a := a <| a_uh := x + 1 |> in
    a_flush (Z.max (a_ur a) (a_uh a - ws)) a
  else a.

Definition a_deliver (x : Z) (a : arx) : arx :=
  if x =? a_ur a then a_flush (first_missing a x) a else a.

Definition a_stop (a : arx) : arx :=
  if (a_ux a <? a_uh a - ws) || (a_ux a <? a_ur a)
     || ((a_ux a =? a_ur a) && (a_ur a <? a_uh a))
  then a <| a_running := false |> else a.

Definition a_start (a : arx) : arx :=
  if negb (a_running a) && (a_ur a <? a_uh a)
  then a <| a_running := true |> <| a_ux := a_uh a |> else a.

(** PDU [u] of sequence number [x] is received. *)
Definition a_accepts (x : Z) (a : arx) : bool :=
  (a_ur a <=? x) && ((x =? a_ur a) || bool_decide (a_buf a !! x = None)).

Definition a_receive (x : Z) (u : umd) (a : arx) : arx :=
  if a_accepts x a then
    a_start (a_stop (a_deliver x (a_move_window x
      (a <| a_buf := <[x := u]> (a_buf a) |>))))
  else a.

(** t-Reordering expires. *)
Definition a_timeout (a : arx) : arx :=
  let a := a_flush (first_missing a (a_ux a)) a in
  if a_ur a <? a_uh a
  then a <| a_running := true |> <| a_ux := a_uh a |>
  else a <| a_running := false |>.

Definition a_init (max : Z) : arx := ARx max [] 0 0 false ∅.

Record a_inv (a : arx) : Prop := {
  ai_win : a_uh a - ws <= a_ur a <= a_uh a;
  ai_buf : forall x, is_Some (a_buf a !! x) -> a_ur a <= x < a_uh a;
  ai_run : a_running a = true ->
    a_ur a < a_ux a <= a_uh a \/ (a_ux a = a_ur a /\ a_ur a = a_uh a);
  ai_idle : a_running a = false -> a_ur a = a_uh a
}.
End abstract.

(** ** Facts on the abstract receiver *)

Lemma a_ur_nonneg a : 0 <= a_ur a.
Proof. apply zlen_nonneg. Qed.

Lemma a_ur_pop a : a_ur (a_pop a) = a_ur a + 1.
Proof.
  change (zlen (a_slots a ++ [a_buf a !! a_ur a]) = a_ur a + 1).
  by rewrite zlen_app, zlen_cons.
Qed.

Lemma a_pop_buf a y :
  a_buf (a_pop a) !! y = if decide (y = a_ur a) then None else a_buf a !! y.
Proof.
  change (delete (a_ur a) (a_buf a) !! y = if decide (y = a_ur a) then None else a_buf a !! y).
  case_decide; [subst; by rewrite lookup_delete_eq|by rewrite lookup_delete_ne].
Qed.

(** Flushing as an induction over the distance. *)
Lemma a_flush_ind (P : arx -> Prop) t a :
  a_ur a <= t -> P a ->
  (forall a', a_ur a <= a_ur a' < t -> P a' -> P (a_pop a')) ->
  P (a_flush t a) /\ a_ur (a_flush t a) = t.
Proof.
  intros Ht H0 HS. unfold a_flush.
  remember (Z.to_nat (t - a_ur a)) as n eqn:En.
  assert (Hn : forall k, (k <= n)%nat ->
    P (Nat.iter k a_pop a) /\ a_ur (Nat.iter k a_pop a) = a_ur a + Z.of_nat k).
  { induction k as [|k IH]; intros Hk.
    - change (Nat.iter 0 a_pop a) with a. split; [done|lia].
    - change (Nat.iter (S k) a_pop a) with (a_pop (Nat.iter k a_pop a)).
      destruct IH as [HP HU]; [lia|]. split; [|rewrite a_ur_pop; lia].
      apply HS; [lia|done]. }
  destruct (Hn n) as [HP HU]; [lia|]. split; [done|lia].
Qed.

Lemma a_flush_pop t a : a_ur a < t -> a_flush t a = a_flush t (a_pop a).
Proof.
  intros Ht. unfold a_flush. rewrite a_ur_pop.
  replace (Z.to_nat (t - a_ur a)) with (S (Z.to_nat (t - (a_ur a + 1)))) by lia.
  apply Nat.iter_succ_r.
Qed.

Lemma a_flush_stop t a : t <= a_ur a -> a_flush t a = a.
Proof.
  intros Ht. unfold a_flush. by replace (Z.to_nat (t - a_ur a)) with 0%nat by lia.
Qed.

(** What a flush leaves alone and what it does to the buffer. *)
Lemma a_flush_frame t a :
  a_ur a <= t ->
  a_ur (a_flush t a) = t /\ a_ux (a_flush t a) = a_ux a /\
  a_uh (a_flush t a) = a_uh a /\ a_running (a_flush t a) = a_running a /\
  (forall y, a_buf (a_flush t a) !! y
             = if decide (a_ur a <= y < t) then None else a_buf a !! y).
Proof.
  intros Ht.
  destruct (a_flush_ind (fun a' => a_ur a <= a_ur a' /\
    a_ux a' = a_ux a /\ a_uh a' = a_uh a /\ a_running a' = a_running a /\
    (forall y, a_buf a' !! y
               = if decide (a_ur a <= y < a_ur a') then None else a_buf a !! y)) t a Ht)
    as [(_ & H1 & H2 & H3 & H4) Hu].
  - repeat split; try lia. intros y. by rewrite decide_False by lia.
  - intros a' Hr (Hle & H1 & H2 & H3 & H4).
    split; [rewrite a_ur_pop; lia|]. split; [done|]. split; [done|]. split; [done|].
    intros y. rewrite a_pop_buf, a_ur_pop, H4.
    repeat case_decide; try done; lia.
  - rewrite Hu in H4. done.
Qed.

Lemma run_len_spec n b x :
  (forall y, x <= y < x + Z.of_nat (run_len n b x) -> is_Some (b !! y)) /\
  (b !! (x + Z.of_nat (run_len n b x)) = None \/ run_len n b x = n).
Proof.
  revert x. induction n as [|n IH]; intros x; cbn [run_len].
  - split; [lia|by right].
  - destruct (b !! x) as [u|] eqn:E.
    + destruct (IH (x + 1)) as [H1 H2].
      replace (x + Z.of_nat (S (run_len n b (x + 1))))
        with (x + 1 + Z.of_nat (run_len n b (x + 1))) by lia.
      split; [|destruct H2; [by left|right; lia]].
      intros y Hy. destruct (decide (y = x)) as [->|]; [by rewrite E|].
      apply H1. lia.
    + rewrite Z.add_0_r. split; [lia|by left].
Qed.

Lemma run_len_le n b x : (run_len n b x <= n)%nat.
Proof. revert x; induction n; intros x; cbn; [done|]. case_match; [|lia].
  specialize (IHn (x + 1)). lia. Qed.

Lemma first_missing_spec a x :
  (forall y, is_Some (a_buf a !! y) -> y < a_uh a) -> x <= a_uh a ->
  x <= first_missing a x <= a_uh a /\
  (forall y, x <= y < first_missing a x -> is_Some (a_buf a !! y)) /\
  a_buf a !! first_missing a x = None.
Proof.
  intros Hb Hx. unfold first_missing.
  set (n := Z.to_nat (a_uh a - x)).
  destruct (run_len_spec n (a_buf a) x) as [H1 H2].
  pose proof (run_len_le n (a_buf a) x). split; [lia|]. split; [done|].
  destruct H2 as [|Hn]; [done|]. rewrite Hn.
  destruct (a_buf a !! _) eqn:E; [|done].
  assert (x + Z.of_nat n < a_uh a) by (apply Hb; rewrite E; eauto). lia.
Qed.

(** The abstract receiver keeps its invariant. *)
Section invariant.
Variable ws : Z.
Hypothesis ws_pos : 0 < ws.

Lemma a_inv_init max : a_inv ws (a_init max).
Proof.
  split; cbn; try done.
  - change (a_ur (a_init max)) with 0. lia.
  - intros x. rewrite lookup_empty. by intros [? ?].
Qed.

(** The part of the invariant which holds between the steps of a reception:
    the timer is settled by the last two. *)
Record a_mid (a : arx) : Prop := {
  am_win : a_uh a - ws <= a_ur a <= a_uh a;
  am_buf : forall x, is_Some (a_buf a !! x) -> a_ur a <= x < a_uh a
}.

Lemma a_mid_flush t a :
  a_ur a <= t <= a_uh a -> a_uh a - ws <= t ->
  (forall x, is_Some (a_buf a !! x) -> a_ur a <= x < a_uh a) ->
  a_mid (a_flush t a).
Proof.
  intros Ht Hw Hb. destruct (a_flush_frame t a) as (H1 & H2 & H3 & H4 & H5); [lia|].
  split; rewrite ?H1, ?H3; [lia|]. intros x. rewrite H5.
  case_decide; [by intros [? ?]|]. intros Hx. apply Hb in Hx. lia.
Qed.

Lemma a_mid_place x u a :
  a_inv ws a -> a_ur a <= x ->
  let a' := a_move_window ws x (a <| a_buf := <[x := u]> (a_buf a) |>) in
  a_mid a' /\ a_ur a <= a_ur a' /\ a_uh a <= a_uh a' /\ x < a_uh a' /\
  a_ux a' = a_ux a /\ a_running a' = a_running a.
Proof.
  intros [Hw Hb _ _] Hx. unfold a_move_window.
  set (a0 := a <| a_buf := _ |>).
  assert (Hu0 : a_ur a0 = a_ur a) by done.
  assert (Hb0 : forall y, is_Some (a_buf a0 !! y) -> y = x \/ a_ur a <= y < a_uh a).
  { intros y Hy. change (is_Some (<[x := u]> (a_buf a) !! y)) in Hy.
    destruct (decide (y = x)); [by left|right].
    rewrite lookup_insert_ne in Hy by done. by apply Hb. }
  change (a_uh a0) with (a_uh a). destruct (Z.leb_spec (a_uh a) x) as [Hux|Hux].
  - set (a1 := a0 <| a_uh := x + 1 |>).
    change (a_uh a1) with (x + 1). change (a_ur a1) with (a_ur a).
    set (t := Z.max (a_ur a) (x + 1 - ws)).
    assert (Ht : a_ur a1 <= t <= a_uh a1)
      by (change (a_ur a <= t <= x + 1); lia).
    destruct (a_flush_frame t a1) as (H1 & H2 & H3 & H4 & _); [lia|].
    split; [|rewrite H1, H2, H3, H4; change (a_uh a1) with (x + 1); split; [lia|];
             split; [lia|]; by split; [lia|]].
    apply a_mid_flush; [done|change (x + 1 - ws <= t); lia|].
    intros y Hy. change (a_ur a <= y < x + 1). destruct (Hb0 y Hy); lia.
  - split; [|change (a_ur a <= a_ur a /\ a_uh a <= a_uh a /\ x < a_uh a /\
                     a_ux a = a_ux a /\ a_running a = a_running a);
             by repeat split; try lia].
    split; [done|]. intros y Hy. change (a_ur a <= y < a_uh a).
    destruct (Hb0 y Hy); lia.
Qed.

(** The PDU just placed survives the flush it triggers. *)
Lemma a_place_keeps x u a :
  a_ur a <= x ->
  let a' := a_move_window ws x (a <| a_buf := <[x := u]> (a_buf a) |>) in
  a_ur a' <= x /\ a_buf a' !! x = Some u /\ a_uh a' = Z.max (a_uh a) (x + 1).
Proof.
  intros Hx. unfold a_move_window. set (a0 := a <| a_buf := _ |>).
  assert (H0 : a_buf a0 !! x = Some u) by apply lookup_insert_eq.
  change (a_uh a0) with (a_uh a). destruct (Z.leb_spec (a_uh a) x) as [Hux|Hux];
    [|split; [done|]; split; [done|]; change (a_uh a0) with (a_uh a); lia].
  set (a1 := a0 <| a_uh := x + 1 |>).
  change (a_uh a1) with (x + 1). change (a_ur a1) with (a_ur a).
  destruct (a_flush_frame (Z.max (a_ur a) (x + 1 - ws)) a1) as (-> & _ & -> & _ & ->);
    [change (a_ur a1) with (a_ur a); lia|].
  rewrite decide_False by lia. split; [lia|]. split; [done|].
  change (x + 1 = Z.max (a_uh a) (x + 1)). lia.
Qed.

Lemma a_mid_deliver x a :
  a_mid a -> x < a_uh a ->
  let a' := a_deliver x a in
  a_mid a' /\ a_ur a <= a_ur a' /\ a_uh a' = a_uh a /\
  a_ux a' = a_ux a /\ a_running a' = a_running a.
Proof.
  intros [Hw Hb] Hx. unfold a_deliver.
  destruct (Z.eqb_spec x (a_ur a)) as [->|];
    [|split; [by split|]; by repeat split; try lia].
  destruct (first_missing_spec a (a_ur a)) as (H1 & _ & _);
    [intros y Hy; by apply Hb|lia|].
  destruct (a_flush_frame (first_missing a (a_ur a)) a) as (F1 & F2 & F3 & F4 & _);
    [lia|].
  split; [apply a_mid_flush; [lia|lia|done]|]. rewrite F1. by split; [lia|].
Qed.

(** The timer tests re-establish the invariant. *)
Lemma a_inv_timer a :
  a_mid a -> (a_running a = true -> a_ux a <= a_uh a) ->
  (a_running a = false -> a_ur a <= a_uh a) ->
  a_inv ws (a_start (a_stop ws a)).
Proof.
  intros [Hw Hb] Hr _. unfold a_stop, a_start.
  destruct a as [mx sl ux uh run b]. unfold a_ur in *. cbn in *.
  set (ur := zlen sl) in *.
  destruct ((ux <? uh - ws) || (ux <? ur) || ((ux =? ur) && (ur <? uh))) eqn:E;
    [|destruct run; [specialize (Hr eq_refl)|]];
    unfold update; cbn; fold ur; [destruct (Z.ltb_spec ur uh)|
      |destruct (Z.ltb_spec ur uh)];
    split; unfold a_ur; cbn; fold ur; try done; lia.
Qed.

Lemma a_inv_receive x u a : a_inv ws a -> a_inv ws (a_receive ws x u a).
Proof.
  intros Ha. unfold a_receive, a_accepts.
  destruct (Z.leb_spec (a_ur a) x) as [Hx|]; [|done]. cbn [andb].
  destruct (_ || _); [|done].
  destruct (a_mid_place x u a Ha Hx) as (Hm & Hu & Hh & Hxh & He & Hr).
  set (a1 := a_move_window _ _ _) in *.
  destruct (a_mid_deliver x a1 Hm Hxh) as (Hm2 & Hu2 & Hh2 & He2 & Hr2).
  destruct Ha as [Hw Hb Hrun Hidle].
  apply a_inv_timer; [done| |].
  - rewrite Hr2, Hr, He2, He, Hh2. intros HR. specialize (Hrun HR). lia.
  - intros _. apply (am_win _ Hm2).
Qed.

Lemma a_mid_stop a : a_mid a -> a_mid (a_stop ws a).
Proof. intros [Hw Hb]. unfold a_stop. by case_match. Qed.

(** At an expiry VR(UX) bounds the flush. *)
Lemma a_timeout_target a :
  a_inv ws a -> a_running a = true ->
  let t := first_missing a (a_ux a) in
  a_ur a <= a_ux a <= t /\ t <= a_uh a /\
  (forall y, a_ux a <= y < t -> is_Some (a_buf a !! y)) /\ a_buf a !! t = None.
Proof.
  intros [Hw Hb Hrun _] HR. specialize (Hrun HR).
  destruct (first_missing_spec a (a_ux a)) as (H1 & H2 & H3);
    [intros y Hy; by apply Hb|lia|].
  cbn zeta. split; [lia|]. by split; [lia|].
Qed.

Lemma a_inv_timeout a : a_inv ws a -> a_running a = true -> a_inv ws (a_timeout a).
Proof.
  intros Ha HR. destruct (a_timeout_target a Ha HR) as (H1 & H2 & _).
  unfold a_timeout. set (t := first_missing _ _) in *.
  destruct (a_flush_frame t a) as (F1 & F2 & F3 & F4 & F5); [lia|].
  destruct (a_mid_flush t a) as [Hw Hb]; [lia| |apply Ha|].
  { pose proof (ai_win _ _ Ha). lia. }
  set (b := a_flush t a) in *.
  destruct b as [mx sl ux uh run bb]. unfold a_ur in *. cbn in *.
  set (ur := zlen sl) in *. unfold update; cbn.
  destruct (Z.ltb_spec ur uh); split; unfold a_ur; cbn; fold ur; try done; lia.
Qed.
End invariant.
