(* ===== verification/RlcUmDarRefine.v ===== *)
(** RLC UM v9.3.0: the code of [rlc_um_dar.c] simulates the abstract receiver
    of RlcUmDarSpec. *)
From S2P Require Import Prelude.
From S2P Require Import RlcUmEntity.
From S2P Require Import RlcUmHeader.
From S2P Require Import RlcUmReassembly.
From S2P Require Import RlcUmReassemblySpec.
From S2P Require Import RlcUmDar.
From S2P Require Import RlcUmDarSpec.

Local Open Scope Z_scope.
Local Open Scope c_scope.

(** ** Window arithmetic *)

Lemma mod_window_inj m x y : 0 < m -> x mod m = y mod m -> Z.abs (x - y) < m -> x = y.
Proof.
  intros Hm He Ha. assert ((x - y) mod m = 0) as Hd
    by (rewrite Zminus_mod, He, Z.sub_diag; apply Zmod_0_l).
  destruct (proj1 (Z.mod_divide (x - y) m ltac:(lia)) Hd) as [k Hk].
  apply Z.abs_lt in Ha. assert (k = 0) as -> by nia. lia.
Qed.

(** The truncating remainder of the code against the true offset in the
    window: they differ only outside of it, where the code's is negative. *)
Lemma rem_window ws uh y :
  0 < ws -> uh - ws <= y < uh + ws ->
  let m := 2 * ws in
  let d := y mod m - uh mod m + ws in
  let o := y - uh + ws in
  Z.rem d m = o \/ (ws < o /\ Z.rem d m = o - m).
Proof.
  intros Hw Hy m d o.
  pose proof (Z.div_mod y m ltac:(lia)) as Ey.
  pose proof (Z.div_mod uh m ltac:(lia)) as Eu.
  pose proof (Z.mod_pos_bound y m ltac:(lia)) as By.
  pose proof (Z.mod_pos_bound uh m ltac:(lia)) as Bu.
  set (k := uh / m - y / m).
  assert (Hd : d = o + k * m) by (unfold d, o, k; lia).
  assert (Hk : k = -1 \/ k = 0 \/ k = 1).
  { assert (- 2 * m < k * m < 2 * m) by lia. nia. }
  clearbody k. destruct Hk as [-> | [-> | ->]].
  - right. split; [lia|].
    replace d with (o - m) by lia. apply Z.rem_small_iff; lia.
  - left. replace d with o by lia. apply Z.rem_small; lia.
  - left. replace d with (o + 1 * m) by lia.
    rewrite Z.rem_mod_nonneg, Z.mod_add by lia. apply Z.mod_small; lia.
Qed.

(** The value both window tests compare. *)
Definition offset (e : um_rx) (v : Z) : Z :=
  s16 ((s16 v - s16 (vr_uh e - rx_um_window_size e)) %% rx_sn_modulo e).

(** The reference for [rlc_um_in_window]. *)
Definition window_code (lo x hi : Z) : Z :=
  if x <? lo then -2
  else if hi <? x then -1
  else if lo =? x then if hi =? x then 3 else 1
  else if hi =? x then 2
  else 0.

Section refine.
Context `{F : UmdFormat}.
Local Abbreviation M := (fmt_modulo (UmdFormat := F)).
Local Abbreviation ws := (fmt_window (UmdFormat := F)).

Lemma fmt_M : M = 2 * ws /\ 0 < ws <= 512 /\ 0 < M <= 1024.
Proof.
  pose proof (fmt_modulo_eq (UmdFormat := F)).
  pose proof (fmt_window_pos (UmdFormat := F)). lia.
Qed.

(** The format and the upper edge of the window. *)
Record geom (uh : Z) (e : um_rx) : Prop := {
  g_len : rx_sn_length e = fmt_len;
  g_mod : rx_sn_modulo e = M;
  g_win : rx_um_window_size e = ws;
  g_uh : vr_uh e = uh mod M
}.

Lemma mod_period y : (y + M) mod M = y mod M.
Proof.
  pose proof fmt_M. replace (y + M) with (y + 1 * M) by lia.
  apply Z.mod_add. lia.
Qed.

Lemma mod_M_range y : 0 <= y mod M < M.
Proof. apply Z.mod_pos_bound. pose proof fmt_M. lia. Qed.

Ltac sn_bounds :=
  pose proof fmt_M;
  repeat match goal with
  | |- context [?y mod M] =>
      lazymatch goal with
      | _ : 0 <= y mod M < M |- _ => fail
      | _ => pose proof (mod_M_range y)
      end
  end.

Lemma s16_sn y : s16 (y mod M) = y mod M.
Proof. sn_bounds. apply s16_small. lia. Qed.

Lemma u16_sn y : u16 (y mod M) = y mod M.
Proof. sn_bounds. apply u16_small. lia. Qed.

Lemma next_sn y : (y mod M + 1) %% M = (y + 1) mod M.
Proof.
  sn_bounds. rewrite Z.rem_mod_nonneg by lia. by rewrite Zplus_mod_idemp_l.
Qed.

Lemma offset_cases uh e y :
  geom uh e -> uh - ws <= y < uh + ws ->
  offset e (y mod M) = y - uh + ws \/
  (uh < y /\ offset e (y mod M) < 0).
Proof.
  intros [_ Hm Hw Hu] Hy. unfold offset. rewrite Hm, Hw, Hu, s16_sn.
  sn_bounds. rewrite (s16_small (uh mod M - ws)) by lia.
  destruct (rem_window ws uh y) as [E|[Ho E]]; [lia|lia| |];
    replace (2 * ws) with M in E by lia;
    replace (y mod M - uh mod M + ws) with (y mod M - (uh mod M - ws)) in E by lia;
    rewrite E, s16_small by lia; [by left|right; lia].
Qed.

Lemma offset_in uh e y :
  geom uh e -> uh - ws <= y <= uh -> offset e (y mod M) = y - uh + ws.
Proof.
  intros Hg Hy. pose proof fmt_M.
  destruct (offset_cases uh e y Hg); [lia|done|lia].
Qed.

Lemma offset_low uh e :
  geom uh e -> offset e (vr_uh e - rx_um_window_size e) = 0.
Proof.
  intros [_ Hm Hw Hu]. unfold offset. by rewrite Z.sub_diag.
Qed.

Lemma in_window_offset uh e lo x hi :
  geom uh e ->
  rlc_um_in_window e lo x hi = window_code (offset e lo) (offset e x) (offset e hi).
Proof.
  intros [_ Hm Hw Hu]. unfold rlc_um_in_window, offset, window_code.
  rewrite Hu, s16_sn. done.
Qed.

(** The window test, for bounds inside the window. *)
Lemma in_window_mod uh e lo x hi :
  geom uh e -> uh - ws <= lo <= hi -> hi <= uh -> uh - ws <= x < uh + ws ->
  let r := rlc_um_in_window e (lo mod M) (x mod M) (hi mod M) in
  r = window_code lo x hi \/ (r < 0 /\ hi < x).
Proof.
  intros Hg Hlo Hhi Hx. cbn zeta. rewrite (in_window_offset uh) by done.
  rewrite (offset_in uh e lo), (offset_in uh e hi) by (done || lia).
  destruct (offset_cases uh e x Hg Hx) as [-> | [Hx' Ho]];
    unfold window_code; [left|right];
    repeat case_match; lia.
Qed.

Lemma in_reordering_mod uh e x :
  geom uh e -> uh - M <= x < uh + ws ->
  rlc_um_in_reordering_window e (x mod M)
  = if (uh - ws <=? x) && (x <? uh) then 0 else -1.
Proof.
  intros Hg Hx. pose proof fmt_M.
  change (rlc_um_in_reordering_window e (x mod M)) with
    (if (0 <=? offset e (x mod M))
        && (offset e (x mod M) <? rx_um_window_size e) then 0 else -1).
  rewrite (g_win _ _ Hg).
  destruct (Z.ltb_spec x (uh - ws)).
  - rewrite <- mod_period.
    destruct (offset_cases uh e (x + M) Hg) as [-> | [Hx' Ho]];
      repeat case_match; lia.
  - destruct (offset_cases uh e x Hg) as [-> | [Hx' Ho]];
      repeat case_match; lia.
Qed.

(** ** The relation *)

Definition pdu_rel (x : Z) (u : umd) (tb : mac_tb_ind) : Prop :=
  umd_ok u /\
  exists rest, tb = MacTbInd (umd_encode u (x mod M) ++ rest)
                      (zlen (umd_encode u (x mod M))).

Definition slot_rel (x : Z) (s : option umd) (p : option mac_tb_ind) : Prop :=
  match s with
  | Some u => exists tb, p = Some tb /\ pdu_rel x u tb
  | None => p = None
  end.

Definition ref_of (a : arx) : list Z * bool * list (list Z) :=
  ref_run (a_max a) (a_slots a).

(** What holds between the steps of a reception.  VR(UR), VR(UX) and the
    timer are left out. *)
Record stage (a : arx) (e : um_rx) : Prop := {
  st_geom : geom (a_uh a) e;
  st_max : sdu_max_size e = a_max a;
  st_buf : forall x, a_ur a <= x < a_ur a + M ->
    slot_rel x (a_buf a !! x) (dar_buffer e !! (x mod M));
  st_reas : reas_rel e (fst (fst (ref_of a))) (snd (fst (ref_of a)));
  st_out : delivered e = snd (ref_of a);
  st_last : last_reassemblied_sn e = (a_ur a - 1) mod M
            \/ fst (fst (ref_of a)) = []
}.

(** The fields the stage depends on, and those it does not. *)
Definition stage_view (e : um_rx) :=
  (rx_sn_length e, rx_sn_modulo e, rx_um_window_size e, vr_uh e, dar_buffer e,
   (reassembly_missing_sn_detected e, output_sdu_in_construction e,
    output_sdu_size_to_write e, pool e, delivered e),
   last_reassemblied_sn e, is_data_plane e).
Definition rest_view (e : um_rx) :=
  (vr_ur e, vr_ux e, t_reordering e, is_data_plane e).

Lemma stage_ext a e e' : stage_view e' = stage_view e -> stage a e -> stage a e'.
Proof.
  intros Hv [[G1 G2 G3 G4] Hmx Hb [R1 R2 R3 R4] Ho Hl].
  injection Hv as E1 E2 E3 E4 E5 E6 E7 E8 E9 E10 E11 E12.
  unfold sdu_max_size in *.
  split; unfold sdu_max_size.
  - split; congruence.
  - by rewrite E12.
  - by rewrite E5.
  - split; by rewrite ?E6, ?E7, ?E8, ?E9.
  - by rewrite E10.
  - by rewrite E11.
Qed.

Lemma core_views e e' :
  rx_core e' = rx_core e ->
  rest_view e' = rest_view e /\ dar_buffer e' = dar_buffer e /\
  last_reassemblied_sn e' = last_reassemblied_sn e /\
  (forall uh, geom uh e -> geom uh e').
Proof.
  intros H.
  assert (H1 : vr_ur e' = vr_ur e) by exact (f_equal vr_ur H).
  assert (H2 : vr_ux e' = vr_ux e) by exact (f_equal vr_ux H).
  assert (H3 : t_reordering e' = t_reordering e) by exact (f_equal t_reordering H).
  assert (H4 : is_data_plane e' = is_data_plane e) by exact (f_equal is_data_plane H).
  assert (H5 : dar_buffer e' = dar_buffer e) by exact (f_equal dar_buffer H).
  assert (H6 : last_reassemblied_sn e' = last_reassemblied_sn e) by exact (f_equal last_reassemblied_sn H).
  assert (H7 : rx_sn_length e' = rx_sn_length e) by exact (f_equal rx_sn_length H).
  assert (H8 : rx_sn_modulo e' = rx_sn_modulo e) by exact (f_equal rx_sn_modulo H).
  assert (H9 : rx_um_window_size e' = rx_um_window_size e) by exact (f_equal rx_um_window_size H).
  assert (H10 : vr_uh e' = vr_uh e) by exact (f_equal vr_uh H).
  unfold rest_view.
  split; [congruence|]. split; [done|]. split; [done|].
  intros uh [G1 G2 G3 G4]. split; congruence.
Qed.

Lemma in_bounds_sn y : dar_in_bounds (y mod M) = true.
Proof.
  sn_bounds. unfold dar_in_bounds, DAR_BUFFER_SIZE.
  apply andb_true_intro; split; [apply Z.leb_le|apply Z.ltb_lt]; lia.
Qed.

(** One slot: the code and the abstract receiver advance together. *)
Lemma stage_step a e :
  stage a e -> a_buf a !! (a_ur a + M) = None ->
  exists e', try_reassembly_step (a_ur a mod M) e = Ok e' /\
    stage (a_pop a) e' /\ rest_view e' = rest_view e.
Proof.
  intros [Hg Hmx Hb Hr Ho Hl] Hnext. pose proof fmt_M as HM.
  unfold try_reassembly_step, dar_read. rewrite in_bounds_sn. cbn [mbind res_bind].
  assert (Hb' : forall d : gmap Z mac_tb_ind, d = delete (a_ur a mod M) (dar_buffer e) ->
    forall x, a_ur (a_pop a) <= x < a_ur (a_pop a) + M ->
    slot_rel x (a_buf (a_pop a) !! x) (d !! (x mod M))).
  { intros d -> x Hx. rewrite a_ur_pop in Hx. rewrite a_pop_buf, decide_False by lia.
    destruct (decide (x = a_ur a + M)) as [->|Hne].
    - rewrite Hnext, mod_period. cbn. apply lookup_delete_eq.
    - rewrite lookup_delete_ne; [apply Hb; lia|].
      intros Heq. apply mod_window_inj in Heq; lia. }
  assert (Href : ref_of (a_pop a) = ref_slot (a_max a) (ref_of a) (a_buf a !! a_ur a))
    by apply ref_run_snoc.
  specialize (Hb (a_ur a)). destruct (ref_of a) as [[p m] out] eqn:Er.
  cbn [fst snd] in *. destruct (a_buf a !! a_ur a) as [u|].
  - destruct Hb as (tb & Htb & Hok & rest & ->); [lia|]. rewrite Htb.
    assert (Hp0 : (if (last_reassemblied_sn e + 1) %% rx_sn_modulo e =? a_ur a mod M
                   then p else []) = p).
    { destruct Hl as [-> | ->]; [|by case_match].
      rewrite (g_mod _ _ Hg), next_sn.
      replace (a_ur a - 1 + 1) with (a_ur a) by lia. by rewrite Z.eqb_refl. }
    destruct (reassemble_pdu_ref u (a_ur a mod M) e p m rest)
      as (e1 & He1 & Hr1 & Hd1); try done.
    { apply Hg. } { apply mod_M_range. }
    cbn zeta in *. rewrite Hp0 in *. rewrite He1. cbn [mbind res_bind].
    unfold dar_write. rewrite in_bounds_sn. eexists; split; [reflexivity|].
    apply core_pdu in He1.
    destruct (core_views _ _ He1) as (Hv & Hdb & Hls & Hgm).
    assert (Hplane : is_data_plane e1 = is_data_plane e)
      by exact (f_equal is_data_plane He1).
    split; [|done].
    specialize (Hgm (a_uh a) ltac:(by destruct Hg)).
    set (e2 := e1 <| dar_buffer := _ |>).
    assert (Hr2 := Href). cbn [ref_slot] in Hr2. rewrite Hmx in Hr1, Hd1.
    destruct (ref_pdu (a_max a) u p m) as [[p' m'] o].
    split; rewrite ?Hr2; cbn [fst snd] in *.
    + by destruct Hgm.
    + change (a_max (a_pop a)) with (a_max a). rewrite <- Hmx. unfold sdu_max_size. change (is_data_plane e2) with (is_data_plane e1).
      by rewrite Hplane.
    + intros x Hx. apply Hb'; [|done].
      change (delete (a_ur a mod M) (dar_buffer e1)
              = delete (a_ur a mod M) (dar_buffer e)). by rewrite Hdb.
    + by destruct Hr1.
    + change (delivered e1 = out ++ o). by rewrite Hd1, Ho.
    + left. rewrite a_ur_pop. replace (a_ur a + 1 - 1) with (a_ur a) by lia.
      change (last_reassemblied_sn e1 = a_ur a mod M).
      rewrite Hls. apply u16_sn.
  - rewrite Hb by lia. eexists; split; [reflexivity|]. split; [|done].
    set (e2 := reassemble_missing _ _).
    assert (Hr2 := Href). cbn [ref_slot] in Hr2.
    split; rewrite ?Hr2; cbn [fst snd] in *.
    + by destruct Hg.
    + done.
    + intros x Hx. apply Hb'; [|done].
      change (dar_buffer e = delete (a_ur a mod M) (dar_buffer e)).
      symmetry. apply delete_id. apply Hb. lia.
    + by apply reas_clear with (p := p) (m := m) in Hr as [? ? ? ?].
    + done.
    + by right.
Qed.


Lemma rest_sdu_max e e' : rest_view e' = rest_view e -> sdu_max_size e' = sdu_max_size e.
Proof. unfold rest_view, sdu_max_size. intros [= ? ? ? H]. by rewrite H. Qed.

(** The keys of the buffer are below VR(UH), at most a period away. *)
Definition keys_below (a : arx) : Prop :=
  forall x, is_Some (a_buf a !! x) -> x < a_uh a.

Lemma keys_pop a : keys_below a -> keys_below (a_pop a).
Proof.
  intros Hk x. rewrite a_pop_buf. case_decide; [by intros [? ?]|]. apply Hk.
Qed.

Lemma key_none a x : keys_below a -> a_uh a <= x -> a_buf a !! x = None.
Proof.
  intros Hk Hx. destruct (a_buf a !! x) eqn:E; [|done].
  assert (x < a_uh a) by (apply Hk; eauto). lia.
Qed.

(** The loop up to [t]: neither the test on VR(UH) nor the wrap-around cuts it
    short, and a turn per sequence number is enough. *)
Lemma try_loop t : forall fuel a e,
  a_ur a < t -> t <= a_uh a -> a_uh a <= a_ur a + M ->
  (Z.to_nat (t - a_ur a) <= fuel)%nat -> keys_below a -> stage a e ->
  exists e', try_reassembly_loop fuel (t mod M) (a_ur a mod M) e = Ok e' /\
    stage (a_flush t a) e' /\ rest_view e' = rest_view e.
Proof.
  pose proof fmt_M as HM.
  induction fuel as [|fuel IH]; intros a e Ht Hh Hw Hf Hk Hs; [lia|].
  destruct (stage_step a e Hs) as (e1 & He1 & Hs1 & Hv1);
    [apply key_none; [done|lia]|].
  cbn [try_reassembly_loop]. rewrite He1. cbn [mbind res_bind].
  pose proof (st_geom _ _ Hs1) as [_ -> _ ->].
  change (a_uh (a_pop a)) with (a_uh a).
  rewrite next_sn, s16_sn, a_flush_pop by done.
  destruct (decide (a_ur a + 1 = t)) as [<-|Hne].
  - rewrite Z.eqb_refl, orb_true_r, a_flush_stop by (rewrite a_ur_pop; lia).
    eauto.
  - rewrite (proj2 (Z.eqb_neq _ (a_uh a mod M))).
    2: { intros Heq. apply mod_window_inj in Heq; lia. }
    rewrite (proj2 (Z.eqb_neq _ (t mod M))).
    2: { intros Heq. apply mod_window_inj in Heq; lia. }
    cbn [orb]. rewrite <- a_ur_pop.
    destruct (IH (a_pop a) e1) as (e2 & He2 & Hs2 & Hv2);
      rewrite ?a_ur_pop; try done; try lia.
    + change (a_uh (a_pop a)) with (a_uh a). lia.
    + by apply keys_pop.
    + rewrite a_ur_pop in He2. exists e2. split; [done|]. split; [done|congruence].
Qed.

Lemma try_reassembly_ref t a e :
  a_ur a <= t <= a_uh a -> t < a_ur a + M -> a_uh a <= a_ur a + M ->
  keys_below a -> stage a e ->
  exists e', rlc_um_try_reassembly (a_ur a mod M) (t mod M) e = Ok e' /\
    stage (a_flush t a) e' /\ rest_view e' = rest_view e.
Proof.
  intros Ht Htm Hw Hk Hs. pose proof fmt_M as HM. unfold rlc_um_try_reassembly.
  rewrite !s16_sn. rewrite !(proj2 (Z.ltb_ge _ _)) by apply mod_M_range.
  destruct (Z.eqb_spec (a_ur a mod M) (t mod M)) as [Heq|Hne].
  - apply mod_window_inj in Heq; [|lia|lia]. subst t.
    rewrite a_flush_stop by lia. eauto.
  - apply try_loop; try done; try lia.
    + destruct (decide (a_ur a = t)); [congruence|lia].
    + unfold sn_fuel. rewrite (g_mod _ _ (st_geom _ _ Hs)). lia.
Qed.

(** ** Moving VR(UR) over the received PDUs *)

Lemma get_slot a e x :
  stage a e -> a_ur a <= x < a_ur a + M ->
  exists p, rlc_um_get_pdu_from_dar_buffer e (x mod M) = Ok p /\
    dar_read e (x mod M) = Ok p /\ slot_rel x (a_buf a !! x) p.
Proof.
  intros Hs Hx. exists (dar_buffer e !! (x mod M)).
  unfold rlc_um_get_pdu_from_dar_buffer, dar_read.
  rewrite u16_sn, in_bounds_sn. split; [done|]. split; [done|].
  by apply (st_buf _ _ Hs).
Qed.

(** [e'] is [e] with VR(UR) moved to [t]. *)
Definition moved (t : Z) (a : arx) (e e' : um_rx) : Prop :=
  stage a e' /\ vr_ur e' = t mod M /\ vr_ux e' = vr_ux e /\
  t_reordering e' = t_reordering e /\ sn_fuel e' = sn_fuel e.

Lemma moved_trans t1 t a e e1 e2 : moved t1 a e e1 -> moved t a e1 e2 -> moved t a e e2.
Proof.
  intros (_ & _ & E1 & E2 & E3) (Hs & Hv & F1 & F2 & F3).
  split; [done|]. split; [done|]. split; [congruence|]. split; congruence.
Qed.

Lemma moved_refl t a e : stage a e -> vr_ur e = t mod M -> moved t a e e.
Proof. by intros Hs Hv. Qed.

Lemma next_ur_moved a e x :
  stage a e -> vr_ur e = x mod M -> moved (x + 1) a e (next_ur e).
Proof.
  intros Hs Hv. split; [by apply (stage_ext a e)|]. split; [|done].
  change (u16 ((vr_ur e + 1) %% rx_sn_modulo e) = (x + 1) mod M).
  by rewrite (g_mod _ _ (st_geom _ _ Hs)), Hv, next_sn, u16_sn.
Qed.

Lemma skip_ref a t : forall fuel e x,
  stage a e -> vr_ur e = x mod M -> a_ur a <= x <= t -> t < a_ur a + M ->
  (forall y, x <= y < t -> is_Some (a_buf a !! y)) -> a_buf a !! t = None ->
  (Z.to_nat (t - x) < fuel)%nat ->
  exists e', skip_received fuel e = Ok e' /\ moved t a e e'.
Proof.
  induction fuel as [|fuel IH]; intros e x Hs Hv Hx Ht Hall Hnone Hf; [lia|].
  cbn [skip_received]. rewrite Hv.
  destruct (get_slot a e x Hs ltac:(lia)) as (p & -> & _ & Hp). cbn [mbind res_bind].
  destruct (decide (x = t)) as [->|Hne].
  - rewrite Hnone in Hp. cbn in Hp. subst p. by exists e.
  - destruct (Hall x ltac:(lia)) as [u Hu]. rewrite Hu in Hp.
    destruct Hp as (tb & -> & _).
    pose proof (next_ur_moved a e x Hs Hv) as Hm.
    destruct (IH (next_ur e) (x + 1)) as (e2 & He2 & Hm2);
      try apply Hm; try done; try lia; [intros y Hy; apply Hall; lia|].
    exists e2. split; [done|]. exact (moved_trans _ _ _ _ _ _ Hm Hm2).
Qed.

Lemma advance_ref a t : forall fuel e x,
  stage a e -> vr_ur e = x mod M -> a_ur a <= x < t -> t < a_ur a + M ->
  t <= a_uh a -> a_uh a < a_ur a + M -> keys_below a ->
  (forall y, x < y < t -> is_Some (a_buf a !! y)) -> a_buf a !! t = None ->
  (Z.to_nat (t - x) <= fuel)%nat ->
  exists e', advance_ur fuel e = Ok e' /\ moved t a e e'.
Proof.
  induction fuel as [|fuel IH];
    intros e x Hs Hv Hx Ht Hh Hw Hk Hall Hnone Hf; [lia|].
  pose proof (next_ur_moved a e x Hs Hv) as Hm.
  pose proof Hm as (Hs1 & Hv1 & _). cbn [advance_ur]. rewrite Hv1.
  destruct (get_slot a (next_ur e) (x + 1) Hs1 ltac:(lia)) as (p & -> & _ & Hp).
  cbn [mbind res_bind]. destruct (decide (x + 1 = t)) as [Et|Hne]; [rewrite Et in *|].
  - rewrite Hnone in Hp. cbn in Hp. subst p. by exists (next_ur e).
  - destruct (Hall (x + 1) ltac:(lia)) as [u Hu]. rewrite Hu in Hp.
    destruct Hp as (tb & -> & _).
    rewrite (g_uh _ _ (st_geom _ _ Hs1)), (proj2 (Z.eqb_neq _ _)).
    2: { pose proof fmt_M. intros Heq. apply mod_window_inj in Heq; lia. }
    destruct (IH (next_ur e) (x + 1)) as (e2 & He2 & Hm2);
      try done; try lia; [intros y Hy; apply Hall; lia|].
    exists e2. split; [done|]. exact (moved_trans _ _ _ _ _ _ Hm Hm2).
Qed.

(** ** The relation at the ends of an operation *)

Record dar_rel (a : arx) (e : um_rx) : Prop := {
  dr_stage : stage a e;
  dr_ur : vr_ur e = a_ur a mod M;
  dr_run : running (t_reordering e) = a_running a;
  dr_ux : a_running a = true -> vr_ux e = a_ux a mod M
}.

(** The reception window is a period: [x] is the sequence number meant. *)
Lemma fmt_len_known : negb ((fmt_len =? 10) || (fmt_len =? 5)) = false.
Proof. by destruct fmt_len_cases as [[-> _] | [-> _]]. Qed.

Lemma umd_sn_rel a e x u tb :
  stage a e -> pdu_rel x u tb -> umd_sn (rx_sn_length e) (data_ptr tb) = Ok (x mod M).
Proof.
  intros Hs (Hok & rest & ->). rewrite (g_len _ _ (st_geom _ _ Hs)).
  cbn [data_ptr]. unfold umd_encode. rewrite <- app_assoc.
  apply fmt_decode_sn; [apply fi_of_range|by case_decide|apply mod_M_range].
Qed.

(** ** Discard or place *)

Lemma stage_stats a e st : stage a e -> stage a (e <| rx_stats := st |>).
Proof. by apply stage_ext. Qed.

Lemma dar_rel_stats a e st : dar_rel a e -> dar_rel a (e <| rx_stats := st |>).
Proof. intros [Hs H1 H2 H3]. split; try done. by apply stage_stats. Qed.

Definition with_pdu (x : Z) (u : umd) (a : arx) : arx :=
  a <| a_buf := <[x := u]> (a_buf a) |>.

(** Writing the slot of [x] in any array which agrees elsewhere. *)
Lemma stage_store a e x u tb d :
  stage a e -> a_ur a <= x < a_ur a + M -> pdu_rel x u tb ->
  (forall i, i <> x mod M -> d !! i = dar_buffer e !! i) ->
  d !! (x mod M) = Some tb ->
  stage (with_pdu x u a) (e <| dar_buffer := d |>).
Proof.
  intros [Hg Hmx Hb Hr Ho Hl] Hx Hp Hd Hdx. split.
  - by destruct Hg.
  - done.
  - intros y Hy. change (a_ur a <= y < a_ur a + M) in Hy.
    change (slot_rel y (<[x := u]> (a_buf a) !! y) (d !! (y mod M))).
    destruct (decide (y = x)) as [->|Hne].
    + rewrite lookup_insert_eq, Hdx. by exists tb.
    + rewrite lookup_insert_ne by done. rewrite Hd; [by apply Hb|].
      pose proof fmt_M. intros Heq. apply mod_window_inj in Heq; lia.
  - by destruct Hr.
  - done.
  - done.
Qed.

Lemma place_window a e x :
  dar_rel a e -> a_inv ws a -> a_uh a - ws <= x < a_uh a + ws ->
  let w := rlc_um_in_window e (vr_uh e - rx_um_window_size e) (x mod M) (vr_ur e) in
  (w =? 1) || (w =? 0) = (x <? a_ur a).
Proof.
  intros [Hs Hur _ _] [Hw _ _ _] Hx w. pose proof fmt_M.
  pose proof (st_geom _ _ Hs) as Hg.
  subst w. rewrite (in_window_offset (a_uh a)), (offset_low (a_uh a)), Hur by done.
  rewrite (offset_in (a_uh a) e (a_ur a)) by (done || lia).
  destruct (offset_cases (a_uh a) e x Hg Hx) as [-> | [Hx' Ho]];
    unfold window_code; repeat case_match; lia.
Qed.

Lemma place_ref a e x u tb n :
  dar_rel a e -> a_inv ws a -> a_uh a - ws <= x < a_uh a + ws -> pdu_rel x u tb ->
  exists e', dar_place tb n (x mod M) false e = Ok (e', a_accepts x a) /\
    if a_accepts x a then stage (with_pdu x u a) e' /\ rest_view e' = rest_view e
    else dar_rel a e'.
Proof.
  intros Hd Ha Hx Hp. pose proof fmt_M as HM. pose proof (dr_stage _ _ Hd) as Hs.
  unfold dar_place. rewrite (place_window a e x Hd Ha Hx).
  unfold a_accepts. destruct (Z.ltb_spec x (a_ur a)) as [Hlt|Hge].
  { rewrite (proj2 (Z.leb_gt _ _)) by lia. cbn.
    eexists; split; [reflexivity|]. by apply dar_rel_stats. }
  rewrite (proj2 (Z.leb_le _ _)) by lia. cbn [andb].
  assert (Hr : a_ur a <= x < a_ur a + M) by (pose proof (ai_win _ _ Ha); lia).
  destruct (get_slot a e x Hs Hr) as (p & -> & Hrd & Hsl). cbn [mbind res_bind].
  destruct (a_buf a !! x) as [u0|] eqn:Eb.
  - destruct Hsl as (tb0 & -> & _). rewrite bool_decide_false by done.
    assert (Hk : a_ur a <= x < a_uh a) by (apply (ai_buf _ _ Ha); by rewrite Eb).
    rewrite (dr_ur _ _ Hd), (g_uh _ _ (st_geom _ _ Hs)).
    destruct (in_window_mod (a_uh a) e (a_ur a) x (a_uh a)) as [-> | [? ?]];
      try apply (st_geom _ _ Hs); try (pose proof (ai_win _ _ Ha); lia).
    rewrite orb_false_r. unfold window_code.
    rewrite (proj2 (Z.ltb_ge x (a_ur a))), (proj2 (Z.ltb_ge (a_uh a) x)) by lia.
    rewrite (Z.eqb_sym x). destruct (Z.eqb_spec (a_ur a) x) as [Hxe|Hne].
    + rewrite (proj2 (Z.eqb_neq (a_uh a) x)) by lia. cbn [Z.eqb].
      unfold rlc_um_remove_pdu_from_dar_buffer, rlc_um_store_pdu_in_dar_buffer,
        dar_read, dar_write. rewrite u16_sn, in_bounds_sn. cbn [mbind res_bind].
      eexists; split; [reflexivity|]. split; [|done].
      match goal with |- stage _ (_ <| dar_buffer := ?d |>) =>
        apply (stage_ext _ ((duplicate_stats n e) <| dar_buffer := d |>)); [done|]
      end.
      apply stage_store with (tb := tb); [by apply stage_stats|done|done| |].
      * intros i Hi. rewrite lookup_partial_alter_ne by done.
        apply lookup_partial_alter_ne. done.
      * apply lookup_partial_alter_eq.
    + rewrite (proj2 (Z.eqb_neq (a_uh a) x)) by lia. cbn.
      eexists; split; [reflexivity|]. by apply dar_rel_stats.
  - cbn in Hsl. subst p. rewrite bool_decide_true, orb_true_r by done.
    unfold rlc_um_store_pdu_in_dar_buffer, dar_write.
    rewrite u16_sn, in_bounds_sn. cbn [mbind res_bind].
    eexists; split; [reflexivity|]. split; [|done].
    apply stage_store with (tb := tb); [done|done|done| |].
    + intros i Hi. by apply lookup_partial_alter_ne.
    + apply lookup_partial_alter_eq.
Qed.

(** ** The steps after the PDU is placed *)

(** The state against the abstract one, the timer left out. *)
Definition stage_ur (a : arx) (e0 e : um_rx) : Prop :=
  stage a e /\ vr_ur e = a_ur a mod M /\ vr_ux e = vr_ux e0 /\
  t_reordering e = t_reordering e0.

Lemma low_edge uh :
  (if uh mod M - ws <? 0 then uh mod M - ws + M else uh mod M - ws) = (uh - ws) mod M.
Proof.
  sn_bounds. rewrite <- (Zminus_mod_idemp_l uh).
  destruct (Z.ltb_spec (uh mod M - ws) 0).
  - rewrite <- (mod_period (uh mod M - ws)). symmetry. apply Z.mod_small. lia.
  - symmetry. apply Z.mod_small. lia.
Qed.

Lemma stage_uh a e h :
  stage a e -> stage (a <| a_uh := h |>) (e <| vr_uh := h mod M |>).
Proof.
  intros [Hg Hmx Hb Hr Ho Hl]. split; try done.
  - by destruct Hg.
  - by destruct Hr.
Qed.

Lemma outside_ref a e0 e x u :
  stage_ur (with_pdu x u a) e0 e -> a_inv ws a -> a_ur a <= x < a_uh a + ws ->
  exists e', dar_outside (x mod M) e = Ok e' /\
    stage_ur (a_move_window ws x (with_pdu x u a)) e0 e'.
Proof.
  set (a0 := with_pdu x u a). intros (Hs & Hur & Hux & Ht) Ha Hx.
  pose proof fmt_M as HM. pose proof (ai_win _ _ Ha) as Hw.
  unfold dar_outside, a_move_window.
  change (a_uh a0) with (a_uh a). change (a_ur a0) with (a_ur a) in *.
  rewrite (in_reordering_mod (a_uh a)) by (try apply (st_geom _ _ Hs); lia).
  destruct (Z.leb_spec (a_uh a) x) as [Hout|Hin].
  2: { rewrite (proj2 (Z.leb_le _ _)), (proj2 (Z.ltb_lt x (a_uh a))) by lia. cbn.
       exists e. split; [done|]. by split. }
  rewrite (proj2 (Z.ltb_ge x (a_uh a))), andb_false_r by lia. cbn [Z.ltb Z.compare].
  rewrite (g_mod _ _ (st_geom _ _ Hs)), next_sn, u16_sn.
  pose proof (stage_uh a0 e (x + 1) Hs) as Hs1.
  set (a1 := a0 <| a_uh := x + 1 |>) in *.
  set (e1 := e <| vr_uh := (x + 1) mod M |>) in *.
  change (a_uh a1) with (x + 1). change (a_ur a1) with (a_ur a).
  pose proof (st_geom _ _ Hs1) as Hg1. change (a_uh a1) with (x + 1) in Hg1.
  change (vr_ur e1) with (vr_ur e). rewrite Hur.
  rewrite (g_uh _ _ Hg1), (g_win _ _ Hg1), (g_mod _ _ Hg1), low_edge.
  assert (Hre : forall e', geom (x + 1) e' ->
    rlc_um_in_reordering_window e' (a_ur a mod M)
    = if x + 1 - ws <=? a_ur a then 0 else -1).
  { intros e' Hg'. rewrite (in_reordering_mod (x + 1)) by (done || lia).
    rewrite (proj2 (Z.ltb_lt _ (x + 1))), andb_true_r by lia. done. }
  rewrite (Hre e1) by done.
  destruct (Z.leb_spec (x + 1 - ws) (a_ur a)) as [Hi|Ho]; cbn [Z.eqb negb].
  - cbn [mbind res_bind]. change (vr_ur e1) with (vr_ur e).
    rewrite Hur, Hre by done.
    eexists; split; [reflexivity|].
    rewrite a_flush_stop by (change (a_ur a1) with (a_ur a); lia). by split.
  - destruct (try_reassembly_ref (x + 1 - ws) a1 e1) as (e2 & He2 & Hs2 & Hv2);
      try (change (a_ur a1) with (a_ur a)); try (change (a_uh a1) with (x + 1));
      try done; try lia.
    { intros y Hy. change (is_Some (<[x := u]> (a_buf a) !! y)) in Hy.
      change (a_uh a1) with (x + 1). destruct (decide (y = x)); [lia|].
      rewrite lookup_insert_ne in Hy by done. apply (ai_buf _ _ Ha) in Hy. lia. }
    change (a_ur a1) with (a_ur a) in He2. rewrite He2. cbn [mbind res_bind].
    injection Hv2 as V1 V2 V3 V4.
    rewrite V1. change (vr_ur e1) with (vr_ur e). rewrite Hur.
    destruct (a_flush_frame (x + 1 - ws) a1) as (F1 & _ & F3 & _);
      [change (a_ur a1) with (a_ur a); lia|].
    pose proof (st_geom _ _ Hs2) as Hg2. rewrite F3 in Hg2.
    rewrite (Hre e2) by done. cbn.
    eexists; split; [reflexivity|].
    replace (Z.max (a_ur a) (x + 1 - ws)) with (x + 1 - ws) by lia.
    split; [by apply (stage_ext _ e2)|]. rewrite F1.
    split; [apply u16_sn|]. split; [by rewrite <- Hux|by rewrite <- Ht].
Qed.

Lemma deliver_ref a e0 e x :
  stage_ur a e0 e -> a_mid ws a -> a_ur a <= x < a_uh a ->
  is_Some (a_buf a !! x) ->
  exists e', dar_advance (x mod M) e = Ok e' /\ stage_ur (a_deliver x a) e0 e'.
Proof.
  intros (Hs & Hur & Hux & Ht) [Hw Hb] Hx Hsome. pose proof fmt_M as HM.
  unfold dar_advance, a_deliver. rewrite Hur.
  destruct (Z.eqb_spec x (a_ur a)) as [->|Hne].
  2: { rewrite (proj2 (Z.eqb_neq _ _)).
       2: { intros Heq. apply mod_window_inj in Heq; lia. }
       exists e. split; [done|]. by split. }
  rewrite Z.eqb_refl.
  destruct (get_slot a e (a_ur a) Hs ltac:(lia)) as (p & -> & _ & Hp).
  destruct Hsome as [u Hu]. rewrite Hu in Hp. destruct Hp as (tb & -> & _).
  cbn [mbind res_bind].
  set (t := first_missing a (a_ur a)).
  destruct (first_missing_spec a (a_ur a)) as (H1 & H2 & H3);
    [intros y Hy; by apply Hb|lia|]. fold t in H1, H2, H3.
  assert (Hlt : a_ur a < t)
    by (destruct (decide (t = a_ur a)) as [E|]; [rewrite E in H3; congruence|lia]).
  destruct (advance_ref a t (S (sn_fuel e)) e (a_ur a))
    as (e1 & -> & Hs1 & Hv1 & Hux1 & Ht1 & _); try done; try lia.
  { intros y Hy. by apply Hb. } { intros y Hy. apply H2. lia. }
  { unfold sn_fuel. rewrite (g_mod _ _ (st_geom _ _ Hs)). lia. }
  cbn [mbind res_bind]. rewrite Hv1.
  destruct (try_reassembly_ref t a e1) as (e2 & He2 & Hs2 & Hv2);
    try done; try lia; [intros y Hy; by apply Hb|].
  injection Hv2 as V1 V2 V3 V4.
  exists e2. split; [done|]. split; [done|].
  destruct (a_flush_frame t a) as (-> & _); [lia|].
  split; [congruence|]. split; congruence.
Qed.

(** ** t-Reordering *)

Lemma dar_rel_intro a e :
  stage a e -> vr_ur e = a_ur a mod M -> running (t_reordering e) = a_running a ->
  (a_running a = true -> vr_ux e = a_ux a mod M) -> dar_rel a e.
Proof. by split. Qed.

Lemma stage_run a e b ux t : 
  stage a e ->
  stage (a <| a_running := b |> <| a_ux := ux |>) (e <| t_reordering := t |>).
Proof.
  intros [Hg Hmx Hb Hr Ho Hl]. split; try done; [by destruct Hg|by destruct Hr].
Qed.

Lemma stop_rel a e :
  dar_rel a e ->
  dar_rel (a <| a_running := false |>) (rlc_um_stop_and_reset_timer_reordering e).
Proof.
  intros [Hs Hu _ _]. apply dar_rel_intro; try done.
  apply (stage_run a e false (a_ux a)), Hs.
Qed.

Lemma start_rel a e frameP :
  dar_rel a e ->
  dar_rel (a <| a_running := true |> <| a_ux := a_uh a |>)
    ((rlc_um_start_timer_reordering e frameP) <| vr_ux := vr_uh e |>).
Proof.
  intros [Hs Hu _ _]. apply dar_rel_intro; try done.
  - apply (stage_ext _ (rlc_um_start_timer_reordering e frameP)); [done|].
    by apply (stage_run a e true (a_uh a)).
  - intros _. apply (g_uh _ _ (st_geom _ _ Hs)).
Qed.

(** VR(UH) > VR(UR), as the code tests it. *)
Lemma above_ur a e :
  dar_rel a e -> a_mid ws a ->
  (rlc_um_in_window e (vr_ur e) (vr_uh e) (vr_uh e) =? 2) = (a_ur a <? a_uh a).
Proof.
  intros [Hs Hu _ _] [Hw _]. pose proof fmt_M.
  rewrite Hu, (g_uh _ _ (st_geom _ _ Hs)).
  destruct (in_window_mod (a_uh a) e (a_ur a) (a_uh a) (a_uh a)) as [-> | [? ?]];
    try apply (st_geom _ _ Hs); try lia.
  unfold window_code. repeat case_match; lia.
Qed.

Lemma stop_timer_ref a e :
  dar_rel a e -> a_mid ws a ->
  (a_running a = true -> a_uh a - M < a_ux a <= a_uh a) ->
  dar_rel (a_stop ws a) (dar_stop_timer e).
Proof.
  intros Hd [Hw Hb] Hux. pose proof fmt_M as HM. pose proof Hd as [Hs Hu Hr Hx].
  pose proof (st_geom _ _ Hs) as Hg.
  unfold dar_stop_timer, a_stop. rewrite Hr.
  destruct (a_running a) eqn:Er.
  2: { rewrite !andb_false_l, Hr. case_match; [|done].
       destruct Hd as [Hs' Hu' Hr' Hx']. apply dar_rel_intro; try done.
       apply (stage_ext _ (e <| t_reordering := t_reordering e |>)); [done|].
       apply (stage_run a e false (a_ux a)), Hs'. }
  specialize (Hux eq_refl). specialize (Hx eq_refl). cbn [andb].
  rewrite Hx, (g_uh _ _ Hg), (in_reordering_mod (a_uh a)) by (done || lia).
  destruct (Z.ltb_spec (a_ux a) (a_uh a - ws)) as [Hlow|Hin].
  - rewrite (proj2 (Z.eqb_neq (a_uh a mod M) _))
      by (intros Heq; apply mod_window_inj in Heq; lia).
    rewrite (proj2 (Z.leb_gt _ _)) by lia. cbn. by apply stop_rel.
  - replace (negb _ && _) with false.
    2: { rewrite (proj2 (Z.leb_le _ _)) by lia. cbn [andb].
         destruct (Z.ltb_spec (a_ux a) (a_uh a)); [by rewrite andb_false_r|].
         replace (a_ux a) with (a_uh a) by lia. by rewrite Z.eqb_refl. }
    rewrite Hr, Hx, Hu, (g_uh _ _ Hg). cbn [orb].
    destruct (in_window_mod (a_uh a) e (a_ur a) (a_ux a) (a_uh a)) as [-> | [? ?]];
      try done; try lia.
    replace ((window_code _ _ _ =? -2) || _)
      with ((a_ux a <? a_ur a) || (a_ux a =? a_ur a) && (a_ur a <? a_uh a))
      by (unfold window_code; repeat case_match; lia).
    case_match; [by apply stop_rel|done].
Qed.

Lemma start_timer_ref a e frameP :
  dar_rel a e -> a_mid ws a -> dar_rel (a_start a) (dar_start_timer frameP e).
Proof.
  intros Hd Hm. unfold dar_start_timer, a_start.
  rewrite (dr_run _ _ Hd), (above_ur a e Hd Hm).
  case_match; [by apply start_rel|done].
Qed.

(** ** The operations *)

Lemma receive_ref a e x u tb n frameP :
  dar_rel a e -> a_inv ws a -> a_uh a - ws <= x < a_uh a + ws -> pdu_rel x u tb ->
  exists e', rlc_um_receive_process_dar frameP tb n e = Ok e' /\
    dar_rel (a_receive ws x u a) e'.
Proof.
  intros Hd Ha Hx Hp. pose proof fmt_M as HM.
  pose proof (dr_stage _ _ Hd) as Hs.
  unfold rlc_um_receive_process_dar, a_receive.
  rewrite (umd_sn_rel a e x u tb Hs Hp), (g_len _ _ (st_geom _ _ Hs)),
    fmt_len_known. cbn [mbind res_bind].
  destruct (place_ref a e x u tb n Hd Ha Hx Hp) as (e1 & -> & H1).
  cbn [mbind res_bind].
  destruct (a_accepts x a) eqn:Eacc; cbn [negb]; [|by exists e1].
  destruct H1 as [Hs1 [= V1 V2 V3 V4]].
  assert (Hge : a_ur a <= x) by (unfold a_accepts in Eacc; lia).
  destruct (outside_ref a e e1 x u) as (e2 & -> & Hs2); try done; [|lia|].
  { split; [done|]. split; [by rewrite V1, (dr_ur _ _ Hd)|done]. }
  cbn [mbind res_bind].
  destruct fmt_M as (_ & [Hpos _] & _).
  destruct (a_mid_place ws Hpos x u a Ha Hge) as (Hm & Hu1 & Hh1 & Hxh & He1 & Hr1).
  destruct (a_place_keeps ws Hpos x u a Hge) as (Hlow & Hkeep & Huh).
  change (a <| a_buf := <[x := u]> (a_buf a) |>) with (with_pdu x u a) in *.
  set (a1 := a_move_window ws x (with_pdu x u a)) in *.
  destruct (deliver_ref a1 e e2 x Hs2 Hm) as (e3 & -> & Hs3 & Hv3 & Hx3 & Ht3);
    [lia|by rewrite Hkeep|].
  cbn [mbind res_bind]. eexists; split; [reflexivity|].
  destruct (a_mid_deliver ws x a1 Hm Hxh) as (Hm2 & Hu2 & Hh2 & He2 & Hr2).
  set (a2 := a_deliver x a1) in *.
  apply start_timer_ref; [apply stop_timer_ref; [|done|]|].
  - apply dar_rel_intro; [done|done| |].
    + by rewrite Ht3, Hr2, Hr1, (dr_run _ _ Hd).
    + rewrite Hr2, Hr1, Hx3, He2, He1. apply (dr_ux _ _ Hd).
  - rewrite Hr2, Hr1, He2, He1, Hh2. intros HR. pose proof (ai_run _ _ Ha HR).
    pose proof (ai_win _ _ Ha).
    change (a_uh (with_pdu x u a)) with (a_uh a) in Huh. lia.
  - by apply a_mid_stop.
Qed.

Lemma timeout_ref a e frameP :
  dar_rel a e -> a_inv ws a -> a_running a = true ->
  timer_expired (t_reordering e) frameP = true ->
  exists e', rlc_um_check_timer_dar_time_out e frameP true = Ok e' /\
    dar_rel (a_timeout a) e'.
Proof.
  intros Hd Ha HR HT. pose proof fmt_M as HM. destruct HM as (HM & [Hpos Hws] & _).
  destruct (a_timeout_target ws a Ha HR) as ((H1 & H2) & H3 & H4 & H5).
  unfold rlc_um_check_timer_dar_time_out, a_timeout.
  rewrite (dr_run _ _ Hd), HR, HT. cbn [andb].
  set (e0 := e <| rx_stats := _ |>).
  pose proof (dar_rel_stats a e _ Hd : dar_rel a e0) as Hd0.
  pose proof (dr_stage _ _ Hd0) as Hs0. pose proof (ai_win _ _ Ha) as Hw.
  set (t := first_missing a (a_ux a)) in *.
  destruct (skip_ref a t (S (sn_fuel e0)) (e0 <| vr_ur := vr_ux e0 |>) (a_ux a))
    as (e1 & He1 & Hs1 & Hv1 & Hx1 & Ht1 & _); try done; try lia.
  { by apply (stage_ext _ e0). }
  { apply (dr_ux _ _ Hd0), HR. }
  { unfold sn_fuel. rewrite (g_mod _ _ (st_geom _ _ Hs0)). lia. }
  change (sn_fuel (e0 <| vr_ur := vr_ux e0 |>)) with (sn_fuel e0).
  rewrite He1. cbn [mbind res_bind]. rewrite (dr_ur _ _ Hd0), Hv1.
  destruct (try_reassembly_ref t a e1) as (e2 & -> & Hs2 & [= V1 V2 V3 V4]);
    try done; try lia; [intros y Hy; by apply (ai_buf _ _ Ha)|].
  cbn [mbind res_bind]. eexists; split; [reflexivity|].
  destruct (a_flush_frame t a) as (F1 & F2 & F3 & F4 & F5); [lia|].
  assert (Hd2 : dar_rel (a_flush t a) e2).
  { apply dar_rel_intro; [done|congruence| |].
    - by rewrite V3, Ht1, F4, <- (dr_run _ _ Hd0).
    - intros _. rewrite V2, Hx1, F2. apply (dr_ux _ _ Hd0), HR. }
  unfold restart_timer. rewrite (above_ur _ _ Hd2).
  - case_match; [by apply start_rel|by apply stop_rel].
  - apply a_mid_flush; [lia|lia|apply Ha].
Qed.

(** A timer which does not run, has not expired or finds the buffer locked
    leaves the receiver alone. *)
Lemma tick_ref a e frameP locked :
  dar_rel a e ->
  running (t_reordering e) && timer_expired (t_reordering e) frameP && locked = false ->
  exists e', rlc_um_check_timer_dar_time_out e frameP locked = Ok e' /\ dar_rel a e'.
Proof.
  intros Hd Hn. unfold rlc_um_check_timer_dar_time_out.
  destruct (running _ && timer_expired _ _); [|eauto].
  cbn [andb] in Hn. subst locked. eexists; split; [reflexivity|].
  by apply dar_rel_stats.
Qed.

(** C21.  The window tests.  Around VR(UH), in arithmetic modulo twice the
    window, [rlc_um_in_window] decides whether a sequence number lies between
    two bounds of the window, and tells which of them it meets (1 the lower,
    2 the higher, 3 both, 0 none), negative outside;
    [rlc_um_in_reordering_window] decides (VR(UH) - window) <= SN < VR(UH). *)
Theorem window_tests_spec uh e lo x hi :
  geom uh e -> uh - ws <= lo <= hi -> hi <= uh -> uh - ws <= x < uh + ws ->
  let r := rlc_um_in_window e (lo mod M) (x mod M) (hi mod M) in
  (0 <= r <-> lo <= x <= hi) /\
  (lo <= x <= hi ->
   r = (if x =? lo then (if x =? hi then 3 else 1) else if x =? hi then 2 else 0)) /\
  rlc_um_in_reordering_window e (x mod M) = (if x <? uh then 0 else -1).
Proof.
  intros Hg Hlo Hhi Hx r. pose proof fmt_M.
  rewrite (in_reordering_mod uh) by (done || lia).
  rewrite (proj2 (Z.leb_le (uh - ws) x)) by lia. cbn [andb].
  destruct (in_window_mod uh e lo x hi Hg Hlo Hhi Hx) as [E|[E1 E2]]; fold r in E || fold r in E1.
  - rewrite E. unfold window_code. split; [|split; [|done]].
    + repeat case_match; lia.
    + intros Hin. repeat case_match; lia.
  - split; [|split; [|done]]; lia.
Qed.
End refine.
