(* ===== verification/RlcUmReceiver.v ===== *)
(** RLC UM v9.3.0: runs of the receiver.  Any sequence of well-formed PDUs and
    timer ticks, in any order and with any losses and repetitions. *)
From stdpp Require Import sorting.
From S2P Require Import Prelude.
From S2P Require Import RlcUmEntity.
From S2P Require Import RlcUmHeader.
From S2P Require Import RlcUmReassembly.
From S2P Require Import RlcUmReassemblySpec.
From S2P Require Import RlcUmDar.
From S2P Require Import RlcUmDarSpec.
From S2P Require Import RlcUmDarRefine.

Local Open Scope Z_scope.

(** ** Events *)

(** A transport block which carries PDU [u] under sequence number [s], or a
    check of t-Reordering ([locked]: the buffer's mutex was free). *)
Inductive rx_event :=
  | EvPdu (frameP s : Z) (u : umd) (tb : mac_tb_ind)
  | EvTick (frameP : Z) (locked : bool).

Definition rx_op (ev : rx_event) (e : um_rx) : res um_rx :=
  match ev with
  | EvPdu frameP _ _ tb => rlc_um_receive_one frameP tb e
  | EvTick frameP locked => rlc_um_check_timer_dar_time_out e frameP locked
  end.

Fixpoint rx_run (evs : list rx_event) (e : um_rx) : res um_rx :=
  match evs with
  | [] => Ok e
  | ev :: evs => e ← rx_op ev e; rx_run evs e
  end.

Lemma rx_run_app evs1 evs2 e :
  rx_run (evs1 ++ evs2) e = rx_run evs1 e ≫= rx_run evs2.
Proof.
  revert e. induction evs1 as [|ev evs1 IH]; intros e; [done|]. cbn.
  rewrite res_bind_assoc. destruct (rx_op ev e); cbn; [apply IH|done].
Qed.

Section runs.
Context `{F : UmdFormat}.
Local Abbreviation M := (fmt_modulo (UmdFormat := F)).
Local Abbreviation ws := (fmt_window (UmdFormat := F)).

(** Well-formed events: the block holds the encoded PDU. *)
Definition ev_ok (ev : rx_event) : Prop :=
  match ev with
  | EvPdu _ s u tb => 0 <= s < M /\ pdu_rel s u tb
  | EvTick _ _ => True
  end.

(** The sequence number meant by [s]: the one of its class in the period
    around VR(UH). *)
Definition resolve (uh s : Z) : Z := (uh - ws) + (s - (uh - ws)) mod M.

Lemma resolve_spec uh s :
  0 <= s < M -> uh - ws <= resolve uh s < uh + ws /\ resolve uh s mod M = s.
Proof.
  intros Hs. pose proof fmt_M. unfold resolve.
  pose proof (Z.mod_pos_bound (s - (uh - ws)) M ltac:(lia)).
  split; [lia|]. rewrite Zplus_mod_idemp_r.
  replace (uh - ws + (s - (uh - ws))) with s by lia. by apply Z.mod_small.
Qed.

Lemma resolve_self uh x : uh - ws <= x < uh + ws -> resolve uh (x mod M) = x.
Proof.
  intros Hx. pose proof fmt_M.
  destruct (resolve_spec uh (x mod M)) as [H1 H2]; [apply mod_M_range|].
  apply (mod_window_inj M); [lia|done|lia].
Qed.

(** What an event does to the abstract receiver.  A tick may or may not be an
    expiry. *)
Inductive a_next (a : arx) : rx_event -> arx -> Prop :=
  | an_pdu frameP s u tb :
      a_next a (EvPdu frameP s u tb) (a_receive ws (resolve (a_uh a) s) u a)
  | an_timeout frameP :
      a_running a = true -> a_next a (EvTick frameP true) (a_timeout a)
  | an_tick frameP locked : a_next a (EvTick frameP locked) a.

Inductive a_steps : arx -> list rx_event -> arx -> Prop :=
  | as_nil a : a_steps a [] a
  | as_cons a ev a1 evs a2 :
      a_next a ev a1 -> a_steps a1 evs a2 -> a_steps a (ev :: evs) a2.

Lemma a_next_inv a ev a' : a_inv ws a -> a_next a ev a' -> a_inv ws a'.
Proof.
  pose proof fmt_M as (_ & [Hpos _] & _).
  intros Ha [frameP s u tb|frameP HR|frameP locked]; [|by apply a_inv_timeout|done].
  by apply a_inv_receive.
Qed.

Lemma a_steps_inv a evs a' : a_inv ws a -> a_steps a evs a' -> a_inv ws a'.
Proof. intros Ha. induction 1; [done|]. eauto using a_next_inv. Qed.

(** ** Simulation of one event *)

Lemma umd_encode_size u s : umd_ok u -> 0 < zlen (umd_encode u s) < 65536.
Proof.
  intros [Hl Hn Hp Hs]. rewrite umd_encode_len.
  pose proof fmt_hlen_range. pose proof (zlen_nonneg (umd_full u)) as Hz.
  pose proof (li_header_len_bound _ Hz).
  assert (0 <= sumZ (umd_lis u))
    by (apply sumZ_nonneg; eapply Forall_impl; [exact Hl|]; unfold li_ok; lia).
  lia.
Qed.

Lemma receive_one_ref a e frameP s u tb :
  dar_rel a e -> a_inv ws a -> 0 <= s < M -> pdu_rel s u tb ->
  exists e', rlc_um_receive_one frameP tb e = Ok e' /\
    dar_rel (a_receive ws (resolve (a_uh a) s) u a) e'.
Proof.
  intros Hd Ha Hs Hp. unfold rlc_um_receive_one.
  assert (Hsz : 0 < ind_size tb < 65536)
    by (destruct Hp as (Hok & rest & ->); by apply umd_encode_size).
  rewrite u16_small, (proj2 (Z.ltb_lt _ _)) by lia.
  destruct (resolve_spec (a_uh a) s Hs) as [Hw Hm].
  apply receive_ref; [by apply dar_rel_stats|done|done|].
  destruct Hp as (Hok & rest & Htb). split; [done|]. exists rest.
  rewrite Hm. by rewrite Z.mod_small in Htb.
Qed.

Lemma rx_op_ref a e ev :
  dar_rel a e -> a_inv ws a -> ev_ok ev ->
  exists e' a', rx_op ev e = Ok e' /\ a_next a ev a' /\ dar_rel a' e'.
Proof.
  intros Hd Ha Hev. destruct ev as [frameP s u tb|frameP locked].
  - destruct Hev as [Hs Hp].
    destruct (receive_one_ref a e frameP s u tb Hd Ha Hs Hp) as (e' & He & Hd').
    exists e'. eexists. split; [exact He|]. by split; [constructor|].
  - cbn [rx_op].
    destruct (running (t_reordering e) && timer_expired (t_reordering e) frameP
              && locked) eqn:E.
    + apply andb_true_iff in E as [[HR HT]%andb_true_iff ->].
      rewrite (dr_run _ _ Hd) in HR.
      destruct (timeout_ref a e frameP Hd Ha HR HT) as (e' & He & Hd').
      exists e'. eexists. split; [exact He|]. by split; [constructor|].
    + destruct (tick_ref a e frameP locked Hd E) as (e' & He & Hd').
      exists e', a. split; [done|]. by split; [constructor|].
Qed.

Lemma rx_run_ref evs : forall a e,
  dar_rel a e -> a_inv ws a -> Forall ev_ok evs ->
  exists e' a', rx_run evs e = Ok e' /\ a_steps a evs a' /\ dar_rel a' e'.
Proof.
  induction evs as [|ev evs IH]; intros a e Hd Ha Hok.
  - exists e, a. split; [done|]. split; [apply as_nil|done].
  - apply Forall_cons in Hok as [Hev Hok].
    destruct (rx_op_ref a e ev Hd Ha Hev) as (e1 & a1 & H1 & Hn & Hd1).
    destruct (IH a1 e1 Hd1 (a_next_inv _ _ _ Ha Hn) Hok) as (e2 & a2 & H2 & Hs & Hd2).
    exists e2, a2. split; [cbn; by rewrite H1|]. by split; [econstructor|].
Qed.

(** ** Nothing is reassembled twice, or out of order *)

(** The PDUs of a history with their sequence numbers, from [n] on. *)
Fixpoint slot_pdus (n : Z) (slots : list (option umd)) : list (Z * umd) :=
  match slots with
  | [] => []
  | Some u :: slots => (n mod M, u) :: slot_pdus (n + 1) slots
  | None :: slots => slot_pdus (n + 1) slots
  end.

Definition buf_pdus (b : gmap Z umd) : list (Z * umd) :=
  (fun kv => (fst kv mod M, snd kv)) <$> map_to_list b.

Fixpoint ev_pdus (evs : list rx_event) : list (Z * umd) :=
  match evs with
  | [] => []
  | EvPdu _ s u _ :: evs => (s, u) :: ev_pdus evs
  | EvTick _ _ :: evs => ev_pdus evs
  end.

(** All the PDUs the receiver has taken in. *)
Definition a_pdus (a : arx) : list (Z * umd) :=
  slot_pdus 0 (a_slots a) ++ buf_pdus (a_buf a).

Lemma slot_pdus_app n l k :
  slot_pdus n (l ++ k) = slot_pdus n l ++ slot_pdus (n + zlen l) k.
Proof.
  revert n. induction l as [|[u|] l IH]; intros n; cbn [app slot_pdus].
  - by rewrite Z.add_0_r.
  - rewrite IH, zlen_cons. cbn [app]. do 3 f_equal. lia.
  - rewrite IH, zlen_cons. do 2 f_equal. lia.
Qed.

Lemma buf_pdus_insert b x u :
  b !! x = None -> buf_pdus (<[x := u]> b) ≡ₚ (x mod M, u) :: buf_pdus b.
Proof. intros Hb. unfold buf_pdus. by rewrite map_to_list_insert. Qed.

Lemma buf_pdus_delete b x u :
  b !! x = Some u -> (x mod M, u) :: buf_pdus (delete x b) ≡ₚ buf_pdus b.
Proof.
  intros Hb. rewrite <- buf_pdus_insert by apply lookup_delete_eq.
  by rewrite insert_delete_id.
Qed.

Lemma a_pdus_pop a : a_pdus (a_pop a) ≡ₚ a_pdus a.
Proof.
  change (slot_pdus 0 (a_slots a ++ [a_buf a !! a_ur a])
          ++ buf_pdus (delete (a_ur a) (a_buf a)) ≡ₚ a_pdus a).
  rewrite slot_pdus_app. unfold a_pdus. rewrite <- app_assoc. f_equiv.
  change (0 + zlen (a_slots a)) with (a_ur a).
  destruct (a_buf a !! a_ur a) as [u|] eqn:E; cbn [slot_pdus app].
  - by apply buf_pdus_delete.
  - by rewrite delete_id.
Qed.

Lemma a_pdus_flush t a : a_pdus (a_flush t a) ≡ₚ a_pdus a.
Proof.
  unfold a_flush. induction (Z.to_nat (t - a_ur a)) as [|n IH]; [done|].
  change (Nat.iter (S n) a_pop a) with (a_pop (Nat.iter n a_pop a)).
  by rewrite a_pdus_pop.
Qed.

Lemma a_pdus_insert x u a :
  a_pdus (with_pdu x u a) ⊆+ (x mod M, u) :: a_pdus a.
Proof.
  change (slot_pdus 0 (a_slots a) ++ buf_pdus (<[x := u]> (a_buf a))
          ⊆+ (x mod M, u) :: a_pdus a).
  unfold a_pdus. rewrite Permutation_middle. apply submseteq_app; [done|].
  destruct (a_buf a !! x) as [u0|] eqn:E.
  - rewrite <- (insert_delete_eq (a_buf a) x u).
    rewrite buf_pdus_insert by apply lookup_delete_eq.
    apply submseteq_skip. rewrite <- (buf_pdus_delete _ _ _ E).
    by apply submseteq_cons.
  - by rewrite buf_pdus_insert.
Qed.

Lemma a_pdus_receive s u a :
  0 <= s < M ->
  a_pdus (a_receive ws (resolve (a_uh a) s) u a) ⊆+ (s, u) :: a_pdus a.
Proof.
  intros Hs. destruct (resolve_spec (a_uh a) s Hs) as [_ Hm].
  set (x := resolve (a_uh a) s) in *. unfold a_receive.
  destruct (a_accepts x a); [|by apply submseteq_cons].
  assert (Hss : forall b, a_pdus (a_start (a_stop ws b)) = a_pdus b).
  { intros b. unfold a_start, a_stop. by repeat case_match. }
  rewrite Hss. replace s with (x mod M) by done. etrans; [|apply a_pdus_insert].
  apply Permutation_submseteq. unfold a_deliver, a_move_window.
  repeat case_match; by rewrite ?a_pdus_flush.
Qed.

Lemma a_pdus_timeout a : a_pdus (a_timeout a) ≡ₚ a_pdus a.
Proof.
  unfold a_timeout. rewrite <- (a_pdus_flush (first_missing a (a_ux a)) a).
  by case_match.
Qed.

Lemma a_steps_pdus a evs a' :
  Forall ev_ok evs -> a_steps a evs a' -> a_pdus a' ⊆+ ev_pdus evs ++ a_pdus a.
Proof.
  intros Hok Hs. induction Hs as [a|a ev a1 evs a2 Hn Hs IH]; [done|].
  apply Forall_cons in Hok as [Hev Hok]. etrans; [by apply IH|].
  destruct Hn as [frameP s u tb|frameP HR|frameP locked]; cbn [ev_pdus app].
  - rewrite Permutation_middle. apply submseteq_app; [done|].
    by apply a_pdus_receive, Hev.
  - by rewrite a_pdus_timeout.
  - done.
Qed.

(** The history only grows, and the maximum size is a constant. *)
Definition a_grows (a a' : arx) : Prop :=
  a_slots a `prefix_of` a_slots a' /\ a_max a' = a_max a.

#[local] Instance a_grows_preorder : PreOrder a_grows.
Proof.
  split; [done|]. intros a b c [H1 H2] [H3 H4]. split; [by etrans|congruence].
Qed.

Lemma a_grows_flush t a : a_grows a (a_flush t a).
Proof.
  unfold a_flush. induction (Z.to_nat (t - a_ur a)) as [|n IH]; [done|].
  etrans; [exact IH|]. split; [|done]. by eexists.
Qed.

Lemma a_grows_next a ev a' : a_next a ev a' -> a_grows a a'.
Proof.
  intros [frameP s u tb|frameP HR|frameP locked]; [| |done].
  - unfold a_receive. case_match; [|done].
    set (b := a_deliver _ _). assert (Hb : a_grows a b).
    { unfold b, a_deliver, a_move_window.
      repeat case_match; try done;
        (etrans; [|apply a_grows_flush]); try done;
        (etrans; [|apply a_grows_flush]); done. }
    etrans; [exact Hb|]. unfold a_start, a_stop. by repeat case_match.
  - unfold a_timeout. etrans; [apply (a_grows_flush (first_missing a (a_ux a)))|].
    by case_match.
Qed.

Lemma a_grows_steps a evs a' : a_steps a evs a' -> a_grows a a'.
Proof.
  induction 1 as [|a ev a1 evs a2 Hn Hs IH]; [done|].
  etrans; [by eapply a_grows_next|done].
Qed.

(** A receiver in its initial state. *)
Definition rx_fresh (e : um_rx) : Prop := dar_rel (a_init (sdu_max_size e)) e.

(** All that a run from the initial state gives. *)
Lemma run_history evs e :
  rx_fresh e -> Forall ev_ok evs ->
  exists e' a, rx_run evs e = Ok e' /\ dar_rel a e' /\ a_inv ws a /\
    a_steps (a_init (sdu_max_size e)) evs a /\ a_max a = sdu_max_size e.
Proof.
  intros He Hok. pose proof fmt_M as (_ & [Hpos _] & _).
  pose proof (a_inv_init ws Hpos (sdu_max_size e)) as Hi.
  destruct (rx_run_ref evs _ e He Hi Hok) as (e' & a & H1 & H2 & H3).
  exists e', a. split; [done|]. split; [done|]. split; [by eapply a_steps_inv|].
  split; [done|]. apply (a_grows_steps _ _ _ H2).
Qed.


(** C18.  The window invariant.  After any run from the initial state, VR(UH)
    is at most a window above VR(UR); every PDU kept lies from VR(UR) on and
    below VR(UH); t-Reordering runs exactly when VR(UR) differs from VR(UH),
    save for the case VR(UX) = VR(UR) = VR(UH), and VR(UX) is then in between. *)
Theorem receiver_window_invariant evs e :
  rx_fresh e -> Forall ev_ok evs ->
  exists e', rx_run evs e = Ok e' /\
    let behind v := (v - vr_ur e') mod M in
    behind (vr_uh e') <= ws /\
    (forall i, 0 <= i < M -> is_Some (dar_buffer e' !! i) ->
      behind i < behind (vr_uh e')) /\
    (running (t_reordering e') = false -> vr_ur e' = vr_uh e') /\
    (running (t_reordering e') = true ->
      0 < behind (vr_ux e') <= behind (vr_uh e')
      \/ (vr_ux e' = vr_ur e' /\ vr_ur e' = vr_uh e')).
Proof.
  intros He Hok. destruct (run_history evs e He Hok) as (e' & a & H1 & Hd & Ha & _ & _).
  exists e'. split; [done|]. intros behind. pose proof fmt_M as HM.
  destruct Hd as [Hs Hu Hr Hx]. destruct Ha as [Hw Hb Hrun Hidle].
  assert (Hbe : forall y, a_ur a <= y < a_ur a + M -> behind (y mod M) = y - a_ur a).
  { intros y Hy. unfold behind. rewrite Hu, <- Zminus_mod. apply Z.mod_small. lia. }
  pose proof (g_uh _ _ (st_geom _ _ Hs)) as Huh. rewrite Huh, (Hbe (a_uh a)) by lia.
  split; [lia|]. split; [|split].
  - intros i Hi Hsome. destruct (resolve_spec (a_ur a + ws) i Hi) as [Hres Hmod].
    set (y := resolve (a_ur a + ws) i) in *.
    pose proof (st_buf _ _ Hs y ltac:(lia)) as Hsl. rewrite Hmod in Hsl.
    rewrite <- Hmod, Hbe by lia.
    destruct (a_buf a !! y) as [u|] eqn:Eb.
    + assert (a_ur a <= y < a_uh a) by (apply Hb; by rewrite Eb). lia.
    + cbn in Hsl. rewrite Hsl in Hsome. by destruct Hsome.
  - rewrite Hr, Hu. intros HR. by rewrite (Hidle HR).
  - rewrite Hr. intros HR. rewrite (Hx HR), Hu.
    destruct (Hrun HR) as [Hin|[-> ->]]; [left|by right].
    rewrite Hbe by lia. lia.
Qed.

(** C19.  Expiry of t-Reordering.  In any state a run can reach, when the timer
    expires the PDUs missing below VR(UX) are given up: VR(UR) moves to the
    first sequence number from VR(UX) on which is not in the buffer, never
    beyond VR(UH); if it is below VR(UH) the timer runs again and VR(UX) is
    VR(UH), if not the timer is stopped. *)
Theorem reordering_timeout evs e0 e frameP :
  rx_fresh e0 -> Forall ev_ok evs -> rx_run evs e0 = Ok e ->
  running (t_reordering e) = true -> timer_expired (t_reordering e) frameP = true ->
  exists e', rlc_um_check_timer_dar_time_out e frameP true = Ok e' /\
    let ahead v := (v - vr_ur e) mod M in
    ahead (vr_ux e) <= ahead (vr_ur e') <= ahead (vr_uh e) /\
    dar_buffer e' !! vr_ur e' = None /\ vr_uh e' = vr_uh e /\
    running (t_reordering e') = negb (vr_ur e' =? vr_uh e) /\
    (running (t_reordering e') = true -> vr_ux e' = vr_uh e) /\
    (forall v, 0 <= v < M -> ahead (vr_ux e) <= ahead v < ahead (vr_ur e') ->
       is_Some (dar_buffer e !! v)).
Proof.
  intros He Hok Hrun HR HT.
  destruct (run_history evs e0 He Hok) as (e1 & a & H1 & Hd & Ha & _ & _).
  rewrite Hrun in H1. apply Ok_inj in H1 as <-.
  pose proof fmt_M as (HM & [Hpos Hws] & HM2). pose proof (dr_run _ _ Hd) as Har.
  rewrite HR in Har. symmetry in Har.
  destruct (timeout_ref a e frameP Hd Ha Har HT) as (e' & He' & Hd').
  exists e'. split; [done|]. intros ahead.
  destruct (a_timeout_target ws a Ha Har) as (T1 & T2 & T3 & T4).
  destruct (a_flush_frame (first_missing a (a_ux a)) a) as (F1 & F2 & F3 & F4 & F5); [lia|].
  pose proof (ai_win _ _ Ha) as Hw.
  assert (Hto : a_ur (a_timeout a) = first_missing a (a_ux a) /\
    a_uh (a_timeout a) = a_uh a /\
    a_buf (a_timeout a) !! first_missing a (a_ux a) = None /\
    a_running (a_timeout a) = (first_missing a (a_ux a) <? a_uh a) /\
    (a_running (a_timeout a) = true -> a_ux (a_timeout a) = a_uh a)).
  { unfold a_timeout. rewrite F1, F3.
    assert (Hn : a_buf (a_flush (first_missing a (a_ux a)) a) !! first_missing a (a_ux a) = None)
      by (rewrite F5, decide_False by lia; done).
    destruct (_ <? _); by rewrite <- ?F3. }
  set (t := first_missing a (a_ux a)) in *. destruct Hto as (U1 & U2 & U3 & U4 & U5).
  assert (Hah : forall y, a_ur a <= y < a_ur a + M -> ahead (y mod M) = y - a_ur a).
  { intros y Hy. unfold ahead. rewrite (dr_ur _ _ Hd), <- Zminus_mod.
    apply Z.mod_small. lia. }
  pose proof (g_uh _ _ (st_geom _ _ (dr_stage _ _ Hd))) as Euh.
  pose proof (g_uh _ _ (st_geom _ _ (dr_stage _ _ Hd'))) as Euh'.
  rewrite U2 in Euh'. pose proof (dr_ur _ _ Hd') as Eur'. rewrite U1 in Eur'.
  rewrite (dr_ux _ _ Hd Har), Euh, Eur', !Hah by lia.
  split; [lia|]. split.
  { pose proof (st_buf _ _ (dr_stage _ _ Hd') t) as Hb. rewrite U1, U3 in Hb.
    apply Hb. lia. }
  split; [congruence|]. rewrite (dr_run _ _ Hd'), U4. split.
  { destruct (Z.ltb_spec t (a_uh a)) as [Hlt|Hge].
    - rewrite (proj2 (Z.eqb_neq _ _)); [done|].
      intros E. apply (mod_window_inj M t (a_uh a)) in E; lia.
    - replace t with (a_uh a) by lia. by rewrite Z.eqb_refl. }
  split.
  { intros Hru. rewrite (dr_ux _ _ Hd'), U5; [done|by rewrite U4..]. }
  intros v Hv Hrange.
  destruct (resolve_spec (a_ur a + ws) v Hv) as [Hres Hmod].
  set (y := resolve (a_ur a + ws) v) in *. rewrite <- Hmod in Hrange |- *.
  rewrite Hah in Hrange by lia.
  destruct (T3 y ltac:(lia)) as [u Hu].
  pose proof (st_buf _ _ (dr_stage _ _ Hd) y ltac:(lia)) as Hb. rewrite Hu in Hb.
  destruct Hb as (tb & -> & _). by eexists.
Qed.

(** ** Reordering without loss *)

(** The receiver holds or has reassembled exactly the PDUs [got] of the
    sequence [us]. *)
Record holds (us : list umd) (got : list nat) (a : arx) : Prop := {
  ho_slots : a_slots a = Some <$> take (length (a_slots a)) us;
  ho_le : (length (a_slots a) <= length us)%nat;
  ho_key : forall y u, a_buf a !! y = Some u ->
    exists i, y = Z.of_nat i /\ i ∈ got /\ us !! i = Some u;
  ho_got : forall i, i ∈ got ->
    (i < length (a_slots a))%nat \/ is_Some (a_buf a !! Z.of_nat i);
  ho_done : forall i, (i < length (a_slots a))%nat -> i ∈ got
}.

Lemma holds_pop us got a :
  holds us got a -> is_Some (a_buf a !! a_ur a) -> holds us got (a_pop a).
Proof.
  intros [B1 B2 B3 B4 B5] [u Hu].
  destruct (B3 _ _ Hu) as (i & Hi & Hgot & Hus).
  assert (i = length (a_slots a)) as -> by (unfold a_ur, zlen in Hi; lia).
  assert (Hsl : a_slots (a_pop a) = a_slots a ++ [Some u])
    by (change (a_slots a ++ [a_buf a !! a_ur a] = a_slots a ++ [Some u]); by rewrite Hu).
  assert (Hlt := lookup_lt_Some _ _ _ Hus).
  assert (Hlen : length (a_slots (a_pop a)) = S (length (a_slots a)))
    by (rewrite Hsl, length_app; cbn; lia).
  split; rewrite ?Hlen.
  - rewrite Hsl, (take_S_r _ _ u), fmap_app, <- B1 by done. done.
  - lia.
  - intros y v Hy. rewrite a_pop_buf in Hy. case_decide; [done|]. by apply B3.
  - intros i Hgi. rewrite a_pop_buf. destruct (B4 i Hgi) as [|Hs]; [left; lia|].
    case_decide as E; [left; unfold a_ur, zlen in E; lia|by right].
  - intros i Hi'. destruct (decide (i = length (a_slots a))) as [->|]; [done|].
    apply B5. lia.
Qed.

Lemma holds_flush us got t a :
  holds us got a -> a_ur a <= t ->
  (forall y, a_ur a <= y < t -> is_Some (a_buf a !! y)) ->
  holds us got (a_flush t a).
Proof.
  intros Hh Ht Hall.
  apply (a_flush_ind (fun b => holds us got b /\
    forall y, a_ur b <= y < t -> is_Some (a_buf b !! y)) t a Ht); [done|].
  intros b Hr [Hb Hy]. split; [apply holds_pop; [done|apply Hy; lia]|].
  intros y Hyr. rewrite a_ur_pop in Hyr. rewrite a_pop_buf, decide_False by lia.
  apply Hy. lia.
Qed.

(** A new PDU of the sequence, no window or more ahead of a missing one. *)
Lemma holds_receive us got a i u :
  a_inv ws a -> holds us got a -> a_buf a !! a_ur a = None ->
  us !! i = Some u -> i ∉ got ->
  (forall j, Z.of_nat j + ws <= Z.of_nat i -> j ∈ got) ->
  let a' := a_receive ws (resolve (a_uh a) (Z.of_nat i mod M)) u a in
  holds us (i :: got) a' /\ a_buf a' !! a_ur a' = None.
Proof.
  intros Ha Hh Hnext Hu Hnew Hnear. pose proof fmt_M as (HM & [Hpos _] & _).
  pose proof (ai_win _ _ Ha) as Hw.
  pose proof (a_ur_nonneg a) as Hnn.
  assert (Hge : a_ur a <= Z.of_nat i).
  { destruct (decide (a_ur a <= Z.of_nat i)); [done|]. destruct Hnew.
    apply (ho_done _ _ _ Hh). unfold a_ur, zlen in *. lia. }
  assert (Hmiss : ~ Z.to_nat (a_ur a) ∈ got).
  { intros Hin. destruct (ho_got _ _ _ Hh _ Hin) as [Hl|[v Hv]].
    - unfold a_ur, zlen in *. lia.
    - rewrite Z2Nat.id in Hv by done. congruence. }
  assert (Hfar : Z.of_nat i < a_ur a + ws).
  { destruct (decide (Z.of_nat i < a_ur a + ws)); [done|]. destruct Hmiss.
    apply Hnear. lia. }
  rewrite resolve_self by lia. set (x := Z.of_nat i) in *.
  assert (Hbx : a_buf a !! x = None).
  { destruct (a_buf a !! x) eqn:E; [|done]. destruct (ho_key _ _ _ Hh _ _ E)
      as (k & Hk & Hin & _). assert (k = i) as -> by lia. done. }
  cbn zeta. unfold a_receive, a_accepts.
  rewrite (proj2 (Z.leb_le _ _)), Hbx, bool_decide_true, orb_true_r by (done || lia).
  cbn [andb].
  destruct (a_mid_place ws Hpos x u a Ha Hge) as (Hm & _ & _ & Hxh & _).
  change (a <| a_buf := <[x := u]> (a_buf a) |>) with (with_pdu x u a) in *.
  assert (H1 : a_ur (a_move_window ws x (with_pdu x u a)) = a_ur a /\
    a_buf (a_move_window ws x (with_pdu x u a)) = <[x := u]> (a_buf a) /\
    a_slots (a_move_window ws x (with_pdu x u a)) = a_slots a).
  { unfold a_move_window. case_match; [|done].
    rewrite a_flush_stop; [done|].
    change (Z.max (a_ur a) (x + 1 - ws) <= a_ur a). lia. }
  set (a1 := a_move_window ws x (with_pdu x u a)) in *.
  destruct H1 as (U1 & B1 & S1).
  assert (Hh1 : holds us (i :: got) a1).
  { destruct Hh as [Q1 Q2 Q3 Q4 Q5]. split; rewrite ?S1, ?B1; try done.
    - intros y v Hy. apply lookup_insert_Some in Hy as [[<- <-]|[_ Hy]].
      + exists i. split; [done|]. split; [apply list_elem_of_here|done].
      + destruct (Q3 _ _ Hy) as (k & ? & ? & ?). exists k.
        split; [done|]. split; [by apply list_elem_of_further|done].
    - intros k Hk. destruct (decide (k = i)) as [->|Hne].
      + right. by rewrite lookup_insert_eq.
      + apply elem_of_cons in Hk as [?|Hk]; [done|].
        destruct (Q4 _ Hk) as [|Hs]; [by left|right].
        rewrite lookup_insert_ne by lia. done.
    - intros k Hk. apply list_elem_of_further, Q5, Hk. }
  assert (Hgoal : holds us (i :: got) (a_deliver x a1) /\
    a_buf (a_deliver x a1) !! a_ur (a_deliver x a1) = None).
  { unfold a_deliver. destruct (Z.eqb_spec x (a_ur a1)) as [E|Hne]; [rewrite E|].
    - destruct (first_missing_spec a1 (a_ur a1)) as (F1 & F2 & F3);
        [intros y Hy; by apply (am_buf _ _ Hm)|rewrite U1; lia|].
      destruct (a_flush_frame (first_missing a1 (a_ur a1)) a1)
        as (G1 & _ & _ & _ & G5); [lia|].
      split; [apply holds_flush; [done|lia|done]|].
      rewrite G1, G5, decide_False by lia. done.
    - split; [done|]. rewrite U1, B1, lookup_insert_ne by (rewrite U1 in Hne; lia).
      done. }
  unfold a_start, a_stop. destruct Hgoal as [[Q1 Q2 Q3 Q4 Q5] Hn].
  by repeat case_match.
Qed.

Lemma holds_ext us got got' a :
  (forall i, i ∈ got <-> i ∈ got') -> holds us got a -> holds us got' a.
Proof.
  intros He [Q1 Q2 Q3 Q4 Q5]. split; try done.
  - intros y u Hy. destruct (Q3 _ _ Hy) as (i & ? & ? & ?). exists i.
    split; [done|]. split; [by apply He|done].
  - intros i Hi. by apply Q4, He.
  - intros i Hi. by apply He, Q5.
Qed.

(** [ev] brings the PDU of index [i] of the sequence [us]. *)
Definition brings (us : list umd) (i : nat) (ev : rx_event) : Prop :=
  exists frameP u tb, us !! i = Some u /\ pdu_rel (Z.of_nat i) u tb /\
    ev = EvPdu frameP (Z.of_nat i mod M) u tb.

(** No PDU comes a window or more ahead of one still to come. *)
Definition near_order (order : list nat) : Prop :=
  forall l1 i l2, order = l1 ++ i :: l2 ->
  forall j, Z.of_nat j + ws <= Z.of_nat i -> j ∈ l1.

Lemma run_reordered us : forall rest evs don a e,
  Forall2 (brings us) rest evs -> NoDup (don ++ rest) -> near_order (don ++ rest) ->
  dar_rel a e -> a_inv ws a -> holds us don a -> a_buf a !! a_ur a = None ->
  exists e' a', rx_run evs e = Ok e' /\ dar_rel a' e' /\ a_max a' = a_max a /\
    holds us (don ++ rest) a' /\ a_buf a' !! a_ur a' = None.
Proof.
  pose proof fmt_M as (_ & [Hpos _] & _).
  induction rest as [|i rest IH]; intros evs don a e Hev Hnd Hnear Hd Ha Hh Hn.
  - apply Forall2_nil_inv_l in Hev as ->. exists e, a. by rewrite app_nil_r.
  - apply Forall2_cons_inv_l in Hev as (ev & evs' & (fr & u & tb & Hu & Hp & ->) & Hev & ->).
    destruct (holds_receive us don a i u Ha Hh Hn Hu) as [Hh1 Hn1].
    { intros Hin. apply NoDup_app in Hnd as (_ & Hdis & _).
      apply (Hdis i Hin), list_elem_of_here. }
    { intros j Hj. by apply (Hnear don i rest). }
    assert (Hp' : pdu_rel (Z.of_nat i mod M) u tb).
    { destruct Hp as (Hok & r & Htb). split; [done|]. exists r.
      by rewrite Zmod_mod. }
    destruct (receive_one_ref a e fr (Z.of_nat i mod M) u tb Hd Ha
      (mod_M_range _) Hp') as (e1 & He1 & Hd1).
    pose proof (a_inv_receive ws Hpos (resolve (a_uh a) (Z.of_nat i mod M)) u a Ha) as Ha1.
    assert (Happ : (don ++ [i]) ++ rest = don ++ i :: rest) by (by rewrite <- app_assoc).
    set (a1 := a_receive ws _ u a) in *.
    destruct (IH evs' (don ++ [i]) a1 e1 Hev) as (e2 & a2 & H2 & Hd2 & Hm2 & Hh2 & Hn2);
      rewrite ?Happ; try done.
    { apply (holds_ext _ (i :: don)); [|done]. intros k.
      rewrite elem_of_cons, elem_of_app, list_elem_of_singleton. tauto. }
    exists e2, a2. cbn [rx_run rx_op]. rewrite He1. cbn [mbind res_bind].
    rewrite Happ in Hh2. split; [done|]. split; [done|]. split; [|done].
    rewrite Hm2. unfold a1.
    apply (a_grows_next a (EvPdu fr (Z.of_nat i mod M) u tb)). constructor.
Qed.

Lemma reordered_run us order evs e :
  rx_fresh e -> order ≡ₚ seq 0 (length us) -> near_order order ->
  Forall2 (brings us) order evs ->
  exists e', rx_run evs e = Ok e' /\
    vr_ur e' = Z.of_nat (length us) mod M /\
    delivered e' = snd (ref_run (sdu_max_size e) (Some <$> us)).
Proof.
  intros He Hperm Hnear Hev. pose proof fmt_M as (_ & [Hpos _] & _).
  pose proof (a_inv_init ws Hpos (sdu_max_size e)) as Hi.
  assert (Hh0 : holds us [] (a_init (sdu_max_size e))).
  { split; cbn; try done; try lia.
    - intros i Hin. by apply not_elem_of_nil in Hin. }
  destruct (run_reordered us order evs [] (a_init (sdu_max_size e)) e Hev) as (e' & a & H1 & Hd & Hm & Hh & Hn);
    try done.
  { cbn [app]. rewrite Hperm. apply NoDup_seq. }
  cbn [app] in Hh. exists e'. split; [done|].
  assert (Hall : length (a_slots a) = length us).
  { destruct (decide (length (a_slots a) = length us)) as [|Hne]; [done|].
    pose proof (ho_le _ _ _ Hh).
    assert (Hin : length (a_slots a) ∈ order)
      by (rewrite Hperm; apply elem_of_seq; lia).
    destruct (ho_got _ _ _ Hh _ Hin) as [|[u Hu]]; [lia|].
    unfold a_ur, zlen in Hn. congruence. }
  split; [|].
  - rewrite (dr_ur _ _ Hd). unfold a_ur, zlen. by rewrite Hall.
  - rewrite (st_out _ _ (dr_stage _ _ Hd)). unfold ref_of.
    rewrite Hm. cbn [a_max a_init]. rewrite (ho_slots _ _ _ Hh), Hall, firstn_all. done.
Qed.

Lemma reordered_delivery us order evs e :
  rx_fresh e -> order ≡ₚ seq 0 (length us) -> near_order order ->
  Forall2 (brings us) order evs ->
  exists e', rx_run evs e = Ok e' /\
    delivered e' = snd (ref_run (sdu_max_size e) (Some <$> us)).
Proof. intros. edestruct reordered_run as (e' & ? & ? & ?); try done. by exists e'. Qed.

(** C20.  Reordering without loss.  The PDUs of a sequence arrive once each, in
    any order in which none is a window or more ahead of one still to come,
    and before t-Reordering expires: the receiver delivers the same SDUs as
    for the arrival in order, and waits for the next sequence number. *)
Theorem receiver_reorders us order evs e :
  rx_fresh e -> order ≡ₚ seq 0 (length us) -> near_order order ->
  Forall2 (brings us) order evs ->
  exists e', rx_run evs e = Ok e' /\
    vr_ur e' = Z.of_nat (length us) mod M /\
    delivered e' = snd (ref_run (sdu_max_size e) (Some <$> us)).
Proof. apply reordered_run. Qed.
End runs.
