(* ===== verification/RlcUmSegment.v ===== *)
(** RLC UM v9.3.0: segmentation and concatenation of SDUs into a UMD PDU
    ([rlc_um_segment.c]).  [rlc_um_segment_10] and [rlc_um_segment_5] are the
    same text up to the points gathered in [seg_fmt]; the common text is
    modelled once and the two functions are its instances. *)
From S2P Require Import Prelude.
From S2P Require Import RlcUmEntity.
From S2P Require Import RlcUmHeader.

Local Open Scope Z_scope.
Local Open Scope c_scope.

(** ** What differs between the two functions *)

Record seg_fmt := SegFmt {
  sf_hdr : Z;                 (** bytes of the fixed part *)
  sf_min : Z;                 (** smallest request served *)
  sf_shrink : bool;           (** [data_pdu_size] follows [pdu_remaining_size] *)
  sf_header : Z -> Z -> Z -> list Z  (** [fi], [fill_num_li], [vt_us] *)
}.

Definition seg10_header (fi fill_num_li vt_us_ : Z) : list Z :=
  let b1 := u8 (fi .<< 3) in
  let b1 := if 0 <? fill_num_li then u8 (b1 .| 0x04) else b1 in
  [u8 (b1 .| ((vt_us_ .>> 8) .& 0x03)); vt_us_ .& 0xFF].

Definition seg5_header (fi fill_num_li vt_us_ : Z) : list Z :=
  let b1 := u8 (fi .<< 6) in
  let b1 := if 0 <? fill_num_li then u8 (b1 .| 0x20) else b1 in
  [u8 (b1 .| (vt_us_ .& 0x1F))].

(** ** Size of the PDU *)

Definition max_li_overhead (nb_elements : Z) : Z :=
  if nb_elements <=? 1 then 0
  else ((nb_elements - 1) * 3) ÷ 2 + (nb_elements - 1) %% 2.

Definition data_pdu_size (e : um_tx) (nb_bytes_to_transmit : Z) : Z :=
  let all := u32 (buffer_occupancy e + tx_header_min_length_in_bytes e
                  + max_li_overhead (zlen (input_sdus e))) in
  if all <=? u32 nb_bytes_to_transmit then all else u32 nb_bytes_to_transmit.

(** ** How many SDUs fill the PDU *)

Record plan := Plan {
  p_rem : Z;        (** [pdu_remaining_size] *)
  p_size : Z;       (** [data_pdu_size] *)
  p_test : Z;       (** [test_pdu_remaining_size] *)
  p_li : Z;         (** [test_li_length_in_bytes] *)
  p_sub : Z;        (** [test_remaining_size_to_substract] *)
  p_subn : Z;       (** [test_remaining_num_li_to_substract] *)
  p_num : Z         (** [test_num_li] *)
}.
#[export] Instance plan_eta : Eta plan := fun p =>
  Plan (p_rem p) (p_size p) (p_test p) (p_li p) (p_sub p) (p_subn p) (p_num p).

Definition plan_stop (p : plan) : plan :=
  p <| p_test := 0 |> <| p_sub := 0 |> <| p_subn := 0 |>.

(** [n] bytes less for the PDU. *)
Definition plan_reduce (shrink : bool) (n : Z) (p : plan) : plan :=
  let p := p <| p_rem := s32 (p_rem p - n) |> in
  if shrink then p <| p_size := u32 (p_size p - n) |> else p.

Fixpoint plan_loop (shrink : bool) (sdus : list um_tx_sdu) (p : plan) : plan :=
  match sdus with
  | [] => p
  | sdu :: sdus =>
      let r := sdu_remaining_size sdu in
      let li := p_li p .^ 3 in
      if p_test p <? r then plan_stop p
      else if r =? p_test p then plan_stop p
      else if u32 (r + li) =? u32 (p_test p) then
        plan_reduce shrink li (plan_stop p)
      else if u32 (r + li) <? u32 (p_test p) then
        plan_loop shrink sdus
          (p <| p_num := u32 (p_num p + 1) |>
             <| p_test := s32 (p_test p - (r + li)) |>
             <| p_sub := li |> <| p_subn := 1 |> <| p_li := li |>)
      else plan_reduce shrink 1 (plan_stop p)
  end.

(** A length indicator for the last SDU of the queue is not necessary. *)
Definition plan_unused_li (p : plan) : plan :=
  if 0 <? p_subn p then
    p <| p_num := u32 (p_num p - 1) |> <| p_rem := s32 (p_rem p - p_sub p) |>
  else p.

(** ** Filling the PDU *)

Record fill := Fill {
  f_buf : list Z;       (** the memory from [pdu_p] on *)
  f_data : Z;           (** displacement of [data] *)
  f_eli : Z;            (** displacement of [e_li_p] *)
  f_li : Z;             (** [li_length_in_bytes] *)
  f_num : Z;            (** [fill_num_li] *)
  f_rem : Z;            (** [pdu_remaining_size] *)
  f_bo : Z;             (** [buffer_occupancy] *)
  f_last : bool         (** [fi_last_byte_pdu_is_last_byte_sdu] *)
}.
#[export] Instance fill_eta : Eta fill := fun f =>
  Fill (f_buf f) (f_data f) (f_eli f) (f_li f) (f_num f) (f_rem f) (f_bo f) (f_last f).

(** [memcpy(data, data_sdu_p, n)]. *)
Definition copy_sdu (sdu : um_tx_sdu) (n : Z) (f : fill) : res fill :=
  src ← rd_n (sdu_payload sdu) (sdu_segmented_size sdu) n;
  buf ← wr (f_buf f) (f_data f) src;
  Ok (f <| f_buf := buf |>).

(** The length indicator of an SDU of [r] remaining bytes, [li_length_in_bytes]
    and [fill_num_li] being the new values. *)
Definition write_li (test_num_li r : Z) (f : fill) : res fill :=
  if f_li f =? 2 then
    let b1 := if f_num f =? test_num_li then 0 else 0x80 in
    buf ← wr (f_buf f) (f_eli f) [u8 (b1 .| (r .>> 4)); u8 (r .<< 4)];
    Ok (f <| f_buf := buf |>)
  else
    b2 ← rd (f_buf f) (f_eli f + 1);
    let b2 := if negb (f_num f =? test_num_li) then u8 (b2 .| 0x08) else b2 in
    buf ← wr (f_buf f) (f_eli f + 1) [u8 (b2 .| (r .>> 8)); r .& 0xFF];
    Ok (f <| f_buf := buf |> <| f_eli := f_eli f + 3 |>).

(** An SDU with a length indicator. *)
Definition fill_li (test_num_li : Z) (sdu : um_tx_sdu) (f : fill) : res fill :=
  let r := sdu_remaining_size sdu in
  f ← copy_sdu sdu r f;
  f ← write_li test_num_li r
        (f <| f_data := f_data f + r |> <| f_li := f_li f .^ 3 |>
           <| f_num := u32 (f_num f + 1) |>);
  Ok (f <| f_rem := s32 (f_rem f - (r + f_li f)) |>
        <| f_bo := s32 (f_bo f - r) |>).

(** The rest of the queue and the state; the SDUs consumed leave the queue.
    [user_mode] enables the [assert(1!=1)] of the last branch. *)
Fixpoint fill_loop (user_mode : bool) (test_num_li : Z) (sdus : list um_tx_sdu)
    (f : fill) : res (list um_tx_sdu * fill) :=
  match sdus with
  | [] => Ok ([], f)
  | sdu :: sdus' =>
      let r := sdu_remaining_size sdu in
      if f_rem f <? r then
        let n := f_rem f in
        f ← copy_sdu sdu n f;
        Ok (sdu <| sdu_remaining_size := u16 (r - n) |>
                <| sdu_segmented_size := u16 (sdu_segmented_size sdu + n) |> :: sdus',
            f <| f_last := false |> <| f_bo := s32 (f_bo f - n) |> <| f_rem := 0 |>)
      else if r =? f_rem f then
        f ← copy_sdu sdu (f_rem f) f;
        Ok (sdus', f <| f_bo := s32 (f_bo f - r) |> <| f_last := true |>
                     <| f_rem := 0 |>)
      else if u32 (r + (f_li f .^ 3)) <? u32 (f_rem f) then
        f ← fill_li test_num_li sdu f;
        fill_loop user_mode test_num_li sdus' f
      else if user_mode then Err EAssert
      else
        f ← copy_sdu sdu r f;
        Ok (sdus', f <| f_last := true |> <| f_rem := s32 (f_rem f - r) |>
                     <| f_bo := s32 (f_bo f - r) |>)
  end.

(** ** The function *)

Section segment.
(** The memory [get_free_mem_block] gives for a PDU of that size, from
    [pdu_p] on, and the build configuration. *)
Variable get_free_mem_block : Z -> option (list Z).
Variable user_mode : bool.

Definition segment_framing (starts last : bool) : Z :=
  (if starts then 0 else 2) + (if last then 0 else 1).

(** [memset] clears the four bytes of the PDU structure. *)
Definition segment_pdu (sf : seg_fmt) (m : list Z) (size : Z)
    (sdu : um_tx_sdu) (sdus : list um_tx_sdu) (e : um_tx) : res um_tx :=
  m ← wr m 0 [0; 0; 0; 0];
  let p := plan_unused_li (plan_loop (sf_shrink sf) (sdu :: sdus)
             (Plan (s32 (size - sf_hdr sf)) size (s32 (size - sf_hdr sf)) 1 0 0 0)) in
  let starts := sdu_remaining_size sdu =? sdu_size sdu in
  '(rest, f) ← fill_loop user_mode (p_num p) (sdu :: sdus)
     (Fill m (sf_hdr sf + (u32 (p_num p * 3 + 1) .>> 1)) (sf_hdr sf) 1 0 (p_rem p)
        (buffer_occupancy e) false);
  buf ← wr (f_buf f) 0
          (sf_header sf (segment_framing starts (f_last f)) (f_num f) (vt_us e));
  let tb := s32 (p_size p - f_rem f) in
  _ ← res_guard (0 <? tb) EAssert;
  Ok (e <| input_sdus := rest |> <| buffer_occupancy := f_bo f |>
        <| vt_us := u16 (vt_us e + 1) |>
        <| pdus_to_mac_layer := pdus_to_mac_layer e ++ [MacTbReq buf tb] |>).

(** The [while] loop runs at most once: its end sets
    [nb_bytes_to_transmit] to 0. *)
Definition segment (sf : seg_fmt) (e : um_tx) : res um_tx :=
  let nb_bytes_to_transmit := s32 (nb_bytes_requested_by_mac e) in
  if nb_bytes_to_transmit <? sf_min sf then Ok e
  else
    match input_sdus e with
    | [] => Ok e
    | sdu :: sdus =>
        if 0 <? nb_bytes_to_transmit then
          let size := data_pdu_size e nb_bytes_to_transmit in
          match get_free_mem_block size with
          | None => Ok e
          | Some m => segment_pdu sf m size sdu sdus e
          end
        else Ok e
    end.

Definition sf_10 : seg_fmt := SegFmt 2 3 false seg10_header.
Definition sf_5 : seg_fmt := SegFmt 1 2 true seg5_header.

Definition rlc_um_segment_10 (e : um_tx) : res um_tx := segment sf_10 e.
Definition rlc_um_segment_5 (e : um_tx) : res um_tx := segment sf_5 e.
End segment.
