(* ===== verification/RlcUmSegmentSpec.v ===== *)
(** RLC UM v9.3.0: what segmentation promises.  A reference which cuts the queue
    of SDUs, and the proof that [rlc_um_segment_10] and [rlc_um_segment_5]
    write the PDU it describes. *)
From S2P Require Import Prelude.
From S2P Require Import RlcUmEntity.
From S2P Require Import RlcUmHeader.
From S2P Require Import RlcUmReassembly.
From S2P Require Import RlcUmReassemblySpec.
From S2P Require Import RlcUmSegment.

Local Open Scope Z_scope.
Local Open Scope c_scope.

(** ** Reference *)

(** The part of an SDU not sent yet. *)
Definition sdu_rest (s : um_tx_sdu) : list Z :=
  drop (Z.to_nat (sdu_segmented_size s)) (sdu_payload s).

Record cut_res := Cut {
  c_full : list (list Z);   (** SDUs with a length indicator *)
  c_last : list Z;          (** the segment without *)
  c_ends : bool;            (** which ends an SDU *)
  c_pad : Z                 (** bytes of the grant left over *)
}.

(** [t] bytes are left, the next length indicator takes [3 - li]. *)
Fixpoint cut (t li : Z) (segs : list (list Z)) : cut_res :=
  match segs with
  | [] => Cut [] [] true 0
  | r :: segs =>
      if t <? zlen r then Cut [] (take (Z.to_nat t) r) false 0
      else if t <=? zlen r + (3 - li) then Cut [] r true (t - zlen r)
      else
        let c := cut (t - zlen r - (3 - li)) (3 - li) segs in
        Cut (r :: c_full c) (c_last c) (c_ends c) (c_pad c)
  end.

(** The queue is long enough for [t] bytes. *)
Fixpoint enough (t li : Z) (segs : list (list Z)) : Prop :=
  match segs with
  | [] => False
  | r :: segs => t <= zlen r + (3 - li) \/ enough (t - zlen r - (3 - li)) (3 - li) segs
  end.

Record sdu_wf (s : um_tx_sdu) : Prop := {
  sw_len : zlen (sdu_payload s) = sdu_size s;
  sw_sum : sdu_segmented_size s + sdu_remaining_size s = sdu_size s;
  sw_seg : 0 <= sdu_segmented_size s;
  sw_rem : 0 < sdu_remaining_size s;
  sw_max : sdu_size s < 65536
}.

Lemma sdu_rest_len s : sdu_wf s -> zlen (sdu_rest s) = sdu_remaining_size s.
Proof.
  intros [H1 H2 H3 H4 H5]. unfold sdu_rest. rewrite zlen_drop, Z2Nat.id by lia. lia.
Qed.

Lemma sdu_wf_bounds s :
  sdu_wf s -> 0 < sdu_remaining_size s < 65536 /\ 0 <= sdu_segmented_size s < 65536.
Proof. intros [H1 H2 H3 H4 H5]. lia. Qed.

(** ** The plan *)

Definition li_state (li : Z) : Prop := li = 1 \/ li = 2.

Lemma li_xor li : li_state li -> li .^ 3 = 3 - li.
Proof. by intros [-> | ->]. Qed.

Lemma li_next li : li_state li -> li_state (3 - li).
Proof. unfold li_state. lia. Qed.

(** The loop stops because the PDU is full; it has counted the SDUs with a
    length indicator and taken the left-over bytes away. *)
Lemma plan_loop_cut shrink sdus : forall p t,
  Forall sdu_wf sdus -> li_state (p_li p) -> p_test p = t -> 0 < t ->
  t <= p_rem p <= p_size p -> p_size p < 2147483648 ->
  0 <= p_num p -> p_num p + zlen sdus < 2147483648 ->
  enough t (p_li p) (sdu_rest <$> sdus) ->
  let c := cut t (p_li p) (sdu_rest <$> sdus) in
  let p' := plan_loop shrink sdus p in
  p_subn p' = 0 /\ p_num p' = p_num p + zlen (c_full c) /\
  p_rem p' = p_rem p - c_pad c /\
  p_size p' = p_size p - (if shrink then c_pad c else 0).
Proof.
  induction sdus as [|s sdus IH]; intros p t Hwf Hli Hp Ht Hrem Hsz Hn0 Hn He;
    [done|].
  apply Forall_cons in Hwf as [Hs Hwf].
  pose proof (sdu_rest_len s Hs) as Hlen. pose proof (sdu_wf_bounds s Hs) as [Hb _].
  cbn [fmap list_fmap enough cut plan_loop] in *.
  rewrite zlen_cons in Hn. pose proof (zlen_nonneg sdus).
  rewrite Hlen in *. rewrite Hp, (li_xor _ Hli).
  set (r := sdu_remaining_size s) in *. set (li := p_li p) in *.
  destruct (Z.ltb_spec t r) as [H1|H1].
  { unfold plan_stop, update. cbn. destruct shrink; repeat split; rewrite ?zlen_nil; lia. }
  assert (Hlir : 1 <= 3 - li <= 2) by (unfold li_state in Hli; lia).
  rewrite !u32_small by lia.
  destruct (Z.eqb_spec r t) as [H2|H2].
  { rewrite (proj2 (Z.leb_le _ _)) by lia.
    unfold plan_stop, update. cbn. destruct shrink; repeat split; rewrite ?zlen_nil; lia. }
  destruct (Z.eqb_spec (r + (3 - li)) t) as [H3|H3].
  { rewrite (proj2 (Z.leb_le _ _)) by lia. unfold plan_reduce, plan_stop, update.
    cbn. rewrite s32_small by lia.
    destruct shrink; cbn; rewrite ?u32_small by lia; repeat split; rewrite ?zlen_nil; lia. }
  destruct (Z.ltb_spec (r + (3 - li)) t) as [H4|H4].
  - rewrite (proj2 (Z.leb_gt _ _)) by lia. destruct He as [He|He]; [lia|].
    rewrite s32_small by lia.
    set (p1 := p <| p_num := _ |> <| p_test := _ |> <| p_sub := _ |>
                 <| p_subn := _ |> <| p_li := _ |>).
    replace (t - r - (3 - li)) with (t - (r + (3 - li))) in * by lia.
    destruct (IH p1 (t - (r + (3 - li)))) as (Q1 & Q2 & Q3 & Q4);
      try done; try (unfold p1, update; cbn; lia); [by apply li_next|].
    change (p_li p1) with (3 - li) in *. change (p_num p1) with (p_num p + 1) in *.
    change (p_rem p1) with (p_rem p) in *. change (p_size p1) with (p_size p) in *.
    split; [done|]. split; [rewrite Q2; cbn; rewrite zlen_cons; lia|].
    split; [by rewrite Q3|by rewrite Q4].
  - rewrite (proj2 (Z.leb_le _ _)) by lia. unfold plan_reduce, plan_stop, update.
    cbn. rewrite s32_small by lia.
    destruct shrink; cbn; rewrite ?u32_small by lia; repeat split; rewrite ?zlen_nil; lia.
Qed.

(** ** The filling *)

(** [memcpy] of the next [n] bytes of an SDU over the bytes [b]. *)
Lemma copy_sdu_ok s n f a b c :
  sdu_wf s -> 0 <= n <= sdu_remaining_size s ->
  f_buf f = a ++ b ++ c -> f_data f = zlen a -> zlen b = n ->
  copy_sdu s n f = Ok (f <| f_buf := a ++ take (Z.to_nat n) (sdu_rest s) ++ c |>).
Proof.
  intros Hs Hn Hbuf Hd Hb. pose proof (sdu_rest_len s Hs) as Hlen.
  destruct Hs as [H1 H2 H3 H4 H5]. unfold copy_sdu, rd_n.
  rewrite bool_decide_true by lia. cbn [mbind res_bind].
  fold (sdu_rest s). rewrite Hbuf, Hd, wr_app; [done|].
  rewrite length_take. unfold zlen in *. lia.
Qed.

Lemma lor_hi c r : c = 0 \/ c = 128 -> 0 <= r < 2048 -> u8 (c .| (r .>> 4)) = c + r / 16.
Proof.
  intros Hc Hr. rewrite Z.shiftr_div_pow2 by lia. change (2 ^ 4) with 16.
  assert (Hq : 0 <= r / 16 < 128) by div_lia.
  destruct Hc as [-> | ->].
  - rewrite Z.lor_0_l. rewrite u8_small; lia.
  - change 128 with (Z.shiftl 1 7). rewrite lor_shiftl_add by lia.
    change (1 * 2 ^ 7) with 128. rewrite u8_small; [done|lia].
Qed.

Lemma lor_lo b r m :
  0 <= b < 16 -> 0 <= r < 2048 -> m = 0 \/ m = 8 ->
  u8 ((if m =? 0 then b * 16 else u8 (b * 16 .| 0x08)) .| (r .>> 8))
  = b * 16 + m + r / 256.
Proof.
  intros Hb Hr Hm. rewrite Z.shiftr_div_pow2 by lia. change (2 ^ 8) with 256.
  assert (Hq : 0 <= r / 256 < 8) by div_lia.
  destruct Hm as [-> | ->]; cbn [Z.eqb].
  - change (b * 16) with (b * 2 ^ 4). rewrite <- Z.shiftl_mul_pow2 by lia.
    rewrite lor_shiftl_add by lia. rewrite Z.shiftl_mul_pow2 by lia.
    change (2 ^ 4) with 16. rewrite u8_small; lia.
  - change (b * 16) with (b * 2 ^ 4) at 1. rewrite <- Z.shiftl_mul_pow2 by lia.
    rewrite lor_shiftl_add by lia. rewrite (u8_small (b * 2 ^ 4 + 8))
      by (change (2 ^ 4) with 16; lia).
    replace (b * 2 ^ 4 + 8) with (Z.shiftl (2 * b + 1) 3)
      by (rewrite Z.shiftl_mul_pow2 by lia; lia).
    rewrite lor_shiftl_add by lia. change (2 ^ 3) with 8.
    rewrite u8_small; lia.
Qed.

Lemma u8_shl4 r : 0 <= r -> u8 (r .<< 4) = (r mod 16) * 16.
Proof.
  intros Hr. unfold wrapU. rewrite Z.shiftl_mul_pow2 by lia.
  change (2 ^ 8) with (16 * 16). change (2 ^ 4) with 16.
  by rewrite Z.mul_mod_distr_r by lia.
Qed.

(** The first indicator of a group: two bytes. *)
Lemma write_li_first tn r f a x1 x2 c :
  0 <= r < 2048 -> f_li f = 2 -> f_buf f = a ++ [x1; x2] ++ c -> f_eli f = zlen a ->
  write_li tn r f
  = Ok (f <| f_buf := a ++ [(if f_num f =? tn then 0 else 128) + r / 16;
                            (r mod 16) * 16] ++ c |>).
Proof.
  intros Hr Hli Hbuf He. unfold write_li. rewrite Hli. cbn [Z.eqb Pos.eqb].
  rewrite Hbuf, He, (wr_app a [x1; x2] c) by done. cbn [mbind res_bind].
  rewrite lor_hi, u8_shl4 by (try lia; by case_match; auto). done.
Qed.

(** The second: the second byte is completed, the third written. *)
Lemma write_li_second tn r f a y1 b x3 c :
  0 <= r < 2048 -> 0 <= b < 16 -> f_li f = 1 ->
  f_buf f = a ++ [y1; b * 16; x3] ++ c -> f_eli f = zlen a ->
  write_li tn r f
  = Ok (f <| f_buf := a ++ [y1; b * 16 + (if f_num f =? tn then 0 else 8) + r / 256;
                            r mod 256] ++ c |> <| f_eli := f_eli f + 3 |>).
Proof.
  intros Hr Hb Hli Hbuf He. unfold write_li. rewrite Hli. cbn [Z.eqb Pos.eqb].
  replace (f_eli f + 1) with (zlen (a ++ [y1]))
    by (rewrite zlen_app, zlen_cons, zlen_nil; lia).
  replace (f_buf f) with ((a ++ [y1]) ++ [b * 16; x3] ++ c)
    by (rewrite Hbuf, <- app_assoc; done).
  assert (Hrd := rd_app_here (a ++ [y1]) (b * 16) (x3 :: c)).
  change (b * 16 :: x3 :: c) with ([b * 16; x3] ++ c) in Hrd.
  rewrite Hrd. cbn [mbind res_bind].
  rewrite (wr_app (a ++ [y1]) [b * 16; x3] c) by done. cbn [mbind res_bind].
  pose proof (lor_lo b r (if f_num f =? tn then 0 else 8) Hb Hr
    ltac:(case_match; auto)) as Hlo.
  assert (Hx : (if negb (f_num f =? tn) then u8 (b * 16 .| 0x08) else b * 16)
    = (if (if f_num f =? tn then 0 else 8) =? 0 then b * 16
       else u8 (b * 16 .| 0x08))) by (by destruct (f_num f =? tn)).
  rewrite Hx, Hlo, field_lo8. by rewrite <- app_assoc.
Qed.

(** The memory during the filling: header and finished groups [a], the room
    left for indicators [l], the data written [d], the room for data [c]. *)
Record fill_at (a l d c : list Z) (f : fill) : Prop := {
  fa_buf : f_buf f = a ++ l ++ d ++ c;
  fa_eli : f_eli f = zlen a;
  fa_data : f_data f = zlen (a ++ l ++ d)
}.

(** What an SDU with an indicator does to the counters. *)
Definition counted (n r li : Z) (f f' : fill) : Prop :=
  f_li f' = li /\ f_num f' = f_num f + 1 /\ f_rem f' = f_rem f - (r + li) /\
  f_bo f' = f_bo f - r /\ f_last f' = f_last f.

Lemma fill_li_first s f a x1 x2 l d b c tn :
  let r := sdu_remaining_size s in
  sdu_wf s -> r < 2048 -> f_li f = 1 -> fill_at a ([x1; x2] ++ l) d (b ++ c) f ->
  zlen b = r -> 0 <= f_num f < 2147483648 -> 0 <= f_rem f - (r + 2) < 2147483648 ->
  0 <= f_bo f - r -> f_bo f < 2147483648 ->
  exists f', fill_li tn s f = Ok f' /\ counted 1 r 2 f f' /\
    fill_at a ([(if f_num f + 1 =? tn then 0 else 128) + r / 16; (r mod 16) * 16] ++ l)
      (d ++ sdu_rest s) c f'.
Proof.
  intros r Hs Hr Hli [Hbuf He Hd] Hb Hn Hrem Hbo Hbo2.
  pose proof (sdu_wf_bounds s Hs) as [Hb1 _]. fold r in Hb1. unfold fill_li. fold r.
  rewrite (copy_sdu_ok s r f (a ++ ([x1; x2] ++ l) ++ d) b c);
    [|done|lia|by rewrite Hbuf, <- !app_assoc|done|done].
  rewrite (take_ge (sdu_rest s))
    by (pose proof (sdu_rest_len s Hs) as Hl; fold r in Hl; unfold zlen in Hl; lia).
  cbn [mbind res_bind].
  set (f1 := f <| f_buf := _ |> <| f_data := _ |> <| f_li := _ |> <| f_num := _ |>).
  rewrite (write_li_first tn r f1 a x1 x2 (l ++ d ++ sdu_rest s ++ c));
    [|lia|unfold f1, update; cbn; by rewrite Hli
     |unfold f1, update; cbn [f_buf]; by rewrite <- !app_assoc|done].
  cbn [mbind res_bind]. eexists; split; [reflexivity|].
  assert (Hn1 : f_num f1 = f_num f + 1)
    by (change (f_num f1) with (u32 (f_num f + 1)); by rewrite u32_small by lia).
  assert (Hl1 : f_li f1 = 2) by (change (f_li f1) with (f_li f .^ 3); by rewrite Hli).
  split.
  - unfold counted, update. cbn. rewrite Hl1, Hn1.
    change (f_rem f1) with (f_rem f). change (f_bo f1) with (f_bo f).
    rewrite !s32_small by lia. done.
  - split; unfold update; cbn [f_buf f_eli f_data].
    + rewrite Hn1. by rewrite <- !app_assoc.
    + done.
    + change (f_data f1) with (f_data f + r). rewrite Hd, !zlen_app, (sdu_rest_len s Hs).
      fold r. rewrite !zlen_cons, zlen_nil. lia.
Qed.

Lemma fill_li_second s f a y1 h x3 l d b c tn :
  let r := sdu_remaining_size s in
  sdu_wf s -> r < 2048 -> 0 <= h < 16 -> f_li f = 2 ->
  fill_at a ([y1; h * 16; x3] ++ l) d (b ++ c) f ->
  zlen b = r -> 0 <= f_num f < 2147483648 -> 0 <= f_rem f - (r + 1) < 2147483648 ->
  0 <= f_bo f - r -> f_bo f < 2147483648 ->
  exists f', fill_li tn s f = Ok f' /\ counted 1 r 1 f f' /\
    fill_at (a ++ [y1; h * 16 + (if f_num f + 1 =? tn then 0 else 8) + r / 256; r mod 256])
      l (d ++ sdu_rest s) c f'.
Proof.
  intros r Hs Hr Hh Hli [Hbuf He Hd] Hb Hn Hrem Hbo Hbo2.
  pose proof (sdu_wf_bounds s Hs) as [Hb1 _]. fold r in Hb1. unfold fill_li. fold r.
  rewrite (copy_sdu_ok s r f (a ++ ([y1; h * 16; x3] ++ l) ++ d) b c);
    [|done|lia|by rewrite Hbuf, <- !app_assoc|done|done].
  rewrite (take_ge (sdu_rest s))
    by (pose proof (sdu_rest_len s Hs) as Hl; fold r in Hl; unfold zlen in Hl; lia).
  cbn [mbind res_bind].
  set (f1 := f <| f_buf := _ |> <| f_data := _ |> <| f_li := _ |> <| f_num := _ |>).
  rewrite (write_li_second tn r f1 a y1 h x3 (l ++ d ++ sdu_rest s ++ c));
    [|lia|done|unfold f1, update; cbn; by rewrite Hli
     |unfold f1, update; cbn [f_buf]; by rewrite <- !app_assoc|done].
  cbn [mbind res_bind]. eexists; split; [reflexivity|].
  assert (Hn1 : f_num f1 = f_num f + 1)
    by (change (f_num f1) with (u32 (f_num f + 1)); by rewrite u32_small by lia).
  assert (Hl1 : f_li f1 = 1) by (change (f_li f1) with (f_li f .^ 3); by rewrite Hli).
  split.
  - unfold counted, update. cbn. rewrite Hl1, Hn1.
    change (f_rem f1) with (f_rem f). change (f_bo f1) with (f_bo f).
    rewrite !s32_small by lia. done.
  - split; unfold update; cbn [f_buf f_eli f_data].
    + rewrite Hn1. by rewrite <- !app_assoc.
    + change (f_eli f1) with (f_eli f). rewrite He, zlen_app, !zlen_cons, zlen_nil. lia.
    + change (f_data f1) with (f_data f + r). rewrite Hd, !zlen_app, (sdu_rest_len s Hs).
      fold r. rewrite !zlen_cons, zlen_nil. lia.
Qed.

(** The loop takes the branch with an indicator. *)
Lemma fill_loop_li um tn s sdus f :
  sdu_wf s -> li_state (f_li f) ->
  sdu_remaining_size s + (3 - f_li f) < f_rem f -> f_rem f < 2147483648 ->
  fill_loop um tn (s :: sdus) f = (f ← fill_li tn s f; fill_loop um tn sdus f).
Proof.
  intros Hs Hli Hr Hr2. pose proof (sdu_wf_bounds s Hs) as [Hb1 _].
  assert (1 <= 3 - f_li f <= 2) by (unfold li_state in Hli; lia).
  cbn [fill_loop]. rewrite (li_xor _ Hli), !u32_small by lia.
  rewrite (proj2 (Z.ltb_ge _ _)), (proj2 (Z.eqb_neq _ _)) by lia.
  by rewrite (proj2 (Z.ltb_lt _ _)) by lia.
Qed.

(** All the SDUs with an indicator, two at a time: the indicators are those of
    the reference encoding. *)
Lemma fill_loop_lis um tl ss : forall f a l d c tn,
  let lens := sdu_remaining_size <$> ss in
  let n := zlen ss in
  Forall sdu_wf ss -> Forall (fun r => r < 2048) lens ->
  f_li f = 1 -> fill_at a l d c f -> zlen l = li_header_len n -> sumZ lens <= zlen c ->
  0 <= f_num f -> f_num f + n = tn -> tn < 2147483648 ->
  sumZ lens + li_header_len n < f_rem f -> f_rem f < 2147483648 ->
  0 <= f_bo f - sumZ lens -> f_bo f < 2147483648 ->
  exists f', fill_loop um tn (ss ++ tl) f = fill_loop um tn tl f' /\
    let pre := a ++ li_encode lens ++ d ++ concat (sdu_rest <$> ss) in
    f_buf f' = pre ++ drop (Z.to_nat (sumZ lens)) c /\ f_data f' = zlen pre /\
    f_num f' = tn /\ f_rem f' = f_rem f - sumZ lens - li_header_len n /\
    f_bo f' = f_bo f - sumZ lens /\ f_last f' = f_last f.
Proof.
  induction ss as [|s|s1 s2 ss IH] using pair_list_ind;
    intros f a l d c tn lens n Hwf Hmax Hli Hat Hl Hc Hn0 Hn Htn Hrem Hrem2 Hbo Hbo2.
  - exists f. subst lens n. cbn [fmap list_fmap sumZ li_encode concat app] in *.
    rewrite zlen_nil in *. change (li_header_len 0) with 0 in *.
    rewrite !Z.sub_0_r, !app_nil_r. destruct l; [|rewrite zlen_cons in Hl;
      pose proof (zlen_nonneg l); lia].
    destruct Hat as [H1 H2 H3]. cbn [app] in H1, H3. change (Z.to_nat 0) with 0%nat.
    rewrite drop_0, <- app_assoc. repeat split; try done; lia.
  - subst lens n. cbn [fmap list_fmap sumZ concat app] in *.
    rewrite zlen_cons, zlen_nil in *. change (li_header_len (1 + 0)) with 2 in *.
    apply Forall_cons in Hwf as [Hs _]. apply Forall_cons in Hmax as [Hr _].
    pose proof (sdu_wf_bounds s Hs) as [Hb1 _]. rewrite !Z.add_0_r in *.
    change (li_header_len 1) with 2 in *.
    destruct l as [|x1 [|x2 [|? l]]]; rewrite ?zlen_cons, ?zlen_nil in Hl; try lia;
      [|pose proof (zlen_nonneg l); lia].
    set (r := sdu_remaining_size s) in *.
    destruct (fill_li_first s f a x1 x2 [] d (take (Z.to_nat r) c)
      (drop (Z.to_nat r) c) tn) as (f' & Hf & (C1 & C2 & C3 & C4 & C5) & Hat');
      try done; try (fold r; lia).
    { by rewrite take_drop. } { rewrite zlen_take. fold r. lia. }
    exists f'. split; [rewrite fill_loop_li, Hf; [done|done|by left| |done]; rewrite Hli; lia|].
    destruct Hat' as [A1 A2 A3]. rewrite Hn, Z.eqb_refl, app_nil_r in A1, A3.
    cbn [li_encode]. rewrite !app_nil_r. fold r in A1, A3.
    rewrite <- !app_assoc in *. cbn [app] in *.
    repeat split; try done; lia.
  - subst lens n. cbn [fmap list_fmap sumZ concat app] in *.
    rewrite !zlen_cons in *.
    replace (1 + (1 + zlen ss)) with (2 + zlen ss) in * by lia.
    rewrite li_header_len_pair in *. pose proof (zlen_nonneg ss) as Hz.
    pose proof (li_header_len_bound _ Hz) as Hlb.
    apply Forall_cons in Hwf as [Hs1 Hwf]; apply Forall_cons in Hwf as [Hs2 Hwf].
    apply Forall_cons in Hmax as [Hr1 Hmax]; apply Forall_cons in Hmax as [Hr2 Hmax].
    pose proof (sdu_wf_bounds s1 Hs1) as [Hb1 _].
    pose proof (sdu_wf_bounds s2 Hs2) as [Hb2 _].
    fold (fmap (M := list) sdu_remaining_size ss) in *.
    fold (fmap (M := list) sdu_rest ss) in *.
    set (r1 := sdu_remaining_size s1) in *. set (r2 := sdu_remaining_size s2) in *.
    set (sm := sumZ (sdu_remaining_size <$> ss)) in *.
    assert (Hsm : 0 <= sm).
    { apply sumZ_nonneg, Forall_fmap. eapply Forall_impl; [exact Hwf|].
      intros x Hx. apply sdu_wf_bounds in Hx. cbn. lia. }
    destruct l as [|x1 [|x2 [|x3 l]]]; rewrite ?zlen_cons, ?zlen_nil in Hl; try lia.
    destruct (fill_li_first s1 f a x1 x2 (x3 :: l) d (take (Z.to_nat r1) c)
      (drop (Z.to_nat r1) c) tn) as (f1 & Hf1 & (C1 & C2 & C3 & C4 & C5) & Hat1);
      try done; try (fold r1; lia).
    { by rewrite take_drop. } { rewrite zlen_take. fold r1. lia. }
    fold r1 in Hat1, C3, C4. rewrite (proj2 (Z.eqb_neq (f_num f + 1) tn)) in Hat1 by lia.
    set (c1 := drop (Z.to_nat r1) c) in *.
    assert (Hc1 : zlen c1 = zlen c - r1) by (unfold c1; rewrite zlen_drop; lia).
    destruct (fill_li_second s2 f1 a (128 + r1 / 16) (r1 mod 16) x3 l (d ++ sdu_rest s1)
      (take (Z.to_nat r2) c1) (drop (Z.to_nat r2) c1) tn)
      as (f2 & Hf2 & (D1 & D2 & D3 & D4 & D5) & Hat2);
      try done; try (fold r2; lia); [div_lia| |rewrite zlen_take; fold r2; lia|].
    { by rewrite take_drop. }
    fold r2 in Hat2, D3, D4. set (c2 := drop (Z.to_nat r2) c1) in *.
    assert (Hc2 : zlen c2 = zlen c - r1 - r2) by (unfold c2; rewrite zlen_drop; lia).
    destruct (IH f2 _ l _ c2 tn Hwf Hmax D1 Hat2) as (f3 & Hf3 & E1 & E2 & E3 & E4 & E5 & E6);
      fold sm; try lia.
    fold sm in E1, E4, E5.
    exists f3. split.
    { rewrite fill_loop_li, Hf1; [|done|by left| |done]; [|rewrite Hli; lia].
      cbn [mbind res_bind]. rewrite fill_loop_li, Hf2; [done|done|by right| |lia].
      rewrite C1. lia. }
    assert (Hfl : (if f_num f1 + 1 =? tn then 0 else 8)
                  = if decide (sdu_remaining_size <$> ss = []) then 0 else 8).
    { rewrite C2. destruct ss as [|s3 ss].
      - rewrite decide_True by done. rewrite zlen_nil in Hn.
        by rewrite (proj2 (Z.eqb_eq _ _)) by lia.
      - rewrite decide_False by done. rewrite zlen_cons in Hn.
        pose proof (zlen_nonneg ss). by rewrite (proj2 (Z.eqb_neq _ _)) by lia. }
    rewrite Hfl in E1, E2.
    assert (Hdrop : drop (Z.to_nat sm) c2 = drop (Z.to_nat (r1 + (r2 + sm))) c)
      by (unfold c2, c1; rewrite !drop_drop; f_equal; lia).
    rewrite Hdrop in E1. cbn [li_encode].
    rewrite E1, E2, E3, E4, E5, E6. rewrite <- !app_assoc. cbn [app].
    repeat split; try congruence; lia.
Qed.

(** ** The queue after the cut *)

(** Bytes of [n] indicators from state [li] on. *)
Definition li_bytes (li n : Z) : Z := if li =? 1 then li_header_len n else n * 3 / 2.

Lemma li_bytes_succ li n :
  li_state li -> li_bytes li (1 + n) = (3 - li) + li_bytes (3 - li) n.
Proof.
  unfold li_bytes. rewrite !li_header_len_eq.
  intros [-> | ->]; [change (3 - 1) with 2|change (3 - 2) with 1];
    cbn [Z.eqb Pos.eqb]; div_lia.
Qed.

Lemma li_bytes_0 li : li_bytes li 0 = 0.
Proof. unfold li_bytes. by case_match. Qed.

(** The queue split at the SDU which closes the PDU; [t'] bytes are left for
    it. *)
Record cut_split (t li : Z) (sdus : list um_tx_sdu) (c : cut_res)
    (ss : list um_tx_sdu) (s : um_tx_sdu) (tl : list um_tx_sdu) (t' : Z) : Prop := {
  cs_sdus : sdus = ss ++ s :: tl;
  cs_full : c_full c = sdu_rest <$> ss;
  cs_rem : t - c_pad c
           = sumZ (sdu_remaining_size <$> ss) + li_bytes li (zlen ss) + t';
  cs_pos : 0 < t';
  cs_case : if c_ends c then t' = sdu_remaining_size s /\ c_last c = sdu_rest s
            else t' < sdu_remaining_size s /\ c_pad c = 0 /\
                 c_last c = take (Z.to_nat t') (sdu_rest s);
  cs_pad : 0 <= c_pad c <= 2
}.

Lemma cut_splits sdus : forall t li,
  Forall sdu_wf sdus -> li_state li -> 0 < t -> enough t li (sdu_rest <$> sdus) ->
  exists ss s tl t', cut_split t li sdus (cut t li (sdu_rest <$> sdus)) ss s tl t'.
Proof.
  induction sdus as [|s sdus IH]; intros t li Hwf Hli Ht He; [done|].
  apply Forall_cons in Hwf as [Hs Hwf].
  pose proof (sdu_rest_len s Hs) as Hlen. pose proof (sdu_wf_bounds s Hs) as [Hb _].
  assert (Hlir : 1 <= 3 - li <= 2) by (unfold li_state in Hli; lia).
  cbn [fmap list_fmap enough cut] in *. rewrite Hlen in *.
  destruct (Z.ltb_spec t (sdu_remaining_size s)).
  { exists [], s, sdus, t. split; cbn; try done; try lia.
    change (zlen (@nil um_tx_sdu)) with 0. rewrite li_bytes_0. lia. }
  destruct (Z.leb_spec t (sdu_remaining_size s + (3 - li))).
  { exists [], s, sdus, (sdu_remaining_size s). split; cbn; try done; try lia.
    change (zlen (@nil um_tx_sdu)) with 0. rewrite li_bytes_0. lia. }
  destruct He as [He|He]; [lia|].
  destruct (IH (t - sdu_remaining_size s - (3 - li)) (3 - li) Hwf) as (ss & s' & tl & t' & Hc);
    [by apply li_next|lia|done|].
  destruct Hc as [H1 H2 H3 H4 H5 H6].
  exists (s :: ss), s', tl, t'.
  split; cbn [c_full c_last c_ends c_pad]; try done.
  - by rewrite H1.
  - by rewrite H2.
  - cbn [fmap list_fmap sumZ]. rewrite zlen_cons, li_bytes_succ by done.
    lia.
Qed.

Lemma enough_sum sdus : forall t li,
  Forall sdu_wf sdus -> li_state li -> sdus <> [] ->
  t <= sumZ (sdu_remaining_size <$> sdus) + li_bytes li (zlen sdus - 1) ->
  enough t li (sdu_rest <$> sdus).
Proof.
  induction sdus as [|s sdus IH]; intros t li Hwf Hli Hne Ht; [done|].
  apply Forall_cons in Hwf as [Hs Hwf]. pose proof (sdu_rest_len s Hs) as Hlen.
  cbn [fmap list_fmap enough sumZ] in *. rewrite Hlen in *.
  assert (Hlir : 1 <= 3 - li <= 2) by (unfold li_state in Hli; lia).
  rewrite zlen_cons in Ht. destruct (decide (sdus = [])) as [->|Hne'].
  - left. change (1 + zlen (@nil um_tx_sdu) - 1) with 0 in Ht.
    rewrite li_bytes_0 in Ht. cbn [fmap list_fmap sumZ] in Ht. lia.
  - right. apply IH; [done|by apply li_next|done|].
    replace (1 + zlen sdus - 1) with (1 + (zlen sdus - 1)) in Ht by lia.
    rewrite li_bytes_succ in Ht by done. lia.
Qed.

(** ** The SDU which closes the PDU *)

(** The queue left behind. *)
Definition queue_after (ends : bool) (t' : Z) (s : um_tx_sdu) (tl : list um_tx_sdu)
    : list um_tx_sdu :=
  if ends then tl
  else s <| sdu_remaining_size := sdu_remaining_size s - t' |>
         <| sdu_segmented_size := sdu_segmented_size s + t' |> :: tl.

Lemma fill_loop_close um tn t li sdus c ss s tl t' f pre room :
  cut_split t li sdus c ss s tl t' -> sdu_wf s ->
  f_rem f = t' -> f_buf f = pre ++ room -> f_data f = zlen pre -> t' <= zlen room ->
  0 <= f_bo f - t' -> f_bo f < 2147483648 ->
  exists f', fill_loop um tn (s :: tl) f
             = Ok (queue_after (c_ends c) t' s tl, f') /\
    f_buf f' = pre ++ c_last c ++ drop (Z.to_nat t') room /\
    zlen (c_last c) = t' /\
    f_rem f' = 0 /\ f_bo f' = f_bo f - t' /\ f_last f' = c_ends c /\ f_num f' = f_num f.
Proof.
  intros [_ _ _ Hpos Hcase Hpad] Hs Hrem Hbuf Hdata Hroom Hbo Hbo2.
  pose proof (sdu_rest_len s Hs) as Hlen. pose proof (sdu_wf_bounds s Hs) as [Hb Hb2].
  cbn [fill_loop]. rewrite Hrem.
  assert (Hcp : forall n, n = t' -> n <= sdu_remaining_size s -> copy_sdu s n f
    = Ok (f <| f_buf := pre ++ take (Z.to_nat n) (sdu_rest s) ++ drop (Z.to_nat t') room |>)).
  { intros n -> Hle. apply (copy_sdu_ok s t' f pre (take (Z.to_nat t') room));
      [done|lia|by rewrite take_drop|done|rewrite zlen_take; lia]. }
  destruct (c_ends c); cbn [queue_after].
  - destruct Hcase as [-> ->]. rewrite (proj2 (Z.ltb_ge _ _)), Z.eqb_refl by lia.
    rewrite Hcp by lia. cbn [mbind res_bind]. eexists; split; [reflexivity|].
    unfold update; cbn. rewrite s32_small by lia.
    rewrite (take_ge (sdu_rest s)) by (unfold zlen in Hlen; lia). done.
  - destruct Hcase as (Hlt & Hp & ->). rewrite (proj2 (Z.ltb_lt _ _)) by lia.
    rewrite Hcp by lia. cbn [mbind res_bind].
    destruct Hs as [H1 H2 H3 H4 H5]. rewrite !u16_small by lia.
    eexists; split; [reflexivity|]. unfold update; cbn. rewrite s32_small by lia.
    split; [done|]. split; [rewrite zlen_take; lia|done].
Qed.

(** ** The PDU written *)

(** What segmentation promises for a header format: the link between a
    [seg_fmt] and the format of the receiver. *)
Class UmdSeg (F : UmdFormat) := {
  seg_sf : seg_fmt;
  seg_hdr : sf_hdr seg_sf = fmt_hlen;
  seg_min : sf_min seg_sf = fmt_hlen + 1;
  seg_dispatch : (fmt_len = 10 /\ seg_sf = sf_10) \/ (fmt_len = 5 /\ seg_sf = sf_5);
  seg_header fi n vt :
    0 <= fi < 4 -> 0 <= n < 2147483648 -> 0 <= vt < 65536 ->
    sf_header seg_sf fi n vt
    = fmt_encode fi (if n =? 0 then 0 else 1) (vt mod fmt_modulo)
}.

#[export] Program Instance seg10 : UmdSeg fmt10 := {| seg_sf := sf_10 |}.
Next Obligation. done. Qed.
Next Obligation. done. Qed.
Next Obligation. by left. Qed.
Next Obligation.
  intros fi n vt Hfi Hn Hvt. unfold sf_10, seg10_header, fixed_10. cbn [sf_header].
  change (@fmt_encode fmt10) with fixed_10. change (@fmt_modulo fmt10) with 1024.
  unfold fixed_10. rewrite field_lo2, Z.shiftr_div_pow2 by lia. change (2 ^ 8) with 256.
  rewrite field_lo8. f_equal; [|f_equal; div_lia].
  assert (Hb : u8 (fi .<< 3) = fi * 2 ^ 3)
    by (rewrite Z.shiftl_mul_pow2 by lia; apply u8_small; change (2 ^ 3) with 8; lia).
  rewrite Hb. set (q := (vt / 256) mod 4). assert (Hq : 0 <= q < 4) by (unfold q; div_lia).
  assert (Hv : vt mod 1024 / 256 = q) by (unfold q; div_lia). rewrite Hv.
  assert (Hx : (if 0 <? n then u8 (fi * 2 ^ 3 .| 0x04) else fi * 2 ^ 3)
               = Z.shiftl (fi * 2 + (if n =? 0 then 0 else 1)) 2).
  { rewrite Z.shiftl_mul_pow2 by lia. change (2 ^ 2) with 4. change (2 ^ 3) with 8.
    destruct (Z.ltb_spec 0 n); destruct (Z.eqb_spec n 0); try lia.
    replace (fi * 8) with (Z.shiftl fi 3) by (rewrite Z.shiftl_mul_pow2; lia).
    rewrite lor_shiftl_add by lia. change (2 ^ 3) with 8. rewrite u8_small; lia. }
  rewrite Hx, lor_shiftl_add by lia. change (2 ^ 2) with 4. clearbody q.
  destruct (n =? 0); rewrite u8_small; lia.
Qed.

#[export] Program Instance seg5 : UmdSeg fmt5 := {| seg_sf := sf_5 |}.
Next Obligation. done. Qed.
Next Obligation. done. Qed.
Next Obligation. by right. Qed.
Next Obligation.
  intros fi n vt Hfi Hn Hvt. unfold sf_5, seg5_header. cbn [sf_header].
  change (@fmt_encode fmt5) with fixed_5. change (@fmt_modulo fmt5) with 32.
  unfold fixed_5. rewrite field_lo5. f_equal.
  assert (Hb : u8 (fi .<< 6) = fi * 2 ^ 6)
    by (rewrite Z.shiftl_mul_pow2 by lia; apply u8_small; change (2 ^ 6) with 64; lia).
  rewrite Hb. set (q := vt mod 32). assert (Hq : 0 <= q < 32) by (unfold q; div_lia).
  assert (Hx : (if 0 <? n then u8 (fi * 2 ^ 6 .| 0x20) else fi * 2 ^ 6)
               = Z.shiftl (fi * 2 + (if n =? 0 then 0 else 1)) 5).
  { rewrite Z.shiftl_mul_pow2 by lia. change (2 ^ 5) with 32. change (2 ^ 6) with 64.
    destruct (Z.ltb_spec 0 n); destruct (Z.eqb_spec n 0); try lia.
    replace (fi * 64) with (Z.shiftl fi 6) by (rewrite Z.shiftl_mul_pow2; lia).
    rewrite lor_shiftl_add by lia. change (2 ^ 6) with 64. rewrite u8_small; lia. }
  rewrite Hx, lor_shiftl_add by lia. change (2 ^ 5) with 32. clearbody q.
  destruct (n =? 0); rewrite u8_small; lia.
Qed.

Lemma max_li_overhead_eq n : 0 < n -> max_li_overhead n = li_header_len (n - 1).
Proof.
  intros Hn. unfold max_li_overhead. rewrite li_header_len_eq.
  destruct (Z.leb_spec n 1); [replace n with 1 by lia; done|].
  rewrite Z.quot_div_nonneg, Z.rem_mod_nonneg by lia. div_lia.
Qed.

(** The transmitter between two operations. *)
Record tx_ok (hlen : Z) (e : um_tx) : Prop := {
  tx_wf : Forall sdu_wf (input_sdus e);
  tx_fresh : Forall (fun s => sdu_segmented_size s = 0) (tail (input_sdus e));
  tx_bo : buffer_occupancy e = sumZ (sdu_remaining_size <$> input_sdus e);
  tx_bo_max : buffer_occupancy e < 1073741824;
  tx_num : zlen (input_sdus e) < 268435456;
  tx_hdr : tx_header_min_length_in_bytes e = hlen;
  tx_us : 0 <= vt_us e < 65536
}.

Lemma sum_remaining_pos l :
  Forall sdu_wf l -> l <> [] -> 0 < sumZ (sdu_remaining_size <$> l).
Proof.
  intros Hwf Hne. destruct l as [|s l]; [done|].
  apply Forall_cons in Hwf as [Hs Hwf]. apply sdu_wf_bounds in Hs.
  cbn [fmap list_fmap sumZ].
  assert (0 <= sumZ (sdu_remaining_size <$> l)); [|unfold fmap in *; lia].
  apply sumZ_nonneg, Forall_fmap. eapply Forall_impl; [exact Hwf|].
  intros x Hx. apply sdu_wf_bounds in Hx. cbn. lia.
Qed.

(** The size asked for: at least a byte of data, at most the request, and the
    queue fills it. *)
Lemma data_pdu_size_ok hlen e nb :
  tx_ok hlen e -> input_sdus e <> [] -> 0 < hlen <= 2 -> hlen + 1 <= nb < 2147483648 ->
  let size := data_pdu_size e nb in
  hlen < size <= nb /\ size < 2147483648 /\
  enough (size - hlen) 1 (sdu_rest <$> input_sdus e).
Proof.
  intros [Hwf _ Hbo Hmax Hnum Hh _] Hne Hhl Hnb size.
  pose proof (sum_remaining_pos _ Hwf Hne) as Hpos. rewrite <- Hbo in Hpos.
  set (n := zlen (input_sdus e)) in *.
  assert (Hn : 0 < n).
  { unfold n. destruct (input_sdus e) as [|x l]; [done|]. rewrite zlen_cons.
    pose proof (zlen_nonneg l). lia. }
  pose proof (li_header_len_bound (n - 1)) as Hlb.
  assert (Hsz : size = Z.min (buffer_occupancy e + hlen + li_header_len (n - 1)) nb).
  { unfold size, data_pdu_size. fold n.
    rewrite Hh, max_li_overhead_eq, !u32_small by lia.
    case_match; lia. }
  rewrite Hsz. split; [lia|]. split; [lia|].
  apply enough_sum; [done|by left|done|].
  rewrite <- Hbo. fold n. change (li_bytes 1 (n - 1)) with (li_header_len (n - 1)). lia.
Qed.

Lemma sum_remaining_nonneg l :
  Forall sdu_wf l -> 0 <= sumZ (sdu_remaining_size <$> l).
Proof.
  intros Hwf. apply sumZ_nonneg, Forall_fmap. eapply Forall_impl; [exact Hwf|].
  intros x Hx. apply sdu_wf_bounds in Hx. cbn. lia.
Qed.

(** The filling of a whole queue. *)
Lemma fill_queue um t sdus c ss s tl t' h l room bo :
  cut_split t 1 sdus c ss s tl t' -> Forall sdu_wf ss -> sdu_wf s ->
  Forall (fun r => r < 2048) (sdu_remaining_size <$> ss) ->
  zlen l = li_header_len (zlen ss) ->
  sumZ (sdu_remaining_size <$> ss) + t' <= zlen room -> zlen ss < 268435456 ->
  t - c_pad c < 2147483648 ->
  sumZ (sdu_remaining_size <$> ss) + t' <= bo < 2147483648 ->
  exists f, fill_loop um (zlen ss) sdus
      (Fill (h ++ l ++ room) (zlen h + li_header_len (zlen ss)) (zlen h) 1 0
         (t - c_pad c) bo false)
      = Ok (queue_after (c_ends c) t' s tl, f) /\
    f_buf f = (h ++ li_encode (sdu_remaining_size <$> ss) ++ concat (sdu_rest <$> ss))
      ++ c_last c ++
      drop (Z.to_nat t') (drop (Z.to_nat (sumZ (sdu_remaining_size <$> ss))) room) /\
    zlen (c_last c) = t' /\ f_rem f = 0 /\
    f_bo f = bo - sumZ (sdu_remaining_size <$> ss) - t' /\
    f_last f = c_ends c /\ f_num f = zlen ss.
Proof.
  intros Hc Hwss Hws Hmss Hl Hroom Hn Ht Hbo.
  pose proof Hc as [Hq Hfull Hrem Hpos Hcase Hpad].
  change (li_bytes 1 (zlen ss)) with (li_header_len (zlen ss)) in Hrem.
  pose proof (zlen_nonneg ss) as Hz. pose proof (sum_remaining_nonneg ss Hwss) as Hss.
  set (f0 := Fill _ _ _ _ _ _ _ _).
  destruct (fill_loop_lis um (s :: tl) ss f0 h l [] room (zlen ss))
    as (f1 & Hf1 & E1 & E2 & E3 & E4 & E5 & E6); try done; try (unfold f0; cbn; lia).
  { split; unfold f0; cbn [f_buf f_eli f_data]; [done|done|].
    rewrite app_nil_r, zlen_app. lia. }
  change (f_rem f0) with (t - c_pad c) in E4. change (f_bo f0) with bo in E5.
  destruct (fill_loop_close um (zlen ss) t 1 sdus c ss s tl t' f1
    (h ++ li_encode (sdu_remaining_size <$> ss) ++ concat (sdu_rest <$> ss))
    (drop (Z.to_nat (sumZ (sdu_remaining_size <$> ss))) room) Hc Hws)
    as (f2 & Hf2 & G1 & G2 & G3 & G4 & G5 & G6); try done; try lia.
  { rewrite zlen_drop. lia. }
  exists f2. rewrite Hq, Hf1, Hf2.
  repeat split; try done; try congruence; lia.
Qed.

Lemma segment_sn_length mem um sf e e' :
  segment mem um sf e = Ok e' -> tx_sn_length e' = tx_sn_length e.
Proof.
  unfold segment, segment_pdu. intros H.
  repeat (case_match; simplify_eq; try done). res_inv. done.
Qed.

Section segment.
Context `{F : UmdFormat} `{S : !UmdSeg F}.
Variable mem : Z -> option (list Z).
Variable user_mode : bool.
Local Abbreviation M := (fmt_modulo (UmdFormat := F)).
Local Abbreviation sf := (seg_sf (UmdSeg := S)).

(** The PDU described by a cut of the queue. *)
Definition cut_umd (s0 : um_tx_sdu) (c : cut_res) : umd :=
  Umd (sdu_segmented_size s0 =? 0) (c_ends c) (c_full c) (c_last c).

(** Bytes the block announced to MAC has beyond the PDU. *)
Definition seg_excess (c : cut_res) : Z := if sf_shrink sf then 0 else c_pad c.

Lemma remaining_rests ss :
  Forall sdu_wf ss ->
  (fun s => zlen s) <$> (sdu_rest <$> ss) = sdu_remaining_size <$> ss.
Proof.
  intros Hwf. rewrite <- list_fmap_compose. apply list_fmap_ext.
  intros i s Hi. cbn. apply sdu_rest_len.
  by apply (Forall_lookup_1 _ _ _ _ Hwf Hi).
Qed.

Lemma concat_rests_len ss :
  Forall sdu_wf ss ->
  zlen (concat (sdu_rest <$> ss)) = sumZ (sdu_remaining_size <$> ss).
Proof.
  induction 1 as [|s ss Hs Hwf IH]; [done|]. rewrite !fmap_cons.
  cbn [concat sumZ]. by rewrite zlen_app, IH, sdu_rest_len.
Qed.

Lemma tx_ok_after hlen e e' c ss s tl t t' :
  tx_ok hlen e -> cut_split t 1 (input_sdus e) c ss s tl t' ->
  input_sdus e' = queue_after (c_ends c) t' s tl ->
  buffer_occupancy e' = buffer_occupancy e - sumZ (sdu_remaining_size <$> ss) - t' ->
  tx_header_min_length_in_bytes e' = hlen -> 0 <= vt_us e' < 65536 ->
  tx_ok hlen e'.
Proof.
  intros [Hwf Hfr Hbo Hmax Hnum Hh Hus] [Hq _ _ Hpos Hcase _] Hi Hb He' Hu'.
  rewrite Hq in *. apply Forall_app in Hwf as [Hwf1 Hwf].
  apply Forall_cons in Hwf as [Hs Hwf].
  rewrite fmap_app, fmap_cons, sumZ_app in Hbo. cbn [sumZ] in Hbo.
  rewrite zlen_app, zlen_cons in Hnum. pose proof (zlen_nonneg ss) as Hz.
  assert (Htl : Forall (fun s => sdu_segmented_size s = 0) tl).
  { destruct ss; cbn [app tail] in Hfr; [done|].
    apply Forall_app in Hfr as [_ Hfr]. by apply Forall_cons in Hfr as [_ Hfr]. }
  pose proof (sum_remaining_nonneg ss Hwf1) as Hss.
  pose proof (sum_remaining_nonneg tl Hwf) as Hst.
  split; rewrite ?Hi, ?Hb; try done; unfold queue_after; destruct (c_ends c).
  - done.
  - destruct Hcase as (Hlt & _ & _). apply Forall_cons. split; [|done].
    destruct Hs as [H1 H2 H3 H4 H5]. split; unfold update; cbn; lia.
  - by apply Forall_tail.
  - done.
  - destruct Hcase as [-> _]. lia.
  - rewrite fmap_cons. unfold update. cbn [sumZ sdu_remaining_size]. lia.
  - lia.
  - lia.
  - lia.
  - rewrite zlen_cons. lia.
Qed.

Lemma segment_pdu_ok e s0 sdus m size :
  tx_ok fmt_hlen e -> input_sdus e = s0 :: sdus ->
  let t := size - fmt_hlen in
  0 < t -> size < 2147483648 -> enough t 1 (sdu_rest <$> input_sdus e) ->
  Forall (fun s => sdu_remaining_size s < 2048) (input_sdus e) ->
  size <= zlen m -> 4 <= zlen m ->
  let c := cut t 1 (sdu_rest <$> input_sdus e) in
  let pdu := umd_encode (cut_umd s0 c) (vt_us e mod M) in
  exists e' ss s tl t' junk, cut_split t 1 (input_sdus e) c ss s tl t' /\
    segment_pdu user_mode sf m size s0 sdus e = Ok e' /\
    input_sdus e' = queue_after (c_ends c) t' s tl /\
    pdus_to_mac_layer e' = pdus_to_mac_layer e ++
      [MacTbReq (pdu ++ junk) (zlen pdu + seg_excess c)] /\
    zlen pdu = size - c_pad c /\
    c_pad c <= zlen junk /\ tx_ok fmt_hlen e' /\ vt_us e' = u16 (vt_us e + 1).
Proof.
  intros Hok Hq t Ht Hsz Hen Hmax Hm Hm4 c pdu.
  pose proof fmt_hlen_range as Hhl. pose proof Hok as [Hwf Hfr Hbo Hbm Hnum Hh Hus].
  destruct (cut_splits (input_sdus e) t 1 Hwf ltac:(by left) Ht Hen)
    as (ss & s & tl & t' & Hc). fold c in Hc.
  pose proof Hc as [Hq2 Hfull Hrem Hpos Hcase Hpad].
  change (li_bytes 1 (zlen ss)) with (li_header_len (zlen ss)) in Hrem.
  assert (Hwfs : Forall sdu_wf ss /\ sdu_wf s).
  { rewrite Hq2 in Hwf. apply Forall_app in Hwf as [? Hw].
    by apply Forall_cons in Hw as [? _]. }
  destruct Hwfs as [Hwss Hws].
  assert (Hmss : Forall (fun r => r < 2048) (sdu_remaining_size <$> ss)).
  { apply Forall_fmap. rewrite Hq2 in Hmax. by apply Forall_app in Hmax as [? _]. }
  pose proof (zlen_nonneg ss) as Hz. pose proof (li_header_len_bound _ Hz) as Hlb.
  pose proof (sum_remaining_nonneg ss Hwss) as Hss.
  assert (Hle : t' <= sdu_remaining_size s) by (destruct (c_ends c); lia).
  assert (Hbo2 : sumZ (sdu_remaining_size <$> ss) + t' <= buffer_occupancy e).
  { rewrite Hbo, Hq2, fmap_app, fmap_cons, sumZ_app. cbn [sumZ].
    rewrite Hq2 in Hwf. apply Forall_app in Hwf as [_ Hw].
    apply Forall_cons in Hw as [_ Hw]. pose proof (sum_remaining_nonneg tl Hw). lia. }
  unfold segment_pdu.
  destruct (wr_ok m 0 [0; 0; 0; 0]) as (m' & Hm' & Hml);
    [lia|change (0 + 4 <= zlen m); lia|].
  rewrite Hm', <- Hq, (seg_hdr (UmdSeg := S)), (s32_small (size - fmt_hlen)) by lia.
  cbn [mbind res_bind]. fold t.
  set (p0 := Plan t size t 1 0 0 0).
  set (pp := plan_unused_li (plan_loop (sf_shrink sf) (input_sdus e) p0)).
  assert (Hpp : p_num pp = zlen ss /\ p_rem pp = t - c_pad c /\
    p_size pp = size - (if sf_shrink sf then c_pad c else 0)).
  { destruct (plan_loop_cut (sf_shrink sf) (input_sdus e) p0 t Hwf) as (P1 & P2 & P3 & P4);
      try done; try (unfold p0; cbn; lia); [by left|].
    unfold pp, plan_unused_li. rewrite P1. cbn [Z.ltb Z.compare].
    rewrite P2, P3, P4. fold c. cbn [p_li p_rem p_size p_num p0].
    assert (zlen (c_full c) = zlen ss)
      by (rewrite Hfull; unfold zlen; by rewrite length_fmap).
    split; [change (p_li p0) with 1; fold c; lia|done]. }
  clearbody pp. clear p0. destruct Hpp as (-> & -> & ->).
  assert (Hnum2 : zlen (c_full c) = zlen ss)
    by (rewrite Hfull; unfold zlen; by rewrite length_fmap).
  assert (Hnss : zlen ss < 268435456)
    by (rewrite Hq2, zlen_app, zlen_cons in Hnum; pose proof (zlen_nonneg tl); lia).
  rewrite u32_small by lia. fold (li_header_len (zlen ss)).
  destruct (list_split m' fmt_hlen) as (h & m1 & -> & Hh1); [lia|].
  rewrite zlen_app in Hml.
  destruct (list_split m1 (li_header_len (zlen ss))) as (l & room & -> & Hl1); [lia|].
  rewrite zlen_app in Hml.
  rewrite <- Hh1.
  destruct (fill_queue user_mode t (input_sdus e) c ss s tl t' h l room
    (buffer_occupancy e) Hc Hwss Hws Hmss Hl1)
    as (f2 & -> & G1 & G2 & G3 & G4 & G5 & G6); try lia.
  cbn [mbind res_bind].
  set (junk := drop (Z.to_nat t') _) in G1.
  set (hd := sf_header sf _ _ _).
  assert (Hhd : hd = fmt_encode (fi_of (umd_starts (cut_umd s0 c)) (c_ends c))
    (if decide (c_full c = []) then 0 else 1) (vt_us e mod M)).
  { unfold hd. change (segment_framing ?a ?b) with (fi_of a b).
    rewrite G5, G6, seg_header by (apply fi_of_range || lia).
    assert (Hst : (sdu_remaining_size s0 =? sdu_size s0) = (sdu_segmented_size s0 =? 0)).
    { rewrite Hq in Hwf. apply Forall_cons in Hwf as [[W1 W2 W3 W4 W5] _]. lia. }
    cbn [umd_starts cut_umd]. rewrite Hst, <- Hnum2.
    f_equal. destruct (c_full c) as [|x xs]; [done|]. rewrite zlen_cons.
    pose proof (zlen_nonneg xs). by rewrite (proj2 (Z.eqb_neq _ _)) by lia. }
  assert (Hpdu : pdu = hd ++ li_encode (sdu_remaining_size <$> ss)
                      ++ concat (sdu_rest <$> ss) ++ c_last c).
  { unfold pdu, umd_encode, umd_lis. cbn [cut_umd umd_full umd_last umd_ends].
    rewrite Hhd, Hfull, remaining_rests by done. done. }
  assert (Hhdl : zlen hd = fmt_hlen) by (rewrite Hhd; apply fmt_encode_len).
  assert (Hpl : zlen pdu = size - c_pad c).
  { rewrite Hpdu, !zlen_app, Hhdl, li_encode_len, G2.
    rewrite (concat_rests_len ss Hwss).
    replace (zlen (sdu_remaining_size <$> ss)) with (zlen ss)
      by (unfold zlen; by rewrite length_fmap). lia. }
  assert (Hwr : wr (f_buf f2) 0 hd = Ok (pdu ++ junk)).
  { rewrite G1, Hpdu, <- !app_assoc.
    apply (wr_app [] h). unfold zlen in Hhdl, Hh1. lia. }
  rewrite Hwr. cbn [mbind res_bind]. rewrite G3, Z.sub_0_r.
  assert (Htb : s32 (size - (if sf_shrink sf then c_pad c else 0))
                = zlen pdu + seg_excess c).
  { rewrite Hpl. unfold seg_excess. destruct (sf_shrink sf); rewrite s32_small; lia. }
  rewrite Htb. unfold seg_excess in *.
  rewrite (proj2 (Z.ltb_lt 0 _)) by (destruct (sf_shrink sf); lia). cbn [res_guard mbind res_bind].
  eexists _, ss, s, tl, t', junk. split; [done|]. split; [reflexivity|].
  split; [done|]. split; [done|]. split; [done|].
  split; [unfold junk; rewrite !zlen_drop; lia|]. split; [|done].
  rewrite Hh1. eapply tx_ok_after; [exact Hok|exact Hc|done| |done|].
  - change (f_bo f2 = buffer_occupancy e - sumZ (sdu_remaining_size <$> ss) - t').
    rewrite G4. lia.
  - change (0 <= u16 (vt_us e + 1) < 65536). apply (wrapU_range 16). lia.
Qed.

(** One PDU is made from the queue: the new state, against the cut. *)
Definition one_pdu (e e' : um_tx) : Prop :=
  exists size s0 q0 ss s tl t' junk, let t := size - fmt_hlen in
    let c := cut t 1 (sdu_rest <$> input_sdus e) in
    let pdu := umd_encode (cut_umd s0 c) (vt_us e mod M) in
    input_sdus e = s0 :: q0 /\ size <= nb_bytes_requested_by_mac e /\
    cut_split t 1 (input_sdus e) c ss s tl t' /\
    input_sdus e' = queue_after (c_ends c) t' s tl /\
    pdus_to_mac_layer e' = pdus_to_mac_layer e ++
      [MacTbReq (pdu ++ junk) (zlen pdu + seg_excess c)] /\
    zlen pdu = size - c_pad c /\
    c_pad c <= zlen junk /\ tx_ok fmt_hlen e' /\ vt_us e' = u16 (vt_us e + 1).

(** The whole function, when there is something to send, room for it, and
    memory for the PDU. *)
Lemma segment_some e m :
  tx_ok fmt_hlen e -> fmt_hlen + 1 <= nb_bytes_requested_by_mac e < 2147483648 ->
  input_sdus e <> [] ->
  Forall (fun s => sdu_remaining_size s < 2048) (input_sdus e) ->
  mem (data_pdu_size e (nb_bytes_requested_by_mac e)) = Some m ->
  data_pdu_size e (nb_bytes_requested_by_mac e) <= zlen m -> 4 <= zlen m ->
  exists e', segment mem user_mode sf e = Ok e' /\ one_pdu e e'.
Proof.
  intros Hok Hnb Hne Hmax Em Hm1 Hm2. pose proof fmt_hlen_range as Hhl. unfold segment.
  rewrite s32_small, (seg_min (UmdSeg := S)) by lia.
  rewrite (proj2 (Z.ltb_ge _ (fmt_hlen + 1))) by lia.
  destruct (input_sdus e) as [|s0 q0] eqn:Hq; [done|].
  rewrite (proj2 (Z.ltb_lt 0 _)) by lia.
  destruct (data_pdu_size_ok fmt_hlen e (nb_bytes_requested_by_mac e) Hok)
    as (Hs1 & Hs2 & Hs3); [by rewrite Hq|lia|lia|].
  rewrite Em. set (size := data_pdu_size e _) in *.
  destruct (segment_pdu_ok e s0 q0 m size Hok Hq) as (e' & ss & s & tl & t' & junk & Hc);
    try done; rewrite ?Hq; try done; try lia.
  rewrite Hq in Hc. destruct Hc as (C1 & C2 & C3). exists e'. split; [done|].
  exists size, s0, q0, ss, s, tl, t', junk. rewrite Hq.
  split; [done|]. split; [lia|]. by split.
Qed.

(** Otherwise nothing happens. *)
Lemma segment_none e :
  -2147483648 <= nb_bytes_requested_by_mac e < 2147483648 ->
  nb_bytes_requested_by_mac e < fmt_hlen + 1 \/ input_sdus e = [] \/
    mem (data_pdu_size e (nb_bytes_requested_by_mac e)) = None ->
  segment mem user_mode sf e = Ok e.
Proof.
  intros Hnb Hc. unfold segment. rewrite s32_small, (seg_min (UmdSeg := S)) by lia.
  destruct (Z.ltb_spec (nb_bytes_requested_by_mac e) (fmt_hlen + 1)) as [|Hnb2]; [done|].
  destruct (input_sdus e) as [|s0 q0] eqn:Hq; [done|].
  case_match; [|done]. destruct Hc as [?|[?| ->]]; [lia|done|done].
Qed.

Lemma segment_cases e :
  tx_ok fmt_hlen e -> 0 <= nb_bytes_requested_by_mac e < 2147483648 ->
  Forall (fun s => sdu_remaining_size s < 2048) (input_sdus e) ->
  (forall size m, mem size = Some m -> size <= zlen m /\ 4 <= zlen m) ->
  segment mem user_mode sf e = Ok e \/
  exists e', segment mem user_mode sf e = Ok e' /\ one_pdu e e'.
Proof.
  intros Hok Hnb Hmax Hmem.
  destruct (Z.lt_ge_cases (nb_bytes_requested_by_mac e) (fmt_hlen + 1));
    [left; apply segment_none; [lia|by left]|].
  destruct (decide (input_sdus e = [])); [left; apply segment_none; [lia|auto]|].
  destruct (mem (data_pdu_size e (nb_bytes_requested_by_mac e))) as [m|] eqn:Em.
  - right. destruct (Hmem _ _ Em). apply segment_some with m; done || lia.
  - left. apply segment_none; [lia|auto].
Qed.
End segment.
