(* ===== verification/RlcUm.v ===== *)
(** RLC UM v9.3.0: the operations of an entity ([rlc_um.c]). *)
From S2P Require Import Prelude.
From S2P Require Import RlcUmEntity.
From S2P Require Import RlcUmHeader.
From S2P Require Import RlcUmReassembly.
From S2P Require Import RlcUmDar.
From S2P Require Import RlcUmSegment.

Local Open Scope Z_scope.
Local Open Scope c_scope.

(** The occupancy reported, an unsigned integer. *)
Definition rlc_um_get_buffer_occupancy (e : um_tx) : Z :=
  if 0 <? buffer_occupancy e then u32 (buffer_occupancy e) else 0.

Record mac_status_resp := MacStatusResp {
  sr_buffer_occupancy_in_bytes : Z;
  sr_buffer_occupancy_in_pdus : Z;
  sr_head_sdu_creation_time : Z;
  sr_head_sdu_remaining_size_to_send : Z;
  sr_head_sdu_is_segmented : bool;
  sr_rlc_protocol_state : rlc_protocol_state
}.

Record mac_data_req := MacDataReq {
  dr_data : list mac_tb_req;
  dr_buffer_occupancy_in_bytes : Z;
  dr_rlc_protocol_state : rlc_protocol_state
}.

Section entity.
(** Memory management and build configuration, as for segmentation. *)
Variable get_free_mem_block : Z -> option (list Z).
Variable user_mode : bool.

(** The switch on the protocol state; the unknown states only log. *)
Definition rlc_um_get_pdus (e : um_entity) : res um_entity :=
  match protocol_state e with
  | RLC_DATA_TRANSFER_READY_STATE =>
      let t := um_tx_side e in
      t ← (if tx_sn_length t =? 10
           then rlc_um_segment_10 get_free_mem_block user_mode t else Ok t);
      t ← (if tx_sn_length t =? 5
           then rlc_um_segment_5 get_free_mem_block user_mode t else Ok t);
      Ok (e <| um_tx_side := t |>)
  | _ => Ok e
  end.

(** In the NULL and LOCAL_SUSPEND states the blocks are freed unread. *)
Definition rlc_um_rx (e : um_entity) (frameP : Z) (data : list mac_tb_ind)
    : res um_entity :=
  match protocol_state e with
  | RLC_DATA_TRANSFER_READY_STATE =>
      r ← rlc_um_receive frameP data (um_rx_side e);
      Ok (e <| um_rx_side := r |>)
  | _ => Ok e
  end.

(** [lockedP] is the success of [pthread_mutex_trylock]. *)
Definition rlc_um_check_timer (e : um_entity) (frameP : Z) (lockedP : bool)
    : res um_entity :=
  r ← rlc_um_check_timer_dar_time_out (um_rx_side e) frameP lockedP;
  Ok (e <| um_rx_side := r |>).

Definition head_creation_time (frameP creation : Z) : Z :=
  let diff_time := s32 (frameP - creation) in
  if 0 <? diff_time then diff_time else u32 (0xffffffff - diff_time + frameP).

Definition rlc_um_mac_status_indication (e : um_entity) (frameP tbs_sizeP : Z)
    (lockedP : bool) : res (um_entity * mac_status_resp) :=
  e ← rlc_um_check_timer e frameP lockedP;
  let t := um_tx_side e in
  let t := t <| nb_bytes_requested_by_mac := tbs_sizeP |> in
  let e := e <| um_tx_side := t |> in
  let bo := rlc_um_get_buffer_occupancy t in
  Ok (e,
    match input_sdus t with
    | sdu :: _ =>
        if 0 <? bo then
          MacStatusResp (u32 (bo + tx_header_min_length_in_bytes t))
            (u16 (zlen (input_sdus t)))
            (head_creation_time frameP (sdu_creation_time sdu))
            (sdu_remaining_size sdu)
            (negb (sdu_size sdu =? sdu_remaining_size sdu)) (protocol_state e)
        else MacStatusResp bo 0 0 0 false (protocol_state e)
    | [] => MacStatusResp bo 0 0 0 false (protocol_state e)
    end).

(** Statistics and the check on every PDU handed over. *)
Fixpoint count_pdus (pdus : list mac_tb_req) (t : um_tx) : res um_tx :=
  match pdus with
  | [] => Ok t
  | p :: pdus =>
      let tb_size_in_bytes := s16 (tb_size p) in
      let t := t <| stat_tx_data_pdu := u32 (stat_tx_data_pdu t + 1) |>
                 <| stat_tx_data_bytes :=
                      u32 (stat_tx_data_bytes t + tb_size_in_bytes) |> in
      _ ← res_guard (0 <? tb_size_in_bytes) EAssert;
      count_pdus pdus t
  end.

Definition rlc_um_mac_data_request (e : um_entity) : res (um_entity * mac_data_req) :=
  e ← rlc_um_get_pdus e;
  let t := um_tx_side e in
  let data := pdus_to_mac_layer t in
  let t := t <| pdus_to_mac_layer := [] |> in
  let bo := rlc_um_get_buffer_occupancy t in
  let bo := if 0 <? bo then u32 (bo + tx_header_min_length_in_bytes t) else bo in
  t ← count_pdus data t;
  Ok (e <| um_tx_side := t |>, MacDataReq data bo (protocol_state e)).

Definition rlc_um_mac_data_indication (e : um_entity) (frameP : Z)
    (data : list mac_tb_ind) (lockedP : bool) : res um_entity :=
  e ← rlc_um_rx e frameP data;
  rlc_um_check_timer e frameP lockedP.
End entity.

(** [sdu_pP] holds [payload], of [data_size] bytes, a 16-bit integer. *)
Definition rlc_um_data_req (e : um_entity) (frameP : Z) (payload : list Z)
    (data_size : Z) : um_entity :=
  let t := um_tx_side e in
  let sdu := UmTxSdu payload frameP (u16 data_size) 0 (u16 data_size) in
  e <| um_tx_side := t
         <| stat_tx_pdcp_sdu := u32 (stat_tx_pdcp_sdu t + 1) |>
         <| stat_tx_pdcp_bytes := u32 (stat_tx_pdcp_bytes t + sdu_size sdu) |>
         <| buffer_occupancy := s32 (buffer_occupancy t + sdu_size sdu) |>
         <| input_sdus := input_sdus t ++ [sdu] |> |>.
