(* ===== verification/RlcUmLink.v ===== *)
(** RLC UM v9.3.0: a transmitter linked to a receiver.  The PDUs segmentation
    makes of a queue of SDUs are reassembled into these SDUs. *)
From S2P Require Import Prelude.
From S2P Require Import RlcUmEntity.
From S2P Require Import RlcUmHeader.
From S2P Require Import RlcUmReassembly.
From S2P Require Import RlcUmReassemblySpec.
From S2P Require Import RlcUmDar.
From S2P Require Import RlcUmDarSpec.
From S2P Require Import RlcUmDarRefine.
From S2P Require Import RlcUmReceiver.
From S2P Require Import RlcUmSegment.
From S2P Require Import RlcUmSegmentSpec.
From S2P Require Import RlcUm.

Local Open Scope Z_scope.

(** ** What the receiver makes of a cut *)

(** The part of the head of the queue which has been sent. *)
Definition tx_partial (q : list um_tx_sdu) : list Z :=
  match q with
  | [] => []
  | s :: _ => take (Z.to_nat (sdu_segmented_size s)) (sdu_payload s)
  end.

(** SDUs delivered against SDUs sent: at most [k] bytes may be added behind. *)
Definition padded (k : Z) (sent got : list Z) : Prop :=
  exists pad, got = sent ++ pad /\ zlen pad <= k.

Lemma partial_rest s : 
  take (Z.to_nat (sdu_segmented_size s)) (sdu_payload s) ++ sdu_rest s = sdu_payload s.
Proof. apply take_drop. Qed.

Lemma fresh_rest s : sdu_segmented_size s = 0 -> sdu_rest s = sdu_payload s.
Proof. unfold sdu_rest. by intros ->. Qed.

Lemma grow_fits max p s :
  0 < zlen s -> zlen p + zlen s <= max -> grow max p s = p ++ s.
Proof.
  intros Hs Hf. unfold grow. rewrite (proj2 (Z.leb_gt _ _)) by done.
  by rewrite (proj2 (Z.leb_le _ _)).
Qed.

Lemma emit_pos q : 0 < zlen q -> emit q = [q].
Proof. intros Hq. unfold emit. by rewrite (proj2 (Z.ltb_lt _ _)). Qed.

(** Closing an SDU that fits delivers it. *)
Lemma grow_emit max p s :
  0 < zlen s -> zlen p + zlen s <= max -> emit (grow max p s) = [p ++ s].
Proof.
  intros Hs Hf. rewrite grow_fits by done. apply emit_pos.
  rewrite zlen_app. pose proof (zlen_nonneg p). lia.
Qed.

(** The SDU of a queue fits in the receiver's memory. *)
Definition sdu_fits (max : Z) (s : um_tx_sdu) : Prop := sdu_wf s /\ sdu_size s <= max.

Lemma feed_fresh max ss :
  Forall (sdu_fits max) ss -> Forall (fun s => sdu_segmented_size s = 0) ss ->
  feed max (sdu_rest <$> ss) [] = ([], sdu_payload <$> ss).
Proof.
  induction ss as [|s ss IH]; intros Hf H0; [done|].
  apply Forall_cons in Hf as [[Hs Hm] Hf]. apply Forall_cons in H0 as [Hs0 H0].
  rewrite !fmap_cons. cbn [feed]. rewrite IH, fresh_rest by done.
  destruct Hs as [H1 H2 H3 H4 H5].
  rewrite grow_emit; [done|lia|]. change (zlen (@nil Z)) with 0. lia.
Qed.

(** The first SDU may have been started before. *)
Lemma feed_queue max s ss :
  Forall (sdu_fits max) (s :: ss) -> Forall (fun s => sdu_segmented_size s = 0) ss ->
  feed max (sdu_rest <$> s :: ss) (tx_partial (s :: ss))
  = ([], sdu_payload <$> s :: ss).
Proof.
  intros Hf H0. apply Forall_cons in Hf as [[Hs Hm] Hf].
  rewrite !fmap_cons. cbn [feed tx_partial]. rewrite feed_fresh by done.
  pose proof (sdu_rest_len s Hs) as Hlen. pose proof Hs as [H1 H2 H3 H4 H5].
  rewrite grow_emit, partial_rest; [done|lia|].
  rewrite zlen_take, Z2Nat.id by lia. lia.
Qed.

(** The PDU with [pad] added behind its last segment, as the receiver reads it
    when more bytes are announced than the PDU has. *)
Definition pad_umd (u : umd) (pad : list Z) : umd :=
  Umd (umd_starts u) (umd_ends u) (umd_full u) (umd_last u ++ pad).

(** One PDU of a queue: what it delivers has left the queue, and the receiver
    holds what has been sent of the next SDU. *)
Lemma ref_pdu_cut max k t q c ss s tl t' s0 q0 pad :
  q = s0 :: q0 ->
  Forall (sdu_fits (max - k)) q ->
  Forall (fun s => sdu_segmented_size s = 0) (tail q) ->
  cut_split t 1 q c ss s tl t' -> zlen pad <= k -> (c_ends c = false -> pad = []) ->
  exists got,
    ref_pdu max (pad_umd (cut_umd s0 c) pad) (tx_partial q) false
    = (tx_partial (queue_after (c_ends c) t' s tl), false, got) /\
    exists sent, Forall2 (padded k) sent got /\
      sdu_payload <$> q = sent ++ (sdu_payload <$> queue_after (c_ends c) t' s tl).
Proof.
  intros Hq Hfit Hfr [Hsplit Hfull Hrem Hpos Hcase Hpad] Hk Hnopad.
  pose proof (zlen_nonneg pad) as Hp0.
  assert (Hstart : (if sdu_segmented_size s0 =? 0 then [] else tx_partial q) = tx_partial q).
  { destruct (Z.eqb_spec (sdu_segmented_size s0) 0) as [E|]; [|done].
    subst q. cbn [tx_partial]. by rewrite E. }
  assert (Hrp : ref_pdu max (pad_umd (cut_umd s0 c) pad) (tx_partial q) false
    = let '(p, out) := feed_pdu max (c_full c) (c_last c ++ pad) (c_ends c) (tx_partial q) in
      (p, false, out)).
  { unfold ref_pdu. cbn [pad_umd cut_umd umd_starts umd_ends umd_full umd_last].
    rewrite <- Hstart at 2. by destruct (sdu_segmented_size s0 =? 0). }
  rewrite Hrp, Hfull. clear Hrp Hstart. unfold feed_pdu.
  (* the complete SDUs *)
  assert (Hfeed : feed max (sdu_rest <$> ss) (tx_partial q)
    = (tx_partial (s :: tl), sdu_payload <$> ss) /\
      Forall (sdu_fits (max - k)) (s :: tl) /\
      Forall (fun s => sdu_segmented_size s = 0) tl).
  { rewrite Hsplit in *. apply Forall_app in Hfit as [Hf1 Hf2].
    destruct ss as [|s1 ss]; [done|]. cbn [app tail] in Hfr.
    apply Forall_app in Hfr as [Hfr1 Hfr2]. pose proof Hfr2 as Hfr3.
    apply Forall_cons in Hfr3 as [Hs0 Hfr3].
    split; [|done]. change (tx_partial ((s1 :: ss) ++ s :: tl)) with (tx_partial (s1 :: ss)).
    rewrite (feed_queue max s1 ss); [cbn [tx_partial]; by rewrite Hs0| |done].
    eapply Forall_impl; [exact Hf1|]. intros x [Hx1 Hx2]. split; [done|lia]. }
  destruct Hfeed as (-> & Hfit2 & Hfr2).
  apply Forall_cons in Hfit2 as [[Hs Hmax] Hfit2].
  pose proof (sdu_rest_len s Hs) as Hlen. pose proof Hs as [H1 H2 H3 H4 H5].
  rewrite Hsplit, fmap_app, fmap_cons. cbn [tx_partial].
  assert (Hpl : zlen (take (Z.to_nat (sdu_segmented_size s)) (sdu_payload s))
                = sdu_segmented_size s) by (rewrite zlen_take, Z2Nat.id by lia; lia).
  destruct (c_ends c); cbn [queue_after].
  - destruct Hcase as [-> ->]. rewrite grow_emit by (rewrite zlen_app; lia).
    rewrite app_assoc, partial_rest. eexists. split.
    + replace (tx_partial tl) with (@nil Z); [reflexivity|].
      destruct tl as [|s1 tl]; [done|]. apply Forall_cons in Hfr2 as [E _].
      cbn [tx_partial]. by rewrite E.
    + exists ((sdu_payload <$> ss) ++ [sdu_payload s]).
      split; [|by rewrite <- app_assoc].
      apply Forall2_app; [|repeat constructor; by exists pad].
      apply Forall_Forall2_diag, Forall_forall. intros x _. exists [].
      rewrite app_nil_r. split; [done|]. change (0 <= k). lia.
  - destruct Hcase as (Hlt & _ & ->). rewrite (Hnopad eq_refl), app_nil_r.
    rewrite grow_fits by (rewrite ?zlen_take; lia).
    eexists. split.
    + replace (tx_partial (_ :: tl)) with
        (take (Z.to_nat (sdu_segmented_size s)) (sdu_payload s)
         ++ take (Z.to_nat t') (sdu_rest s)); [reflexivity|].
      cbn [tx_partial]. unfold update, sdu_rest. cbn.
      replace (Z.to_nat (sdu_segmented_size s + t'))
        with (Z.to_nat (sdu_segmented_size s) + Z.to_nat t')%nat by lia.
      by rewrite take_take_drop.
    + exists (sdu_payload <$> ss). split; [|by rewrite fmap_cons].
      apply Forall_Forall2_diag, Forall_forall. intros x _. exists [].
      rewrite app_nil_r. split; [done|]. change (0 <= k). lia.
Qed.

(** ** The transmitting entity *)

Inductive tx_op :=
  | TxSdu (frameP : Z) (payload : list Z)
  | TxGrant (frameP nb : Z) (locked : bool) (mem : Z -> option (list Z)).

(** A grant is MAC's pair of calls: the status indication, which announces the
    bytes, and the data request, which takes the PDUs. *)
Definition tx_step (user_mode : bool) (op : tx_op) (e : um_entity)
    : res (um_entity * list mac_tb_req) :=
  match op with
  | TxSdu frameP payload => Ok (rlc_um_data_req e frameP payload (zlen payload), [])
  | TxGrant frameP nb locked mem =>
      '(e, _) ← rlc_um_mac_status_indication e frameP nb locked;
      '(e, d) ← rlc_um_mac_data_request mem user_mode e;
      Ok (e, dr_data d)
  end.

Fixpoint tx_run (user_mode : bool) (ops : list tx_op) (e : um_entity)
    : res (um_entity * list mac_tb_req) :=
  match ops with
  | [] => Ok (e, [])
  | op :: ops =>
      '(e, p1) ← tx_step user_mode op e;
      '(e, p2) ← tx_run user_mode ops e;
      Ok (e, p1 ++ p2)
  end.

(** The SDUs given to the transmitter. *)
Fixpoint op_sdus (ops : list tx_op) : list (list Z) :=
  match ops with
  | [] => []
  | TxSdu _ payload :: ops => payload :: op_sdus ops
  | TxGrant _ _ _ _ :: ops => op_sdus ops
  end.

(** What MAC makes of a PDU: the block as it is, under the size announced. *)
Definition carry (p : mac_tb_req) : mac_tb_ind := MacTbInd (pdu_data p) (tb_size p).

Section link.
Context `{F : UmdFormat} `{S : !UmdSeg F}.
Variable user_mode : bool.
Variable max : Z.
Local Abbreviation M := (fmt_modulo (UmdFormat := F)).
Local Abbreviation ws := (fmt_window (UmdFormat := F)).

(** The bytes a block may have beyond its PDU. *)
Definition excess_max : Z := if sf_shrink (seg_sf (UmdSeg := S)) then 0 else 2.

(** Conditions on an operation: SDUs that a length indicator can announce and
    the receiver can hold, a queue and a grant within bounds, blocks as large
    as asked. *)
Definition op_ok (op : tx_op) (e : um_entity) : Prop :=
  match op with
  | TxSdu _ payload =>
      0 < zlen payload < 2048 /\ zlen payload <= max - excess_max /\
      buffer_occupancy (um_tx_side e) + zlen payload < 268435456
  | TxGrant _ nb _ mem =>
      0 <= nb <= 30000 /\ zlen (input_sdus (um_tx_side e)) <= 24 /\
      forall size m, mem size = Some m -> size <= zlen m /\ 4 <= zlen m
  end.

Fixpoint ops_ok (ops : list tx_op) (e : um_entity) : Prop :=
  match ops with
  | [] => True
  | op :: ops =>
      op_ok op e /\
      match tx_step user_mode op e with
      | Ok (e', _) => ops_ok ops e'
      | Err _ => True
      end
  end.

(** An entity ready to send. *)
Record tx_ready (e : um_entity) : Prop := {
  tr_state : protocol_state e = RLC_DATA_TRANSFER_READY_STATE;
  tr_len : tx_sn_length (um_tx_side e) = fmt_len;
  tr_ok : tx_ok fmt_hlen (um_tx_side e);
  tr_fit : Forall (fun s => sdu_fits (max - excess_max) s /\ sdu_size s < 2048)
             (input_sdus (um_tx_side e));
  tr_pdus : pdus_to_mac_layer (um_tx_side e) = [];
  tr_rx : exists a, dar_rel a (um_rx_side e) /\ a_inv ws a
}.

(** The transmitter against the PDUs [us] it has sent, as received. *)
Record linked (us : list umd) (sdus : list (list Z)) (e : um_entity) : Prop := {
  lk_ready : tx_ready e;
  lk_us : vt_us (um_tx_side e) = Z.of_nat (length us) mod 65536;
  lk_ref : exists got, ref_run max (Some <$> us)
      = (tx_partial (input_sdus (um_tx_side e)), false, got) /\
    exists sent, Forall2 (padded excess_max) sent got /\
      sdus = sent ++ (sdu_payload <$> input_sdus (um_tx_side e))
}.

Lemma mod_65536 n : (n mod 65536) mod M = n mod M.
Proof.
  pose proof fmt_M as HM. destruct fmt_len_cases as [(_ & Hw & _)|(_ & Hw & _)].
  - replace M with 1024 by lia. div_lia.
  - replace M with 32 by lia. div_lia.
Qed.

Lemma get_pdus_segment mem e :
  tx_ready e ->
  rlc_um_get_pdus mem user_mode e
  = (t ← segment mem user_mode (seg_sf (UmdSeg := S)) (um_tx_side e);
     Ok (e <| um_tx_side := t |>)).
Proof.
  intros [Hst Hlen _ _ _ _]. unfold rlc_um_get_pdus. rewrite Hst.
  destruct seg_dispatch as [[Hl ->]|[Hl ->]]; rewrite Hl in Hlen; rewrite Hlen;
    cbn [Z.eqb Pos.eqb]; unfold rlc_um_segment_10, rlc_um_segment_5.
  - destruct (segment mem user_mode sf_10 (um_tx_side e)) as [t|] eqn:E; [|done].
    cbn [mbind res_bind]. by rewrite (segment_sn_length _ _ _ _ _ E), Hlen.
  - cbn [mbind res_bind]. by rewrite Hlen.
Qed.

(** What a step adds: the PDUs sent and how the receiver will read them. *)
Definition sends (n : nat) (pdus : list mac_tb_req) (us : list umd) : Prop :=
  (pdus = [] /\ us = []) \/
  exists p u, pdus = [p] /\ us = [u] /\ pdu_rel (Z.of_nat n) u (carry p).

Lemma cut_umd_ok s0 c q ss s tl t t' pad :
  cut_split t 1 q c ss s tl t' ->
  Forall (fun s => sdu_wf s /\ sdu_size s < 2048) q -> zlen q <= 24 -> zlen pad <= 2 ->
  umd_ok (pad_umd (cut_umd s0 c) pad).
Proof.
  intros [Hq Hfull Hrem Hpos Hcase Hpad] Hwf Hlen Hp.
  rewrite Hq in Hwf. apply Forall_app in Hwf as [Hss Hwf].
  apply Forall_cons in Hwf as [[Hs Hsz] _].
  assert (Hwss : Forall sdu_wf ss) by (eapply Forall_impl; [exact Hss|]; by intros ? []).
  assert (Hlis : umd_lis (pad_umd (cut_umd s0 c) pad) = sdu_remaining_size <$> ss).
  { unfold umd_lis. cbn [umd_full pad_umd cut_umd]. rewrite Hfull.
    by apply remaining_rests. }
  assert (Hl : 0 < zlen (c_last c) < 2048).
  { pose proof (sdu_rest_len s Hs) as Hr. destruct Hs as [H1 H2 H3 H4 H5].
    destruct (c_ends c).
    - destruct Hcase as [-> ->]. lia.
    - destruct Hcase as (? & _ & ->). rewrite zlen_take. lia. }
  rewrite Hq, zlen_app, zlen_cons in Hlen. pose proof (zlen_nonneg tl).
  pose proof (zlen_nonneg pad).
  assert (Hli : Forall li_ok (sdu_remaining_size <$> ss)).
  { apply Forall_fmap. eapply Forall_impl; [exact Hss|]. intros x [Hx Hx2].
    destruct Hx. unfold li_ok. cbn. lia. }
  assert (Hsum : sumZ (sdu_remaining_size <$> ss) <= 2048 * zlen ss).
  { clear -Hli. induction ss as [|x ss IH]; [done|]. rewrite fmap_cons in *.
    apply Forall_cons in Hli as [Hx Hli]. specialize (IH Hli).
    cbn [sumZ]. rewrite zlen_cons. unfold li_ok in Hx. lia. }
  split; rewrite ?Hlis; cbn [umd_full umd_last pad_umd cut_umd]; rewrite ?zlen_app.
  - done.
  - rewrite Hfull. unfold zlen. rewrite length_fmap. fold (zlen ss). lia.
  - lia.
  - lia.
Qed.

(** What a cut leaves in the queue, in bytes. *)
Lemma cut_bytes s0 c q ss s tl t t' :
  cut_split t 1 q c ss s tl t' -> Forall sdu_wf q ->
  Forall (fun s => sdu_segmented_size s = 0) (tail q) ->
  concat (sdu_rest <$> q)
  = concat (umd_segs (cut_umd s0 c)) ++ concat (sdu_rest <$> queue_after (c_ends c) t' s tl) /\
  (c_ends c = true <-> tx_partial (queue_after (c_ends c) t' s tl) = []).
Proof.
  intros [Hq Hfull Hrem Hpos Hcase Hpad] Hwf Hfr. rewrite Hq in Hwf, Hfr.
  apply Forall_app in Hwf as [_ Hwf]. apply Forall_cons in Hwf as [Hs _].
  pose proof (sdu_rest_len s Hs) as Hlen. destruct Hs as [H1 H2 H3 H4 H5].
  unfold umd_segs. cbn [umd_full umd_last cut_umd].
  rewrite Hq, fmap_app, fmap_cons, !concat_app, Hfull. cbn [concat].
  rewrite app_nil_r, <- app_assoc. destruct (c_ends c); cbn [queue_after].
  - destruct Hcase as [-> ->]. split; [done|]. split; [|done]. intros _.
    destruct tl as [|s1 tl]; [done|]. cbn [tx_partial].
    assert (Hs1 : sdu_segmented_size s1 = 0).
    { destruct ss; cbn [app tail] in Hfr; [|apply Forall_app in Hfr as [_ Hfr];
        apply Forall_cons in Hfr as [_ Hfr]]; by apply Forall_cons in Hfr as [? _]. }
    by rewrite Hs1.
  - destruct Hcase as (Hlt & _ & ->). rewrite fmap_cons. cbn [concat]. split.
    + f_equal. rewrite app_assoc. f_equal. unfold update, sdu_rest at 3. cbn.
      replace (Z.to_nat (sdu_segmented_size s + t'))
        with (Z.to_nat (sdu_segmented_size s) + Z.to_nat t')%nat by lia.
      rewrite <- drop_drop. by rewrite take_drop.
    + split; [done|]. cbn [tx_partial]. unfold update. cbn. intros E.
      apply (f_equal zlen) in E. rewrite zlen_take in E.
      change (zlen (@nil Z)) with 0 in E. lia.
Qed.


(** Segmentation does nothing when the grant is smaller than the smallest
    PDU, when nothing is queued and when there is no memory. *)
Theorem segment_idle mem e :
  -2147483648 <= nb_bytes_requested_by_mac e < 2147483648 ->
  nb_bytes_requested_by_mac e < fmt_hlen + 1 \/ input_sdus e = [] \/
    mem (data_pdu_size e (nb_bytes_requested_by_mac e)) = None ->
  segment mem user_mode (seg_sf (UmdSeg := S)) e = Ok e.
Proof. apply segment_none. Qed.

Lemma tick_ready e frameP locked nb :
  tx_ready e ->
  exists e' r, rlc_um_mac_status_indication e frameP nb locked = Ok (e', r) /\
    tx_ready e' /\
    um_tx_side e' = (um_tx_side e) <| nb_bytes_requested_by_mac := nb |>.
Proof.
  intros [Hst Hlen Hok Hfit Hp (a & Hd & Ha)].
  unfold rlc_um_mac_status_indication, rlc_um_check_timer.
  destruct (rx_op_ref a (um_rx_side e) (EvTick frameP locked) Hd Ha I)
    as (r' & a' & Hr & Hn & Hd'). cbn [rx_op] in Hr. rewrite Hr. cbn [mbind res_bind].
  eexists _, _. split; [reflexivity|]. split; [|done].
  split; try done; [by destruct Hok|]. exists a'. split; [done|].
  by eapply a_next_inv.
Qed.

Lemma tx_partial_snoc q x :
  sdu_segmented_size x = 0 -> tx_partial (q ++ [x]) = tx_partial q.
Proof. intros Hx. destruct q; [cbn; by rewrite Hx|done]. Qed.

Lemma sdu_step us sdus e frameP payload :
  linked us sdus e -> op_ok (TxSdu frameP payload) e ->
  linked us (sdus ++ [payload]) (rlc_um_data_req e frameP payload (zlen payload)).
Proof.
  intros [Hr Hu (got & Href & sent & Hpad & Hsd)] (Hlen & Hmax & Hbo).
  destruct Hr as [Hst Hsn Hok Hfit Hp Hrx].
  pose proof Hok as [W1 W2 W3 W4 W5 W6 W7].
  unfold rlc_um_data_req. set (t := um_tx_side e) in *.
  rewrite !u16_small by lia.
  set (x := UmTxSdu payload frameP (zlen payload) 0 (zlen payload)).
  assert (Hx : sdu_wf x) by (split; cbn; lia).
  assert (Hbo0 : 0 <= buffer_occupancy t)
    by (rewrite W3; by apply sum_remaining_nonneg).
  assert (Hbo1 : s32 (buffer_occupancy t + zlen payload)
                 = sumZ (sdu_remaining_size <$> input_sdus t ++ [x])).
  { rewrite s32_small, W3, fmap_app, sumZ_app by lia. cbn. lia. }
  assert (Hnum : zlen (input_sdus t ++ [x]) <= sumZ (sdu_remaining_size <$> input_sdus t ++ [x])).
  { assert (Hall : Forall sdu_wf (input_sdus t ++ [x])).
    { apply Forall_app. split; [done|]. by apply Forall_singleton. }
    clear -Hall. induction Hall as [|y l Hy Hl IH]; [done|]. rewrite fmap_cons.
    cbn [sumZ]. rewrite zlen_cons. apply sdu_wf_bounds in Hy. lia. }
  rewrite <- Hbo1, s32_small in Hnum by lia.
  split.
  - split; try done; cbn [um_tx_side]; unfold update; cbn [um_tx_side input_sdus tx_sn_length].
    + split; cbn; try done.
      * apply Forall_app. split; [done|]. by apply Forall_singleton.
      * destruct (input_sdus t); cbn [app tail] in *; [done|].
        apply Forall_app. split; [done|]. by apply Forall_singleton.
      * rewrite s32_small by lia. lia.
      * lia.
    + apply Forall_app. split; [done|]. apply Forall_singleton.
      split; [split; [done|cbn; lia]|cbn; lia].
  - done.
  - exists got. change (input_sdus (um_tx_side _)) with (input_sdus t ++ [x]).
    rewrite tx_partial_snoc by done. split; [done|]. exists sent. split; [done|].
    rewrite Hsd, fmap_app, <- app_assoc. done.
Qed.

Lemma fit_after t q c ss s tl t' k :
  cut_split t 1 q c ss s tl t' ->
  Forall (fun s => sdu_fits k s /\ sdu_size s < 2048) q ->
  Forall (fun s => sdu_fits k s /\ sdu_size s < 2048) (queue_after (c_ends c) t' s tl).
Proof.
  intros [Hq _ _ Hpos Hcase _] Hf. rewrite Hq in Hf.
  apply Forall_app in Hf as [_ Hf]. apply Forall_cons in Hf as [[[Hs Hk] Hz] Hf].
  unfold queue_after. destruct (c_ends c); [done|]. apply Forall_cons. split; [|done].
  destruct Hcase as (Hlt & _ & _). destruct Hs as [H1 H2 H3 H4 H5].
  split; [split; [split|]|]; unfold update; cbn; lia.
Qed.

Lemma grant_step us sdus e frameP nb locked mem :
  linked us sdus e -> op_ok (TxGrant frameP nb locked mem) e ->
  exists e' pdus us', tx_step user_mode (TxGrant frameP nb locked mem) e = Ok (e', pdus) /\
    linked (us ++ us') sdus e' /\ sends (length us) pdus us'.
Proof.
  intros [Hr0 Hu0 (got & Href & sent & Hpad & Hsd)] (Hnb & Hq24 & Hmem).
  destruct (tick_ready e frameP locked nb Hr0) as (e1 & r1 & H1 & Hr & Htx).
  cbn [tx_step]. rewrite H1. cbn [mbind res_bind].
  unfold rlc_um_mac_data_request. rewrite get_pdus_segment by done.
  rewrite Htx. set (t0 := (um_tx_side e) <| nb_bytes_requested_by_mac := nb |>) in *.
  pose proof Hr as [Hst Hsn Hok Hfit Hp Hrx]. rewrite Htx in Hsn, Hok, Hfit, Hp.
  assert (Hq0 : input_sdus (um_tx_side e) = input_sdus t0) by done.
  change (vt_us (um_tx_side e)) with (vt_us t0) in Hu0. rewrite Hq0 in *.
  destruct (segment_cases mem user_mode t0 Hok)
    as [Hseg|(t1 & Hseg & size & s0 & q0 & ss & s & tl & t' & junk & Hpdu)]; try done.
  { change (0 <= nb < 2147483648). lia. }
  { eapply Forall_impl; [exact Hfit|]. intros x [[Hx _] Hx2]. destruct Hx. lia. }
  - rewrite Hseg. cbn [mbind res_bind um_tx_side].
    change (pdus_to_mac_layer (um_tx_side (e1 <| um_tx_side := t0 |>)))
      with (pdus_to_mac_layer t0).
    rewrite Hp. cbn [count_pdus mbind res_bind dr_data].
    eexists _, [], []. split; [reflexivity|]. rewrite app_nil_r. split; [|by left].
    assert (Hr2 : tx_ready (e1 <| um_tx_side := t0 |>))
      by (destruct Hr as [? ? ? ? ? ?]; rewrite Htx in *; by split).
    split; [|done|exists got; split; [done|by exists sent]].
    destruct Hr2 as [? ? Hok2 ? ? ?]. split; try done. by destruct Hok2.
  - cbn zeta in Hpdu. set (c := cut _ _ _) in *.
    set (pdu := umd_encode (cut_umd s0 c) (vt_us t0 mod M)) in *.
    destruct Hpdu as (Hq & Hsz & Hc & Hq1 & Hp1 & Hpl & Hj & Hok1 & Hv1).
    pose proof Hc as [_ _ _ Hpos Hcase Hpb]. rewrite Hp in Hp1. cbn [app] in Hp1.
    assert (Hex : 0 <= seg_excess c <= excess_max /\ seg_excess c <= c_pad c)
      by (unfold seg_excess, excess_max; destruct (sf_shrink _); lia).
    set (pad := take (Z.to_nat (seg_excess c)) junk).
    assert (Hpadl : zlen pad = seg_excess c)
      by (unfold pad; rewrite zlen_take, Z2Nat.id by lia; lia).
    assert (Hexm : excess_max <= 2) by (unfold excess_max; destruct (sf_shrink _); lia).
    set (u := pad_umd (cut_umd s0 c) pad).
    assert (Henc : umd_encode u (vt_us t0 mod M) = pdu ++ pad).
    { unfold pdu, umd_encode, u. cbn [pad_umd umd_starts umd_ends umd_full umd_last].
      by rewrite <- !app_assoc. }
    assert (Hvt : vt_us t0 mod M = Z.of_nat (length us) mod M)
      by (rewrite Hu0; apply mod_65536).
    rewrite Hseg. cbn [mbind res_bind].
    change (pdus_to_mac_layer (um_tx_side (e1 <| um_tx_side := t1 |>)))
      with (pdus_to_mac_layer t1). rewrite Hp1.
    assert (Hokq : umd_ok u).
    { apply (cut_umd_ok s0 c (input_sdus t0) ss s tl (size - fmt_hlen) t' pad Hc);
        [|done|lia].
      eapply Forall_impl; [exact Hfit|]. by intros x [[? _] ?]. }
    assert (Hpdu0 : 0 < zlen pdu).
    { pose proof (umd_encode_size u (vt_us t0 mod M) Hokq) as Hs.
      pose proof (umd_ok_last _ Hokq) as Hl. unfold pdu. rewrite umd_encode_len.
      pose proof fmt_hlen_range.
      pose proof (li_header_len_bound _ (zlen_nonneg (umd_full (cut_umd s0 c)))).
      pose proof (zlen_nonneg (umd_full (cut_umd s0 c))).
      pose proof (zlen_nonneg (umd_last (cut_umd s0 c))).
      rewrite umd_lis_sum. pose proof (zlen_nonneg (concat (umd_full (cut_umd s0 c)))).
      lia. }
    change (nb_bytes_requested_by_mac t0) with nb in Hsz.
    destruct (ref_pdu_cut max excess_max (size - fmt_hlen) (input_sdus t0) c ss s tl t'
      s0 q0 pad Hq) as (got1 & Hr1 & sent1 & Hpad1 & Hsd1); try done.
    { eapply Forall_impl; [exact Hfit|]. by intros x [? _]. }
    { apply Hok. }
    { lia. }
    { intros He. rewrite He in Hcase. destruct Hcase as (_ & Hz & _).
      assert (zlen pad = 0) by lia. destruct pad; [done|].
      rewrite zlen_cons in *. pose proof (zlen_nonneg pad). lia. }
    cbn [count_pdus tb_size].
    rewrite s16_small, (proj2 (Z.ltb_lt 0 (zlen pdu + seg_excess c))) by lia.
    cbn [res_guard mbind res_bind dr_data].
    eexists _, _, [u]. split; [reflexivity|]. split.
    + split.
      * destruct Hok1 as [? ? ? ? ? ? ?]. rewrite Hq1 in *.
        split; try done.
        -- by rewrite <- (segment_sn_length _ _ _ _ _ Hseg) in Hsn.
        -- split; unfold update; cbn; by rewrite ?Hq1.
        -- change (input_sdus (um_tx_side _)) with (input_sdus t1). rewrite Hq1.
           by apply (fit_after (size - fmt_hlen) (input_sdus t0) c ss).
      * change (vt_us (um_tx_side _)) with (vt_us t1).
        rewrite Hv1, Hu0, length_app. cbn [length]. unfold wrapU.
        rewrite Zplus_mod_idemp_l. f_equal. lia.
      * exists (got ++ got1). change (input_sdus (um_tx_side _)) with (input_sdus t1).
        rewrite Hq1, fmap_app. cbn [fmap list_fmap]. rewrite ref_run_snoc, Href.
        cbn [ref_slot]. fold u in Hr1. rewrite Hr1. split; [done|].
        exists (sent ++ sent1). split; [by apply Forall2_app|].
        by rewrite Hsd, Hsd1, <- app_assoc.
    + right. eexists _, u. split; [reflexivity|]. split; [done|]. split; [done|].
      exists (drop (Z.to_nat (seg_excess c)) junk). unfold carry. cbn [pdu_data tb_size].
      rewrite <- Hvt, Henc, zlen_app, Hpadl, <- app_assoc. unfold pad.
      by rewrite take_drop.
Qed.

(** The PDUs sent against the way the receiver will read them. *)
Definition sent_as (n : nat) (us : list umd) (pdus : list mac_tb_req) : Prop :=
  length us = length pdus /\
  forall k u p, us !! k = Some u -> pdus !! k = Some p ->
    pdu_rel (Z.of_nat (n + k)) u (carry p).

Lemma sent_as_app n us1 pdus1 us2 pdus2 :
  sent_as n us1 pdus1 -> sent_as (n + length us1) us2 pdus2 ->
  sent_as n (us1 ++ us2) (pdus1 ++ pdus2).
Proof.
  intros [L1 H1] [L2 H2]. split; [rewrite !length_app; lia|].
  intros k u p Hu Hp. apply lookup_app_Some in Hu as [Hu|[Hk Hu]].
  - apply lookup_lt_Some in Hu as Hlt. rewrite lookup_app_l in Hp by lia. by apply H1.
  - rewrite lookup_app_r in Hp by lia. rewrite <- L1 in Hp.
    specialize (H2 _ _ _ Hu Hp).
    by replace (n + k)%nat with (n + length us1 + (k - length us1))%nat by lia.
Qed.

Lemma sends_sent_as n pdus us : sends n pdus us -> sent_as n us pdus.
Proof.
  intros [[-> ->]|(p & u & -> & -> & Hp)]; [done|]. split; [done|].
  intros [|k] u' p' Hu' Hp'; [|done]. cbn in *. simplify_eq.
  by rewrite Nat.add_0_r.
Qed.

Lemma step_linked us sdus op e :
  linked us sdus e -> op_ok op e ->
  exists e' pdus us', tx_step user_mode op e = Ok (e', pdus) /\
    linked (us ++ us') (sdus ++ op_sdus [op]) e' /\ sent_as (length us) us' pdus.
Proof.
  intros Hl Hok. destruct op as [frameP payload|frameP nb locked mem].
  - eexists _, _, []. split; [reflexivity|]. rewrite app_nil_r.
    split; [by apply sdu_step|by split].
  - destruct (grant_step _ _ _ _ _ _ _ Hl Hok) as (e' & pdus & us' & H1 & H2 & H3).
    exists e', pdus, us'. cbn [op_sdus]. rewrite app_nil_r.
    split; [done|]. split; [done|]. by apply sends_sent_as.
Qed.

Lemma run_linked ops : forall us sdus e,
  linked us sdus e -> ops_ok ops e ->
  exists e' pdus us', tx_run user_mode ops e = Ok (e', pdus) /\
    linked (us ++ us') (sdus ++ op_sdus ops) e' /\ sent_as (length us) us' pdus.
Proof.
  induction ops as [|op ops IH]; intros us sdus e Hl Hok.
  - exists e, [], []. cbn [op_sdus]. rewrite !app_nil_r. by split.
  - destruct Hok as [Hop Hok].
    destruct (step_linked _ _ _ _ Hl Hop) as (e1 & p1 & u1 & H1 & Hl1 & S1).
    rewrite H1 in Hok. destruct (IH _ _ _ Hl1 Hok) as (e2 & p2 & u2 & H2 & Hl2 & S2).
    exists e2, (p1 ++ p2), (u1 ++ u2). cbn [tx_run]. rewrite H1. cbn [mbind res_bind].
    rewrite H2. cbn [mbind res_bind]. split; [done|].
    rewrite <- app_assoc in Hl2. split.
    + replace (sdus ++ op_sdus (op :: ops)) with ((sdus ++ op_sdus [op]) ++ op_sdus ops);
        [done|]. rewrite <- app_assoc. by destruct op.
    + apply sent_as_app; [done|]. by rewrite <- length_app.
Qed.

Lemma linked_init e :
  tx_ready e -> input_sdus (um_tx_side e) = [] -> vt_us (um_tx_side e) = 0 ->
  linked [] [] e.
Proof.
  intros Hr Hq Hu. split; [done|by rewrite Hu|]. exists []. rewrite Hq.
  split; [done|]. exists []. done.
Qed.

(** Blocks brought to the receiver are events of its run. *)
Definition block_event (us : list umd) (frameP : Z) (i : nat) (tb : mac_tb_ind)
    : rx_event :=
  EvPdu frameP (Z.of_nat i mod M) (default (Umd true true [] []) (us !! i)) tb.

Lemma receive_events us frameP order : forall blocks e,
  length order = length blocks ->
  rlc_um_receive frameP blocks e
  = rx_run (zip_with (block_event us frameP) order blocks) e.
Proof.
  induction order as [|i order IH]; intros [|tb blocks] e Hlen; try done.
  cbn. destruct (rlc_um_receive_one frameP tb e); [|done]. cbn.
  apply IH. cbn in Hlen. lia.
Qed.

(** [blocks] are the PDUs sent, in the order [order]. *)
Definition arrives (pdus : list mac_tb_req) (order : list nat)
    (blocks : list mac_tb_ind) : Prop :=
  order ≡ₚ seq 0 (length pdus) /\ near_order order /\
  Forall2 (fun i tb => exists p, pdus !! i = Some p /\ tb = carry p) order blocks.

Lemma arrives_brings us pdus frameP order blocks :
  sent_as 0 us pdus ->
  Forall2 (fun i tb => exists p, pdus !! i = Some p /\ tb = carry p) order blocks ->
  Forall2 (brings us) order (zip_with (block_event us frameP) order blocks).
Proof.
  intros [Hlen Hs]. induction 1 as [|i tb order blocks (p & Hp & ->) _ IH]; [done|].
  cbn. constructor; [|done]. unfold block_event.
  assert (Hi : is_Some (us !! i)).
  { apply lookup_lt_is_Some. rewrite Hlen. by eapply lookup_lt_Some. }
  destruct Hi as [u Hu]. rewrite Hu. cbn. exists frameP, u, (carry p).
  split; [done|]. split; [|done]. by apply (Hs i).
Qed.

Lemma receive_sent us pdus frameP order blocks r :
  rx_fresh r -> sent_as 0 us pdus -> arrives pdus order blocks ->
  exists r', rlc_um_receive frameP blocks r = Ok r' /\
    delivered r' = snd (ref_run (sdu_max_size r) (Some <$> us)).
Proof.
  intros Hr Hs (Hperm & Hnear & Hbl). pose proof fmt_M as (_ & [Hpos _] & _).
  pose proof (arrives_brings us pdus frameP _ _ Hs Hbl) as Hev.
  apply Forall2_length in Hbl as Hlen.
  rewrite (receive_events us frameP order) by done.
  set (evs := zip_with _ _ _) in *. destruct Hs as [Hl _]. rewrite <- Hl in Hperm.
  by apply reordered_delivery with order.
Qed.

Lemma link_lossless ops e r :
  tx_ready e -> input_sdus (um_tx_side e) = [] -> vt_us (um_tx_side e) = 0 ->
  rx_fresh r -> sdu_max_size r = max -> ops_ok ops e ->
  exists e' pdus, tx_run user_mode ops e = Ok (e', pdus) /\
    forall frameP order blocks, arrives pdus order blocks ->
    exists r', rlc_um_receive frameP blocks r = Ok r' /\
    exists sent, Forall2 (padded excess_max) sent (delivered r') /\
      op_sdus ops = sent ++ (sdu_payload <$> input_sdus (um_tx_side e')).
Proof.
  intros Ht Hq Hv Hr Hmax Hok.
  destruct (run_linked ops [] [] e (linked_init e Ht Hq Hv) Hok)
    as (e' & pdus & us & Hrun & [_ _ (got & Href & sent & Hpad & Hsd)] & Hs).
  exists e', pdus. split; [done|]. intros frameP order blocks Harr.
  destruct (receive_sent us pdus frameP order blocks r Hr Hs Harr) as (r' & H1 & H2).
  exists r'. split; [done|]. exists sent. cbn [app] in *.
  rewrite H2, Hmax, Href. done.
Qed.


(** C39.  The sender's state after a run: the occupancy reported to MAC is
    exactly the number of bytes still to be sent, and VT(US) counts the
    PDUs. *)
Theorem tx_run_state ops e :
  tx_ready e -> input_sdus (um_tx_side e) = [] -> vt_us (um_tx_side e) = 0 ->
  ops_ok ops e ->
  exists e' pdus, tx_run user_mode ops e = Ok (e', pdus) /\
    let t := um_tx_side e' in
    protocol_state e' = RLC_DATA_TRANSFER_READY_STATE /\
    rlc_um_get_buffer_occupancy t = sumZ (sdu_remaining_size <$> input_sdus t) /\
    vt_us t = zlen pdus mod 65536 /\ pdus_to_mac_layer t = [].
Proof.
  intros Ht Hq Hv Hok.
  destruct (run_linked ops [] [] e (linked_init e Ht Hq Hv) Hok)
    as (e' & pdus & us & Hrun & [[Hst _ Htx _ Hp _] Hus _] & Hl & _).
  exists e', pdus. split; [done|]. split; [done|].
  split; [|split; [|done]].
  - unfold rlc_um_get_buffer_occupancy. destruct Htx as [W1 _ W3 W4 _ _ _].
    pose proof (sum_remaining_nonneg _ W1). rewrite W3 in *.
    case_match; [apply u32_small; lia|lia].
  - rewrite Hus. unfold zlen. by rewrite <- Hl.
Qed.
End link.
