(* ===== verification/RlcUmLife.v ===== *)
(** RLC UM v9.3.0: life cycle of an entity.  The protocol state machine, what
    configuration sets up, and what an entity which is not ready does. *)
From S2P Require Import Prelude.
From S2P Require Import RlcUmEntity.
From S2P Require Import RlcUmHeader.
From S2P Require Import RlcUmReassembly.
From S2P Require Import RlcUmReassemblySpec.
From S2P Require Import RlcUmDar.
From S2P Require Import RlcUmDarSpec.
From S2P Require Import RlcUmDarRefine.
From S2P Require Import RlcUmReceiver.
From S2P Require Import RlcUmSegment.
From S2P Require Import RlcUmSegmentSpec.
From S2P Require Import RlcUm.
From S2P Require Import RlcUmLink.

Local Open Scope Z_scope.

(** ** The state machine *)

(** The transitions, as a relation between states. *)
Inductive fsm_step : rlc_protocol_state -> Z -> rlc_protocol_state -> Prop :=
  | fs_configure :
      fsm_step RLC_NULL_STATE Fsm.CONFIG_REQ_ENTER_DATA_TRANSFER_READY_STATE_EVENT
        RLC_DATA_TRANSFER_READY_STATE
  | fs_release s :
      s = RLC_DATA_TRANSFER_READY_STATE \/ s = RLC_LOCAL_SUSPEND_STATE ->
      fsm_step s Fsm.CONFIG_REQ_ENTER_NULL_STATE_EVENT RLC_NULL_STATE
  | fs_suspend ev :
      ev = Fsm.RECEIVE_CRLC_SUSPEND_REQ_EVENT \/
      ev = Fsm.TRANSMIT_CRLC_SUSPEND_CNF_EVENT ->
      fsm_step RLC_DATA_TRANSFER_READY_STATE ev RLC_LOCAL_SUSPEND_STATE
  | fs_resume :
      fsm_step RLC_LOCAL_SUSPEND_STATE Fsm.RECEIVE_CRLC_RESUME_REQ_EVENT
        RLC_DATA_TRANSFER_READY_STATE.

Definition fsm_events : list Z :=
  [Fsm.CONFIG_REQ_ENTER_NULL_STATE_EVENT;
   Fsm.CONFIG_REQ_ENTER_DATA_TRANSFER_READY_STATE_EVENT;
   Fsm.RECEIVE_CRLC_SUSPEND_REQ_EVENT; Fsm.TRANSMIT_CRLC_SUSPEND_CNF_EVENT;
   Fsm.RECEIVE_CRLC_RESUME_REQ_EVENT].

(** A step of the relation is taken by the function. *)
Lemma fsm_step_taken e ev s :
  fsm_step (protocol_state e) ev s ->
  Fsm.rlc_um_fsm_notify_event e ev = (e <| protocol_state := s |>, 1, false).
Proof.
  unfold Fsm.rlc_um_fsm_notify_event. intros Hs.
  destruct Hs as [|s [-> | ->]|ev [-> | ->]|]; done.
Qed.

Lemma fsm_configure e :
  protocol_state e = RLC_NULL_STATE ->
  Fsm.rlc_um_fsm_notify_event e Fsm.CONFIG_REQ_ENTER_DATA_TRANSFER_READY_STATE_EVENT
  = (e <| protocol_state := RLC_DATA_TRANSFER_READY_STATE |>, 1, false).
Proof. intros Hs. apply fsm_step_taken. rewrite Hs. constructor. Qed.

Lemma fsm_not_taken e ev :
  (forall s, ~ fsm_step (protocol_state e) ev s) ->
  Fsm.rlc_um_fsm_notify_event e ev
  = (e, 0, bool_decide (protocol_state e = RLC_NULL_STATE)).
Proof.
  intros Hn. unfold Fsm.rlc_um_fsm_notify_event.
  destruct (protocol_state e) eqn:E; try done;
    repeat (case_match; simplify_eq; [exfalso|]); try done.
  all: match goal with H : (_ =? _) = true |- _ => apply Z.eqb_eq in H as -> | _ => idtac end.
  - apply (Hn _ fs_configure).
  - eapply Hn, fs_release. by left.
  - apply orb_true_iff in H0 as [H0%Z.eqb_eq|H0%Z.eqb_eq];
      eapply Hn, fs_suspend; [by left|by right].
  - eapply Hn, fs_release. by right.
  - apply (Hn _ fs_resume).
Qed.

(** The protocol state machine.  An event for which the state has a
    transition changes the state, and nothing else, and returns 1; any other
    event changes nothing and returns 0, and in the NULL state it also asks the
    MAC to exit. *)
Theorem fsm_notify_event_spec e ev :
  (exists s, fsm_step (protocol_state e) ev s /\
     Fsm.rlc_um_fsm_notify_event e ev = (e <| protocol_state := s |>, 1, false)) \/
  ((forall s, ~ fsm_step (protocol_state e) ev s) /\
   Fsm.rlc_um_fsm_notify_event e ev
   = (e, 0, bool_decide (protocol_state e = RLC_NULL_STATE))).
Proof.
  assert (Hdec : (exists s, fsm_step (protocol_state e) ev s) \/
                 (forall s, ~ fsm_step (protocol_state e) ev s)).
  { destruct (protocol_state e).
    - destruct (decide (ev = Fsm.CONFIG_REQ_ENTER_DATA_TRANSFER_READY_STATE_EVENT)) as [->|].
      { left; eexists; constructor. }
      right. intros s Hs. inversion Hs; subst; by destruct_or?.
    - destruct (decide (ev = Fsm.CONFIG_REQ_ENTER_NULL_STATE_EVENT)) as [->|].
      { left; eexists. apply fs_release. by left. }
      destruct (decide (ev = Fsm.RECEIVE_CRLC_SUSPEND_REQ_EVENT)) as [->|].
      { left; eexists. apply fs_suspend. by left. }
      destruct (decide (ev = Fsm.TRANSMIT_CRLC_SUSPEND_CNF_EVENT)) as [->|].
      { left; eexists. apply fs_suspend. by right. }
      right. intros s Hs. inversion Hs; subst; by destruct_or?.
    - right. intros s Hs. inversion Hs; subst; by destruct_or?.
    - right. intros s Hs. inversion Hs; subst; by destruct_or?.
    - destruct (decide (ev = Fsm.CONFIG_REQ_ENTER_NULL_STATE_EVENT)) as [->|].
      { left; eexists. apply fs_release. by right. }
      destruct (decide (ev = Fsm.RECEIVE_CRLC_RESUME_REQ_EVENT)) as [->|].
      { left; eexists. constructor. }
      right. intros s Hs. inversion Hs; subst; by destruct_or?. }
  destruct Hdec as [[s Hs]|Hn]; [left|right].
  - exists s. split; [done|]. by apply fsm_step_taken.
  - split; [done|]. by apply fsm_not_taken.
Qed.

(** ** Configuration *)

(** An entity as its bearer is created: zeroed memory, with a working
    allocator and nothing delivered yet. *)
Definition blank (e : um_entity) : Prop :=
  initialized e = false /\ delivered (um_rx_side e) = [] /\
  Forall (eq true) (pool (um_rx_side e)).

Section config.
Context `{F : UmdFormat} `{S : !UmdSeg F}.

(** The values a configuration for the format gives to the window. *)
Lemma configure_fmt_rx r :
  Config.configure_rx_sn r fmt_len
  = Some (r <| rx_sn_length := fmt_len |> <| rx_sn_modulo := fmt_modulo |>
            <| rx_um_window_size := fmt_window |>
            <| rx_header_min_length_in_bytes := fmt_hlen |>).
Proof.
  rewrite fmt_modulo_eq.
  destruct fmt_len_cases as [(-> & -> & ->)|(-> & -> & ->)]; done.
Qed.

Lemma configure_fmt_tx t :
  Config.configure_tx_sn t fmt_len
  = Some (t <| tx_sn_length := fmt_len |> <| tx_sn_modulo := fmt_modulo |>
            <| tx_um_window_size := fmt_window |>
            <| tx_header_min_length_in_bytes := fmt_hlen |>).
Proof.
  rewrite fmt_modulo_eq.
  destruct fmt_len_cases as [(-> & -> & ->)|(-> & -> & ->)]; done.
Qed.

Lemma fresh_intro e :
  rx_sn_length e = fmt_len -> rx_sn_modulo e = fmt_modulo ->
  rx_um_window_size e = fmt_window ->
  vr_ur e = 0 -> vr_uh e = 0 -> running (t_reordering e) = false ->
  output_sdu_in_construction e = None -> output_sdu_size_to_write e = 0 ->
  dar_buffer e = ∅ -> reassembly_missing_sn_detected e = false ->
  Forall (eq true) (pool e) -> delivered e = [] -> rx_fresh e.
Proof.
  intros H1 H2 H3 H4 H5 H6 H7 H8 H9 H10 H11 H12. pose proof fmt_M as (HM & _).
  unfold rx_fresh. split; [|by rewrite H4|done|done].
  split; [split; [done|done|done|by rewrite H5]|done| | |done|by right].
  - intros x Hx. change (a_buf (a_init (sdu_max_size e))) with (∅ : gmap Z umd).
    by rewrite H9, !lookup_empty.
  - split; [done|by rewrite H8|by rewrite H7|done].
Qed.

Lemma config_ready enb_id ue_id eNB srb cfg rb e max :
  blank e -> Config.sn_field_length cfg = fmt_len -> Config.is_mXch cfg = 0 ->
  exists e', Config.config_req_rlc_um (Some e) enb_id ue_id eNB srb cfg rb = Some e' /\
    tx_ready max e' /\ rx_fresh (um_rx_side e') /\
    input_sdus (um_tx_side e') = [] /\ vt_us (um_tx_side e') = 0 /\
    vr_ux (um_rx_side e') = 0 /\
    sdu_max_size (um_rx_side e') = (if srb then 2000 else 9000) /\
    t_reordering (um_rx_side e') = UmTimer 0 0 (Config.timer_reordering cfg) false false.
Proof.
  intros (Hi & Hd & Hp) Hl Hm. unfold Config.config_req_rlc_um, Config.rlc_um_init.
  rewrite Hi, fsm_configure by done. change (truth 1) with true.
  cbn match. unfold Config.rlc_um_configure. rewrite Hl, configure_fmt_rx.
  rewrite configure_fmt_tx. unfold Config.configure_common. rewrite Hm.
  change (0 <? 0) with false. cbn match.
  eexists. split; [reflexivity|].
  match goal with |- tx_ready _ ?x /\ _ => set (e' := x) end.
  assert (Hf : rx_fresh (um_rx_side e')) by (by apply fresh_intro).
  split; [|split; [done|]; split; [done|]; split; [done|]; split; [done|];
           split; [by destruct srb|done]].
  pose proof fmt_M as (_ & [Hpos _] & _).
  split; try done.
  exists (a_init (sdu_max_size (um_rx_side e'))). split; [exact Hf|].
  by apply a_inv_init.
Qed.

(** Configuration.  [config_req_rlc_um] on a bearer just created, with
    the sequence number length of either format and not for multicast,
    succeeds and leaves the entity ready on both sides: state
    DATA_TRANSFER_READY, empty queue, every state variable 0, an empty
    reception buffer, t-Reordering stopped with the period asked for. *)
Theorem config_req_ready enb_id ue_id eNB srb cfg rb e max :
  blank e -> Config.sn_field_length cfg = fmt_len -> Config.is_mXch cfg = 0 ->
  exists e', Config.config_req_rlc_um (Some e) enb_id ue_id eNB srb cfg rb = Some e' /\
    tx_ready max e' /\ rx_fresh (um_rx_side e') /\
    input_sdus (um_tx_side e') = [] /\ vt_us (um_tx_side e') = 0 /\
    vr_ux (um_rx_side e') = 0 /\
    sdu_max_size (um_rx_side e') = (if srb then 2000 else 9000) /\
    t_reordering (um_rx_side e') = UmTimer 0 0 (Config.timer_reordering cfg) false false.
Proof. apply config_ready. Qed.
End config.

(** A second configuration request for a bearer which is ready is
    ignored without an error. *)
Theorem config_req_again e enb_id ue_id eNB srb cfg rb :
  initialized e = true -> protocol_state e = RLC_DATA_TRANSFER_READY_STATE ->
  Config.config_req_rlc_um (Some e) enb_id ue_id eNB srb cfg rb = Some e.
Proof.
  intros Hi Hs. unfold Config.config_req_rlc_um, Config.rlc_um_init.
  rewrite Hi. unfold Fsm.rlc_um_fsm_notify_event. by rewrite Hs.
Qed.

(** Outside DATA_TRANSFER_READY the entity neither sends nor receives:
    blocks from MAC are dropped unread, and a data request hands over only the
    PDUs already made. *)
Theorem not_ready_idle e frameP data mem user_mode :
  protocol_state e <> RLC_DATA_TRANSFER_READY_STATE ->
  rlc_um_rx e frameP data = Ok e /\
  rlc_um_get_pdus mem user_mode e = Ok e.
Proof.
  intros Hs. unfold rlc_um_rx, rlc_um_get_pdus. by destruct (protocol_state e).
Qed.
