(* ===== verification/RlcUmExamples.v ===== *)
(** RLC UM v9.3.0: the theorems at concrete inputs, and what the code does on
    inputs outside the hypotheses of the theorems. *)
From S2P Require Import Prelude.
From S2P Require Import RlcUmEntity.
From S2P Require Import RlcUmHeader.
From S2P Require Import RlcUmHeaderSpec.
From S2P Require Import RlcUmReassembly.
From S2P Require Import RlcUmReassemblySpec.
From S2P Require Import RlcUmDar.
From S2P Require Import RlcUmDarSpec.
From S2P Require Import RlcUmDarRefine.
From S2P Require Import RlcUmReceiver.
From S2P Require Import RlcUmSegment.
From S2P Require Import RlcUmSegmentSpec.
From S2P Require Import RlcUm.
From S2P Require Import RlcUmLink.
From S2P Require Import RlcUmLife.

Local Open Scope Z_scope.

(** ** Concrete entities *)

Definition timer0 : um_timer := UmTimer 0 0 0 false false.
Definition rx0 : um_rx :=
  UmRx false 0 0 0 0 0 0 0 timer0 None 0 ∅ 0 0 false um_rx_stats_zero [] [].
Definition entity0 : um_entity :=
  UmEntity 0 0 0 false 0 false false RLC_NULL_STATE rx0 Config.um_tx_zero.

(** A data bearer configured with [len]-bit sequence numbers. *)
Definition bearer (len : Z) : um_entity :=
  default entity0 (Config.config_req_rlc_um (Some entity0) 0 1 true false
                     (Config.RlcUmInfo 5 len 0) 3).

(** An allocator which never fails. *)
Definition heap (size : Z) : option (list Z) :=
  Some (replicate (Z.to_nat (Z.max 4 size)) 170).

Lemma heap_ok size m : heap size = Some m -> size <= zlen m /\ 4 <= zlen m.
Proof. intros [= <-]. unfold zlen. rewrite length_replicate. lia. Qed.

Lemma blank_entity0 : blank entity0.
Proof. by split. Qed.

Lemma bearer_ready `{F : UmdFormat} `{S : !UmdSeg F} max :
  tx_ready max (bearer fmt_len) /\ rx_fresh (um_rx_side (bearer fmt_len)) /\
  input_sdus (um_tx_side (bearer fmt_len)) = [] /\
  vt_us (um_tx_side (bearer fmt_len)) = 0 /\
  sdu_max_size (um_rx_side (bearer fmt_len)) = 9000.
Proof.
  destruct (config_ready 0 1 true false (Config.RlcUmInfo 5 fmt_len 0) 3 entity0 max
    blank_entity0) as (e' & He & H1 & H2 & H3 & H4 & _ & H5 & _); [done..|].
  unfold bearer. by rewrite He.
Qed.

(** Three SDUs, two grants. *)
Definition link_ops : list tx_op :=
  [TxSdu 0 [1; 2; 3]; TxSdu 0 [4; 5; 6; 7; 8]; TxGrant 1 10 true heap;
   TxSdu 2 [9]; TxGrant 2 4 true heap; TxGrant 3 100 true heap].

Ltac ops_ok_tac :=
  cbn [ops_ok];
  repeat lazymatch goal with
  | |- True => exact I
  | |- op_ok _ (TxSdu _ _) _ => vm_compute; intuition discriminate
  | |- op_ok _ (TxGrant _ _ _ _) _ =>
      split; [lia|split; [vm_compute; discriminate|exact heap_ok]]
  | |- _ /\ _ => split
  | |- match ?x with Ok _ => _ | Err _ => _ end =>
      let y := eval vm_compute in x in
      replace x with y by (vm_compute; reflexivity); cbn match
  end.


(** ** The other theorems at concrete inputs *)

(** A transport block with PDU [u] under sequence number [s], 5-bit format. *)
Definition block5 (s : Z) (u : umd) : mac_tb_ind :=
  MacTbInd (umd_encode (H := fmt5) u s)
    (zlen (umd_encode (H := fmt5) u s)).
Definition whole (l : list Z) : umd := Umd true true [] l.
Definition pdu_ev (s : Z) (l : list Z) : rx_event :=
  EvPdu 0 s (whole l) (block5 s (whole l)).
Definition rx5 : um_rx := um_rx_side (bearer 5).

Lemma whole_ok l : 0 < zlen l <= 40000 -> umd_ok (whole l).
Proof. intros Hl. split; cbn; try done; lia. Qed.

Lemma pdu_ev_ok s l :
  0 <= s < 32 -> 0 < zlen l <= 40000 -> ev_ok (F := fmt5) (pdu_ev s l).
Proof.
  intros Hs Hl. split; [done|]. split; [by apply whole_ok|].
  exists []. rewrite app_nil_r, Z.mod_small by done. done.
Qed.

(** Three PDUs, the first two exchanged, one repeated, the third lost. *)
Definition rx_events : list rx_event :=
  [pdu_ev 1 [2]; EvTick 0 true; pdu_ev 0 [1]; pdu_ev 1 [2]; pdu_ev 3 [4]].

Lemma rx_events_ok : Forall (ev_ok (F := fmt5)) rx_events.
Proof.
  unfold rx_events. repeat (apply Forall_cons; split); try apply pdu_ev_ok; done.
Qed.


Lemma receiver_window_invariant_witness :
  exists e', rx_run rx_events rx5 = Ok e' /\
    let behind v := (v - vr_ur e') mod 32 in
    behind (vr_uh e') <= 16 /\
    (forall i, 0 <= i < 32 -> is_Some (dar_buffer e' !! i) ->
      behind i < behind (vr_uh e')) /\
    (running (t_reordering e') = false -> vr_ur e' = vr_uh e') /\
    (running (t_reordering e') = true ->
      0 < behind (vr_ux e') <= behind (vr_uh e')
      \/ (vr_ux e' = vr_ur e' /\ vr_ur e' = vr_uh e')).
Proof.
  destruct (bearer_ready (F := fmt5) 9000) as (_ & H2 & _ & _ & _).
  exact (receiver_window_invariant (F := fmt5) rx_events rx5 H2 rx_events_ok).
Defined.

(** After the events t-Reordering waits for PDU 2; it expires in frame 10. *)
Definition rx_waiting : um_rx :=
  match rx_run rx_events rx5 with Ok e => e | Err _ => rx5 end.

Lemma reordering_timeout_witness :
  exists e', rlc_um_check_timer_dar_time_out rx_waiting 10 true = Ok e' /\
    let ahead v := (v - vr_ur rx_waiting) mod 32 in
    ahead (vr_ux rx_waiting) <= ahead (vr_ur e') <= ahead (vr_uh rx_waiting) /\
    dar_buffer e' !! vr_ur e' = None /\ vr_uh e' = vr_uh rx_waiting /\
    running (t_reordering e') = negb (vr_ur e' =? vr_uh rx_waiting) /\
    (running (t_reordering e') = true -> vr_ux e' = vr_uh rx_waiting) /\
    (forall v, 0 <= v < 32 -> ahead (vr_ux rx_waiting) <= ahead v < ahead (vr_ur e') ->
       is_Some (dar_buffer rx_waiting !! v)).
Proof.
  destruct (bearer_ready (F := fmt5) 9000) as (_ & H2 & _ & _ & _).
  apply (reordering_timeout (F := fmt5) rx_events rx5 rx_waiting 10 H2 rx_events_ok);
    vm_compute; reflexivity.
Defined.

Lemma near_10 : near_order (F := fmt5) [1; 0]%nat.
Proof.
  intros l1 i l2 E j Hj. change (fmt_window (UmdFormat := fmt5)) with 16 in Hj.
  assert (Hi : (i <= 1)%nat).
  { assert (Hin : i ∈ [1; 0]%nat) by (rewrite E; set_solver). set_unfold in Hin. lia. }
  lia.
Qed.

Lemma receiver_reorders_witness :
  exists e', rx_run [pdu_ev 1 [2]; pdu_ev 0 [1]] rx5 = Ok e' /\
    vr_ur e' = 2 mod 32 /\
    delivered e' = snd (ref_run (sdu_max_size rx5) (Some <$> [whole [1]; whole [2]])).
Proof.
  destruct (bearer_ready (F := fmt5) 9000) as (_ & H2 & _ & _ & _).
  apply (receiver_reorders (F := fmt5) [whole [1]; whole [2]] [1; 0]%nat _ rx5 H2).
  - apply Permutation_swap.
  - apply near_10.
  - assert (Hb : forall i l, [whole [1]; whole [2]] !! i = Some (whole l) ->
      0 < zlen l <= 40000 -> Z.of_nat i < 32 ->
      brings (F := fmt5) [whole [1]; whole [2]] i (pdu_ev (Z.of_nat i) l)).
    { intros i l Hi Hl Hlt. exists 0, (whole l), (block5 (Z.of_nat i) (whole l)).
      split; [done|]. split; [|by rewrite Z.mod_small by (split; [lia|exact Hlt])].
      apply pdu_ev_ok; [lia|done]. }
    repeat constructor; [apply (Hb 1%nat [2])|apply (Hb 0%nat [1])]; done.
Defined.

(** Three bytes queued, of which a grant of four bytes takes two. *)
Definition tx_three : um_tx :=
  (um_tx_side (rlc_um_data_req (bearer 10) 0 [1; 2; 3] 3))
    <| nb_bytes_requested_by_mac := 4 |>.


Lemma segment_idle_witness :
  let e := tx_three <| nb_bytes_requested_by_mac := 2 |> in
  segment heap true (seg_sf (UmdSeg := seg10)) e = Ok e.
Proof.
  intros e. apply (segment_idle (F := fmt10) true heap e).
  - done.
  - left. reflexivity.
Defined.

Lemma tx_run_state_witness :
  exists e' pdus, tx_run true link_ops (bearer 10) = Ok (e', pdus) /\
    let t := um_tx_side e' in
    protocol_state e' = RLC_DATA_TRANSFER_READY_STATE /\
    rlc_um_get_buffer_occupancy t = sumZ (sdu_remaining_size <$> input_sdus t) /\
    vt_us t = zlen pdus mod 65536 /\ pdus_to_mac_layer t = [].
Proof.
  destruct (bearer_ready (F := fmt10) 9000) as (H1 & _ & H3 & H4 & _).
  refine (tx_run_state (F := fmt10) true 9000 link_ops (bearer 10) H1 H3 H4 _).
  unfold link_ops. ops_ok_tac.
Defined.

Lemma reas_rel_rx5 : reas_rel rx5 [] false.
Proof. by split. Qed.

Lemma reassembly_refines_witness :
  let u := whole [7; 8] in
  let p0 := if Z.rem (last_reassemblied_sn rx5 + 1) (rx_sn_modulo rx5) =? 0
            then [] else [] in
  let '(p', m', out) := ref_pdu (sdu_max_size rx5) u p0 false in
  exists e', reassemble_pdu 0 (MacTbInd (umd_encode (H := fmt5) u 0 ++ [])
                                 (zlen (umd_encode (H := fmt5) u 0))) rx5 = Ok e' /\
    reas_rel e' p' m' /\ delivered e' = delivered rx5 ++ out.
Proof.
  apply (reassembly_refines (F := fmt5) (whole [7; 8]) 0 rx5 [] false []).
  - reflexivity.
  - by apply whole_ok.
  - done.
  - exact reas_rel_rx5.
Defined.

Lemma window_tests_spec_witness :
  let r := rlc_um_in_window rx5 (-4 mod 32) (-2 mod 32) (0 mod 32) in
  (0 <= r <-> -4 <= -2 <= 0) /\
  (-4 <= -2 <= 0 ->
   r = (if -2 =? -4 then (if -2 =? 0 then 3 else 1) else if -2 =? 0 then 2 else 0)) /\
  rlc_um_in_reordering_window rx5 (-2 mod 32) = (if -2 <? 0 then 0 else -1).
Proof.
  apply (window_tests_spec (F := fmt5) 0 rx5 (-4) (-2) 0).
  - by split.
  - vm_compute. intuition discriminate.
  - done.
  - vm_compute. intuition discriminate.
Defined.

Definition umd_two_lis : umd := Umd true false [[1; 2]; [3]] [4; 5].


Lemma read_length_indicators_encode_witness :
  rlc_um_read_length_indicators (li_encode [2; 1; 2047] ++ [9]) 3000
  = Ok (Some ([2; 1; 2047], zlen (li_encode [2; 1; 2047]),
              3000 - sumZ [2; 1; 2047] - zlen (li_encode [2; 1; 2047]))).
Proof.
  apply (read_length_indicators_encode [2; 1; 2047] [9] 3000).
  - done.
  - repeat (apply Forall_cons; split); done.
  - done.
  - vm_compute. intuition discriminate.
Defined.

Lemma config_req_ready_witness :
  exists e', Config.config_req_rlc_um (Some entity0) 0 1 true true
      (Config.RlcUmInfo 35 5 0) 3 = Some e' /\
    tx_ready (F := fmt5) 2000 e' /\ rx_fresh (F := fmt5) (um_rx_side e') /\
    input_sdus (um_tx_side e') = [] /\ vt_us (um_tx_side e') = 0 /\
    vr_ux (um_rx_side e') = 0 /\
    sdu_max_size (um_rx_side e') = (if true then 2000 else 9000) /\
    t_reordering (um_rx_side e') = UmTimer 0 0 35 false false.
Proof.
  apply (config_req_ready (F := fmt5) 0 1 true true (Config.RlcUmInfo 35 5 0) 3 entity0).
  - exact blank_entity0.
  - reflexivity.
  - reflexivity.
Defined.

Lemma config_req_again_witness :
  Config.config_req_rlc_um (Some (bearer 10)) 0 1 true false
    (Config.RlcUmInfo 5 5 0) 3 = Some (bearer 10).
Proof. apply config_req_again; reflexivity. Defined.

Lemma not_ready_idle_witness :
  rlc_um_rx entity0 0 [block5 0 (whole [1])] = Ok entity0 /\
  rlc_um_get_pdus heap true entity0 = Ok entity0.
Proof. apply not_ready_idle. discriminate. Defined.

(** ** Outside the hypotheses *)

(** The SDUs delivered at the far end of a bearer after some operations. *)
Definition link_delivers (len : Z) (ops : list tx_op) : res (list (list Z)) :=
  '(_, pdus) ← tx_run true ops (bearer len);
  r ← rlc_um_receive 0 (carry <$> pdus) (um_rx_side (bearer len));
  Ok (delivered r).

(** When the grant leaves one or two bytes behind an SDU that fills the
    PDU, segmentation for 10-bit sequence numbers announces a block longer than
    the PDU: the peer delivers an SDU with two bytes of uninitialised memory
    behind it.  For 5-bit sequence numbers the size is corrected. *)
Theorem segment10_excess_delivered :
  let ops len := [TxSdu 0 [1; 2; 3]; TxSdu 0 [4; 5; 6; 7]; TxGrant 1 len true heap] in
  link_delivers 10 (ops 7) = Ok [[1; 2; 3; 170; 170]] /\
  link_delivers 5 (ops 6) = Ok [[1; 2; 3]].
Proof. split; vm_compute; reflexivity. Qed.

(** The segmentation clears [sizeof] of the PDU structure, four bytes,
    even when the PDU, and the memory asked for, has three. *)
Theorem segment_memset_overrun :
  tx_run true [TxSdu 0 [7]; TxGrant 1 3 true (fun size => Some (replicate (Z.to_nat size) 0))]
    (bearer 10) = Err EBounds.
Proof. vm_compute. reflexivity. Qed.

(** The number of SDUs put in a PDU is not limited to what the receiver
    decodes: a PDU with 24 length indicators is made, and the peer drops it. *)
Theorem too_many_sdus_lost :
  let ops := (fun i => TxSdu 0 [Z.of_nat i]) <$> seq 0 25 in
  link_delivers 10 (ops ++ [TxGrant 1 100 true heap]) = Ok [] /\
  link_delivers 10 (take 24 ops ++ [TxGrant 1 100 true heap])
    = Ok ((fun i => [Z.of_nat i]) <$> seq 0 24).
Proof. split; vm_compute; reflexivity. Qed.

(** When the window moves and VR(UR) comes to rest on a PDU which is
    in the buffer, this PDU is not reassembled until another arrives or
    t-Reordering expires. *)
Theorem window_move_leaves_pdu :
  match rx_run [pdu_ev 1 [2]; pdu_ev 16 [17]] rx5 with
  | Ok e => vr_ur e = 1 /\ is_Some (dar_buffer e !! 1) /\ delivered e = []
  | Err _ => False
  end.
Proof. vm_compute. by split; [|split; [eexists|]]. Qed.

(** When the PDU missing below VR(UX) arrives and VR(UR) reaches
    VR(UX) = VR(UH), t-Reordering is not stopped. *)
Theorem timer_runs_with_nothing_missing :
  match rx_run [pdu_ev 1 [2]; pdu_ev 0 [1]] rx5 with
  | Ok e => vr_ur e = 2 /\ vr_ux e = 2 /\ vr_uh e = 2 /\ delivered e = [[1]; [2]] /\
            running (t_reordering e) = true
  | Err _ => False
  end.
Proof. vm_compute. by repeat split. Qed.

(** An SDU longer than the maximum is not discarded as a whole: its
    segments before the overflow are, and the ones after it are delivered as an
    SDU of their own. *)
Theorem oversize_tail_delivered :
  let pdu s st en l :=
    EvPdu 0 s (Umd st en [] l) (block5 s (Umd st en [] l)) in
  match rx_run [pdu 0 true false (replicate (Z.to_nat 8000) 1); pdu 1 false false (replicate (Z.to_nat 8000) 2);
                pdu 2 false true [3; 3]] rx5 with
  | Ok e => delivered e = [[3; 3]]
  | Err _ => False
  end.
Proof. vm_compute. reflexivity. Qed.

(** The request in ASN.1 form dereferences the downlink configuration
    before testing that it is there. *)
Theorem config_asn1_null_dl found a b eNB srb ul rb s5 s10 sp :
  is_Some found ->
  Config.config_req_rlc_um_asn1 s5 s10 sp found a b eNB srb false ul None rb = Err ENull.
Proof. by intros [e ->]. Qed.

Lemma config_asn1_null_dl_witness :
  Config.config_req_rlc_um_asn1 0 1 31 (Some entity0) 0 1 true false false (Some 0) None 3
  = Err ENull.
Proof. apply config_asn1_null_dl. by eexists. Defined.
