(* ===== verification/OsaSnow3g.v ===== *)
(** SNOW 3G ([osa_snow3g.c], [osa_snow3g.h], [osa_rijndael.c]): the word
    generator under the EEA1 and EIA1 algorithms. *)
From S2P Require Import Prelude.

Local Open Scope Z_scope.
Local Open Scope c_scope.

(** ** The S-boxes *)

Definition OSA_SR : list Z :=
  [99; 124; 119; 123; 242; 107; 111; 197; 48; 1; 103; 43; 254; 215; 171; 118;
   202; 130; 201; 125; 250; 89; 71; 240; 173; 212; 162; 175; 156; 164; 114; 192;
   183; 253; 147; 38; 54; 63; 247; 204; 52; 165; 229; 241; 113; 216; 49; 21;
   4; 199; 35; 195; 24; 150; 5; 154; 7; 18; 128; 226; 235; 39; 178; 117;
   9; 131; 44; 26; 27; 110; 90; 160; 82; 59; 214; 179; 41; 227; 47; 132;
   83; 209; 0; 237; 32; 252; 177; 91; 106; 203; 190; 57; 74; 76; 88; 207;
   208; 239; 170; 251; 67; 77; 51; 133; 69; 249; 2; 127; 80; 60; 159; 168;
   81; 163; 64; 143; 146; 157; 56; 245; 188; 182; 218; 33; 16; 255; 243; 210;
   205; 12; 19; 236; 95; 151; 68; 23; 196; 167; 126; 61; 100; 93; 25; 115;
   96; 129; 79; 220; 34; 42; 144; 136; 70; 238; 184; 20; 222; 94; 11; 219;
   224; 50; 58; 10; 73; 6; 36; 92; 194; 211; 172; 98; 145; 149; 228; 121;
   231; 200; 55; 109; 141; 213; 78; 169; 108; 86; 244; 234; 101; 122; 174; 8;
   186; 120; 37; 46; 28; 166; 180; 198; 232; 221; 116; 31; 75; 189; 139; 138;
   112; 62; 181; 102; 72; 3; 246; 14; 97; 53; 87; 185; 134; 193; 29; 158;
   225; 248; 152; 17; 105; 217; 142; 148; 155; 30; 135; 233; 206; 85; 40; 223;
   140; 161; 137; 13; 191; 230; 66; 104; 65; 153; 45; 15; 176; 84; 187; 22].

Definition OSA_SQ : list Z :=
  [37; 36; 115; 103; 215; 174; 92; 48; 164; 238; 110; 203; 125; 181; 130; 219;
   228; 142; 72; 73; 79; 93; 106; 120; 112; 136; 232; 95; 94; 132; 101; 226;
   216; 233; 204; 237; 64; 47; 17; 40; 87; 210; 172; 227; 74; 21; 27; 185;
   178; 128; 133; 166; 46; 2; 71; 41; 7; 75; 14; 193; 81; 170; 137; 212;
   202; 1; 70; 179; 239; 221; 68; 123; 194; 127; 190; 195; 159; 32; 76; 100;
   131; 162; 104; 66; 19; 180; 65; 205; 186; 198; 187; 109; 77; 113; 33; 244;
   141; 176; 229; 147; 254; 143; 230; 207; 67; 69; 49; 34; 55; 54; 150; 250;
   188; 15; 8; 82; 29; 85; 26; 197; 78; 35; 105; 122; 146; 255; 91; 90;
   235; 154; 28; 169; 209; 126; 13; 252; 80; 138; 182; 98; 245; 10; 248; 220;
   3; 60; 12; 57; 241; 184; 243; 61; 242; 213; 151; 102; 129; 50; 160; 0;
   6; 206; 246; 234; 183; 23; 247; 140; 121; 214; 167; 191; 139; 63; 31; 83;
   99; 117; 53; 44; 96; 253; 39; 211; 148; 165; 124; 161; 5; 88; 45; 189;
   217; 199; 175; 107; 84; 11; 224; 56; 4; 200; 157; 231; 20; 177; 135; 156;
   223; 111; 249; 218; 42; 196; 89; 22; 116; 145; 171; 38; 97; 118; 52; 43;
   173; 153; 251; 114; 236; 51; 18; 222; 152; 59; 192; 155; 62; 24; 16; 58;
   86; 225; 119; 201; 30; 158; 149; 163; 144; 25; 168; 108; 9; 208; 240; 134].

(** Reading a table of 256 entries at a byte, always inside. *)
Definition sbox (t : list Z) (i : Z) : Z := nth (Z.to_nat i) t 0.

(** ** Arithmetic of the field of 256 elements *)

Definition OSA_MULx (V c : Z) : Z :=
  if truth (V .& 0x80) then u8 ((V .<< 1) .^ c) else u8 (V .<< 1).

(** The recursion on the exponent. *)
Fixpoint OSA_MULxPOW (V : Z) (i : nat) (c : Z) : Z :=
  match i with
  | O => V
  | S i => OSA_MULx (OSA_MULxPOW V i c) c
  end.

Definition OSA_MULalpha (c : Z) : Z :=
  (OSA_MULxPOW c 23 0xa9 .<< 24) .| (OSA_MULxPOW c 245 0xa9 .<< 16)
  .| (OSA_MULxPOW c 48 0xa9 .<< 8) .| OSA_MULxPOW c 239 0xa9.

Definition OSA_DIValpha (c : Z) : Z :=
  (OSA_MULxPOW c 16 0xa9 .<< 24) .| (OSA_MULxPOW c 39 0xa9 .<< 16)
  .| (OSA_MULxPOW c 6 0xa9 .<< 8) .| OSA_MULxPOW c 64 0xa9.

(** The mixing common to both S-boxes: the four bytes after substitution and
    the constant of the reduction. *)
Definition mix_column (s0 s1 s2 s3 c : Z) : Z :=
  let r0 := OSA_MULx s0 c .^ s1 .^ s2 .^ (OSA_MULx s3 c .^ s3) in
  let r1 := (OSA_MULx s0 c .^ s0) .^ OSA_MULx s1 c .^ s2 .^ s3 in
  let r2 := s0 .^ (OSA_MULx s1 c .^ s1) .^ OSA_MULx s2 c .^ s3 in
  let r3 := s0 .^ s1 .^ (OSA_MULx s2 c .^ s2) .^ OSA_MULx s3 c in
  (r0 .<< 24) .| (r1 .<< 16) .| (r2 .<< 8) .| r3.

Definition OSA_S1 (w : Z) : Z :=
  mix_column (sbox OSA_SR ((w .>> 24) .& 0xff)) (sbox OSA_SR ((w .>> 16) .& 0xff))
    (sbox OSA_SR ((w .>> 8) .& 0xff)) (sbox OSA_SR (w .& 0xff)) 0x1b.

Definition OSA_S2 (w : Z) : Z :=
  mix_column (sbox OSA_SQ ((w .>> 24) .& 0xff)) (sbox OSA_SQ ((w .>> 16) .& 0xff))
    (sbox OSA_SQ ((w .>> 8) .& 0xff)) (sbox OSA_SQ (w .& 0xff)) 0x69.

(** ** The generator *)

Record osa_snow_3g_context := Snow3g {
  LFSR_S0 : Z; LFSR_S1 : Z; LFSR_S2 : Z; LFSR_S3 : Z;
  LFSR_S4 : Z; LFSR_S5 : Z; LFSR_S6 : Z; LFSR_S7 : Z;
  LFSR_S8 : Z; LFSR_S9 : Z; LFSR_S10 : Z; LFSR_S11 : Z;
  LFSR_S12 : Z; LFSR_S13 : Z; LFSR_S14 : Z; LFSR_S15 : Z;
  FSM_R1 : Z; FSM_R2 : Z; FSM_R3 : Z
}.

(** The moves of the shift register, with [v] entering. *)
Definition lfsr_shift (v : Z) (s : osa_snow_3g_context) : osa_snow_3g_context :=
  Snow3g (LFSR_S1 s) (LFSR_S2 s) (LFSR_S3 s) (LFSR_S4 s) (LFSR_S5 s) (LFSR_S6 s)
    (LFSR_S7 s) (LFSR_S8 s) (LFSR_S9 s) (LFSR_S10 s) (LFSR_S11 s) (LFSR_S12 s)
    (LFSR_S13 s) (LFSR_S14 s) (LFSR_S15 s) v (FSM_R1 s) (FSM_R2 s) (FSM_R3 s).

Definition osa_snow3g_clock_LFSR_initialization_mode (F : Z)
    (s : osa_snow_3g_context) : osa_snow_3g_context :=
  lfsr_shift
    ((u32 (LFSR_S0 s .<< 8) .& 0xffffff00)
     .^ OSA_MULalpha ((LFSR_S0 s .>> 24) .& 0xff)
     .^ LFSR_S2 s
     .^ ((LFSR_S11 s .>> 8) .& 0x00ffffff)
     .^ OSA_DIValpha (LFSR_S11 s .& 0xff)
     .^ F) s.

Definition osa_snow3g_clock_LFSR_key_stream_mode (s : osa_snow_3g_context)
    : osa_snow_3g_context :=
  lfsr_shift
    ((u32 (LFSR_S0 s .<< 8) .& 0xffffff00)
     .^ OSA_MULalpha ((LFSR_S0 s .>> 24) .& 0xff)
     .^ LFSR_S2 s
     .^ ((LFSR_S11 s .>> 8) .& 0x00ffffff)
     .^ OSA_DIValpha (LFSR_S11 s .& 0xff)) s.

Definition osa_snow3g_clock_fsm (s : osa_snow_3g_context)
    : Z * osa_snow_3g_context :=
  let F := u32 (LFSR_S15 s + FSM_R1 s) .^ FSM_R2 s in
  let r := u32 (FSM_R2 s + (FSM_R3 s .^ LFSR_S5 s)) in
  (F, Snow3g (LFSR_S0 s) (LFSR_S1 s) (LFSR_S2 s) (LFSR_S3 s) (LFSR_S4 s)
        (LFSR_S5 s) (LFSR_S6 s) (LFSR_S7 s) (LFSR_S8 s) (LFSR_S9 s) (LFSR_S10 s)
        (LFSR_S11 s) (LFSR_S12 s) (LFSR_S13 s) (LFSR_S14 s) (LFSR_S15 s)
        r (OSA_S1 (FSM_R1 s)) (OSA_S2 (FSM_R2 s))).

Definition init_round (s : osa_snow_3g_context) : osa_snow_3g_context :=
  let '(F, s) := osa_snow3g_clock_fsm s in
  osa_snow3g_clock_LFSR_initialization_mode F s.

(** The arrays [k] and [IV] of four words, word by word. *)
Definition osa_snow3g_initialize (k0 k1 k2 k3 IV0 IV1 IV2 IV3 : Z)
    : osa_snow_3g_context :=
  Nat.iter 32 init_round
    (Snow3g
       (k0 .^ 0xffffffff) (k1 .^ 0xffffffff) (k2 .^ 0xffffffff) (k3 .^ 0xffffffff)
       k0 k1 k2 k3
       (k0 .^ 0xffffffff) (k1 .^ 0xffffffff .^ IV3) (k2 .^ 0xffffffff .^ IV2)
       (k3 .^ 0xffffffff)
       (k0 .^ IV1) k1 k2 (k3 .^ IV0)
       0 0 0).

Fixpoint key_stream_loop (n : nat) (s : osa_snow_3g_context) : list Z :=
  match n with
  | O => []
  | S n =>
      let '(F, s) := osa_snow3g_clock_fsm s in
      (F .^ LFSR_S0 s) :: key_stream_loop n (osa_snow3g_clock_LFSR_key_stream_mode s)
  end.

(** The [n] words written to [ks]. *)
Definition osa_snow3g_generate_key_stream (n : nat) (s : osa_snow_3g_context)
    : list Z :=
  let '(_, s) := osa_snow3g_clock_fsm s in
  key_stream_loop n (osa_snow3g_clock_LFSR_key_stream_mode s).
