(* ===== verification/OsaSnow3gSpec.v ===== *)
(** SNOW 3G: the register never loses information, words stay 32 bits wide, and
    the generator reproduces the published test data. *)
From S2P Require Import Prelude.
From S2P Require Import OsaSnow3g.

Local Open Scope Z_scope.
Local Open Scope c_scope.

Abbreviation word := (in_u 32).

(** ** Width *)

Lemma MULx_byte V c : byte (OSA_MULx V c).
Proof. unfold OSA_MULx. case_match; by apply in_u_wrap. Qed.

Lemma MULxPOW_byte V i c : byte V -> byte (OSA_MULxPOW V i c).
Proof. intros HV. destruct i; [done|apply MULx_byte]. Qed.

Lemma sbox_byte t i : forallb (fun b => (0 <=? b) && (b <? 256)) t = true -> byte (sbox t i).
Proof.
  intros Ht. unfold sbox. rewrite forallb_forall in Ht.
  destruct (nth_in_or_default (Z.to_nat i) t 0) as [Hin| ->]; [|done].
  apply Ht, andb_true_iff in Hin as [?%Z.leb_le ?%Z.ltb_lt].
  unfold in_u. change (2 ^ 8) with 256. lia.
Qed.

(** Four bytes side by side make a word. *)
Lemma bytes_word a b c d :
  byte a -> byte b -> byte c -> byte d ->
  word ((a .<< 24) .| (b .<< 16) .| (c .<< 8) .| d).
Proof.
  intros Ha Hb Hc Hd.
  repeat apply in_u_lor; try lia;
    try (by apply in_u_shiftl with 8); by apply in_u_weaken with 8.
Qed.

Lemma MULalpha_word c : byte c -> word (OSA_MULalpha c).
Proof.
  intros Hc. unfold OSA_MULalpha. apply bytes_word; apply MULxPOW_byte; exact Hc.
Qed.
Lemma DIValpha_word c : byte c -> word (OSA_DIValpha c).
Proof.
  intros Hc. unfold OSA_DIValpha. apply bytes_word; apply MULxPOW_byte; exact Hc.
Qed.

Lemma mix_column_word s0 s1 s2 s3 c :
  byte s0 -> byte s1 -> byte s2 -> byte s3 -> word (mix_column s0 s1 s2 s3 c).
Proof.
  intros H0 H1 H2 H3. pose proof (MULx_byte s0 c). pose proof (MULx_byte s1 c).
  pose proof (MULx_byte s2 c). pose proof (MULx_byte s3 c).
  apply bytes_word; repeat apply in_u_lxor; (done || lia).
Qed.

Lemma S1_word w : word (OSA_S1 w).
Proof. unfold OSA_S1. apply mix_column_word; apply sbox_byte; reflexivity. Qed.
Lemma S2_word w : word (OSA_S2 w).
Proof. unfold OSA_S2. apply mix_column_word; apply sbox_byte; reflexivity. Qed.

Lemma low_byte z : 0 <= z -> byte (z .& 0xff).
Proof. intros. apply in_u_land; [lia|done|done]. Qed.

(** All the registers are words. *)
Definition words (s : osa_snow_3g_context) : Prop :=
  Forall word
    [LFSR_S0 s; LFSR_S1 s; LFSR_S2 s; LFSR_S3 s; LFSR_S4 s; LFSR_S5 s; LFSR_S6 s;
     LFSR_S7 s; LFSR_S8 s; LFSR_S9 s; LFSR_S10 s; LFSR_S11 s; LFSR_S12 s;
     LFSR_S13 s; LFSR_S14 s; LFSR_S15 s; FSM_R1 s; FSM_R2 s; FSM_R3 s].

(** Multiplication by alpha and by its inverse, as the register applies them. *)
Definition mul_alpha (w : Z) : Z :=
  (u32 (w .<< 8) .& 0xffffff00) .^ OSA_MULalpha ((w .>> 24) .& 0xff).
Definition div_alpha (w : Z) : Z :=
  ((w .>> 8) .& 0x00ffffff) .^ OSA_DIValpha (w .& 0xff).

Lemma mul_alpha_word w : word w -> word (mul_alpha w).
Proof.
  intros Hw. assert (0 <= w) by (unfold in_u in Hw; lia).
  apply in_u_lxor; [lia| |].
  - apply in_u_land; [lia|pose proof (in_u_wrap 32 ltac:(lia) (w .<< 8)) as H0; unfold in_u in H0; lia|done].
  - apply MULalpha_word, low_byte. by apply Z.shiftr_nonneg.
Qed.

Lemma div_alpha_word w : word w -> word (div_alpha w).
Proof.
  intros Hw. assert (0 <= w) by (unfold in_u in Hw; lia).
  apply in_u_lxor; [lia| |].
  - apply in_u_weaken with 24; [lia|]. apply in_u_land; [lia|by apply Z.shiftr_nonneg|done].
  - by apply DIValpha_word, low_byte.
Qed.

Lemma feedback_word s0 s2 s11 :
  word s0 -> word s2 -> word s11 -> word (mul_alpha s0 .^ s2 .^ div_alpha s11).
Proof.
  intros H0 H2 H11. apply in_u_lxor; [lia| |by apply div_alpha_word].
  apply in_u_lxor; [lia|by apply mul_alpha_word|done].
Qed.

(** What enters the register, in the two modes. *)
Lemma key_stream_mode_eq s :
  osa_snow3g_clock_LFSR_key_stream_mode s
  = lfsr_shift (mul_alpha (LFSR_S0 s) .^ LFSR_S2 s .^ div_alpha (LFSR_S11 s)) s.
Proof.
  unfold osa_snow3g_clock_LFSR_key_stream_mode, mul_alpha, div_alpha.
  by rewrite !Z.lxor_assoc.
Qed.

Lemma initialization_mode_eq F s :
  osa_snow3g_clock_LFSR_initialization_mode F s
  = lfsr_shift (mul_alpha (LFSR_S0 s) .^ LFSR_S2 s .^ div_alpha (LFSR_S11 s) .^ F) s.
Proof.
  unfold osa_snow3g_clock_LFSR_initialization_mode, mul_alpha, div_alpha.
  by rewrite !Z.lxor_assoc.
Qed.

Ltac split_words H := unfold words in H; repeat (apply Forall_cons in H as [? H]).

Lemma shift_words v s : word v -> words s -> words (lfsr_shift v s).
Proof.
  intros Hv Hs. split_words Hs. unfold words, lfsr_shift. cbn.
  by repeat (apply Forall_cons; split).
Qed.

Lemma clock_fsm_words s :
  words s -> word (fst (osa_snow3g_clock_fsm s)) /\ words (snd (osa_snow3g_clock_fsm s)).
Proof.
  intros Hs. split_words Hs. cbn. split.
  - apply in_u_lxor; [lia|by apply in_u_wrap|done].
  - unfold words. cbn. repeat (apply Forall_cons; split); try done.
    + by apply in_u_wrap.
    + apply S1_word.
    + apply S2_word.
Qed.

Lemma key_stream_mode_words s :
  words s -> words (osa_snow3g_clock_LFSR_key_stream_mode s).
Proof.
  intros Hs. rewrite key_stream_mode_eq. apply shift_words; [|done].
  split_words Hs. by apply feedback_word.
Qed.

Lemma init_round_words s : words s -> words (init_round s).
Proof.
  intros Hs. pose proof (clock_fsm_words s Hs) as [HF Hs']. unfold init_round.
  destruct (osa_snow3g_clock_fsm s) as [F s']. cbn in HF, Hs'.
  rewrite initialization_mode_eq. apply shift_words; [|done].
  split_words Hs'. apply in_u_lxor; [lia|by apply feedback_word|done].
Qed.

Lemma initialize_words k0 k1 k2 k3 IV0 IV1 IV2 IV3 :
  Forall word [k0; k1; k2; k3; IV0; IV1; IV2; IV3] ->
  words (osa_snow3g_initialize k0 k1 k2 k3 IV0 IV1 IV2 IV3).
Proof.
  intros H. repeat (apply Forall_cons in H as [? H]). unfold osa_snow3g_initialize.
  generalize 32%nat. induction n as [|n IH].
  - assert (word 0xffffffff) by done. assert (word 0) by done.
    unfold words. cbn [Nat.iter LFSR_S0 LFSR_S1 LFSR_S2 LFSR_S3 LFSR_S4 LFSR_S5 LFSR_S6
      LFSR_S7 LFSR_S8 LFSR_S9 LFSR_S10 LFSR_S11 LFSR_S12 LFSR_S13 LFSR_S14 LFSR_S15
      FSM_R1 FSM_R2 FSM_R3].
    repeat (apply Forall_cons; split); repeat apply in_u_lxor; try done; lia.
  - change (words (init_round (Nat.iter n init_round
      (Snow3g (k0 .^ 0xffffffff) (k1 .^ 0xffffffff) (k2 .^ 0xffffffff) (k3 .^ 0xffffffff)
       k0 k1 k2 k3 (k0 .^ 0xffffffff) (k1 .^ 0xffffffff .^ IV3) (k2 .^ 0xffffffff .^ IV2)
       (k3 .^ 0xffffffff) (k0 .^ IV1) k1 k2 (k3 .^ IV0) 0 0 0)))).
    by apply init_round_words.
Qed.

Lemma key_stream_loop_words n : forall s,
  words s -> length (key_stream_loop n s) = n /\ Forall word (key_stream_loop n s).
Proof.
  induction n as [|n IH]; intros s Hs; [done|]. cbn [key_stream_loop].
  pose proof (clock_fsm_words s Hs) as [HF Hs'].
  destruct (osa_snow3g_clock_fsm s) as [F s']. cbn in HF, Hs'.
  destruct (IH _ (key_stream_mode_words s' Hs')) as [H1 H2]. split.
  - cbn [length]. by rewrite H1.
  - apply Forall_cons. split; [|done]. split_words Hs'. by apply in_u_lxor.
Qed.

Lemma generate_words n s :
  words s -> length (osa_snow3g_generate_key_stream n s) = n /\
    Forall word (osa_snow3g_generate_key_stream n s).
Proof.
  intros Hs. unfold osa_snow3g_generate_key_stream.
  pose proof (clock_fsm_words s Hs) as [_ Hs'].
  destruct (osa_snow3g_clock_fsm s) as [F s']. cbn in Hs'.
  by apply key_stream_loop_words, key_stream_mode_words.
Qed.

(** ** The register loses nothing *)

Lemma lxor_cancel_r a b c : a .^ c = b .^ c -> a = b.
Proof.
  intros E. apply (f_equal (fun x => x .^ c)) in E.
  by rewrite !Z.lxor_assoc, !Z.lxor_nilpotent, !Z.lxor_0_r in E.
Qed.

(** A table of 256 entries which has every byte is a permutation. *)
Lemma perm_of_bytes t :
  forallb (fun b => existsb (Z.eqb b) t) (Z.of_nat <$> seq 0 256) &&
    (length t =? 256)%nat = true ->
  Permutation t (Z.of_nat <$> seq 0 256).
Proof.
  intros [Ht Hl]%andb_true_iff. apply Nat.eqb_eq in Hl. symmetry.
  apply submseteq_length_Permutation.
  - apply NoDup_submseteq.
    + apply NoDup_fmap_2; [|apply NoDup_seq]. intros x y. lia.
    + intros x Hx. rewrite forallb_forall in Ht. apply list_elem_of_In in Hx.
      apply Ht, existsb_exists in Hx as (y & Hy & ->%Z.eqb_eq). by apply list_elem_of_In.
  - rewrite Hl, length_fmap, length_seq. done.
Qed.

Lemma alpha_table :
  forall b, byte b ->
  (OSA_MULalpha b .>> 8) .^ OSA_DIValpha (OSA_MULalpha b .& 0xff) = b .<< 24.
Proof.
  intros b Hb. apply Z.eqb_eq.
  apply (byte_forall (fun b => (OSA_MULalpha b .>> 8)
    .^ OSA_DIValpha (OSA_MULalpha b .& 0xff) =? b .<< 24)); [|exact Hb].
  vm_compute. reflexivity.
Qed.

Lemma land_0xff z : z .& 0xff = z mod 256.
Proof. apply (land_ones_mod z 8). lia. Qed.

(** Division by alpha undoes multiplication by alpha. *)
Lemma div_mul_alpha w : word w -> div_alpha (mul_alpha w) = w.
Proof.
  intros Hw. unfold in_u in Hw. change (2 ^ 32) with 4294967296 in Hw.
  set (b := w / 2 ^ 24). set (l := w mod 2 ^ 24).
  assert (Hb : byte b) by (unfold b, in_u; change (2 ^ 24) with 16777216;
    change (2 ^ 8) with 256; div_lia).
  assert (Hl : 0 <= l < 2 ^ 24) by (apply Z.mod_pos_bound; lia).
  assert (Hw' : w = l + b * 2 ^ 24)
    by (unfold l, b; pose proof (Z.div_mod w (2 ^ 24)); lia).
  assert (Hm : mul_alpha w = (l .<< 8) .^ OSA_MULalpha b).
  { unfold mul_alpha. f_equal.
    - apply Z.bits_inj'. intros i Hi. rewrite Z.land_spec.
      change 0xffffff00 with (Z.ones 24 .<< 8). rewrite !Z.shiftl_spec by done.
      unfold wrapU, l. destruct (Z.lt_ge_cases i 8) as [H8|H8].
      { rewrite !(Z.testbit_neg_r _ (i - 8)) by lia. apply andb_false_r. }
      destruct (Z.lt_ge_cases i 32) as [H32|H32].
      + rewrite Z.mod_pow2_bits_low, Z.shiftl_spec by lia.
        rewrite Z.mod_pow2_bits_low, Z.ones_spec_low by lia. apply andb_true_r.
      + rewrite Z.mod_pow2_bits_high, (Z.mod_pow2_bits_high w) by lia. done.
    - f_equal. rewrite Z.shiftr_div_pow2, land_0xff by lia. apply Z.mod_small. exact Hb. }
  rewrite Hm. unfold div_alpha.
  pose proof (MULalpha_word b Hb) as HM. set (m := OSA_MULalpha b) in *.
  assert (E1 : (((l .<< 8) .^ m) .>> 8) .& 0x00ffffff = l .^ (m .>> 8)).
  { rewrite Z.shiftr_lxor, Z.shiftr_shiftl_l by lia. rewrite Z.shiftl_0_r.
    rewrite (land_ones_mod _ 24) by lia. apply Z.mod_small.
    apply (in_u_lxor 24); [lia|exact Hl|]. unfold in_u in *.
    rewrite Z.shiftr_div_pow2 by lia. change (2 ^ 8) with 256. change (2 ^ 24) with 16777216.
    change (2 ^ 32) with 4294967296 in HM. div_lia. }
  assert (E2 : ((l .<< 8) .^ m) .& 0xff = m .& 0xff).
  { apply Z.bits_inj'. intros i Hi. rewrite !Z.land_spec, Z.lxor_spec, Z.shiftl_spec by done.
    destruct (Z.lt_ge_cases i 8).
    - rewrite (Z.testbit_neg_r _ (i - 8)) by lia. by rewrite xorb_false_l.
    - change 0xff with (Z.ones 8). rewrite (Z.ones_spec_high 8 i) by lia.
      by rewrite !andb_false_r. }
  rewrite E1, E2. unfold m.
  rewrite Z.lxor_assoc, alpha_table by done. rewrite Z.lxor_comm.
  assert (Hnc : (b .<< 24) .^ l = (b .<< 24) .| l).
  { apply Z.bits_inj'. intros i Hi. rewrite Z.lxor_spec, Z.lor_spec, Z.shiftl_spec by done.
    destruct (Z.lt_ge_cases i 24).
    - by rewrite (Z.testbit_neg_r _ (i - 24)) by lia.
    - rewrite <- (Z.mod_small l (2 ^ 24)), Z.mod_pow2_bits_high by lia.
      by rewrite xorb_false_r, orb_false_r. }
  rewrite Hnc, lor_shiftl_add by lia. lia.
Qed.

(** C36.  Clocking the register in keystream mode loses no information: two
    states of words which clock to the same state are equal.  The state never
    collapses, whatever the key. *)
Theorem lfsr_clock_injective s s' :
  words s -> words s' ->
  osa_snow3g_clock_LFSR_key_stream_mode s = osa_snow3g_clock_LFSR_key_stream_mode s' ->
  s = s'.
Proof.
  rewrite !key_stream_mode_eq. intros Hs Hs' H.
  split_words Hs. split_words Hs'.
  destruct s, s'. unfold lfsr_shift in H. cbn in *. injection H. intros. subst. f_equal.
  match goal with E : mul_alpha ?a .^ _ .^ _ = mul_alpha ?b .^ _ .^ _ |- _ =>
    apply lxor_cancel_r, lxor_cancel_r in E;
    rewrite <- (div_mul_alpha a), <- (div_mul_alpha b), E; done end.
Qed.


(** The generator gives the key stream of the published test data (UEA2
    and UIA2, Document 3: SNOW 3G test set 1, the first two words), and the
    S-boxes are permutations of the bytes. *)
Theorem snow3g_test_data :
  osa_snow3g_generate_key_stream 2
    (osa_snow3g_initialize 0x2BD6459F 0x82C5B300 0x952C4910 0x4881FF48
       0xEA024714 0xAD5C4D84 0xDF1F9B25 0x1C0BF45F)
  = [0xABEE9704; 0x7AC31373] /\
  Permutation OSA_SR (Z.of_nat <$> seq 0 256) /\
  Permutation OSA_SQ (Z.of_nat <$> seq 0 256).
Proof.
  split; [vm_compute; reflexivity|].
  split; apply perm_of_bytes; vm_compute; reflexivity.
Qed.
