(* ===== verification/OsaStream.v ===== *)
(** The ciphering and integrity algorithms of the radio layers
    ([osa_stream_eea.c], [osa_stream_eia.c], [osa_defs.h]).  The host is little
    endian.  AES in counter mode and AES-CMAC come from the nettle and openssl
    libraries and are parameters. *)
From S2P Require Import Prelude.
From S2P Require Import OsaSnow3g.

Local Open Scope Z_scope.
Local Open Scope c_scope.

Definition EIA0_ALG_ID : Z := 0x00.
Definition EIA1_128_ALG_ID : Z := 0x01.
Definition EIA2_128_ALG_ID : Z := 0x02.
Definition EEA0_ALG_ID : Z := EIA0_ALG_ID.
Definition EEA1_128_ALG_ID : Z := EIA1_128_ALG_ID.
Definition EEA2_128_ALG_ID : Z := EIA2_128_ALG_ID.
Definition SECU_DIRECTION_UPLINK : Z := 0.
Definition SECU_DIRECTION_DOWNLINK : Z := 1.

(** [stream_cipher_t]; [key] and [message] are the memory from the pointers
    on, to the end of the objects. *)
Record stream_cipher := StreamCipher {
  key : list Z;
  key_length : Z;
  count : Z;
  bearer : Z;
  direction : Z;
  message : list Z;
  blength : Z
}.

(** ** Words in memory *)

Definition le32 (l : list Z) : Z :=
  match l with
  | [a; b; c; d] => a + b * 2 ^ 8 + c * 2 ^ 16 + d * 2 ^ 24
  | _ => 0
  end.
Definition le_bytes (x : Z) : list Z :=
  [x .& 0xff; (x .>> 8) .& 0xff; (x .>> 16) .& 0xff; (x .>> 24) .& 0xff].

(** The [i]-th element of an array of 32-bit words. *)
Definition load32 (l : list Z) (i : Z) : res Z :=
  b ← rd_n l (4 * i) 4; Ok (le32 b).

Definition hton_int32 (x : Z) : Z :=
  u32 ((x .& 0x000000FF) .<< 24) .| u32 ((x .& 0x0000FF00) .<< 8)
  .| ((x .& 0x00FF0000) .>> 8) .| ((x .& 0xFF000000) .>> 24).

(** ** Ciphering *)

(** [message[i] ^= ks[i]] for every byte of [ks]. *)
Fixpoint xor_bytes (msg ks : list Z) {struct ks} : res (list Z) :=
  match ks, msg with
  | [], _ => Ok msg
  | k :: ks, m :: msg => msg ← xor_bytes msg ks; Ok ((m .^ k) :: msg)
  | _ :: _, [] => Err EBounds
  end.

(** Clears the last [8 - zero_bit] bits of a word. *)
Definition mask_word (zero_bit w : Z) : Z := w .& u32 (0xFFFFFFFF .<< (8 - zero_bit)).
Definition mask_octet (zero_bit b : Z) : Z := b .& u8 (0xFF .<< (8 - zero_bit)).

Definition alter_last (f : Z -> Z) (l : list Z) : list Z := alter f (pred (length l)) l.

(** The key as the four words of the generator: [K[3]] is the first. *)
Definition load_key (sc : stream_cipher) : res (Z * Z * Z * Z) :=
  k3 ← load32 (key sc) 0;
  k2 ← load32 (key sc) 1;
  k1 ← load32 (key sc) 2;
  k0 ← load32 (key sc) 3;
  Ok (hton_int32 k0, hton_int32 k1, hton_int32 k2, hton_int32 k3).

(** [*out] is [message], as in all the calls: each function gives the value it
    returns and the memory of the message after it. *)
Definition stream_encrypt_eea0 (sc : stream_cipher) : res (Z * list Z) :=
  let byte_length := u32 (blength sc + 7) .>> 3 in
  d ← rd_n (message sc) 0 byte_length;
  m ← wr (message sc) 0 d;
  Ok (0, m).

(** The key stream for [n] words, in network order. *)
Definition eea1_key_stream (sc : stream_cipher) (n : Z) : res (list Z) :=
  '(k0, k1, k2, k3) ← load_key sc;
  let IV3 := count sc in
  let IV2 := u32 (((bearer sc .<< 3) .| ((direction sc .& 0x1) .<< 2)) .<< 24) in
  Ok (osa_snow3g_generate_key_stream (Z.to_nat n)
        (osa_snow3g_initialize k0 k1 k2 k3 IV2 IV3 IV2 IV3)).

Definition stream_encrypt_eea1 (sc : stream_cipher) : res (Z * list Z) :=
  _ ← res_guard (key_length sc =? 16) EAssert;
  let n := u32 (blength sc + 31) / 32 in
  let zero_bit := blength sc .& 0x7 in
  KS ← eea1_key_stream sc n;
  let KS := if 0 <? zero_bit then alter_last (mask_word zero_bit) KS else KS in
  m ← xor_bytes (message sc) (concat ((fun w => le_bytes (hton_int32 w)) <$> KS));
  if 0 <? zero_bit then
    let ceil_index := u32 (blength sc + 7) .>> 3 in
    b ← rd m (ceil_index - 1);
    m ← wr m (ceil_index - 1) [mask_octet zero_bit b];
    Ok (0, m)
  else Ok (0, m).

(** ** Integrity *)

Definition OSA_MUL64x (V c : Z) : Z :=
  if truth (V .& 0x8000000000000000) then wrapU 64 (V .<< 1) .^ c
  else wrapU 64 (V .<< 1).

Fixpoint OSA_MUL64xPOW (V : Z) (i : nat) (c : Z) : Z :=
  match i with
  | O => V
  | S i => OSA_MUL64x (OSA_MUL64xPOW V i c) c
  end.

(** The loop on the bits of [P]. *)
Definition OSA_MUL64 (V P c : Z) : Z :=
  foldl (fun result i =>
      if truth ((P .>> Z.of_nat i) .& 0x1) then result .^ OSA_MUL64xPOW V i c
      else result)
    0 (seq 0 64).

Definition osa_mask32bit (n : Z) : Z :=
  if n %% 32 =? 0 then 0xffffffff
  else Nat.iter (Z.to_nat n) (fun mask => (mask .>> 1) .^ 0x80000000) 0.

(** The key stream words [z[0]] to [z[4]]. *)
Definition eia1_key_stream (sc : stream_cipher) : res (list Z) :=
  '(k0, k1, k2, k3) ← load_key sc;
  let b := u32 ((bearer sc .& 0x1F) .<< 27) in
  Ok (osa_snow3g_generate_key_stream 5
        (osa_snow3g_initialize k0 k1 k2 k3
           (b .^ u32 ((direction sc .& 0x1) .<< 15))
           (count sc .^ u32 (direction sc .<< 31)) b (count sc))).

(** The loop on the full blocks, from block [i] on. *)
Fixpoint eia1_blocks (n : nat) (msg : list Z) (P c i EVAL : Z) : res Z :=
  match n with
  | O => Ok EVAL
  | S n =>
      w0 ← load32 msg (2 * i);
      w1 ← load32 msg (2 * i + 1);
      let V := EVAL .^ ((hton_int32 w0 .<< 32) .| hton_int32 w1) in
      eia1_blocks n msg P c (i + 1) (OSA_MUL64 V P c)
  end.

Definition stream_compute_integrity_eia1 (sc : stream_cipher)
    : res (Z * list Z) :=
  z ← eia1_key_stream sc;
  z0 ← rd z 0; z1 ← rd z 1; z2 ← rd z 2; z3 ← rd z 3; z4 ← rd z 4;
  let P := (z0 .<< 32) .| z1 in
  let Q := (z2 .<< 32) .| z3 in
  let D := (blength sc + 63) / 64 + 1 in
  let c := 0x1b in
  EVAL ← eia1_blocks (Z.to_nat (D - 2)) (message sc) P c 0 0;
  let rem_bits := blength sc %% 64 in
  let rem_bits := if rem_bits =? 0 then 64 else rem_bits in
  let mask := osa_mask32bit (rem_bits %% 32) in
  M_D_2 ← (
    w0 ← load32 (message sc) (2 * (D - 2));
    if 32 <? rem_bits then
      w1 ← load32 (message sc) (2 * (D - 2) + 1);
      Ok ((hton_int32 w0 .<< 32) .| (hton_int32 w1 .& mask))
    else Ok ((hton_int32 w0 .& mask) .<< 32));
  let V := EVAL .^ M_D_2 in
  let EVAL := OSA_MUL64 V P c in
  let EVAL := EVAL .^ blength sc in
  let EVAL := OSA_MUL64 EVAL Q c in
  let MAC_I := u32 (EVAL .>> 32) .^ z4 in
  Ok (0, le_bytes (hton_int32 MAC_I)).

Section library.
(** [nettle_ctr_crypt] with AES-128: key, initial counter block, data. *)
Variable aes_ctr : list Z -> list Z -> list Z -> list Z.
(** The CMAC with AES-128-CBC of openssl: key, message; 16 bytes. *)
Variable aes_cmac : list Z -> list Z -> list Z.

Definition stream_encrypt_eea2 (sc : stream_cipher) : res (Z * list Z) :=
  let zero_bit := blength sc .& 0x7 in
  let byte_length := (blength sc .>> 3) + (if 0 <? zero_bit then 1 else 0) in
  let m := le_bytes (hton_int32 (count sc))
           ++ [u8 (((bearer sc .& 0x1F) .<< 3) .| ((direction sc .& 0x01) .<< 2))]
           ++ replicate 11 0 in
  k ← rd_n (key sc) 0 (key_length sc);
  d ← rd_n (message sc) 0 byte_length;
  msg ← wr (message sc) 0 (aes_ctr k m d);
  if 0 <? zero_bit then
    b ← rd msg (byte_length - 1);
    msg ← wr msg (byte_length - 1) [mask_octet zero_bit b];
    Ok (0, msg)
  else Ok (0, msg).

Definition stream_encrypt (algorithm : Z) (sc : stream_cipher)
    : res (Z * list Z) :=
  if algorithm =? EEA0_ALG_ID then stream_encrypt_eea0 sc
  else if algorithm =? EEA1_128_ALG_ID then stream_encrypt_eea1 sc
  else if algorithm =? EEA2_128_ALG_ID then stream_encrypt_eea2 sc
  else Ok (-1, message sc).

Definition stream_compute_integrity_eia2 (sc : stream_cipher)
    : res (Z * list Z) :=
  let zero_bit := blength sc .& 0x7 in
  let m_length := (blength sc .>> 3) + (if 0 <? zero_bit then 1 else 0) in
  d ← rd_n (message sc) 0 m_length;
  k ← rd_n (key sc) 0 16;
  let m := le_bytes (hton_int32 (count sc))
           ++ [u8 (((bearer sc .& 0x1F) .<< 3) .| ((direction sc .& 0x01) .<< 2))]
           ++ [0; 0; 0] ++ d in
  Ok (0, take 4 (aes_cmac k m)).

(** [None] when [out] is left alone. *)
Definition stream_compute_integrity (algorithm : Z) (sc : stream_cipher)
    : res (Z * option (list Z)) :=
  if algorithm =? EIA1_128_ALG_ID then
    '(rc, out) ← stream_compute_integrity_eia1 sc; Ok (rc, Some out)
  else if algorithm =? EIA2_128_ALG_ID then
    '(rc, out) ← stream_compute_integrity_eia2 sc; Ok (rc, Some out)
  else Ok (-1, None).

Definition stream_check_integrity (algorithm : Z) (sc : stream_cipher)
    (expected : list Z) : res Z :=
  if algorithm =? EIA0_ALG_ID then Ok 0
  else
    '(rc, out) ← stream_compute_integrity algorithm sc;
    if negb (rc =? 0) then Ok (-1)
    else
      x ← rd_n expected 0 4;
      Ok (if bool_decide (out = Some x) then 0 else -1).
End library.
