(* ===== verification/OsaStreamSpec.v ===== *)
(** The ciphering and integrity algorithms: deciphering undoes ciphering, EIA1
    computes the polynomial evaluation of its definition, and the published test
    data. *)
From S2P Require Import Prelude.
From S2P Require Import OsaSnow3g.
From S2P Require Import OsaSnow3gSpec.
From S2P Require Import OsaStream.

Local Open Scope Z_scope.
Local Open Scope c_scope.

(** ** Words in memory *)

Lemma land_slice x a k :
  0 <= a -> 0 <= k -> x .& ((2 ^ k - 1) .<< a) = (x / 2 ^ a) mod 2 ^ k * 2 ^ a.
Proof.
  intros Ha Hk. rewrite <- (land_field x a k), <- Z.shiftl_mul_pow2 by done.
  apply Z.bits_inj'. intros i Hi. rewrite Z.shiftl_spec by done.
  destruct (Z.lt_ge_cases i a).
  - rewrite (Z.testbit_neg_r _ (i - a)), Z.land_spec, Z.shiftl_spec by lia.
    rewrite (Z.testbit_neg_r _ (i - a)) by lia. apply andb_false_r.
  - rewrite Z.shiftr_spec by lia. by replace (i - a + a) with i by lia.
Qed.

(** The bytes of a word, the most significant first. *)
Definition be_bytes (w : Z) : list Z :=
  [(w / 2 ^ 24) mod 256; (w / 2 ^ 16) mod 256; (w / 2 ^ 8) mod 256; w mod 256].
Definition be32 (l : list Z) : Z :=
  match l with
  | [a; b; c; d] => a * 2 ^ 24 + b * 2 ^ 16 + c * 2 ^ 8 + d
  | _ => 0
  end.

Ltac pow_const :=
  change (2 ^ 8) with 256 in *; change (2 ^ 16) with 65536 in *;
  change (2 ^ 24) with 16777216 in *; change (2 ^ 32) with 4294967296 in *.

Lemma hton_fields x :
  hton_int32 x = (x mod 256) * 2 ^ 24 + ((x / 256) mod 256) * 2 ^ 16
                 + ((x / 65536) mod 256) * 2 ^ 8 + (x / 16777216) mod 256.
Proof.
  unfold hton_int32.
  change 0x0000FF00 with ((2 ^ 8 - 1) .<< 8). change 0x00FF0000 with ((2 ^ 8 - 1) .<< 16).
  change 0xFF000000 with ((2 ^ 8 - 1) .<< 24). change 0x000000FF with ((2 ^ 8 - 1) .<< 0).
  rewrite !land_slice by lia. rewrite !Z.shiftr_div_pow2, !Z.shiftl_mul_pow2 by lia.
  change (2 ^ 0) with 1. rewrite Z.div_1_r. pow_const.
  set (a := x mod 256). set (b := (x / 256) mod 256). set (c := (x / 65536) mod 256).
  set (d := (x / 16777216) mod 256).
  assert (0 <= a < 256 /\ 0 <= b < 256 /\ 0 <= c < 256 /\ 0 <= d < 256)
    by (unfold a, b, c, d; repeat split; apply Z.mod_pos_bound; lia).
  clearbody a b c d. rewrite !u32_small by lia.
  replace (c * 65536 / 256) with (c * 256)
    by (replace (c * 65536) with (c * 256 * 256) by lia; by rewrite Z.div_mul).
  rewrite Z.div_mul by lia.
  replace (a * 1 * 16777216) with (Z.shiftl a 24) by (rewrite Z.shiftl_mul_pow2; lia).
  rewrite lor_shiftl_add by (change (2 ^ 24) with 16777216; lia).
  replace (a * 2 ^ 24 + b * 256 * 256) with (Z.shiftl (a * 256 + b) 16)
    by (rewrite Z.shiftl_mul_pow2; lia).
  rewrite lor_shiftl_add by (change (2 ^ 16) with 65536; lia).
  replace ((a * 256 + b) * 2 ^ 16 + c * 256) with (Z.shiftl (a * 65536 + b * 256 + c) 8)
    by (rewrite Z.shiftl_mul_pow2; lia).
  rewrite lor_shiftl_add by (change (2 ^ 8) with 256; lia).
  change (2 ^ 8) with 256. lia.
Qed.

Lemma hton_le32 a b c d :
  byte a -> byte b -> byte c -> byte d -> hton_int32 (le32 [a; b; c; d]) = be32 [a; b; c; d].
Proof.
  unfold in_u. intros Ha Hb Hc Hd. rewrite hton_fields. cbn [le32 be32]. pow_const.
  f_equal; [f_equal; [f_equal|]|]; div_lia.
Qed.

Lemma le_bytes_hton w : word w -> le_bytes (hton_int32 w) = be_bytes w.
Proof.
  unfold in_u. intros Hw. unfold le_bytes, be_bytes. rewrite hton_fields.
  rewrite !land_0xff, !Z.shiftr_div_pow2 by lia. pow_const.
  repeat (f_equal; [div_lia|]). f_equal. div_lia.
Qed.

(** ** Ciphering *)

Lemma xor_bytes_ok ks : forall msg,
  (length ks <= length msg)%nat ->
  exists m, xor_bytes msg ks = Ok m /\ length m = length msg /\
    drop (length ks) m = drop (length ks) msg /\ xor_bytes m ks = Ok msg.
Proof.
  induction ks as [|k ks IH]; intros msg Hl; [by exists msg|].
  destruct msg as [|b msg]; [cbn in Hl; lia|].
  destruct (IH msg) as (m & H1 & H2 & H3 & H4); [cbn in Hl; lia|].
  exists ((b .^ k) :: m). cbn [xor_bytes]. rewrite H1. cbn [mbind res_bind].
  split; [done|]. split; [cbn [length]; lia|]. split; [exact H3|].
  cbn [xor_bytes]. rewrite H4. cbn [mbind res_bind].
  by rewrite Z.lxor_assoc, Z.lxor_nilpotent, Z.lxor_0_r.
Qed.

Lemma rd_n_ok {A} (l : list A) off n :
  0 <= off -> 0 <= n -> off + n <= zlen l ->
  rd_n l off n = Ok (take (Z.to_nat n) (drop (Z.to_nat off) l)).
Proof. intros. unfold rd_n. by rewrite bool_decide_true. Qed.

Lemma load_key_ok sc :
  16 <= zlen (key sc) -> exists k0 k1 k2 k3, load_key sc = Ok (k0, k1, k2, k3).
Proof.
  intros Hk. unfold load_key, load32. rewrite !rd_n_ok by lia.
  cbn [mbind res_bind]. by do 4 eexists.
Qed.

Lemma concat_words_len {A} (f : A -> list Z) l :
  (forall x, length (f x) = 4%nat) -> length (concat (f <$> l)) = (4 * length l)%nat.
Proof.
  intros Hf. induction l as [|x l IH]; [done|]. rewrite fmap_cons. cbn [concat length].
  rewrite length_app, IH, Hf. lia.
Qed.

(** The length of the key stream. *)
Lemma key_stream_length n s : length (osa_snow3g_generate_key_stream n s) = n.
Proof.
  unfold osa_snow3g_generate_key_stream. destruct (osa_snow3g_clock_fsm s) as [_ s'].
  generalize (osa_snow3g_clock_LFSR_key_stream_mode s'). clear.
  induction n as [|n IH]; intros s; [done|]. cbn [key_stream_loop].
  destruct (osa_snow3g_clock_fsm s) as [F s']. cbn [length]. by rewrite IH.
Qed.

(** Bytes touched by EEA1 on [len] bytes: whole words. *)
Definition eea1_span (len : Z) : Z := 4 * ((len + 3) / 4).

Definition with_message (sc : stream_cipher) (m : list Z) : stream_cipher :=
  StreamCipher (key sc) (key_length sc) (count sc) (bearer sc) (direction sc) m (blength sc).

(** The number of bits is a whole number of bytes, and the sizes are those of
    the memory. *)
Record cipher_ok (span : Z) (sc : stream_cipher) (len : Z) : Prop := {
  co_len : 0 <= len < 268435456;
  co_blength : blength sc = 8 * len;
  co_key : key_length sc = 16 /\ 16 <= zlen (key sc);
  co_mem : span <= zlen (message sc)
}.

Lemma eea1_words sc len :
  cipher_ok (eea1_span len) sc len ->
  u32 (blength sc + 31) / 32 = (len + 3) / 4 /\ blength sc .& 0x7 = 0.
Proof.
  intros [Hl Hb _ _]. rewrite Hb, u32_small by lia. split; [div_lia|].
  rewrite (land_ones_mod _ 3) by lia. rewrite Z.mul_comm. by apply Z.mod_mul.
Qed.

Lemma eea1_run sc len :
  cipher_ok (eea1_span len) sc len ->
  exists m, stream_encrypt_eea1 sc = Ok (0, m) /\ zlen m = zlen (message sc) /\
    drop (Z.to_nat (eea1_span len)) m = drop (Z.to_nat (eea1_span len)) (message sc) /\
    stream_encrypt_eea1 (with_message sc m) = Ok (0, message sc).
Proof.
  intros Hok. destruct (eea1_words sc len Hok) as [Hn Hz].
  destruct Hok as [Hl Hb [Hk1 Hk2] Hm].
  destruct (load_key_ok sc Hk2) as (k0 & k1 & k2 & k3 & Hk).
  unfold stream_encrypt_eea1, eea1_key_stream. rewrite Hk1, Hz, Hn, Hk.
  change (load_key (with_message sc _)) with (load_key sc).
  cbn [Z.eqb Pos.eqb res_guard mbind res_bind Z.ltb Z.compare].
  set (KS := osa_snow3g_generate_key_stream _ _).
  set (ks := concat _).
  assert (Hks : length ks = Z.to_nat (eea1_span len)).
  { unfold ks. rewrite concat_words_len by done. unfold KS, eea1_span.
    rewrite key_stream_length. assert (0 <= (len + 3) / 4) by (apply Z.div_pos; lia). lia. }
  destruct (xor_bytes_ok ks (message sc)) as (m & X1 & X2 & X3 & X4).
  { rewrite Hks. unfold zlen in Hm. lia. }
  exists m. rewrite X1. cbn [mbind res_bind]. split; [done|].
  split; [unfold zlen; lia|]. split; [by rewrite <- Hks|].
  cbn [key_length with_message blength message count bearer direction].
  rewrite Hk1, Hz, Hn, Hk. cbn [Z.eqb Pos.eqb res_guard mbind res_bind].
  fold KS. cbn [Z.ltb Z.compare]. fold ks. by rewrite X4.
Qed.

Definition span (algorithm len : Z) : Z :=
  if algorithm =? EEA1_128_ALG_ID then eea1_span len else len.

(** Writing back what was read changes nothing. *)
Lemma wr_read {A} (l : list A) n :
  0 <= n <= zlen l -> wr l 0 (take (Z.to_nat n) l) = Ok l.
Proof.
  intros Hn. unfold wr. rewrite zlen_take, bool_decide_true by lia.
  cbn [Z.to_nat take app Nat.add]. rewrite length_take_le by (unfold zlen in Hn; lia).
  by rewrite take_drop.
Qed.

Lemma wr_front {A} (l x : list A) :
  zlen x <= zlen l -> wr l 0 x = Ok (x ++ drop (length x) l).
Proof. intros Hx. unfold wr. rewrite bool_decide_true by lia. done. Qed.

(** Deciphering as the code relies on it: the same function twice.  What the
    library's counter mode gives is assumed: it keeps the length and is its own
    inverse. *)
Section cipher.
Variable aes_ctr : list Z -> list Z -> list Z -> list Z.
Hypothesis ctr_length : forall k m d, length (aes_ctr k m d) = length d.
Hypothesis ctr_involutive : forall k m d, aes_ctr k m (aes_ctr k m d) = d.

Definition deciphers (algorithm : Z) (sc : stream_cipher) (n : Z) : Prop :=
  exists m, stream_encrypt aes_ctr algorithm sc = Ok (0, m) /\
    zlen m = zlen (message sc) /\
    drop (Z.to_nat n) m = drop (Z.to_nat n) (message sc) /\
    stream_encrypt aes_ctr algorithm (with_message sc m) = Ok (0, message sc).

Lemma eea0_deciphers sc len :
  cipher_ok len sc len -> deciphers EEA0_ALG_ID sc len.
Proof.
  intros [Hl Hb _ Hm].
  assert (Hr : stream_encrypt aes_ctr EEA0_ALG_ID sc = Ok (0, message sc)).
  { cbn [stream_encrypt Z.eqb]. unfold stream_encrypt, stream_encrypt_eea0.
    cbn [Z.eqb EEA0_ALG_ID EIA0_ALG_ID]. rewrite Hb, u32_small by lia.
    replace ((8 * len + 7) .>> 3) with len
      by (rewrite Z.shiftr_div_pow2 by lia; change (2 ^ 3) with 8; div_lia).
    rewrite rd_n_ok by lia. cbn [mbind res_bind].
    change (drop (Z.to_nat 0) (message sc)) with (message sc).
    rewrite (wr_read (message sc) len) by lia. done. }
  exists (message sc). split; [done|]. split; [done|]. split; [done|].
  by destruct sc.
Qed.

Lemma eea2_deciphers sc len :
  cipher_ok len sc len -> deciphers EEA2_128_ALG_ID sc len.
Proof.
  intros [Hl Hb [Hk1 Hk2] Hm].
  assert (Hz : blength sc .& 0x7 = 0).
  { rewrite Hb, (land_ones_mod _ 3), Z.mul_comm by lia. by apply Z.mod_mul. }
  assert (Hlen : (blength sc .>> 3) + 0 = len).
  { rewrite Hb, Z.shiftr_div_pow2 by lia. change (2 ^ 3) with 8. div_lia. }
  assert (Hrun : forall msg, zlen msg = zlen (message sc) ->
    exists k m, stream_encrypt aes_ctr EEA2_128_ALG_ID (with_message sc msg)
    = (msg ← wr msg 0 (aes_ctr k m (take (Z.to_nat len) msg)); Ok (0, msg)) /\
    k = take 16 (key sc) /\ m = le_bytes (hton_int32 (count sc))
           ++ [u8 (((bearer sc .& 0x1F) .<< 3) .| ((direction sc .& 0x01) .<< 2))]
           ++ replicate 11 0).
  { intros msg Hmsg. do 2 eexists. split; [|done].
    unfold stream_encrypt, stream_encrypt_eea2.
    cbn [Z.eqb Pos.eqb EEA0_ALG_ID EIA0_ALG_ID EEA1_128_ALG_ID EIA1_128_ALG_ID
      EEA2_128_ALG_ID EIA2_128_ALG_ID with_message key key_length count bearer
      direction message blength].
    rewrite Hz, Hk1. cbn [Z.ltb Z.compare]. rewrite Hlen, !rd_n_ok by lia. done. }
  destruct (Hrun (message sc) eq_refl) as (k & iv & R1 & -> & ->).
  set (k := take 16 (key sc)) in *. set (iv := le_bytes _ ++ _) in *.
  set (d := take (Z.to_nat len) (message sc)).
  assert (Hd : length d = Z.to_nat len)
    by (unfold d; rewrite length_take_le; [done|unfold zlen in Hm; lia]).
  replace (with_message sc (message sc)) with sc in R1 by (by destruct sc).
  rewrite wr_front in R1 by (unfold zlen; rewrite ctr_length; fold d; unfold zlen in Hm; lia).
  rewrite ctr_length in R1. fold d in R1. rewrite Hd in R1. cbn [mbind res_bind] in R1.
  set (m := aes_ctr k iv d ++ drop (Z.to_nat len) (message sc)) in *.
  assert (Hc : length (aes_ctr k iv d) = Z.to_nat len) by (by rewrite ctr_length).
  assert (Hlm : zlen m = zlen (message sc)).
  { unfold m, zlen. rewrite length_app, Hc, length_drop. unfold zlen in Hm. lia. }
  exists m. split; [done|]. split; [done|].
  split; [unfold m; by rewrite drop_app_length'|].
  destruct (Hrun m Hlm) as (k' & iv' & R2 & -> & ->). fold k iv in R2. rewrite R2.
  replace (take (Z.to_nat len) m) with (aes_ctr k iv d)
    by (unfold m; by rewrite take_app_length').
  rewrite ctr_involutive, wr_front by (unfold zlen in *; lia).
  cbn [mbind res_bind]. rewrite Hd. unfold m. rewrite drop_app_length' by done.
  unfold d. by rewrite take_drop.
Qed.

Lemma stream_deciphers algorithm sc len :
  0 <= algorithm <= 2 -> cipher_ok (span algorithm len) sc len ->
  deciphers algorithm sc (span algorithm len).
Proof.
  intros Ha Hok.
  assert (algorithm = 0 \/ algorithm = 1 \/ algorithm = 2) as [-> | [-> | ->]] by lia.
  - by apply eea0_deciphers.
  - destruct (eea1_run sc len Hok) as (m & H). by exists m.
  - by apply eea2_deciphers.
Qed.

(** C25.  Ciphering.  For each algorithm and a whole number of bytes, given
    the memory it touches, [stream_encrypt] succeeds, keeps the size of the
    message, leaves what lies beyond the bytes it touches (the data; for EEA1
    the data rounded up to whole words), and applied twice gives the message
    back: [stream_decrypt], which is the same function, deciphers. *)
Theorem stream_encrypt_involutive algorithm sc len :
  0 <= algorithm <= 2 -> cipher_ok (span algorithm len) sc len ->
  exists m, stream_encrypt aes_ctr algorithm sc = Ok (0, m) /\
    zlen m = zlen (message sc) /\
    drop (Z.to_nat (span algorithm len)) m
      = drop (Z.to_nat (span algorithm len)) (message sc) /\
    stream_encrypt aes_ctr algorithm (with_message sc m) = Ok (0, message sc).
Proof. apply stream_deciphers. Qed.
End cipher.

(** ** The multiplication of EIA1 *)

Abbreviation long := (in_u 64).

Lemma MUL64x_long V c : long c -> long (OSA_MUL64x V c).
Proof.
  intros Hc. unfold OSA_MUL64x.
  case_match; [apply in_u_lxor; [lia| |done]|]; by apply in_u_wrap.
Qed.

Lemma truth_testbit x k : 0 <= k -> truth (x .& (1 .<< k)) = Z.testbit x k.
Proof.
  intros Hk. unfold truth. destruct (Z.testbit x k) eqn:E.
  - apply negb_true_iff, Z.eqb_neq. intros H.
    apply (f_equal (fun z => Z.testbit z k)) in H.
    rewrite Z.land_spec, E, Z.shiftl_spec, Z.sub_diag, Z.bits_0 in H by done. done.
  - apply negb_false_iff, Z.eqb_eq. apply Z.bits_inj'. intros i Hi.
    rewrite Z.land_spec, Z.shiftl_spec, Z.bits_0 by done.
    destruct (decide (i = k)) as [->|Hne]; [by rewrite E|].
    destruct (Z.lt_ge_cases i k); [rewrite (Z.testbit_neg_r 1) by lia; apply andb_false_r|].
    replace (Z.testbit 1 (i - k)) with false; [apply andb_false_r|].
    symmetry. apply Z.bits_above_log2; [lia|cbn; lia].
Qed.

Lemma wrapU_lxor w a b : 0 <= w -> wrapU w (a .^ b) = wrapU w a .^ wrapU w b.
Proof.
  intros Hw. unfold wrapU. apply Z.bits_inj'. intros i Hi. rewrite Z.lxor_spec.
  destruct (Z.lt_ge_cases i w).
  - by rewrite !Z.mod_pow2_bits_low, Z.lxor_spec by lia.
  - by rewrite !Z.mod_pow2_bits_high by lia.
Qed.

Lemma MUL64x_lxor a b c : OSA_MUL64x (a .^ b) c = OSA_MUL64x a c .^ OSA_MUL64x b c.
Proof.
  unfold OSA_MUL64x. change 0x8000000000000000 with (1 .<< 63).
  rewrite !truth_testbit, Z.lxor_spec, Z.shiftl_lxor, wrapU_lxor by lia.
  set (u := wrapU 64 (a .<< 1)). set (v := wrapU 64 (b .<< 1)).
  destruct (Z.testbit a 63), (Z.testbit b 63); cbn [xorb];
    apply Z.bits_inj'; intros i Hi; rewrite !Z.lxor_spec;
    by destruct (Z.testbit u i), (Z.testbit v i), (Z.testbit c i).
Qed.

Section mul64.
Variable c : Z.
Hypothesis c_long : long c.
Local Abbreviation mulx V := (OSA_MUL64x V c).
Local Abbreviation pow V i := (OSA_MUL64xPOW V i c).
Local Abbreviation mul V P := (OSA_MUL64 V P c).

Lemma pow_lxor i a b : pow (a .^ b) i = pow a i .^ pow b i.
Proof.
  induction i as [|i IH]; [done|]. cbn [OSA_MUL64xPOW]. by rewrite IH, MUL64x_lxor.
Qed.

Lemma pow_zero i : pow 0 i = 0.
Proof.
  induction i as [|i IH]; [done|]. cbn [OSA_MUL64xPOW]. rewrite IH. done.
Qed.

Lemma pow_long i V : long V -> long (pow V i).
Proof. intros HV. destruct i; [done|]. by apply MUL64x_long. Qed.

Lemma pow_mulx i V : pow (mulx V) i = mulx (pow V i).
Proof. induction i as [|i IH]; [done|]. cbn [OSA_MUL64xPOW]. by rewrite IH. Qed.

(** The product as the exclusive or of its terms. *)
Fixpoint xsum (f : nat -> Z) (n : nat) : Z :=
  match n with O => 0 | S n => xsum f n .^ f n end.

Definition term (V P : Z) (i : nat) : Z :=
  if Z.testbit P (Z.of_nat i) then pow V i else 0.

Lemma mul_xsum V P : mul V P = xsum (term V P) 64.
Proof.
  unfold OSA_MUL64.
  assert (H : forall n, foldl (fun result i =>
      if truth ((P .>> Z.of_nat i) .& 0x1) then result .^ pow V i else result) 0 (seq 0 n)
    = xsum (term V P) n).
  { induction n as [|n IH]; [done|]. rewrite seq_S, foldl_app, IH.
    cbn [foldl xsum]. rewrite Nat.add_0_l.
    replace (truth ((P .>> Z.of_nat n) .& 0x1)) with (Z.testbit P (Z.of_nat n)).
    - change (term V P n) with (if Z.testbit P (Z.of_nat n) then pow V n else 0).
      destruct (Z.testbit P (Z.of_nat n)); [done|]. by rewrite Z.lxor_0_r.
    - pose proof (truth_testbit (P .>> Z.of_nat n) 0 ltac:(lia)) as Ht.
      rewrite Z.shiftr_spec in Ht by lia. symmetry. exact Ht. }
  apply H.
Qed.

Lemma xsum_ext f g n : (forall i, (i < n)%nat -> f i = g i) -> xsum f n = xsum g n.
Proof.
  induction n as [|n IH]; intros H; [done|]. cbn. rewrite IH, H; [done|lia|].
  intros i Hi. apply H. lia.
Qed.

Lemma lxor_shuffle a b x y : (a .^ b) .^ (x .^ y) = (a .^ x) .^ (b .^ y).
Proof.
  rewrite !Z.lxor_assoc. f_equal. rewrite <- !Z.lxor_assoc. f_equal. apply Z.lxor_comm.
Qed.

Lemma xsum_lxor f g n : xsum (fun i => f i .^ g i) n = xsum f n .^ xsum g n.
Proof. induction n as [|n IH]; [done|]. cbn. by rewrite IH, lxor_shuffle. Qed.

Lemma xsum_map (h : Z -> Z) f n :
  h 0 = 0 -> (forall a b, h (a .^ b) = h a .^ h b) -> h (xsum f n) = xsum (fun i => h (f i)) n.
Proof. intros H0 Hh. induction n as [|n IH]; [done|]. cbn. by rewrite Hh, IH. Qed.

Lemma xsum_long f n : (forall i, long (f i)) -> long (xsum f n).
Proof. intros Hf. induction n as [|n IH]; [done|]. by apply in_u_lxor. Qed.

Lemma mul_long V P : long V -> long (mul V P).
Proof.
  intros HV. rewrite mul_xsum. apply xsum_long. intros i. unfold term.
  case_match; [by apply pow_long|done].
Qed.

Lemma mul_lxor_l a b P : mul (a .^ b) P = mul a P .^ mul b P.
Proof.
  rewrite !mul_xsum, <- xsum_lxor. apply xsum_ext. intros i _. unfold term.
  case_match; [apply pow_lxor|done].
Qed.

Lemma mul_lxor_r V a b : mul V (a .^ b) = mul V a .^ mul V b.
Proof.
  rewrite !mul_xsum, <- xsum_lxor. apply xsum_ext. intros i _. unfold term.
  rewrite Z.lxor_spec. destruct (Z.testbit a _), (Z.testbit b _); cbn [xorb];
    by rewrite ?Z.lxor_0_r, ?Z.lxor_nilpotent, ?Z.lxor_0_l.
Qed.

Lemma mul_0_l P : mul 0 P = 0.
Proof.
  rewrite mul_xsum. rewrite (xsum_ext _ (fun _ => 0)); [done|].
  intros i _. unfold term. case_match; [apply pow_zero|done].
Qed.
Lemma mul_0_r V : mul V 0 = 0.
Proof.
  rewrite mul_xsum. rewrite (xsum_ext _ (fun _ => 0)); [done|].
  intros i _. unfold term. by rewrite Z.bits_0.
Qed.

Lemma mul_mulx V P : mul (mulx V) P = mulx (mul V P).
Proof.
  rewrite !mul_xsum, (xsum_map (fun z => mulx z)) by (done || apply (fun a b => MUL64x_lxor a b c)).
  apply xsum_ext. intros i _. unfold term. case_match; [apply pow_mulx|done].
Qed.

(** A 64-bit value is the exclusive or of its bits. *)
Definition bit_of (V : Z) (i : nat) : Z :=
  if Z.testbit V (Z.of_nat i) then 1 .<< Z.of_nat i else 0.

Lemma xsum_bits_spec V n k :
  0 <= k -> Z.testbit (xsum (bit_of V) n) k = (k <? Z.of_nat n) && Z.testbit V k.
Proof.
  intros Hk. induction n as [|n IH].
  - change (Z.of_nat 0) with 0. cbn [xsum]. by rewrite Z.bits_0, (proj2 (Z.ltb_ge k 0)).
  - cbn [xsum]. rewrite Z.lxor_spec, IH. unfold bit_of.
    assert (Hb : Z.testbit (if Z.testbit V (Z.of_nat n) then 1 .<< Z.of_nat n else 0) k
      = (k =? Z.of_nat n) && Z.testbit V k).
    { destruct (Z.eqb_spec k (Z.of_nat n)) as [->|Hne].
      - cbn [andb]. case_match; [|by rewrite Z.bits_0].
        by rewrite Z.shiftl_spec, Z.sub_diag by lia.
      - cbn [andb]. case_match; [|by rewrite Z.bits_0].
        rewrite Z.shiftl_spec by lia. destruct (Z.lt_ge_cases k (Z.of_nat n)).
        + by rewrite Z.testbit_neg_r by lia.
        + apply Z.bits_above_log2; [lia|cbn; lia]. }
    rewrite Hb. destruct (Z.ltb_spec k (Z.of_nat n)), (Z.eqb_spec k (Z.of_nat n)),
      (Z.ltb_spec k (Z.of_nat (S n))); try lia; by destruct (Z.testbit V k).
Qed.

Lemma xsum_bits V : long V -> xsum (bit_of V) 64 = V.
Proof.
  intros HV. apply Z.bits_inj'. intros k Hk. rewrite xsum_bits_spec by done.
  destruct (Z.ltb_spec k (Z.of_nat 64)); [done|]. cbn [andb].
  apply (in_u_testbit 64) in HV as [_ HV]; [|lia]. symmetry. apply HV. lia.
Qed.

Lemma testbit_shl1 j i : Z.testbit (1 .<< Z.of_nat j) (Z.of_nat i) = (i =? j)%nat.
Proof.
  rewrite Z.shiftl_spec by lia. destruct (Nat.eqb_spec i j) as [->|Hne].
  - by rewrite Z.sub_diag.
  - destruct (Z.lt_ge_cases (Z.of_nat i) (Z.of_nat j)).
    + apply Z.testbit_neg_r. lia.
    + apply Z.bits_above_log2; [lia|cbn; lia].
Qed.

Lemma xsum_single (v : Z) j n :
  xsum (fun i => if (i =? j)%nat then v else 0) n = if (j <? n)%nat then v else 0.
Proof.
  induction n as [|n IH]; [done|]. cbn [xsum]. rewrite IH.
  destruct (Nat.ltb_spec j n), (Nat.eqb_spec n j), (Nat.ltb_spec j (S n)); try lia;
    by rewrite ?Z.lxor_0_r, ?Z.lxor_0_l.
Qed.

(** Multiplication by a power of two. *)
Lemma mul_bit V j : (j < 64)%nat -> mul V (1 .<< Z.of_nat j) = pow V j.
Proof.
  intros Hj. rewrite mul_xsum.
  rewrite (xsum_ext _ (fun i => if (i =? j)%nat then pow V j else 0)).
  - rewrite xsum_single. by rewrite (proj2 (Nat.ltb_lt j 64)).
  - intros i _. unfold term. rewrite testbit_shl1.
    destruct (Nat.eqb_spec i j) as [->|]; done.
Qed.

Lemma pow_add V i j : pow (pow V i) j = pow V (j + i).
Proof. induction j as [|j IH]; [done|]. cbn [OSA_MUL64xPOW Nat.add]. by rewrite IH. Qed.

Lemma pow_1 j : (j < 64)%nat -> pow 1 j = 1 .<< Z.of_nat j.
Proof.
  induction j as [|j IH]; intros Hj; [done|]. cbn [OSA_MUL64xPOW]. rewrite IH by lia.
  unfold OSA_MUL64x. change 0x8000000000000000 with (1 .<< 63).
  rewrite truth_testbit by lia. change 63 with (Z.of_nat 63). rewrite testbit_shl1.
  rewrite (proj2 (Nat.eqb_neq 63 j)) by lia.
  rewrite Z.shiftl_shiftl by lia.
  replace (Z.of_nat j + 1) with (Z.of_nat (S j)) by lia.
  apply wrapU_small. rewrite Z.shiftl_1_l. split; [apply Z.pow_nonneg; lia|].
  apply Z.pow_lt_mono_r; lia.
Qed.

Lemma basis_comm i j :
  (i < 64)%nat -> (j < 64)%nat ->
  mul (1 .<< Z.of_nat i) (1 .<< Z.of_nat j) = mul (1 .<< Z.of_nat j) (1 .<< Z.of_nat i).
Proof.
  intros Hi Hj. rewrite !mul_bit by done. rewrite <- !pow_1, !pow_add by done.
  by rewrite Nat.add_comm.
Qed.

Lemma mul_pow_l V i P : mul (pow V i) P = pow (mul V P) i.
Proof.
  induction i as [|i IH]; cbn [OSA_MUL64xPOW]; [reflexivity|]. by rewrite mul_mulx, IH.
Qed.

#[local] Opaque OSA_MUL64 OSA_MUL64xPOW.

Lemma mul_decomp_l V P : long V -> mul V P = xsum (fun i => mul (bit_of V i) P) 64.
Proof.
  intros HV. rewrite <- (xsum_map (fun z => mul z P) (bit_of V)).
  - by rewrite xsum_bits.
  - apply mul_0_l.
  - intros. apply mul_lxor_l.
Qed.

Lemma mul_decomp_r V P : long P -> mul V P = xsum (fun i => mul V (bit_of P i)) 64.
Proof.
  intros HP. rewrite <- (xsum_map (fun z => mul V z) (bit_of P)).
  - by rewrite xsum_bits.
  - apply mul_0_r.
  - intros. apply mul_lxor_r.
Qed.

Lemma mul_bit_comm V j : long V -> (j < 64)%nat ->
  mul V (1 .<< Z.of_nat j) = mul (1 .<< Z.of_nat j) V.
Proof.
  intros HV Hj. rewrite (mul_decomp_l V _ HV), (mul_decomp_r _ V HV).
  apply xsum_ext. intros i Hi. unfold bit_of. case_match; [by apply basis_comm|].
  by rewrite mul_0_l, mul_0_r.
Qed.

Lemma mul_comm V P : long V -> long P -> mul V P = mul P V.
Proof.
  intros HV HP. rewrite (mul_decomp_l P V HP), (mul_decomp_r V P HP).
  apply xsum_ext. intros i Hi. unfold bit_of. case_match; [by apply mul_bit_comm|].
  by rewrite mul_0_l, mul_0_r.
Qed.

Lemma mul_assoc a b d : long a -> long b -> long d -> mul (mul a b) d = mul a (mul b d).
Proof.
  intros Ha Hb Hd. transitivity (mul (mul b d) a).
  2: { symmetry. apply mul_comm; [done|]. apply mul_long, Hb. }
  transitivity (xsum (fun i => mul (term b d i) a) 64).
  2: { rewrite (mul_xsum b d). symmetry. apply (xsum_map (fun z => mul z a)).
       - apply mul_0_l.
       - intros. apply mul_lxor_l. }
  rewrite (mul_xsum (mul a b) d). apply xsum_ext. intros i Hi. unfold term.
  destruct (Z.testbit d (Z.of_nat i)); [|by rewrite mul_0_l].
  rewrite mul_pow_l. f_equal. by apply mul_comm.
Qed.

Lemma mul_1_r V : mul V 1 = V.
Proof. apply (mul_bit V 0). lia. Qed.
End mul64.

(** C37.  [OSA_MUL64] with the constant of EIA1 is the multiplication of a
    commutative ring on 64-bit values, with exclusive or for addition. *)
Theorem mul64_ring a b d :
  long a -> long b -> long d ->
  let mul x y := OSA_MUL64 x y 0x1b in
  long (mul a b) /\ mul a b = mul b a /\ mul (mul a b) d = mul a (mul b d) /\
  mul (a .^ b) d = mul a d .^ mul b d /\ mul a 1 = a.
Proof.
  intros Ha Hb Hd mul. unfold mul. clear mul.
  assert (Hc : long 0x1b) by done.
  split; [by apply mul_long|]. split; [by apply mul_comm|].
  split; [by apply mul_assoc|]. split; [apply mul_lxor_l|apply mul_1_r].
Qed.

(** ** EIA1 as it is defined *)

Definition be64 (l : list Z) : Z := be32 (take 4 l) * 2 ^ 32 + be32 (drop 4 l).

Fixpoint blocks64 (n : nat) (l : list Z) : list Z :=
  match n with
  | O => []
  | S n => be64 (take 8 l) :: blocks64 n (drop 8 l)
  end.

(** The message padded with zero bits to whole blocks of 64. *)
Definition eia1_pad (data : list Z) : list Z :=
  data ++ replicate (Z.to_nat ((- zlen data) mod 8)) 0.
Definition eia1_message (data : list Z) : list Z :=
  blocks64 (Z.to_nat ((zlen data + 7) / 8)) (eia1_pad data).

(** Evaluation at [P] of the polynomial of the blocks and of the length in
    bits, times [Q], and the last word of the key stream. *)
Definition eia1_mac (z : list Z) (data : list Z) : Z :=
  let word i := nth i z 0 in
  let P := word 0%nat * 2 ^ 32 + word 1%nat in
  let Q := word 2%nat * 2 ^ 32 + word 3%nat in
  let EVAL := foldl (fun e m => OSA_MUL64 (e .^ m) P 0x1b) 0 (eia1_message data) in
  (OSA_MUL64 (EVAL .^ (8 * zlen data)) Q 0x1b) / 2 ^ 32 .^ word 4%nat.

Lemma list_4 (l : list Z) : length l = 4%nat -> exists a b c d, l = [a; b; c; d].
Proof. destruct l as [|a [|b [|c [|d [|]]]]]; try done. eauto. Qed.

Lemma be32_word l : bytes l -> word (be32 l).
Proof.
  intros Hl. destruct l as [|a [|b [|c [|d [|]]]]]; try done.
  repeat (apply Forall_cons in Hl as [? Hl]). unfold in_u in *. cbn [be32]. pow_const. lia.
Qed.

(** A word read from bytes. *)
Lemma load32_be msg i :
  bytes msg -> 0 <= i -> 4 * i + 4 <= zlen msg ->
  exists w, load32 msg i = Ok w /\
    hton_int32 w = be32 (take 4 (drop (Z.to_nat (4 * i)) msg)).
Proof.
  intros Hb Hi Hl. unfold load32. rewrite rd_n_ok by lia. cbn [mbind res_bind].
  eexists. split; [reflexivity|]. change (Z.to_nat 4) with 4%nat.
  set (l := take 4 (drop (Z.to_nat (4 * i)) msg)).
  assert (Hlb : bytes l) by (by apply Forall_take, Forall_drop).
  destruct (list_4 l) as (a & b & c & d & E).
  { unfold l. rewrite length_take, length_drop. unfold zlen in Hl. lia. }
  rewrite E in *. repeat (apply Forall_cons in Hlb as [? Hlb]). by apply hton_le32.
Qed.

Lemma lor_words h l : word h -> word l -> (h .<< 32) .| l = h * 2 ^ 32 + l.
Proof. intros Hh Hl. apply lor_shiftl_add; [lia|exact Hl]. Qed.

Lemma drop_0 {A} (l : list A) : drop 0 l = l.
Proof. done. Qed.

(** The loop on full blocks. *)
Lemma eia1_blocks_spec P c n : forall msg i EVAL,
  bytes msg -> 0 <= i -> 8 * (i + Z.of_nat n) <= zlen msg ->
  eia1_blocks n msg P c i EVAL
  = Ok (foldl (fun e m => OSA_MUL64 (e .^ m) P c) EVAL
          (blocks64 n (drop (Z.to_nat (8 * i)) msg))).
Proof.
  induction n as [|n IH]; intros msg i EVAL Hb Hi Hl; [done|]. cbn [eia1_blocks].
  destruct (load32_be msg (2 * i) Hb) as (w0 & -> & E0); [lia..|].
  destruct (load32_be msg (2 * i + 1) Hb) as (w1 & -> & E1); [lia..|].
  cbn [mbind res_bind]. rewrite IH by (done || lia). f_equal.
  cbn [blocks64 foldl]. rewrite drop_drop.
  replace (Z.to_nat (8 * i) + 8)%nat with (Z.to_nat (8 * (i + 1))) by lia.
  f_equal. f_equal. f_equal.
  rewrite E0, E1. unfold be64.
  rewrite lor_words by (apply be32_word; by apply Forall_take, Forall_drop).
  f_equal; [f_equal|]; f_equal.
  - replace (4 * (2 * i)) with (8 * i) by lia. by rewrite take_take.
  - rewrite skipn_firstn_comm, drop_drop.
    by replace (Z.to_nat (4 * (2 * i + 1))) with (Z.to_nat (8 * i) + 4)%nat by lia.
Qed.

(** The mask keeps the first [j] bytes of a word. *)
Lemma mask_bytes j l :
  (1 <= j <= 4)%nat -> bytes l -> length l = 4%nat ->
  be32 l .& osa_mask32bit (8 * Z.of_nat j %% 32) = be32 (take j l ++ replicate (4 - j) 0).
Proof.
  intros Hj Hb Hl. destruct (list_4 l Hl) as (a & b & c & d & ->).
  repeat (apply Forall_cons in Hb as [? Hb]). unfold in_u in *.
  assert (j = 1 \/ j = 2 \/ j = 3 \/ j = 4)%nat as [-> | [-> | [-> | ->]]] by lia.
  - change (osa_mask32bit _) with ((2 ^ 8 - 1) .<< 24). rewrite land_slice by lia.
    cbn [be32 take app replicate Nat.sub]. pow_const. div_lia.
  - change (osa_mask32bit _) with ((2 ^ 16 - 1) .<< 16). rewrite land_slice by lia.
    cbn [be32 take app replicate Nat.sub]. pow_const. div_lia.
  - change (osa_mask32bit _) with ((2 ^ 24 - 1) .<< 8). rewrite land_slice by lia.
    cbn [be32 take app replicate Nat.sub]. pow_const. div_lia.
  - change (osa_mask32bit _) with ((2 ^ 32 - 1) .<< 0). rewrite land_slice by lia.
    cbn [be32 take app replicate Nat.sub]. pow_const. change (2 ^ 0) with 1.
    rewrite Z.div_1_r, Z.mod_small; lia.
Qed.

Lemma be32_zero : be32 (replicate 4 0) = 0.
Proof. done. Qed.

(** The last block of [r] bytes, as the code takes it from memory. *)
Lemma last_block msg i r :
  bytes msg -> 0 <= i -> 1 <= r <= 8 ->
  8 * i + (if 4 <? r then 8 else 4) <= zlen msg ->
  (w0 ← load32 msg (2 * i);
   if 32 <? 8 * r then
     w1 ← load32 msg (2 * i + 1);
     Ok ((hton_int32 w0 .<< 32) .| (hton_int32 w1 .& osa_mask32bit (8 * r %% 32)))
   else Ok ((hton_int32 w0 .& osa_mask32bit (8 * r %% 32)) .<< 32))
  = Ok (be64 (take (Z.to_nat r) (drop (Z.to_nat (8 * i)) msg)
              ++ replicate (Z.to_nat (8 - r)) 0)).
Proof.
  intros Hb Hi Hr Hl. set (m := drop (Z.to_nat (8 * i)) msg).
  assert (Hbm : bytes m) by (by apply Forall_drop).
  assert (Hlm : (if 4 <? r then 8 else 4) <= zlen m)
    by (unfold m; rewrite zlen_drop; destruct (4 <? r); lia).
  destruct (load32_be msg (2 * i) Hb) as (w0 & -> & E0); [lia|destruct (4 <? r); lia|].
  replace (4 * (2 * i)) with (8 * i) in E0 by lia. fold m in E0.
  cbn [mbind res_bind].
  destruct (Z.ltb_spec 4 r) as [H4|H4].
  - rewrite (proj2 (Z.ltb_lt 32 (8 * r))) by lia.
    destruct (load32_be msg (2 * i + 1) Hb) as (w1 & -> & E1); [lia..|].
    cbn [mbind res_bind]. f_equal.
    assert (E1' : hton_int32 w1 = be32 (take 4 (drop 4 m))).
    { rewrite E1. unfold m. rewrite drop_drop. do 3 f_equal. lia. }
    set (j := Z.to_nat (r - 4)).
    assert (Hj : 8 * r %% 32 = 8 * Z.of_nat j %% 32).
    { unfold j. rewrite Z2Nat.id by lia.
      assert (r = 5 \/ r = 6 \/ r = 7 \/ r = 8) as [-> | [-> | [-> | ->]]] by lia; done. }
    rewrite E0, E1', Hj. rewrite mask_bytes.
    + unfold be64. rewrite lor_words; [|by apply be32_word, Forall_take|].
      * f_equal; [f_equal|]; f_equal.
        -- rewrite take_app_le by (rewrite length_take; unfold zlen in Hlm; unfold j in *; lia).
           rewrite take_take. f_equal. lia.
        -- rewrite drop_app_le by (rewrite length_take; unfold zlen in Hlm; unfold j in *; lia).
           rewrite skipn_firstn_comm, take_take. unfold j.
           f_equal; [f_equal; lia|]. f_equal. lia.
      * apply be32_word, Forall_app. split; [by apply Forall_take, Forall_take, Forall_drop|].
        apply Forall_replicate. done.
    + unfold j. lia.
    + by apply Forall_take, Forall_drop.
    + rewrite length_take, length_drop. unfold zlen in Hlm. lia.
  - rewrite (proj2 (Z.ltb_ge 32 (8 * r))) by lia. f_equal.
    set (j := Z.to_nat r). replace (8 * r) with (8 * Z.of_nat j) by lia.
    rewrite E0, mask_bytes; [|lia|by apply Forall_take|rewrite length_take; unfold zlen in Hlm; lia].
    unfold be64. rewrite Z.shiftl_mul_pow2 by lia. rewrite take_take.
    replace (j `min` 4)%nat with j by lia.
    replace (Z.to_nat (8 - r)) with ((4 - j) + 4)%nat by lia.
    rewrite replicate_add, app_assoc.
    assert (Hl4 : length (take j m ++ replicate (4 - j) 0) = 4%nat)
      by (rewrite length_app, length_take, length_replicate; unfold zlen in Hlm; lia).
    rewrite take_app_length', drop_app_length' by done. rewrite be32_zero. lia.
Qed.

(** Blocks of a list which begins with whole blocks. *)
Lemma blocks64_split n a b :
  length a = (8 * n)%nat -> blocks64 (S n) (a ++ b) = blocks64 n a ++ [be64 (take 8 b)].
Proof.
  revert a. induction n as [|n IH]; intros a Ha.
  - destruct a; [done|cbn in Ha; lia].
  - change (blocks64 (S (S n)) (a ++ b)) with
      (be64 (take 8 (a ++ b)) :: blocks64 (S n) (drop 8 (a ++ b))).
    rewrite drop_app_le, take_app_le by lia. rewrite IH by (rewrite length_drop; lia). done.
Qed.

Lemma blocks64_prefix n : forall a b,
  (8 * n <= length a)%nat -> blocks64 n (a ++ b) = blocks64 n a.
Proof.
  induction n as [|n IH]; intros a b Ha; [done|]. cbn [blocks64].
  rewrite drop_app_le, take_app_le by lia. by rewrite IH by (rewrite length_drop; lia).
Qed.

(** The code's blocks are those of the padded message. *)
Lemma message_split data n r :
  zlen data = 8 * Z.of_nat n + r -> 1 <= r <= 8 ->
  eia1_message data
  = blocks64 n data ++ [be64 (drop (8 * n) data ++ replicate (Z.to_nat (8 - r)) 0)].
Proof.
  intros Hl Hr. unfold eia1_message, eia1_pad. rewrite Hl.
  replace (Z.to_nat ((8 * Z.of_nat n + r + 7) / 8)) with (S n) by div_lia.
  replace ((- (8 * Z.of_nat n + r)) mod 8) with (8 - r).
  2: { rewrite <- (Z.mod_small (8 - r) 8) at 1 by lia.
       replace (- (8 * Z.of_nat n + r)) with (8 - r + (- Z.of_nat n - 1) * 8) by lia.
       by rewrite Z.mod_add. }
  rewrite <- (take_drop (8 * n) data) at 1. rewrite <- app_assoc, blocks64_split.
  - rewrite <- (blocks64_prefix n (take (8 * n) data) (drop (8 * n) data)), take_drop.
    + f_equal. f_equal. f_equal. apply take_ge.
      rewrite length_app, length_drop, length_replicate. unfold zlen in Hl. lia.
    + rewrite length_take. unfold zlen in Hl. lia.
  - rewrite length_take. unfold zlen in Hl. lia.
Qed.

Lemma load_key_words sc :
  16 <= zlen (key sc) -> bytes (key sc) ->
  exists k0 k1 k2 k3, load_key sc = Ok (k0, k1, k2, k3) /\
    word k0 /\ word k1 /\ word k2 /\ word k3.
Proof.
  intros Hk Hb. unfold load_key.
  destruct (load32_be (key sc) 0 Hb) as (w3 & -> & E3); [lia..|].
  destruct (load32_be (key sc) 1 Hb) as (w2 & -> & E2); [lia..|].
  destruct (load32_be (key sc) 2 Hb) as (w1 & -> & E1); [lia..|].
  destruct (load32_be (key sc) 3 Hb) as (w0 & -> & E0); [lia..|].
  cbn [mbind res_bind]. do 4 eexists. split; [reflexivity|].
  rewrite E0, E1, E2, E3.
  split; [|split; [|split]]; by apply be32_word, Forall_take, Forall_drop.
Qed.

(** Parameters within their types. *)
Record params_ok (sc : stream_cipher) : Prop := {
  po_key : 16 <= zlen (key sc) /\ bytes (key sc);
  po_count : word (count sc);
  po_direction : 0 <= direction sc < 256
}.

Lemma eia1_key_stream_ok sc :
  params_ok sc -> exists z0 z1 z2 z3 z4, eia1_key_stream sc = Ok [z0; z1; z2; z3; z4] /\
    Forall word [z0; z1; z2; z3; z4].
Proof.
  intros [[Hk Hb] Hc Hd]. unfold eia1_key_stream.
  destruct (load_key_words sc Hk Hb) as (k0 & k1 & k2 & k3 & -> & W0 & W1 & W2 & W3).
  cbn [mbind res_bind].
  set (b := u32 _). assert (Hbw : word b) by (by apply in_u_wrap).
  set (s := osa_snow3g_initialize _ _ _ _ _ _ _ _).
  assert (Hs : words s).
  { apply initialize_words. repeat (apply Forall_cons; split); try done;
      apply in_u_lxor; try lia; try done; by apply in_u_wrap. }
  destruct (generate_words 5 s Hs) as [Hl Hw].
  destruct (osa_snow3g_generate_key_stream 5 s) as [|z0 [|z1 [|z2 [|z3 [|z4 [|]]]]]];
    try done. by exists z0, z1, z2, z3, z4.
Qed.

Lemma high_word x : long x -> u32 (x .>> 32) = x / 2 ^ 32.
Proof.
  unfold in_u. intros Hx. rewrite Z.shiftr_div_pow2 by lia. apply u32_small.
  change (2 ^ 64) with 18446744073709551616 in Hx. pow_const. div_lia.
Qed.

Lemma be64_long l : bytes l -> long (be64 l).
Proof.
  intros Hl. pose proof (be32_word _ (Forall_take _ 4 _ Hl)) as H1.
  pose proof (be32_word _ (Forall_drop _ 4 _ Hl)) as H2.
  unfold be64, in_u in *. change (2 ^ 64) with (2 ^ 32 * 2 ^ 32). pow_const. nia.
Qed.

Lemma blocks64_long n : forall l, bytes l -> Forall long (blocks64 n l).
Proof.
  induction n as [|n IH]; intros l Hl; [done|]. cbn [blocks64]. apply Forall_cons.
  split; [by apply be64_long, Forall_take|by apply IH, Forall_drop].
Qed.

Lemma eval_long P c ms : forall e,
  long c -> long e -> Forall long ms ->
  long (foldl (fun e m => OSA_MUL64 (e .^ m) P c) e ms).
Proof.
  induction ms as [|m ms IH]; intros e Hc He Hms; [done|].
  apply Forall_cons in Hms as [Hm Hms]. cbn [foldl]. apply IH; [done| |done].
  apply mul_long; [done|]. by apply in_u_lxor.
Qed.

Lemma eia1_run sc data rest :
  params_ok sc -> message sc = data ++ rest -> bytes (message sc) ->
  0 < zlen data < 268435456 -> blength sc = 8 * zlen data ->
  eea1_span (zlen data) <= zlen (message sc) ->
  exists z, eia1_key_stream sc = Ok z /\
    stream_compute_integrity_eia1 sc = Ok (0, be_bytes (eia1_mac z data)).
Proof.
  intros Hp Hm Hb Hl Hbl Hspan.
  destruct (eia1_key_stream_ok sc Hp) as (z0 & z1 & z2 & z3 & z4 & Hz & Hw).
  exists [z0; z1; z2; z3; z4]. split; [done|].
  repeat (apply Forall_cons in Hw as [? Hw]).
  set (len := zlen data) in *.
  set (n := Z.to_nat ((len - 1) / 8)). set (r := (len - 1) mod 8 + 1).
  assert (Hn : len = 8 * Z.of_nat n + r /\ 1 <= r <= 8).
  { unfold n, r. rewrite Z2Nat.id by (apply Z.div_pos; lia). div_lia. }
  destruct Hn as [Hn Hr]. clearbody n r.
  assert (Hsp : 8 * Z.of_nat n + (if 4 <? r then 8 else 4) <= zlen (message sc)).
  { revert Hspan. unfold eea1_span. rewrite Hn. destruct (Z.ltb_spec 4 r); intros; div_lia. }
  unfold stream_compute_integrity_eia1. rewrite Hz. cbn [mbind res_bind].
  change (rd [z0; z1; z2; z3; z4] 0) with (Ok z0). change (rd [z0; z1; z2; z3; z4] 1) with (Ok z1).
  change (rd [z0; z1; z2; z3; z4] 2) with (Ok z2). change (rd [z0; z1; z2; z3; z4] 3) with (Ok z3).
  change (rd [z0; z1; z2; z3; z4] 4) with (Ok z4). cbn [mbind res_bind].
  rewrite !lor_words by done. rewrite Hbl.
  replace ((8 * len + 63) / 64 + 1 - 2) with (Z.of_nat n) by div_lia.
  rewrite Nat2Z.id, eia1_blocks_spec; [|done|lia|].
  2: { rewrite Hm, zlen_app. fold len. pose proof (zlen_nonneg rest). lia. }
  cbn [mbind res_bind].
  assert (Hrem : (let rem_bits := 8 * len %% 64 in if rem_bits =? 0 then 64 else rem_bits) = 8 * r).
  { cbn zeta. rewrite Z.rem_mod_nonneg by lia. rewrite Hn.
    replace (8 * (8 * Z.of_nat n + r)) with (8 * r + Z.of_nat n * 64) by lia.
    rewrite Z.mod_add by lia.
    destruct (Z.eqb_spec r 8) as [->|]; [done|].
    rewrite Z.mod_small by lia. by rewrite (proj2 (Z.eqb_neq (8 * r) 0)) by lia. }
  cbn zeta in Hrem. rewrite Hrem.
  pose proof (last_block (message sc) (Z.of_nat n) r Hb ltac:(lia) Hr Hsp) as Hlast.
  cbn [mbind res_bind] in Hlast |- *. rewrite Hlast. cbn [mbind res_bind].
  assert (Hblk : blocks64 n (drop (Z.to_nat (8 * 0)) (message sc))
                 ++ [be64 (take (Z.to_nat r) (drop (Z.to_nat (8 * Z.of_nat n)) (message sc))
                           ++ replicate (Z.to_nat (8 - r)) 0)]
               = eia1_message data).
  { rewrite (message_split data n r) by done. rewrite Hm. change (Z.to_nat (8 * 0)) with 0%nat.
    assert (Hd : length data = (8 * n + Z.to_nat r)%nat) by (unfold len, zlen in Hn; lia).
    rewrite drop_0, blocks64_prefix by lia. f_equal. f_equal. f_equal. f_equal.
    replace (Z.to_nat (8 * Z.of_nat n)) with (8 * n)%nat by lia.
    rewrite drop_app_le, take_app_le by (rewrite ?length_drop; lia).
    apply take_ge. rewrite length_drop. lia. }
  unfold eia1_mac. fold len. cbn [nth].
  assert (Hml : Forall long (eia1_message data)).
  { apply blocks64_long, Forall_app. rewrite Hm in Hb. apply Forall_app in Hb as [? _].
    split; [done|]. by apply Forall_replicate. }
  rewrite <- Hblk in *. rewrite foldl_app. cbn [foldl].
  apply Forall_app in Hml as [Hm1 Hm2]. apply Forall_cons in Hm2 as [Hm2 _].
  set (EV := foldl _ 0 _). set (B := be64 _) in *.
  set (P := z0 * 2 ^ 32 + z1). set (Q := z2 * 2 ^ 32 + z3).
  assert (Hc : long 0x1b) by done.
  assert (HEV : long EV) by (apply eval_long; [done|by split|done]).
  assert (HX : long (OSA_MUL64 (EV .^ B) P 0x1b .^ (8 * len))).
  { apply in_u_lxor; [lia| |unfold in_u; change (2 ^ 64) with 18446744073709551616; lia].
    apply mul_long; [done|]. by apply in_u_lxor. }
  pose proof (mul_long 0x1b Hc _ Q HX) as HY. rewrite high_word by done.
  f_equal. f_equal. apply le_bytes_hton. apply in_u_lxor; [lia| |done].
  unfold in_u in *. change (2 ^ 64) with (2 ^ 32 * 2 ^ 32) in HY. pow_const. div_lia.
Qed.

(** C26.  EIA1.  On a message of whole bytes the code, which works on words in
    memory and masks the last one, computes the MAC of the definition: the
    message, padded with zeros to blocks of 64 bits, as a polynomial evaluated
    at P.  What lies in memory after the message has no influence. *)
Theorem eia1_spec sc data rest :
  params_ok sc -> message sc = data ++ rest -> bytes (message sc) ->
  0 < zlen data < 268435456 -> blength sc = 8 * zlen data ->
  eea1_span (zlen data) <= zlen (message sc) ->
  exists z, eia1_key_stream sc = Ok z /\
    stream_compute_integrity_eia1 sc = Ok (0, be_bytes (eia1_mac z data)).
Proof. apply eia1_run. Qed.

(** ** Published test data, and a byte too far *)

Definition eea1_set_3 : stream_cipher :=
  StreamCipher [0x5A;0xCB;0x1D;0x64;0x4C;0x0D;0x51;0x20;0x4E;0xA5;0xF1;0x45;0x10;0x10;0xD8;0x52]
    16 0xFA556B26 0x03 SECU_DIRECTION_DOWNLINK
    [0xAD;0x9C;0x44;0x1F;0x89;0x0B;0x38;0xC4;0x57;0xA4;0x9D;0x42;0x14;0x07;0xE8;0x00] 120.

Definition eia1_set_2 : stream_cipher :=
  StreamCipher [0x7e;0x5e;0x94;0x43;0x1e;0x11;0xd7;0x38;0x28;0xd7;0x39;0xcc;0x6c;0xed;0x45;0x73]
    16 0x36af6144 0x18 SECU_DIRECTION_DOWNLINK
    [0xb3;0xd3;0xc9;0x17;0x0a;0x4e;0x16;0x32;0xf6;0x0f;0x86;0x10;0x13;0xd2;0x2d;0x84;
     0xb7;0x26;0xb6;0xa2;0x78;0xd8;0x02;0xd1;0xee;0xaf;0x13;0x21;0xba;0x59;0x29;0xdc] 254.

(** The functions reproduce the published test data of UEA2 and UIA2
    (Document 3, confidentiality set 3 and integrity set 2). *)
Theorem eea1_eia1_test_data :
  (m ← stream_encrypt_eea1 eea1_set_3; Ok (take 15 m.2))
  = Ok [0xBA;0x0F;0x31;0x30;0x03;0x34;0xC5;0x6B;0x52;0xA7;0x49;0x7C;0xBA;0xC0;0x46] /\
  stream_compute_integrity_eia1 eia1_set_2 = Ok (0, [0xe3;0x25;0x9f;0x6f]).
Proof. split; vm_compute; reflexivity. Qed.

(** EEA1 works on whole words: with 15 bytes of message a 16th byte is
    changed, and if the memory ends with the message it is written outside. *)
Theorem eea1_writes_past_the_message :
  (m ← stream_encrypt_eea1 eea1_set_3; Ok (drop 15 m.2)) = Ok [198] /\
  stream_encrypt_eea1 (with_message eea1_set_3 (take 15 (message eea1_set_3))) = Err EBounds.
Proof. split; vm_compute; reflexivity. Qed.
