(* ===== verification/OsaStreamLocal.v ===== *)
(** The ciphering and integrity algorithms as functions of the bytes they are
    about: what lies in memory behind them has no influence.  This is the form
    in which the radio layers use them. *)
From S2P Require Import Prelude.
From S2P Require Import OsaSnow3g.
From S2P Require Import OsaSnow3gSpec.
From S2P Require Import OsaStream.
From S2P Require Import OsaStreamSpec.

Local Open Scope Z_scope.
Local Open Scope c_scope.

(** ** Exclusive or with a key stream *)

Fixpoint xor_list (msg ks : list Z) : list Z :=
  match ks, msg with
  | k :: ks, m :: msg => (m .^ k) :: xor_list msg ks
  | _, _ => msg
  end.

Lemma xor_list_length ks : forall msg, length (xor_list msg ks) = length msg.
Proof.
  induction ks as [|k ks IH]; intros [|m msg]; try done. cbn [xor_list length]. by rewrite IH.
Qed.

Lemma xor_list_twice ks : forall msg, xor_list (xor_list msg ks) ks = msg.
Proof.
  induction ks as [|k ks IH]; intros [|m msg]; try done. cbn [xor_list].
  by rewrite IH, Z.lxor_assoc, Z.lxor_nilpotent, Z.lxor_0_r.
Qed.

Lemma xor_list_take n : forall ks msg, take n (xor_list msg ks) = xor_list (take n msg) (take n ks).
Proof.
  induction n as [|n IH]; intros ks msg; [by destruct ks, msg|].
  destruct ks as [|k ks], msg as [|m msg]; try done. cbn [xor_list take]. by rewrite IH.
Qed.

Lemma xor_list_bytes ks : bytes ks -> forall msg, bytes msg -> bytes (xor_list msg ks).
Proof.
  induction 1 as [|k ks Hk _ IH]; intros [|m msg] Hm; try done. cbn [xor_list].
  apply Forall_cons in Hm as [Hm Hr]. apply Forall_cons. split; [|by apply IH].
  by apply in_u_lxor.
Qed.

Lemma xor_bytes_list ks : forall msg,
  (length ks <= length msg)%nat -> xor_bytes msg ks = Ok (xor_list msg ks).
Proof.
  induction ks as [|k ks IH]; intros [|m msg] Hl; try done; [cbn in Hl; lia|].
  cbn [xor_bytes xor_list]. rewrite IH by (cbn in Hl; lia). done.
Qed.

Lemma le_bytes_bytes x : bytes (le_bytes x).
Proof.
  unfold le_bytes. repeat (apply Forall_cons; split); [..|done];
    rewrite land_0xff; apply (in_u_wrap 8); lia.
Qed.

Lemma concat_bytes (f : Z -> list Z) l : (forall x, bytes (f x)) -> bytes (concat (f <$> l)).
Proof.
  intros Hf. induction l as [|x l IH]; [done|]. rewrite fmap_cons. cbn [concat].
  apply Forall_app. split; [apply Hf|done].
Qed.

(** ** Ciphering *)

(** A transformation of the memory on which the cipher works: of the first
    [len] bytes of the message, it may touch those up to [touched]. *)
Record local_cipher (len touched : Z) (f : list Z -> list Z) : Prop := {
  lc_length : forall m, length (f m) = length m;
  lc_twice : forall m, touched <= zlen m -> f (f m) = m;
  lc_local : forall n m m', len <= Z.of_nat n -> touched <= zlen m -> touched <= zlen m' ->
    take n m = take n m' -> take n (f m) = take n (f m');
  lc_bytes : forall m, bytes m -> bytes (f m)
}.

(** Ciphering one memory and deciphering another whose first bytes are those
    sent gives them back. *)
Lemma local_cipher_decipher len touched f n m m' :
  local_cipher len touched f -> len <= Z.of_nat n -> touched <= zlen m ->
  touched <= zlen m' -> take n m' = take n (f m) -> take n (f m') = take n m.
Proof.
  intros Hf Hn Hm Hm' E. rewrite (lc_local _ _ _ Hf n m' (f m)) by
    (try done; unfold zlen; rewrite (lc_length _ _ _ Hf); unfold zlen in Hm; lia).
  by rewrite (lc_twice _ _ _ Hf).
Qed.

Lemma with_message_twice sc m m' : with_message (with_message sc m) m' = with_message sc m'.
Proof. done. Qed.

Section cipher.
Variable aes_ctr : list Z -> list Z -> list Z -> list Z.
Hypothesis ctr_length : forall k m d, length (aes_ctr k m d) = length d.
Hypothesis ctr_involutive : forall k m d, aes_ctr k m (aes_ctr k m d) = d.
Hypothesis ctr_bytes : forall k m d, bytes d -> bytes (aes_ctr k m d).

(** The parameters, apart from the message. *)
Record cipher_params (sc : stream_cipher) (len : Z) : Prop := {
  cp_len : 0 <= len < 268435456;
  cp_blength : blength sc = 8 * len;
  cp_key : key_length sc = 16 /\ 16 <= zlen (key sc)
}.

Definition ciphers (algorithm : Z) (sc : stream_cipher) (len : Z) (f : list Z -> list Z)
    : Prop :=
  local_cipher len (span algorithm len) f /\
  forall m, span algorithm len <= zlen m ->
    stream_encrypt aes_ctr algorithm (with_message sc m) = Ok (0, f m).

Lemma eea0_local sc len : cipher_params sc len -> ciphers 0 sc len (fun m => m).
Proof.
  intros [Hl Hb _]. split; [by split|]. intros m Hm. change (span 0 len) with len in Hm.
  unfold stream_encrypt, stream_encrypt_eea0.
  cbn [Z.eqb EEA0_ALG_ID EIA0_ALG_ID with_message blength message].
  rewrite Hb, u32_small by lia.
  replace ((8 * len + 7) .>> 3) with len
    by (rewrite Z.shiftr_div_pow2 by lia; change (2 ^ 3) with 8; div_lia).
  rewrite rd_n_ok by lia. cbn [mbind res_bind].
  change (drop (Z.to_nat 0) m) with m. by rewrite wr_read by lia.
Qed.

Lemma eea1_local sc len : cipher_params sc len -> exists f, ciphers 1 sc len f.
Proof.
  intros [Hl Hb [Hk1 Hk2]].
  destruct (load_key_ok sc Hk2) as (k0 & k1 & k2 & k3 & Hk).
  assert (Hn : u32 (blength sc + 31) / 32 = (len + 3) / 4)
    by (rewrite Hb, u32_small by lia; div_lia).
  assert (Hz : blength sc .& 0x7 = 0)
    by (rewrite Hb, (land_ones_mod _ 3), Z.mul_comm by lia; by apply Z.mod_mul).
  set (KS := osa_snow3g_generate_key_stream (Z.to_nat ((len + 3) / 4))
    (osa_snow3g_initialize k0 k1 k2 k3
       (u32 (((bearer sc .<< 3) .| ((direction sc .& 0x1) .<< 2)) .<< 24)) (count sc)
       (u32 (((bearer sc .<< 3) .| ((direction sc .& 0x1) .<< 2)) .<< 24)) (count sc))).
  set (ks := concat ((fun w => le_bytes (hton_int32 w)) <$> KS)).
  assert (Hks : length ks = Z.to_nat (eea1_span len)).
  { unfold ks. rewrite concat_words_len by done. unfold KS, eea1_span.
    rewrite key_stream_length. assert (0 <= (len + 3) / 4) by (apply Z.div_pos; lia). lia. }
  exists (fun m => xor_list m ks). split.
  - split.
    + intros m. apply xor_list_length.
    + intros m _. apply xor_list_twice.
    + intros n m m' _ _ _ E. by rewrite !xor_list_take, E.
    + intros m Hm. apply xor_list_bytes; [|done]. apply concat_bytes. intros x.
      apply le_bytes_bytes.
  - intros m Hm. change (span 1 len) with (eea1_span len) in Hm.
    unfold stream_encrypt. cbn [Z.eqb Pos.eqb EEA0_ALG_ID EIA0_ALG_ID EEA1_128_ALG_ID EIA1_128_ALG_ID].
    unfold stream_encrypt_eea1, eea1_key_stream.
    change (load_key (with_message sc m)) with (load_key sc).
    cbn [with_message key_length blength bearer direction count message].
    rewrite Hk1, Hz, Hn, Hk. cbn [Z.eqb Pos.eqb res_guard mbind res_bind Z.ltb Z.compare].
    fold KS ks. rewrite xor_bytes_list by (rewrite Hks; unfold zlen in Hm; lia). done.
Qed.

Lemma eea2_local sc len : cipher_params sc len -> exists f, ciphers 2 sc len f.
Proof.
  intros [Hl Hb [Hk1 Hk2]].
  assert (Hz : blength sc .& 0x7 = 0)
    by (rewrite Hb, (land_ones_mod _ 3), Z.mul_comm by lia; by apply Z.mod_mul).
  assert (Hlen : (blength sc .>> 3) + 0 = len).
  { rewrite Hb, Z.shiftr_div_pow2 by lia. change (2 ^ 3) with 8. div_lia. }
  set (iv := le_bytes (hton_int32 (count sc))
           ++ [u8 (((bearer sc .& 0x1F) .<< 3) .| ((direction sc .& 0x01) .<< 2))]
           ++ replicate 11 0).
  set (c := aes_ctr (take 16 (key sc)) iv).
  set (f := fun m => c (take (Z.to_nat len) m) ++ drop (Z.to_nat len) m).
  assert (Hc : forall m, length (c (take (Z.to_nat len) m)) = length (take (Z.to_nat len) m))
    by (intros; apply ctr_length).
  assert (Ht : forall m, len <= zlen m -> take (Z.to_nat len) (f m) = c (take (Z.to_nat len) m)).
  { intros m Hm. unfold f. rewrite take_app_length'; [done|].
    rewrite Hc, length_take_le; [done|]. unfold zlen in Hm. lia. }
  assert (Hd : forall m, len <= zlen m -> drop (Z.to_nat len) (f m) = drop (Z.to_nat len) m).
  { intros m Hm. unfold f. rewrite drop_app_length'; [done|].
    rewrite Hc, length_take_le; [done|]. unfold zlen in Hm. lia. }
  exists f. split.
  - split.
    + intros m. unfold f. rewrite length_app, Hc, length_take, length_drop. lia.
    + intros m Hm. change (span 2 len) with len in Hm. unfold f at 1.
      rewrite Ht, Hd by done. unfold c. rewrite ctr_involutive. apply take_drop.
    + intros n m m' Hn Hm Hm' E. change (span 2 len) with len in *.
      assert (E' : take (Z.to_nat len) m = take (Z.to_nat len) m').
      { apply (f_equal (take (Z.to_nat len))) in E. by rewrite !take_take, Nat.min_l in E by lia. }
      unfold f. rewrite !take_app, !Hc, E', !take_drop_commute. f_equal.
      rewrite !length_take, !Nat.min_l by (unfold zlen in *; lia).
      replace (Z.to_nat len + (n - Z.to_nat len))%nat with n by lia. by rewrite E.
    + intros m Hm. apply Forall_app. split; [|by apply Forall_drop].
      by apply ctr_bytes, Forall_take.
  - intros m Hm. change (span 2 len) with len in Hm.
    unfold stream_encrypt. cbn [Z.eqb Pos.eqb EEA0_ALG_ID EIA0_ALG_ID EEA1_128_ALG_ID EIA1_128_ALG_ID EEA2_128_ALG_ID EIA2_128_ALG_ID].
    unfold stream_encrypt_eea2.
    cbn [with_message key_length blength bearer direction count message key].
    rewrite Hz, Hk1. cbn [Z.ltb Z.compare]. rewrite Hlen, !rd_n_ok by lia.
    cbn [mbind res_bind]. fold iv. change (take (Z.to_nat 16) (drop (Z.to_nat 0) (key sc))) with (take 16 (key sc)).
    change (drop (Z.to_nat 0) m) with m. fold c.
    assert (Hl2 : zlen (c (take (Z.to_nat len) m)) = len).
    { unfold zlen. rewrite Hc, length_take_le; unfold zlen in Hm; lia. }
    rewrite wr_front by lia. cbn [mbind res_bind].
    replace (length (c (take (Z.to_nat len) m))) with (Z.to_nat len)
      by (unfold zlen in Hl2; lia). done.
Qed.

Lemma cipher_local algorithm sc len :
  0 <= algorithm <= 2 -> cipher_params sc len -> exists f, ciphers algorithm sc len f.
Proof.
  intros Ha Hp. assert (algorithm = 0 \/ algorithm = 1 \/ algorithm = 2) as [-> | [-> | ->]] by lia.
  - eexists. by apply eea0_local.
  - by apply eea1_local.
  - by apply eea2_local.
Qed.
End cipher.

(** ** Integrity *)

Section integrity.
Variable aes_cmac : list Z -> list Z -> list Z.
Hypothesis cmac_length : forall k m, length (aes_cmac k m) = 16%nat.
Hypothesis cmac_bytes : forall k m, bytes (aes_cmac k m).

Lemma be_bytes_bytes w : bytes (be_bytes w).
Proof.
  unfold be_bytes. repeat (apply Forall_cons; split); [..|done]; apply (in_u_wrap 8); lia.
Qed.

(** What is computed for [data], whatever lies behind it. *)
Definition computes (algorithm : Z) (sc : stream_cipher) (data : list Z)
    (out : option (list Z)) : Prop :=
  forall rest, eea1_span (zlen data) <= zlen (data ++ rest) -> bytes (data ++ rest) ->
  stream_compute_integrity aes_cmac algorithm (with_message sc (data ++ rest))
  = Ok (if algorithm =? 0 then -1 else 0, out).

Definition is_mac (x : list Z) : Prop := length x = 4%nat /\ bytes x.

Lemma eia1_local sc data :
  params_ok sc -> blength sc = 8 * zlen data -> 0 < zlen data < 268435456 ->
  exists x, computes 1 sc data (Some x) /\ is_mac x.
Proof.
  intros Hp Hb Hl. destruct (eia1_key_stream_ok sc Hp) as (z0 & z1 & z2 & z3 & z4 & Hz & _).
  exists (be_bytes (eia1_mac [z0; z1; z2; z3; z4] data)).
  split; [|split; [done|apply be_bytes_bytes]].
  intros rest Hs Hby.
  assert (Hp' : params_ok (with_message sc (data ++ rest))) by (by destruct Hp).
  destruct (eia1_run (with_message sc (data ++ rest)) data rest Hp' eq_refl Hby Hl Hb Hs)
    as (z & Hz' & He).
  change (eia1_key_stream (with_message sc (data ++ rest))) with (eia1_key_stream sc) in Hz'.
  rewrite Hz in Hz'. apply Ok_inj in Hz' as <-.
  unfold stream_compute_integrity.
  cbn [Z.eqb Pos.eqb EIA1_128_ALG_ID]. by rewrite He.
Qed.

Lemma eia2_local sc data :
  params_ok sc -> blength sc = 8 * zlen data ->
  exists x, computes 2 sc data (Some x) /\ is_mac x.
Proof.
  intros [[Hk _] _ _] Hb.
  eexists (take 4 (aes_cmac (take 16 (key sc)) _)).
  split; [|split; [by rewrite length_take, cmac_length|by apply Forall_take]].
  intros rest Hs Hby. unfold stream_compute_integrity.
  cbn [Z.eqb Pos.eqb EIA1_128_ALG_ID EIA2_128_ALG_ID]. unfold stream_compute_integrity_eia2.
  cbn [with_message blength message key count bearer direction].
  assert (Hz : blength sc .& 0x7 = 0)
    by (rewrite Hb, (land_ones_mod _ 3), Z.mul_comm by lia; by apply Z.mod_mul).
  rewrite Hz. cbn [Z.ltb Z.compare].
  replace ((blength sc .>> 3) + 0) with (zlen data)
    by (rewrite Hb, Z.shiftr_div_pow2 by lia; change (2 ^ 3) with 8; div_lia).
  rewrite (rd_n_app [] data rest : rd_n (data ++ rest) 0 (zlen data) = Ok data).
  cbn [mbind res_bind]. rewrite rd_n_ok by lia. cbn [mbind res_bind]. reflexivity.
Qed.

Lemma integrity_local algorithm sc data :
  0 <= algorithm <= 2 -> params_ok sc -> blength sc = 8 * zlen data ->
  0 < zlen data < 268435456 ->
  exists out, computes algorithm sc data out /\
    (algorithm <> 0 -> exists x, out = Some x /\ is_mac x) /\ (algorithm = 0 -> out = None).
Proof.
  intros Ha Hp Hb Hl. assert (algorithm = 0 \/ algorithm = 1 \/ algorithm = 2) as [-> | [-> | ->]] by lia.
  - exists None. by split.
  - destruct (eia1_local sc data Hp Hb Hl) as (x & H1 & H2). exists (Some x).
    split; [done|]. split; [by eauto|done].
  - destruct (eia2_local sc data Hp Hb) as (x & H1 & H2). exists (Some x).
    split; [done|]. split; [by eauto|done].
Qed.
End integrity.
