(* ===== verification/OsaExamples.v ===== *)
(** The theorems on the ciphering and integrity algorithms at concrete
    inputs. *)
From S2P Require Import Prelude.
From S2P Require Import OsaSnow3g.
From S2P Require Import OsaSnow3gSpec.
From S2P Require Import OsaStream.
From S2P Require Import OsaStreamSpec.

Local Open Scope Z_scope.

(** The registers after initialisation with the first published key. *)
Definition snow_state : osa_snow_3g_context :=
  osa_snow3g_initialize 0x2BD6459F 0x82C5B300 0x952C4910 0x4881FF48
    0xEA024714 0xAD5C4D84 0xDF1F9B25 0x1C0BF45F.

Definition snow_inputs : list Z :=
  [0x2BD6459F; 0x82C5B300; 0x952C4910; 0x4881FF48;
   0xEA024714; 0xAD5C4D84; 0xDF1F9B25; 0x1C0BF45F].

Lemma snow_inputs_ok : Forall word snow_inputs.
Proof. unfold snow_inputs, word, in_u. repeat (apply Forall_cons; split); done. Qed.

Lemma snow_state_words : words snow_state.
Proof. apply (initialize_words _ _ _ _ _ _ _ _ snow_inputs_ok). Qed.

Lemma lfsr_clock_injective_witness : snow_state = snow_state.
Proof.
  exact (lfsr_clock_injective snow_state snow_state snow_state_words snow_state_words
           eq_refl).
Defined.


(** A counter mode: the data xored with the key, repeated. *)
Definition toy_ctr (k m d : list Z) : list Z :=
  imap (fun i b => Z.lxor b (nth (i mod 16) k 0)) d.

Lemma toy_ctr_length k m d : length (toy_ctr k m d) = length d.
Proof. apply length_imap. Qed.

Lemma toy_ctr_involutive k m d : toy_ctr k m (toy_ctr k m d) = d.
Proof.
  apply list_eq. intros i. unfold toy_ctr. rewrite !list_lookup_imap.
  destruct (d !! i) as [b|]; [|done]. cbn [fmap option_fmap option_map].
  by rewrite Z.lxor_assoc, Z.lxor_nilpotent, Z.lxor_0_r.
Qed.

Lemma stream_encrypt_involutive_witness :
  let sc := eea1_set_3 in
  exists m, stream_encrypt toy_ctr 2 sc = Ok (0, m) /\
    zlen m = zlen (message sc) /\
    drop (Z.to_nat (span 2 15)) m = drop (Z.to_nat (span 2 15)) (message sc) /\
    stream_encrypt toy_ctr 2 (with_message sc m) = Ok (0, message sc).
Proof.
  refine (stream_encrypt_involutive toy_ctr toy_ctr_length toy_ctr_involutive
            2 eea1_set_3 15 _ _); [done|].
  split; [done|reflexivity|split; [reflexivity|vm_compute; discriminate]
         |vm_compute; discriminate].
Defined.

Lemma mul64_ring_witness :
  let mul x y := OSA_MUL64 x y 0x1b in
  in_u 64 (mul 0x1234 0xFEDCBA98) /\ mul 0x1234 0xFEDCBA98 = mul 0xFEDCBA98 0x1234 /\
  mul (mul 0x1234 0xFEDCBA98) 7 = mul 0x1234 (mul 0xFEDCBA98 7) /\
  mul (Z.lxor 0x1234 0xFEDCBA98) 7 = Z.lxor (mul 0x1234 7) (mul 0xFEDCBA98 7) /\
  mul 0x1234 1 = 0x1234.
Proof. apply (mul64_ring 0x1234 0xFEDCBA98 7); unfold in_u; done. Defined.

Definition eia1_bytes : list Z := [0xb3; 0xd3; 0xc9; 0x17; 0x0a].
Definition eia1_small : stream_cipher :=
  StreamCipher (key eia1_set_2) 16 0x36af6144 0x18 SECU_DIRECTION_DOWNLINK
    (eia1_bytes ++ [1; 2; 3]) 40.

Lemma eia1_spec_witness :
  exists z, eia1_key_stream eia1_small = Ok z /\
    stream_compute_integrity_eia1 eia1_small = Ok (0, be_bytes (eia1_mac z eia1_bytes)).
Proof.
  apply (eia1_spec eia1_small eia1_bytes [1; 2; 3]).
  - split; [split; [vm_compute; discriminate|]|unfold word, in_u; done|done].
    unfold in_u. cbn. repeat (apply Forall_cons; split); done.
  - reflexivity.
  - unfold in_u. cbn. repeat (apply Forall_cons; split); done.
  - done.
  - reflexivity.
  - vm_compute. discriminate.
Defined.
