(* ===== verification/PdcpPrimitives.v ===== *)
(** PDCP v10.1.0: the headers of the PDUs ([pdcp_primitives.c],
    [pdcp_primitives.h]) and the bits of an octet ([pdcp_util.c]), with their
    round trips. *)
From S2P Require Import Prelude.

Local Open Scope Z_scope.
Local Open Scope c_scope.

Definition PDCP_CONTROL_PDU_BIT_SET : Z := 0x00.
Definition PDCP_DATA_PDU_BIT_SET : Z := 0x01.
Definition PDCP_CONTROL_PLANE_DATA_PDU_SN_SIZE : Z := 1.
Definition PDCP_CONTROL_PLANE_DATA_PDU_MAC_I_SIZE : Z := 4.
Definition PDCP_USER_PLANE_DATA_PDU_LONG_SN_HEADER_SIZE : Z := 2.
Definition PDCP_USER_PLANE_DATA_PDU_SHORT_SN_HEADER_SIZE : Z := 1.

(** ** Data *)

Record pdcp_control_plane_data_pdu_header := CpHeader {
  cp_sn : Z;
  cp_mac_i : list Z
}.

Record pdcp_user_plane_data_pdu_header_with_long_sn := LongHeader {
  long_dc : Z;
  long_sn : Z
}.

Record pdcp_control_pdu_for_pdcp_status_report := StatusReport {
  sr_dc : Z;
  sr_pdu_type : Z;
  sr_first_missing_sn : Z
}.

(** ** Octets *)

(** Sets bit [index] of the octet, 0 being the leftmost; the bit set. *)
Definition util_mark_nth_bit_of_octet (octet index : Z) : Z :=
  octet .| (0x80 .>> index).

(** ** Reading a header.  A null buffer is [None] and reads as 0. *)

Definition pdcp_get_dc_filed (pdu_buffer : option (list Z)) : res Z :=
  match pdu_buffer with
  | None => Ok 0
  | Some b => b0 ← rd b 0; Ok (u8 (b0 .& 0xF0) .>> 8)
  end.

Definition pdcp_get_sequence_number_of_pdu_with_long_sn
    (pdu_buffer : option (list Z)) : res Z :=
  match pdu_buffer with
  | None => Ok 0
  | Some b =>
      b0 ← rd b 0;
      let sequence_number := u16 ((b0 .& 0x0F) .<< 8) in
      b1 ← rd b 1;
      Ok (u16 (sequence_number .| (b1 .& 0xFF)))
  end.

Definition pdcp_get_sequence_number_of_pdu_with_short_sn
    (pdu_buffer : option (list Z)) : res Z :=
  match pdu_buffer with
  | None => Ok 0
  | Some b => b0 ← rd b 0; Ok (b0 .& 0x7F)
  end.

Definition pdcp_get_sequence_number_of_pdu_with_SRB_sn
    (pdu_buffer : option (list Z)) : res Z :=
  match pdu_buffer with
  | None => Ok 0
  | Some b => b0 ← rd b 0; Ok (b0 .& 0x1F)
  end.

(** ** Writing a header.  [None] is FALSE, which leaves the buffer alone. *)

Definition pdcp_serialize_control_plane_data_pdu_with_SRB_sn_buffer
    (pdu_buffer : option (list Z)) (pdu : option pdcp_control_plane_data_pdu_header)
    : res (option (list Z)) :=
  match pdu_buffer, pdu with
  | Some b, Some pdu =>
      b ← wr b 0 [cp_sn pdu .& 0x1F];
      Ok (Some b)
  | _, _ => Ok None
  end.

Definition pdcp_serialize_user_plane_data_pdu_with_long_sn_buffer
    (pdu_buffer : option (list Z))
    (pdu : option pdcp_user_plane_data_pdu_header_with_long_sn)
    : res (option (list Z)) :=
  match pdu_buffer, pdu with
  | Some b, Some pdu =>
      let sequence_number := long_sn pdu in
      b ← wr b 1 [sequence_number .& 0xFF];
      let sequence_number := sequence_number .>> 8 in
      b ← wr b 0 [sequence_number .& 0xFF];
      if long_dc pdu =? PDCP_DATA_PDU_BIT_SET then
        b0 ← rd b 0;
        b ← wr b 0 [b0 .| 0x80];
        Ok (Some b)
      else Ok (Some b)
  | _, _ => Ok None
  end.

(** [&&] of C on the sequence number: 1 when it is not zero. *)
Definition pdcp_serialize_control_pdu_for_pdcp_status_report
    (pdu_buffer : option (list Z)) (bitmap : list Z)
    (pdu : option pdcp_control_pdu_for_pdcp_status_report)
    : res (option (list Z)) :=
  match pdu_buffer, pdu with
  | Some b, Some pdu =>
      b0 ← rd b 0;
      let b0 := util_mark_nth_bit_of_octet b0 1 in
      b ← wr b 0 [b0 .| ((sr_first_missing_sn pdu .>> 8) .& 0xFF)];
      b1 ← rd b 1;
      b ← wr b 1 [b1 .| (if truth (sr_first_missing_sn pdu) then 1 else 0)];
      d ← rd_n bitmap 0 512;
      b ← wr b 2 d;
      Ok (Some b)
  | _, _ => Ok None
  end.

(** ** Round trips *)

Lemma wr_0 {A} (x y : A) l : wr (x :: l) 0 [y] = Ok (y :: l).
Proof. apply (wr_app [] [x]). done. Qed.
Lemma wr_1 {A} (x y z : A) l : wr (x :: y :: l) 1 [z] = Ok (x :: z :: l).
Proof. apply (wr_app [x] [y]). done. Qed.

Lemma land_mask x k : 0 <= k -> x .& (2 ^ k - 1) = x mod 2 ^ k.
Proof. apply land_ones_mod. Qed.

(** The two octets of the header with the 12-bit sequence number. *)
Definition long_header (dc sn : Z) : list Z := [dc * 128 + sn / 256; sn mod 256].

Lemma set_dc x : 0 <= x < 128 -> x .| 0x80 = 128 + x.
Proof.
  intros Hx. rewrite Z.lor_comm. change 0x80 with (1 .<< 7).
  rewrite lor_shiftl_add by (change (2 ^ 7) with 128; lia). done.
Qed.

Lemma serialize_long dc sn x y rest :
  dc = 0 \/ dc = 1 -> 0 <= sn < 4096 ->
  pdcp_serialize_user_plane_data_pdu_with_long_sn_buffer
    (Some (x :: y :: rest)) (Some (LongHeader dc sn))
  = Ok (Some (long_header dc sn ++ rest)).
Proof.
  intros Hdc Hsn. unfold pdcp_serialize_user_plane_data_pdu_with_long_sn_buffer.
  cbn [long_sn long_dc]. rewrite wr_1. cbn [mbind res_bind]. rewrite wr_0.
  cbn [mbind res_bind].
  change 0xFF with (2 ^ 8 - 1). rewrite !land_mask, Z.shiftr_div_pow2 by lia.
  change (2 ^ 8) with 256. rewrite (Z.mod_small (sn / 256)) by div_lia.
  destruct Hdc as [-> | ->].
  - change (0 =? PDCP_DATA_PDU_BIT_SET) with false. cbn match. done.
  - change (1 =? PDCP_DATA_PDU_BIT_SET) with true. cbn match.
    change (rd (sn / 256 :: sn mod 256 :: rest) 0) with (Ok (sn / 256)).
    cbn [mbind res_bind]. rewrite wr_0. cbn [mbind res_bind].
    rewrite set_dc by div_lia. done.
Qed.

Lemma get_long dc sn rest :
  dc = 0 \/ dc = 1 -> 0 <= sn < 4096 ->
  pdcp_get_sequence_number_of_pdu_with_long_sn (Some (long_header dc sn ++ rest)) = Ok sn.
Proof.
  intros Hdc Hsn. unfold pdcp_get_sequence_number_of_pdu_with_long_sn.
  change (rd (long_header dc sn ++ rest) 0) with (Ok (dc * 128 + sn / 256)).
  change (rd (long_header dc sn ++ rest) 1) with (Ok (sn mod 256)).
  cbn [mbind res_bind]. change 0x0F with (2 ^ 4 - 1). change 0xFF with (2 ^ 8 - 1).
  rewrite !land_mask by lia. change (2 ^ 8) with 256. change (2 ^ 4) with 16.
  replace ((dc * 128 + sn / 256) mod 16) with (sn / 256) by (destruct Hdc; subst; div_lia).
  rewrite Z.mod_mod by lia.
  assert (Hh : u16 ((sn / 256) .<< 8) = (sn / 256) .<< 8)
    by (apply u16_small; rewrite Z.shiftl_mul_pow2 by lia; change (2 ^ 8) with 256; div_lia).
  rewrite Hh, lor_shiftl_add by (change (2 ^ 8) with 256; div_lia).
  change (2 ^ 8) with 256. f_equal. rewrite u16_small; div_lia.
Qed.

Lemma serialize_srb sn mac x rest :
  0 <= sn < 32 ->
  pdcp_serialize_control_plane_data_pdu_with_SRB_sn_buffer
    (Some (x :: rest)) (Some (CpHeader sn mac)) = Ok (Some (sn :: rest)).
Proof.
  intros Hsn. unfold pdcp_serialize_control_plane_data_pdu_with_SRB_sn_buffer.
  cbn [cp_sn]. rewrite wr_0. cbn [mbind res_bind].
  change 0x1F with (2 ^ 5 - 1). rewrite land_mask by lia. by rewrite Z.mod_small.
Qed.

Lemma get_srb sn rest :
  0 <= sn < 32 ->
  pdcp_get_sequence_number_of_pdu_with_SRB_sn (Some (sn :: rest)) = Ok sn.
Proof.
  intros Hsn. unfold pdcp_get_sequence_number_of_pdu_with_SRB_sn.
  change (rd (sn :: rest) 0) with (Ok sn). cbn [mbind res_bind].
  change 0x1F with (2 ^ 5 - 1). rewrite land_mask by lia. by rewrite Z.mod_small.
Qed.



(** The D/C bit is never read: the shift clears the octet. *)
Theorem pdcp_get_dc_filed_zero b0 rest :
  pdcp_get_dc_filed (Some (b0 :: rest)) = Ok 0.
Proof.
  unfold pdcp_get_dc_filed. change (rd (b0 :: rest) 0) with (Ok b0). cbn [mbind res_bind].
  f_equal. rewrite Z.shiftr_div_pow2 by lia. apply Z.div_small.
  apply (in_u_wrap 8). lia.
Qed.

(** In the status report the low octet of the first missing sequence
    number is only whether the number is zero, and the bit set in the first
    octet is not the D/C bit but the first of the PDU type. *)
Theorem pdcp_status_report_first_missing :
  let report sn := pdcp_serialize_control_pdu_for_pdcp_status_report
    (Some (replicate 514 0)) (replicate 512 0) (Some (StatusReport 0 0 sn)) in
  report 0x2AB = report 0x2CD /\
  report 0x2AB = Ok (Some ([0x42; 0x01] ++ replicate 512 0)).
Proof. split; vm_compute; reflexivity. Qed.
