(* ===== verification/PdcpSequence.v ===== *)
(** PDCP v10.1.0: the state of an entity ([pdcp.h]) and its sequence numbers
    ([pdcp_sequence_manager.c]). *)
From S2P Require Import Prelude.
From S2P Require Import PdcpPrimitives.

Local Open Scope Z_scope.
Local Open Scope c_scope.

Definition PDCP_SN_5BIT : Z := 5.
Definition PDCP_SN_7BIT : Z := 7.
Definition PDCP_SN_12BIT : Z := 12.
Definition REORDERING_WINDOW_SN_7BIT : Z := 64.
Definition REORDERING_WINDOW_SN_12BIT : Z := 2048.
Definition RLC_MODE_NONE : Z := 0.
Definition RLC_MODE_AM : Z := 1.
Definition RLC_MODE_UM : Z := 2.
Definition RLC_MODE_TM : Z := 4.

(** [pdcp_t], the fields the data path uses.  The entity is never a null
    pointer here. *)
Record pdcp_t := Pdcp {
  instanciated_instance : bool;
  is_ue : bool;
  cipheringAlgorithm : Z;
  integrityProtAlgorithm : Z;
  kUPenc : list Z;
  kRRCint : list Z;
  kRRCenc : list Z;
  security_activated : Z;
  rlc_mode : Z;
  seq_num_size : Z;
  next_pdcp_tx_sn : Z;
  next_pdcp_rx_sn : Z;
  next_pdcp_rx_sn_before_integrity : Z;
  tx_hfn : Z;
  rx_hfn : Z;
  rx_hfn_offset : Z;
  last_submitted_pdcp_rx_sn : Z;
  missing_pdu_bitmap : list Z
}.
#[export] Instance pdcp_eta : Eta pdcp_t := fun p =>
  Pdcp (instanciated_instance p) (is_ue p) (cipheringAlgorithm p)
    (integrityProtAlgorithm p) (kUPenc p) (kRRCint p) (kRRCenc p)
    (security_activated p) (rlc_mode p) (seq_num_size p) (next_pdcp_tx_sn p)
    (next_pdcp_rx_sn p) (next_pdcp_rx_sn_before_integrity p) (tx_hfn p) (rx_hfn p)
    (rx_hfn_offset p) (last_submitted_pdcp_rx_sn p) (missing_pdu_bitmap p).

Definition pdcp_init_seq_numbers (p : pdcp_t) : pdcp_t :=
  p <| next_pdcp_tx_sn := 0 |> <| next_pdcp_rx_sn := 0 |>
    <| tx_hfn := 0 |> <| rx_hfn := 0 |> <| last_submitted_pdcp_rx_sn := 4095 |>.

Definition pdcp_is_seq_num_size_valid (p : pdcp_t) : bool :=
  negb (negb (seq_num_size p =? 5) && negb (seq_num_size p =? 7)
        && negb (seq_num_size p =? 12)).

Definition pdcp_calculate_max_seq_num_for_given_size (seq_num_size : Z) : Z :=
  let max_seq_num := u16 (1 .<< seq_num_size) in
  u16 (max_seq_num - 1).

Definition pdcp_is_seq_num_valid (seq_num seq_num_size : Z) : bool :=
  (0 <=? seq_num)
  && (seq_num <=? pdcp_calculate_max_seq_num_for_given_size seq_num_size).

Definition pdcp_get_next_tx_seq_number (p : pdcp_t) : pdcp_t * Z :=
  if negb (pdcp_is_seq_num_size_valid p) then (p, u16 (-1))
  else
    let pdcp_seq_num := next_pdcp_tx_sn p in
    let p :=
      if next_pdcp_tx_sn p
         =? pdcp_calculate_max_seq_num_for_given_size (seq_num_size p)
      then p <| next_pdcp_tx_sn := 0 |> <| tx_hfn := u32 (tx_hfn p + 1) |>
      else p <| next_pdcp_tx_sn := u16 (next_pdcp_tx_sn p + 1) |> in
    (p, pdcp_seq_num).

Definition pdcp_advance_rx_window (p : pdcp_t) : pdcp_t * bool :=
  if negb (pdcp_is_seq_num_size_valid p) then (p, false)
  else if next_pdcp_rx_sn p
          =? pdcp_calculate_max_seq_num_for_given_size (seq_num_size p)
  then (p <| next_pdcp_rx_sn := 0 |> <| rx_hfn := u32 (rx_hfn p + 1) |>, true)
  else (p <| next_pdcp_rx_sn := u16 (next_pdcp_rx_sn p + 1) |>, true).

Definition pdcp_mark_current_pdu_as_received (seq_num : Z) (p : pdcp_t) : res pdcp_t :=
  let octet_index := seq_num / 8 in
  o ← rd (missing_pdu_bitmap p) octet_index;
  m ← wr (missing_pdu_bitmap p) octet_index
        [util_mark_nth_bit_of_octet o (seq_num mod 8)];
  Ok (p <| missing_pdu_bitmap := m |>).

(** The branch for signalling bearers. *)
Definition rx_srb (seq_num : Z) (p : pdcp_t) : pdcp_t :=
  let p :=
    if seq_num <? next_pdcp_rx_sn p
    then p <| rx_hfn := u32 (rx_hfn p + 1) |> <| rx_hfn_offset := 0 |>
    else p <| rx_hfn_offset := 0 |> in
  let p := p <| next_pdcp_rx_sn_before_integrity := next_pdcp_rx_sn p |> in
  fst (pdcp_advance_rx_window (p <| next_pdcp_rx_sn := seq_num |>)).

(** Data bearers over RLC AM; the differences are of type [int]. *)
Definition rx_drb_am (reordering_window seq_num : Z) (p : pdcp_t) : pdcp_t * bool :=
  let last := last_submitted_pdcp_rx_sn p in
  let next := next_pdcp_rx_sn p in
  if (reordering_window <? seq_num - last)
     || ((0 <=? last - seq_num) && (last - seq_num <? reordering_window)) then
    (p <| rx_hfn_offset := if next <? seq_num then -1 else 0 |>, false)
  else if reordering_window <? next - seq_num then
    (p <| rx_hfn := u32 (rx_hfn p + 1) |> <| rx_hfn_offset := 0 |>
       <| next_pdcp_rx_sn := u16 (next + 1) |>, true)
  else if reordering_window <=? seq_num - next then
    (p <| rx_hfn_offset := -1 |>, true)
  else if next <=? seq_num then
    (fst (pdcp_advance_rx_window
            (p <| rx_hfn_offset := 0 |> <| next_pdcp_rx_sn := seq_num |>)), true)
  else if seq_num <? next then (p <| rx_hfn_offset := 0 |>, true)
  else (p, true).

(** Data bearers over RLC UM. *)
Definition rx_drb_um (seq_num : Z) (p : pdcp_t) : pdcp_t :=
  let p := if seq_num <? next_pdcp_rx_sn p
           then p <| rx_hfn := u32 (rx_hfn p + 1) |> else p in
  fst (pdcp_advance_rx_window (p <| next_pdcp_rx_sn := seq_num |>)).

Definition pdcp_is_rx_seq_number_valid (seq_num : Z) (p : pdcp_t) (srb_flagP : bool)
    : res (pdcp_t * bool) :=
  if negb (pdcp_is_seq_num_size_valid p)
     || negb (pdcp_is_seq_num_valid seq_num (seq_num_size p)) then Ok (p, false)
  else
    p ← pdcp_mark_current_pdu_as_received seq_num p;
    if srb_flagP then Ok (rx_srb seq_num p, true)
    else
      let reordering_window :=
        if seq_num_size p =? PDCP_SN_7BIT then REORDERING_WINDOW_SN_7BIT
        else REORDERING_WINDOW_SN_12BIT in
      if rlc_mode p =? RLC_MODE_AM then Ok (rx_drb_am reordering_window seq_num p)
      else if rlc_mode p =? RLC_MODE_UM then Ok (rx_drb_um seq_num p, true)
      else Ok (p, false).
