(* ===== verification/PdcpSequenceSpec.v ===== *)
(** PDCP v10.1.0: the sequence numbers and hyper frame numbers as one COUNT.
    What the transmitter assigns, what the receiver infers, and that both stay
    in step. *)
From S2P Require Import Prelude.
From S2P Require Import PdcpPrimitives.
From S2P Require Import PdcpSequence.

Local Open Scope Z_scope.
Local Open Scope c_scope.

(** ** Sizes *)

Definition sn_size (n : Z) : Prop := n = 5 \/ n = 7 \/ n = 12.

Lemma max_seq_num n :
  sn_size n -> pdcp_calculate_max_seq_num_for_given_size n = 2 ^ n - 1.
Proof. by intros [-> | [-> | ->]]. Qed.

Lemma sn_modulus n : sn_size n -> 32 <= 2 ^ n <= 4096.
Proof. intros [-> | [-> | ->]]; vm_compute; intuition discriminate. Qed.

Lemma size_valid p : sn_size (seq_num_size p) -> pdcp_is_seq_num_size_valid p = true.
Proof. unfold pdcp_is_seq_num_size_valid. by intros [-> | [-> | ->]]. Qed.

(** The variables are within their types, the numbers within the size. *)
Record seq_wf (p : pdcp_t) : Prop := {
  sq_size : sn_size (seq_num_size p);
  sq_tx : 0 <= next_pdcp_tx_sn p < 2 ^ seq_num_size p;
  sq_rx : 0 <= next_pdcp_rx_sn p < 2 ^ seq_num_size p;
  sq_tx_hfn : in_u 32 (tx_hfn p);
  sq_rx_hfn : in_u 32 (rx_hfn p);
  sq_bitmap : length (missing_pdu_bitmap p) = 512%nat
}.

(** The COUNT of the next PDU to send, and of the next expected. *)
Definition tx_next (p : pdcp_t) : Z :=
  tx_hfn p * 2 ^ seq_num_size p + next_pdcp_tx_sn p.
Definition rx_next (p : pdcp_t) : Z :=
  rx_hfn p * 2 ^ seq_num_size p + next_pdcp_rx_sn p.

(** COUNT wraps when the 32-bit hyper frame number does. *)
Definition count_mod (p : pdcp_t) : Z := 2 ^ 32 * 2 ^ seq_num_size p.

(** One step of a pair (hyper frame number, sequence number). *)
Lemma count_step m h s :
  32 <= m <= 4096 -> in_u 32 h -> 0 <= s < m ->
  let h' := if s =? m - 1 then u32 (h + 1) else h in
  let s' := if s =? m - 1 then 0 else u16 (s + 1) in
  h' * m + s' = (h * m + s + 1) mod (2 ^ 32 * m) /\ 0 <= s' < m /\ in_u 32 h'.
Proof.
  unfold in_u. intros Hm Hh Hs. cbn zeta. change (2 ^ 32) with 4294967296 in *.
  destruct (Z.eqb_spec s (m - 1)) as [->|Hne].
  - destruct (Z.eqb_spec h 4294967295) as [->|Hh2].
    + change (u32 (4294967295 + 1)) with 0.
      replace (4294967295 * m + (m - 1) + 1) with (1 * (4294967296 * m)) by lia.
      rewrite Z.mod_mul by lia. lia.
    + rewrite u32_small by lia. rewrite Z.mod_small by nia. split; [nia|lia].
  - rewrite u16_small by lia. rewrite Z.mod_small by nia. split; [nia|lia].
Qed.

Lemma get_next_ok p :
  seq_wf p ->
  let '(p', sn) := pdcp_get_next_tx_seq_number p in
  sn = next_pdcp_tx_sn p /\ tx_next p' = (tx_next p + 1) mod count_mod p /\ seq_wf p' /\
  seq_num_size p' = seq_num_size p /\ rx_next p' = rx_next p.
Proof.
  intros [Hn Ht Hr Hth Hrh Hb]. unfold pdcp_get_next_tx_seq_number.
  rewrite size_valid, max_seq_num by done. cbn [negb].
  pose proof (sn_modulus _ Hn) as Hm.
  destruct (count_step (2 ^ seq_num_size p) (tx_hfn p) (next_pdcp_tx_sn p) Hm Hth Ht)
    as (H1 & H2 & H3).
  unfold tx_next, rx_next, count_mod.
  destruct (next_pdcp_tx_sn p =? 2 ^ seq_num_size p - 1); unfold update in *; cbn in *;
    (split; [done|]; split; [exact H1|]; split; [|done]; by split).
Qed.

(** [n] numbers taken one after the other. *)
Fixpoint take_numbers (n : nat) (p : pdcp_t) : pdcp_t * list Z :=
  match n with
  | O => (p, [])
  | S n =>
      let '(p, sn) := pdcp_get_next_tx_seq_number p in
      let '(p, sns) := take_numbers n p in (p, sn :: sns)
  end.

Lemma tx_next_sn p : seq_wf p -> tx_next p mod 2 ^ seq_num_size p = next_pdcp_tx_sn p.
Proof.
  intros [Hn Ht _ _ _ _]. unfold tx_next. rewrite Z.add_comm, Z.mod_add by lia.
  by apply Z.mod_small.
Qed.

Lemma count_mod_sn p x : seq_wf p -> (x mod count_mod p) mod 2 ^ seq_num_size p
  = x mod 2 ^ seq_num_size p.
Proof.
  intros Hp. pose proof (sn_modulus _ (sq_size _ Hp)). unfold count_mod.
  rewrite (Z.mod_eq x (2 ^ 32 * 2 ^ seq_num_size p)) by lia.
  set (q := x / _). replace (x - 2 ^ 32 * 2 ^ seq_num_size p * q)
    with (x + (- (2 ^ 32 * q)) * 2 ^ seq_num_size p) by lia.
  apply Z.mod_add. lia.
Qed.

(** C30.  Sequence numbers of the transmitter.  The [k]-th of [n] numbers taken
    one after the other is the low part of COUNT + k, and COUNT, made of the
    hyper frame number and the next number, has advanced by [n]: the numbers
    are consecutive, stay within their size, and the hyper frame number counts
    their wraps. *)
Theorem pdcp_tx_numbers n p :
  seq_wf p ->
  let '(p', sns) := take_numbers n p in
  length sns = n /\
  (forall k sn, sns !! k = Some sn ->
     sn = (tx_next p + Z.of_nat k) mod 2 ^ seq_num_size p) /\
  tx_next p' = (tx_next p + Z.of_nat n) mod count_mod p /\ seq_wf p'.
Proof.
  revert p. induction n as [|n IH]; intros p Hp; cbn [take_numbers].
  - split; [done|]. split; [done|]. split; [|done]. rewrite Z.add_0_r.
    symmetry. apply Z.mod_small. destruct Hp as [Hn Ht _ Hth _ _].
    unfold tx_next, count_mod, in_u in *. change (2 ^ 32) with 4294967296 in *.
    pose proof (sn_modulus _ Hn). nia.
  - pose proof (get_next_ok p Hp) as H1.
    destruct (pdcp_get_next_tx_seq_number p) as [p1 sn].
    destruct H1 as (-> & H2 & H3 & H4 & _). specialize (IH p1 H3).
    destruct (take_numbers n p1) as [p2 sns]. destruct IH as (I1 & I2 & I3 & I4).
    assert (Hcm : count_mod p1 = count_mod p) by (unfold count_mod; by rewrite H4).
    split; [cbn; by rewrite I1|]. split; [|split; [|done]].
    + intros [|k] s Hs; cbn in Hs.
      * simplify_eq. rewrite Z.add_0_r. symmetry. by apply tx_next_sn.
      * rewrite (I2 _ _ Hs), H2, H4.
        rewrite <- Zplus_mod_idemp_l, count_mod_sn, Zplus_mod_idemp_l by done.
        f_equal. lia.
    + rewrite I3, H2, Hcm, Zplus_mod_idemp_l. f_equal. lia.
Qed.

(** ** The bitmap of received numbers *)

(** The number [i] is marked: bit [i mod 8], from the left, of octet [i / 8]. *)
Definition marked (bitmap : list Z) (i : Z) : bool :=
  match bitmap !! Z.to_nat (i / 8) with
  | Some o => Z.testbit o (7 - i mod 8)
  | None => false
  end.

Lemma mark_bit o i k :
  0 <= i < 8 -> 0 <= k < 8 ->
  Z.testbit (util_mark_nth_bit_of_octet o i) (7 - k)
  = Z.testbit o (7 - k) || (k =? i).
Proof.
  intros Hi Hk. unfold util_mark_nth_bit_of_octet. rewrite Z.lor_spec. f_equal.
  change 0x80 with (2 ^ 7). rewrite Z.shiftr_div_pow2, <- Z.pow_sub_r by lia.
  rewrite Z.pow2_bits_eqb by lia.
  destruct (Z.eqb_spec (7 - i) (7 - k)), (Z.eqb_spec k i); lia.
Qed.

Lemma mark_ok seq_num p :
  seq_wf p -> 0 <= seq_num < 2 ^ seq_num_size p ->
  exists m, pdcp_mark_current_pdu_as_received seq_num p
      = Ok (p <| missing_pdu_bitmap := m |>) /\ length m = 512%nat /\
    forall i, 0 <= i < 4096 ->
      marked m i = marked (missing_pdu_bitmap p) i || (i =? seq_num).
Proof.
  intros Hp Hs. pose proof (sn_modulus _ (sq_size _ Hp)). pose proof (sq_bitmap _ Hp) as Hb.
  set (b := missing_pdu_bitmap p) in *.
  assert (Hq : 0 <= seq_num / 8 < 512) by div_lia.
  assert (Hzb : zlen b = 512) by (unfold zlen; lia).
  destruct (list_split b (seq_num / 8)) as (b1 & b2 & E & Hl1); [lia|].
  destruct b2 as [|o b2].
  { rewrite app_nil_r in E. rewrite E in Hzb. lia. }
  unfold pdcp_mark_current_pdu_as_received. fold b. rewrite E, <- Hl1, rd_app_here.
  cbn [mbind res_bind]. change (b1 ++ o :: b2) with (b1 ++ [o] ++ b2).
  rewrite wr_app by done. cbn [mbind res_bind].
  set (o' := util_mark_nth_bit_of_octet o (seq_num mod 8)).
  eexists. split; [reflexivity|]. split.
  { rewrite E in Hb. rewrite !length_app in *. cbn [length] in *. lia. }
  intros i Hi. unfold marked.
  assert (Hn1 : length b1 = Z.to_nat (seq_num / 8)) by (unfold zlen in Hl1; lia).
  destruct (decide (i / 8 = seq_num / 8)) as [Eo|Hne].
  - rewrite Eo, <- Hn1. cbn [app]. rewrite !list_lookup_middle by done.
    unfold o'. rewrite mark_bit by div_lia. f_equal.
    destruct (Z.eqb_spec (i mod 8) (seq_num mod 8)), (Z.eqb_spec i seq_num); div_lia.
  - rewrite (proj2 (Z.eqb_neq i seq_num)) by (intros ->; done). rewrite orb_false_r.
    cbn [app]. assert (Hi8 : 0 <= i / 8) by div_lia.
    destruct (decide (Z.to_nat (i / 8) < length b1)%nat).
    + by rewrite !lookup_app_l by done.
    + rewrite !lookup_app_r by lia.
      destruct (Z.to_nat (i / 8) - length b1)%nat as [|k] eqn:Ek; [lia|done].
Qed.

(** ** Reception *)

(** The COUNT inferred for number [s]: the first one from the next expected
    on with this number in its low part. *)
Definition infer_count (p : pdcp_t) (s : Z) : Z :=
  rx_next p + (s - next_pdcp_rx_sn p) mod 2 ^ seq_num_size p.

Lemma wrap_case h s next m :
  32 <= m <= 4096 -> in_u 32 h -> 0 <= s < m -> 0 <= next < m ->
  let h' := if s <? next then u32 (h + 1) else h in
  in_u 32 h' /\
  (h' * m + s + 1) mod (2 ^ 32 * m) = (h * m + next + (s - next) mod m + 1) mod (2 ^ 32 * m).
Proof.
  unfold in_u. intros Hm Hh Hs Hn. cbn zeta. change (2 ^ 32) with 4294967296 in *.
  destruct (Z.ltb_spec s next) as [Hlt|Hge].
  - replace ((s - next) mod m) with (s - next + m)
      by (rewrite <- (Z.mod_small (s - next + m) m) at 1 by lia;
          replace (s - next + m) with (s - next + 1 * m) by lia; by rewrite Z.mod_add by lia).
    destruct (Z.eqb_spec h 4294967295) as [->|Hh2].
    + change (u32 (4294967295 + 1)) with 0. split; [lia|].
      replace (4294967295 * m + next + (s - next + m) + 1)
        with (0 * m + s + 1 + 1 * (4294967296 * m)) by lia.
      by rewrite Z.mod_add by lia.
    + rewrite u32_small by lia. split; [lia|]. f_equal. lia.
  - split; [done|]. rewrite (Z.mod_small (s - next)) by lia. f_equal. lia.
Qed.

(** Taking number [s] as the last one received. *)
Lemma advance_ok p s :
  seq_wf p -> 0 <= s < 2 ^ seq_num_size p ->
  let p' := fst (pdcp_advance_rx_window (p <| next_pdcp_rx_sn := s |>)) in
  seq_wf p' /\ seq_num_size p' = seq_num_size p /\
  rx_next p' = (rx_hfn p * 2 ^ seq_num_size p + s + 1) mod count_mod p /\
  tx_next p' = tx_next p /\ missing_pdu_bitmap p' = missing_pdu_bitmap p /\
  rx_hfn_offset p' = rx_hfn_offset p.
Proof.
  intros [Hn Ht Hr Hth Hrh Hb] Hs. unfold pdcp_advance_rx_window.
  change (pdcp_is_seq_num_size_valid (p <| next_pdcp_rx_sn := s |>))
    with (pdcp_is_seq_num_size_valid p).
  rewrite size_valid by done. cbn [negb].
  change (seq_num_size (p <| next_pdcp_rx_sn := s |>)) with (seq_num_size p).
  change (next_pdcp_rx_sn (p <| next_pdcp_rx_sn := s |>)) with s.
  rewrite max_seq_num by done.
  destruct (count_step (2 ^ seq_num_size p) (rx_hfn p) s (sn_modulus _ Hn) Hrh Hs)
    as (H1 & H2 & H3).
  unfold rx_next, tx_next, count_mod.
  destruct (s =? 2 ^ seq_num_size p - 1); unfold update in *; cbn in *; (split; [by split|done]).
Qed.

Lemma seq_wf_rx_hfn p h : in_u 32 h -> seq_wf p -> seq_wf (p <| rx_hfn := h |>).
Proof. intros Hh [? ? ? ? ? ?]. by split. Qed.

Lemma infer_ok p s :
  seq_wf p -> 0 <= s < 2 ^ seq_num_size p ->
  let p' := rx_drb_um s p in
  seq_wf p' /\ seq_num_size p' = seq_num_size p /\
  rx_next p' = (infer_count p s + 1) mod count_mod p /\
  tx_next p' = tx_next p /\ missing_pdu_bitmap p' = missing_pdu_bitmap p /\
  rx_hfn_offset p' = rx_hfn_offset p.
Proof.
  intros Hp Hs. pose proof Hp as [Hn Ht Hr Hth Hrh Hb]. unfold rx_drb_um.
  destruct (wrap_case (rx_hfn p) s (next_pdcp_rx_sn p) _ (sn_modulus _ Hn) Hrh Hs Hr)
    as [Hh E].
  set (p1 := if s <? next_pdcp_rx_sn p then _ else _).
  assert (Hp1 : seq_wf p1 /\ seq_num_size p1 = seq_num_size p /\
    rx_hfn p1 = (if s <? next_pdcp_rx_sn p then u32 (rx_hfn p + 1) else rx_hfn p) /\
    tx_next p1 = tx_next p /\ missing_pdu_bitmap p1 = missing_pdu_bitmap p /\
    rx_hfn_offset p1 = rx_hfn_offset p).
  { unfold p1. destruct (s <? next_pdcp_rx_sn p); [|done].
    split; [by apply seq_wf_rx_hfn|done]. }
  destruct Hp1 as (Hw1 & Hn1 & Hh1 & Ht1 & Hb1 & Ho1).
  destruct (advance_ok p1 s Hw1) as (A1 & A2 & A3 & A4 & A5 & A6); [by rewrite Hn1|].
  split; [done|]. split; [congruence|]. split; [|split; [|split]; congruence].
  rewrite A3. unfold count_mod, infer_count, rx_next. by rewrite Hn1, Hh1, E.
Qed.

Lemma seq_wf_mark p m :
  length m = 512%nat -> seq_wf p -> seq_wf (p <| missing_pdu_bitmap := m |>).
Proof. intros Hm [? ? ? ? ? ?]. by split. Qed.

Lemma valid_number p s :
  seq_wf p -> 0 <= s < 2 ^ seq_num_size p ->
  pdcp_is_seq_num_size_valid p = true /\ pdcp_is_seq_num_valid s (seq_num_size p) = true.
Proof.
  intros Hp Hs. split; [apply size_valid, Hp|]. unfold pdcp_is_seq_num_valid.
  rewrite max_seq_num by apply Hp. apply andb_true_iff.
  split; [apply Z.leb_le|apply Z.leb_le]; lia.
Qed.

(** Signalling bearers do as data bearers over UM, and clear the offset. *)
Lemma advance_other_fields p x :
  fst (pdcp_advance_rx_window
    (p <| next_pdcp_rx_sn_before_integrity := x |> <| rx_hfn_offset := 0 |>))
  = (fst (pdcp_advance_rx_window p)) <| next_pdcp_rx_sn_before_integrity := x |>
      <| rx_hfn_offset := 0 |>.
Proof.
  unfold pdcp_advance_rx_window.
  change (pdcp_is_seq_num_size_valid _) with (pdcp_is_seq_num_size_valid p) at 1.
  destruct (pdcp_is_seq_num_size_valid p); [cbn [negb]|reflexivity].
  change (next_pdcp_rx_sn (_ <| rx_hfn_offset := 0 |>)) with (next_pdcp_rx_sn p).
  change (seq_num_size (_ <| rx_hfn_offset := 0 |>)) with (seq_num_size p).
  destruct (next_pdcp_rx_sn p =? _); reflexivity.
Qed.

Lemma rx_srb_um p s :
  rx_srb s p = (rx_drb_um s p) <| next_pdcp_rx_sn_before_integrity := next_pdcp_rx_sn p |>
                 <| rx_hfn_offset := 0 |>.
Proof.
  unfold rx_srb, rx_drb_um. rewrite <- advance_other_fields.
  destruct (s <? next_pdcp_rx_sn p); reflexivity.
Qed.

Lemma srb_as_um p s :
  let p' := rx_srb s p in
  rx_next p' = rx_next (rx_drb_um s p) /\ tx_next p' = tx_next (rx_drb_um s p) /\
  seq_num_size p' = seq_num_size (rx_drb_um s p) /\
  missing_pdu_bitmap p' = missing_pdu_bitmap (rx_drb_um s p) /\
  rx_hfn_offset p' = 0 /\ (seq_wf (rx_drb_um s p) -> seq_wf p').
Proof.
  rewrite rx_srb_um. generalize (rx_drb_um s p) as q. intros q. cbv zeta.
  do 5 (split; [reflexivity|]). intros [H1 H2 H3 H4 H5 H6].
  split; [exact H1|exact H2|exact H3|exact H4|exact H5|exact H6].
Qed.

(** Reception on signalling bearers and on data bearers over UM. *)
Definition resyncs (p : pdcp_t) (srb : bool) : Prop :=
  srb = true \/ rlc_mode p = RLC_MODE_UM.

(** What reception leaves alone: the configuration, the keys and the
    variables of the transmitter. *)
Definition config (p : pdcp_t) :=
  (instanciated_instance p, is_ue p, cipheringAlgorithm p, integrityProtAlgorithm p,
   (kUPenc p, kRRCint p, kRRCenc p), security_activated p, rlc_mode p, seq_num_size p,
   next_pdcp_tx_sn p, tx_hfn p).

Lemma config_advance p : config (fst (pdcp_advance_rx_window p)) = config p.
Proof.
  unfold pdcp_advance_rx_window. destruct (negb _); [reflexivity|].
  destruct (_ =? _); reflexivity.
Qed.

Lemma config_rx_um p s : config (rx_drb_um s p) = config p.
Proof.
  unfold rx_drb_um. destruct (s <? next_pdcp_rx_sn p); by rewrite config_advance.
Qed.

Lemma config_rx_am w s p : config (fst (rx_drb_am w s p)) = config p.
Proof.
  unfold rx_drb_am.
  repeat (match goal with |- context [if ?b then _ else _] => destruct b end; try reflexivity).
  cbn [fst]. by rewrite config_advance.
Qed.

Lemma rx_config p s srb p' ok :
  pdcp_is_rx_seq_number_valid s p srb = Ok (p', ok) -> config p' = config p.
Proof.
  unfold pdcp_is_rx_seq_number_valid.
  destruct (_ || _); [by intros [= <- <-]|]. intros H.
  apply res_bind_ok in H as (p0 & Hmk & H).
  assert (Hc : config p0 = config p).
  { unfold pdcp_mark_current_pdu_as_received in Hmk.
    apply res_bind_ok in Hmk as (o & _ & Hmk). apply res_bind_ok in Hmk as (m & _ & Hmk).
    apply Ok_inj in Hmk as <-. reflexivity. }
  rewrite <- Hc. destruct srb.
  { injection H as <- _. rewrite rx_srb_um. apply config_rx_um. }
  destruct (_ =? RLC_MODE_AM).
  { injection H as H. apply (f_equal fst) in H. cbn [fst] in H. rewrite <- H.
    apply config_rx_am. }
  destruct (_ =? RLC_MODE_UM); injection H as <- _; [apply config_rx_um|done].
Qed.

Lemma rx_ok p s srb :
  seq_wf p -> resyncs p srb -> 0 <= s < 2 ^ seq_num_size p ->
  exists p', pdcp_is_rx_seq_number_valid s p srb = Ok (p', true) /\
    rx_next p' = (infer_count p s + 1) mod count_mod p /\
    tx_next p' = tx_next p /\ seq_num_size p' = seq_num_size p /\ seq_wf p' /\
    rx_hfn_offset p' = (if srb then 0 else rx_hfn_offset p) /\
    forall i, 0 <= i < 4096 ->
      marked (missing_pdu_bitmap p') i = marked (missing_pdu_bitmap p) i || (i =? s).
Proof.
  intros Hp Hm Hs. destruct (valid_number p s Hp Hs) as [V1 V2].
  unfold pdcp_is_rx_seq_number_valid. rewrite V1, V2. cbn [negb orb].
  destruct (mark_ok s p Hp Hs) as (m & -> & Hl & Hbits). cbn [mbind res_bind].
  set (p1 := p <| missing_pdu_bitmap := m |>).
  assert (Hp1 : seq_wf p1) by (by apply seq_wf_mark).
  destruct (infer_ok p1 s Hp1 Hs) as (I1 & I2 & I3 & I4 & I5 & I6).
  destruct srb.
  - destruct (srb_as_um p1 s) as (S1 & S2 & S3 & S4 & S5 & S6).
    exists (rx_srb s p1). split; [done|].
    split; [by rewrite S1|]. split; [rewrite S2; exact I4|]. split; [by rewrite S3|].
    split; [by apply S6|]. split; [done|]. rewrite S4, I5. done.
  - destruct Hm as [|Hm]; [done|]. change (rlc_mode p1) with (rlc_mode p). rewrite Hm.
    change (RLC_MODE_UM =? RLC_MODE_AM) with false.
    change (RLC_MODE_UM =? RLC_MODE_UM) with true. cbn match.
    exists (rx_drb_um s p1). split; [done|]. split; [done|]. split; [done|].
    split; [done|]. split; [done|]. split; [done|]. by rewrite I5.
Qed.

(** C31.  Reception on signalling bearers and over RLC UM.  Every number of the
    size is accepted; the receiver takes it for the first COUNT from the next
    expected on which ends with it, and expects the one after; the number, and
    no other, is marked in the bitmap. *)
Theorem pdcp_rx_infers_count p s srb :
  seq_wf p -> resyncs p srb -> 0 <= s < 2 ^ seq_num_size p ->
  exists p', pdcp_is_rx_seq_number_valid s p srb = Ok (p', true) /\
    rx_next p' = (infer_count p s + 1) mod count_mod p /\
    tx_next p' = tx_next p /\ seq_num_size p' = seq_num_size p /\ seq_wf p' /\
    rx_hfn_offset p' = (if srb then 0 else rx_hfn_offset p) /\
    forall i, 0 <= i < 4096 ->
      marked (missing_pdu_bitmap p') i = marked (missing_pdu_bitmap p) i || (i =? s).
Proof. apply rx_ok. Qed.

Lemma infer_near p T :
  seq_wf p -> rx_next p <= T < rx_next p + 2 ^ seq_num_size p ->
  infer_count p (T mod 2 ^ seq_num_size p) = T.
Proof.
  intros Hp HT. pose proof (sn_modulus _ (sq_size _ Hp)) as Hm. unfold infer_count.
  rewrite Zminus_mod_idemp_l.
  replace (T - next_pdcp_rx_sn p)
    with (T - rx_next p + rx_hfn p * 2 ^ seq_num_size p) by (unfold rx_next; lia).
  rewrite Z.mod_add, Z.mod_small by lia. lia.
Qed.

(** The receiver fed with the numbers of a list of COUNTs. *)
Fixpoint rx_counts (counts : list Z) (p : pdcp_t) (srb : bool) : res pdcp_t :=
  match counts with
  | [] => Ok p
  | T :: counts =>
      '(p, ok) ← pdcp_is_rx_seq_number_valid (T mod 2 ^ seq_num_size p) p srb;
      _ ← res_guard ok EAssert;
      rx_counts counts p srb
  end.

(** Increasing COUNTs, each less than a full cycle of numbers after the one
    before. *)
Fixpoint near_counts (m R : Z) (counts : list Z) : Prop :=
  match counts with
  | [] => True
  | T :: counts => R <= T < R + m /\ near_counts m (T + 1) counts
  end.

Lemma rx_counts_ok counts : forall p srb,
  seq_wf p -> resyncs p srb -> near_counts (2 ^ seq_num_size p) (rx_next p) counts ->
  (forall T, T ∈ counts -> T + 1 < count_mod p) ->
  exists p', rx_counts counts p srb = Ok p' /\ seq_wf p' /\
    rx_next p' = match last counts with Some T => T + 1 | None => rx_next p end.
Proof.
  induction counts as [|T counts IH]; intros p srb Hp Hr Hn Hmax; [by exists p|].
  destruct Hn as [HT Hn]. pose proof (sn_modulus _ (sq_size _ Hp)) as Hm.
  assert (Hs : 0 <= T mod 2 ^ seq_num_size p < 2 ^ seq_num_size p)
    by (apply Z.mod_pos_bound; lia).
  destruct (rx_ok p _ srb Hp Hr Hs) as (p1 & H1 & H2 & _ & H4 & H5 & _).
  rewrite infer_near in H2 by done.
  assert (Hpos : 0 <= rx_next p).
  { unfold rx_next. destruct Hp as [_ _ ? _ Hh _]. unfold in_u in Hh. nia. }
  rewrite Z.mod_small in H2 by (specialize (Hmax T (list_elem_of_here _ _)); lia).
  assert (Hr1 : resyncs p1 srb).
  { destruct Hr as [|Hr]; [by left|right].
    apply rx_config in H1. unfold config in H1. congruence. }
  destruct (IH p1 srb H5 Hr1) as (p2 & R1 & R2 & R3).
  { by rewrite H4, H2. }
  { intros T' HT'. unfold count_mod. rewrite H4. apply Hmax. by apply list_elem_of_further. }
  exists p2. cbn [rx_counts]. rewrite H1. cbn [mbind res_bind res_guard].
  rewrite R1. split; [done|]. split; [done|]. rewrite R3.
  destruct counts as [|T2 counts]; [cbn; by rewrite H2|]. cbn [last].
  destruct (last (T2 :: counts)) eqn:El; [done|]. by apply last_None in El.
Qed.


(** Reception in sequence over RLC AM.  The next expected number, when the
    last SDU submitted is the one before it, is accepted, deciphered without
    offset, and COUNT advances by one, across the wrap too. *)
Theorem pdcp_rx_am_in_sequence p :
  seq_wf p -> rlc_mode p = RLC_MODE_AM ->
  seq_num_size p = PDCP_SN_7BIT \/ seq_num_size p = PDCP_SN_12BIT ->
  last_submitted_pdcp_rx_sn p = (next_pdcp_rx_sn p - 1) mod 2 ^ seq_num_size p ->
  exists p', pdcp_is_rx_seq_number_valid (next_pdcp_rx_sn p) p false = Ok (p', true) /\
    rx_next p' = (rx_next p + 1) mod count_mod p /\ rx_hfn_offset p' = 0 /\ seq_wf p'.
Proof.
  intros Hp Hmode Hn Hlast. pose proof (sq_rx _ Hp) as Hs.
  destruct (valid_number p _ Hp Hs) as [V1 V2].
  unfold pdcp_is_rx_seq_number_valid. rewrite V1, V2. cbn [negb orb].
  destruct (mark_ok _ p Hp Hs) as (m & -> & Hl & Hbits). cbn [mbind res_bind].
  set (p1 := p <| missing_pdu_bitmap := m |>).
  assert (Hp1 : seq_wf p1) by (by apply seq_wf_mark).
  change (rlc_mode p1) with (rlc_mode p). rewrite Hmode.
  change (RLC_MODE_AM =? RLC_MODE_AM) with true. cbn match.
  set (w := if seq_num_size p1 =? PDCP_SN_7BIT then _ else _).
  assert (Hw : 2 ^ seq_num_size p = 2 * w).
  { unfold w. change (seq_num_size p1) with (seq_num_size p). by destruct Hn as [-> | ->]. }
  set (s := next_pdcp_rx_sn p) in *.
  destruct (advance_ok (p1 <| rx_hfn_offset := 0 |>) s) as (A1 & A2 & A3 & A4 & A5 & A6);
    [destruct Hp1; by split|done|].
  exists (fst (pdcp_advance_rx_window
    (p1 <| rx_hfn_offset := 0 |> <| next_pdcp_rx_sn := s |>))).
  assert (Hbr : rx_drb_am w s p1 = (fst (pdcp_advance_rx_window
    (p1 <| rx_hfn_offset := 0 |> <| next_pdcp_rx_sn := s |>)), true)).
  { unfold rx_drb_am. change (last_submitted_pdcp_rx_sn p1) with (last_submitted_pdcp_rx_sn p).
    change (next_pdcp_rx_sn p1) with s. rewrite Hlast.
    pose proof (sn_modulus _ (sq_size _ Hp)) as Hm. rewrite Hw in *.
    assert (Hl2 : (s - 1) mod (2 * w) = if s =? 0 then 2 * w - 1 else s - 1).
    { destruct (Z.eqb_spec s 0) as [->|]; [|apply Z.mod_small; lia].
      replace (0 - 1) with (2 * w - 1 + (-1) * (2 * w)) by lia.
      rewrite Z.mod_add by lia. apply Z.mod_small. lia. }
    rewrite Hl2. rewrite Z.sub_diag, Z.leb_refl.
    rewrite (proj2 (Z.ltb_ge w 0)), (proj2 (Z.leb_gt w 0)) by lia.
    destruct (Z.eqb_spec s 0) as [->|].
    - rewrite (proj2 (Z.ltb_ge w (0 - (2 * w - 1)))) by lia.
      rewrite (proj2 (Z.ltb_ge (2 * w - 1 - 0) w)), andb_false_r by lia. done.
    - rewrite (proj2 (Z.ltb_ge w (s - (s - 1)))) by lia.
      rewrite (proj2 (Z.leb_gt 0 (s - 1 - s))) by lia. done. }
  rewrite Hbr. split; [done|]. split; [|done].
  rewrite A3. unfold rx_next, count_mod. reflexivity.
Qed.

(** ** Concrete entities *)

Definition pdcp0 (mode size : Z) : pdcp_t :=
  pdcp_init_seq_numbers
    (Pdcp true true 0 0 [] [] [] 0 mode size 0 0 0 0 0 0 0 (replicate 512 0)).

Lemma pdcp0_wf mode size : sn_size size -> seq_wf (pdcp0 mode size).
Proof.
  intros Hn. pose proof (sn_modulus _ Hn).
  split; [done|split; [done|change (0 < 2 ^ size); lia]..|done|done|done].
Qed.

(** Over RLC AM, when the numbers lost span the wrap, the next expected
    number becomes one more than it was instead of one more than the number
    received: the hyper frame number is then increased again by the next PDU. *)
Theorem pdcp_rx_am_wrap_drifts :
  let p := (pdcp0 RLC_MODE_AM 12) <| next_pdcp_rx_sn := 4000 |>
             <| last_submitted_pdcp_rx_sn := 3999 |> in
  match pdcp_is_rx_seq_number_valid 5 p false with
  | Ok (p1, true) =>
      next_pdcp_rx_sn p1 = 4001 /\ rx_hfn p1 = 1 /\
      match pdcp_is_rx_seq_number_valid 6 (p1 <| last_submitted_pdcp_rx_sn := 5 |>) false with
      | Ok (p2, true) => rx_hfn p2 = 2
      | _ => False
      end
  | _ => False
  end.
Proof. vm_compute. by repeat split. Qed.

Lemma pdcp_tx_numbers_witness :
  let p := pdcp0 RLC_MODE_UM 5 in
  let '(p', sns) := take_numbers 70 p in
  length sns = 70%nat /\
  (forall k sn, sns !! k = Some sn -> sn = (tx_next p + Z.of_nat k) mod 2 ^ seq_num_size p) /\
  tx_next p' = (tx_next p + Z.of_nat 70) mod count_mod p /\ seq_wf p'.
Proof. apply (pdcp_tx_numbers 70 (pdcp0 RLC_MODE_UM 5)). apply pdcp0_wf. by left. Defined.

Lemma pdcp_rx_infers_count_witness :
  let p := pdcp0 RLC_MODE_UM 12 in
  exists p', pdcp_is_rx_seq_number_valid 9 p false = Ok (p', true) /\
    rx_next p' = (infer_count p 9 + 1) mod count_mod p /\
    tx_next p' = tx_next p /\ seq_num_size p' = seq_num_size p /\ seq_wf p' /\
    rx_hfn_offset p' = (if false then 0 else rx_hfn_offset p) /\
    forall i, 0 <= i < 4096 ->
      marked (missing_pdu_bitmap p') i = marked (missing_pdu_bitmap p) i || (i =? 9).
Proof.
  apply (pdcp_rx_infers_count (pdcp0 RLC_MODE_UM 12) 9 false).
  - apply pdcp0_wf. by right; right.
  - by right.
  - vm_compute. intuition discriminate.
Defined.


Lemma pdcp_rx_am_in_sequence_witness :
  let p := pdcp0 RLC_MODE_AM 12 in
  exists p', pdcp_is_rx_seq_number_valid (next_pdcp_rx_sn p) p false = Ok (p', true) /\
    rx_next p' = (rx_next p + 1) mod count_mod p /\ rx_hfn_offset p' = 0 /\ seq_wf p'.
Proof.
  apply (pdcp_rx_am_in_sequence (pdcp0 RLC_MODE_AM 12)).
  - apply pdcp0_wf. by right; right.
  - done.
  - by right.
  - done.
Defined.
