(* ===== verification/PdcpSecurity.v ===== *)
(** PDCP v10.1.0: ciphering and integrity of the PDUs ([pdcp_security.c]). *)
From S2P Require Import Prelude.
From S2P Require Import OsaStream.
From S2P Require Import PdcpPrimitives.
From S2P Require Import PdcpSequence.

Local Open Scope Z_scope.
Local Open Scope c_scope.

(** What the build fixes: constants of the generated ASN.1 code ([maxDRB], the
    value of the enumeration for 7-bit sequence numbers) and of the platform. *)
Record build := Build {
  maxDRB : Z;
  SN_Size_len7bits : Z;
  NUMBER_OF_eNB_MAX : Z;
  NUMBER_OF_UE_MAX : Z;
  NB_RB_MBMS_MAX : Z;
  MAX_IP_PACKET_SIZE : Z;
  ENABLE_SECURITY : bool;
  LINK_PDCP_TO_GTPV1U : bool;
  STOP_ON_IP_TRAFFIC_OVERLOAD : bool;
  macphy_exit_returns : bool  (** [exit] in one target, a flag in others *)
}.

Definition NB_RB_MAX (B : build) : Z := maxDRB B + 3.

(** The hyper frame number in front of the sequence number, in 32 bits. *)
Definition count_of (hfn size pdcp_sn mask : Z) : Z :=
  u32 (hfn .<< size) .| (pdcp_sn .& mask).

Definition pdcp_get_next_count_tx (B : build) (p : pdcp_t) (srb_flagP : bool)
    (pdcp_sn : Z) : Z :=
  if srb_flagP then count_of (tx_hfn p) 5 pdcp_sn 0x001F
  else if seq_num_size p =? SN_Size_len7bits B then count_of (tx_hfn p) 7 pdcp_sn 0x07F
  else count_of (tx_hfn p) 12 pdcp_sn 0x0FFF.

(** The offset is reset. *)
Definition pdcp_get_next_count_rx (B : build) (p : pdcp_t) (srb_flagP : bool)
    (pdcp_sn : Z) : pdcp_t * Z :=
  let hfn := u32 (rx_hfn p + rx_hfn_offset p) in
  let count :=
    if srb_flagP then count_of hfn 5 pdcp_sn 0x001F
    else if seq_num_size p =? SN_Size_len7bits B then count_of hfn 7 pdcp_sn 0x007F
    else count_of hfn 12 pdcp_sn 0x0FFF in
  (p <| rx_hfn_offset := 0 |>, count).

(** Memory from displacement [off] on; a pointer behind the object is an
    error. *)
Definition from_offset (l : list Z) (off : Z) : res (list Z) :=
  if bool_decide (0 <= off <= zlen l) then Ok (drop (Z.to_nat off) l)
  else Err EBounds.

(** [l] with its memory from [off] on replaced by [m]. *)
Definition put_from (l : list Z) (off : Z) (m : list Z) : list Z :=
  take (Z.to_nat off) l ++ m.

Section library.
Variable B : build.
Variable aes_ctr : list Z -> list Z -> list Z -> list Z.
Variable aes_cmac : list Z -> list Z -> list Z.

(** Ciphers the memory of the buffer from [pdcp_header_len] on; what
    [stream_encrypt] returns is not looked at. *)
Definition cipher_from (algorithm : Z) (k : list Z) (count bearer direction : Z)
    (buffer : list Z) (off bits : Z) : res (list Z) :=
  m ← from_offset buffer off;
  '(_, m) ← stream_encrypt aes_ctr algorithm
              (StreamCipher k 16 count bearer direction m bits);
  Ok (put_from buffer off m).

Definition pdcp_apply_security (p : pdcp_t) (srb_flagP : bool) (rb_id : Z)
    (pdcp_header_len current_sn : Z) (buffer : list Z) (sdu_buffer_size : Z)
    : res (list Z) :=
  _ ← res_guard ((rb_id <? NB_RB_MAX B) && (0 <=? rb_id)) EAssert;
  let direction :=
    if is_ue p then SECU_DIRECTION_UPLINK else SECU_DIRECTION_DOWNLINK in
  let bearer := u8 (rb_id - 1) in
  let count := pdcp_get_next_count_tx B p srb_flagP current_sn in
  let size := pdcp_header_len + sdu_buffer_size in
  '(buffer, k) ← (
    if srb_flagP then
      k ← from_offset (kRRCint p) 16;
      '(_, mac_i) ← stream_compute_integrity aes_cmac (integrityProtAlgorithm p)
        (StreamCipher k 16 count bearer direction buffer (u32 (size .<< 3)));
      buffer ← match mac_i with
               | Some mac_i => wr buffer size mac_i
               | None => Ok buffer
               end;
      Ok (buffer, kRRCenc p)
    else Ok (buffer, kUPenc p));
  cipher_from (cipheringAlgorithm p) k count bearer direction buffer pdcp_header_len
    (u32 (sdu_buffer_size .<< 3)).

(** The entity with its offset reset, what is returned, the buffer
    deciphered.  [sdu_buffer_size] does not count the MAC-I. *)
Definition pdcp_validate_security (p : pdcp_t) (srb_flagP : bool) (rb_id : Z)
    (pdcp_header_len current_sn : Z) (buffer : list Z) (sdu_buffer_size : Z)
    : res (pdcp_t * Z * list Z) :=
  _ ← res_guard ((rb_id <? NB_RB_MAX B) && (0 <=? rb_id)) EAssert;
  let direction :=
    if is_ue p then SECU_DIRECTION_DOWNLINK else SECU_DIRECTION_UPLINK in
  let bearer := u8 (rb_id - 1) in
  let '(p, count) := pdcp_get_next_count_rx B p srb_flagP current_sn in
  buffer ← cipher_from (cipheringAlgorithm p)
    (if srb_flagP then kRRCenc p else kUPenc p) count bearer direction buffer
    pdcp_header_len (u32 ((sdu_buffer_size - pdcp_header_len) .<< 3));
  if srb_flagP then
    k ← from_offset (kRRCint p) 16;
    expected ← from_offset buffer sdu_buffer_size;
    rc ← stream_check_integrity aes_cmac (integrityProtAlgorithm p)
      (StreamCipher k 16 count bearer direction buffer (u32 (sdu_buffer_size .<< 3)))
      expected;
    if negb (rc =? 0) then Ok (p, -1, buffer) else Ok (p, 0, buffer)
  else Ok (p, 0, buffer).
End library.
