(* ===== verification/PdcpSecuritySpec.v ===== *)
(** PDCP v10.1.0: a protected PDU is deciphered and found intact by the peer
    which holds the same keys and the same COUNT. *)
From S2P Require Import Prelude.
From S2P Require Import OsaSnow3gSpec.
From S2P Require Import OsaStream.
From S2P Require Import OsaStreamSpec.
From S2P Require Import OsaStreamLocal.
From S2P Require Import PdcpPrimitives.
From S2P Require Import PdcpSequence.
From S2P Require Import PdcpSequenceSpec.
From S2P Require Import PdcpSecurity.

Local Open Scope Z_scope.
Local Open Scope c_scope.

(** Algorithms the code knows, and keys of the sizes it reads. *)
Record secured (p : pdcp_t) : Prop := {
  se_cipher : 0 <= cipheringAlgorithm p <= 2;
  se_integrity : 0 <= integrityProtAlgorithm p <= 2;
  se_up : 16 <= zlen (kUPenc p);
  se_enc : 16 <= zlen (kRRCenc p);
  se_int : 32 <= zlen (kRRCint p) /\ bytes (kRRCint p)
}.

(** Two ends of a bearer. *)
Record peers (p q : pdcp_t) : Prop := {
  pe_side : is_ue q = negb (is_ue p);
  pe_cipher : cipheringAlgorithm q = cipheringAlgorithm p;
  pe_integrity : integrityProtAlgorithm q = integrityProtAlgorithm p;
  pe_up : kUPenc q = kUPenc p;
  pe_enc : kRRCenc q = kRRCenc p;
  pe_int : kRRCint q = kRRCint p
}.

Lemma from_offset_app a b : from_offset (a ++ b) (zlen a) = Ok b.
Proof.
  unfold from_offset. pose proof (zlen_nonneg a). pose proof (zlen_nonneg b).
  rewrite bool_decide_true by (rewrite zlen_app; lia).
  by rewrite to_nat_zlen, drop_app_length.
Qed.

Lemma put_from_app a b m : put_from (a ++ b) (zlen a) m = a ++ m.
Proof. unfold put_from. by rewrite to_nat_zlen, take_app_length. Qed.

Lemma from_offset_key k n : 0 <= n <= zlen k -> from_offset k n = Ok (drop (Z.to_nat n) k).
Proof. intros Hn. unfold from_offset. by rewrite bool_decide_true. Qed.

Lemma count_of_word h size sn mask : 0 <= sn -> word mask -> word (count_of h size sn mask).
Proof. intros Hs Hm. apply in_u_lor; [lia|by apply in_u_wrap|by apply in_u_land]. Qed.

Lemma count_tx_word B p srb sn : 0 <= sn -> word (pdcp_get_next_count_tx B p srb sn).
Proof.
  intros Hs. unfold pdcp_get_next_count_tx. case_match; [|case_match];
    by apply count_of_word.
Qed.

Lemma u32_bits n : 0 <= n < 268435456 -> u32 (n .<< 3) = 8 * n.
Proof. intros Hn. rewrite Z.shiftl_mul_pow2, u32_small by lia. lia. Qed.

Section security.
Variable B : build.
Variable aes_ctr : list Z -> list Z -> list Z -> list Z.
Variable aes_cmac : list Z -> list Z -> list Z.
Hypothesis ctr_length : forall k m d, length (aes_ctr k m d) = length d.
Hypothesis ctr_involutive : forall k m d, aes_ctr k m (aes_ctr k m d) = d.
Hypothesis ctr_bytes : forall k m d, bytes d -> bytes (aes_ctr k m d).
Hypothesis cmac_length : forall k m, length (aes_cmac k m) = 16%nat.
Hypothesis cmac_bytes : forall k m, bytes (aes_cmac k m).

Abbreviation apply_security := (pdcp_apply_security B aes_ctr aes_cmac).
Abbreviation validate_security := (pdcp_validate_security B aes_ctr aes_cmac).

Lemma cipher_from_ok algorithm k count bearer direction len f hdr m :
  ciphers aes_ctr algorithm (StreamCipher k 16 count bearer direction [] (8 * len)) len f ->
  0 <= len < 268435456 -> span algorithm len <= zlen m ->
  cipher_from aes_ctr algorithm k count bearer direction (hdr ++ m) (zlen hdr)
    (u32 (len .<< 3)) = Ok (hdr ++ f m).
Proof.
  intros [_ Hf] Hl Hm. unfold cipher_from. rewrite from_offset_app. cbn [mbind res_bind].
  rewrite u32_bits by done.
  change (StreamCipher k 16 count bearer direction m (8 * len)) with
    (with_message (StreamCipher k 16 count bearer direction [] (8 * len)) m).
  rewrite Hf by done. cbn [mbind res_bind]. by rewrite put_from_app.
Qed.

(** The direction and the bearer both ends use. *)
Definition wire_direction (p : pdcp_t) : Z :=
  if is_ue p then SECU_DIRECTION_UPLINK else SECU_DIRECTION_DOWNLINK.

Definition cipher_key (p : pdcp_t) (srb : bool) : list Z :=
  if srb then kRRCenc p else kUPenc p.

(** The stream parameters of a PDU of [len] bytes of data. *)
Definition pdu_cipher (p : pdcp_t) (srb : bool) (rb count len : Z) : stream_cipher :=
  StreamCipher (cipher_key p srb) 16 count (u8 (rb - 1)) (wire_direction p) [] (8 * len).
Definition pdu_integrity (p : pdcp_t) (rb count len : Z) : stream_cipher :=
  StreamCipher (drop 16 (kRRCint p)) 16 count (u8 (rb - 1)) (wire_direction p) [] (8 * len).

Lemma pdu_cipher_params p srb rb count len :
  secured p -> 0 <= len < 268435456 -> cipher_params (pdu_cipher p srb rb count len) len.
Proof.
  intros [_ _ H1 H2 _] Hl. split; [done|done|split; [done|]]. by destruct srb.
Qed.

Lemma pdu_integrity_params p rb count len :
  secured p -> word count -> params_ok (pdu_integrity p rb count len).
Proof.
  intros [_ _ _ _ [H1 H2]] Hc.
  split; [split|done|by unfold pdu_integrity, wire_direction; cbn; case_match].
  - cbn [pdu_integrity key]. rewrite zlen_drop. lia.
  - by apply Forall_drop.
Qed.

(** Room for the words EEA1 works on. *)
Definition room (p : pdcp_t) (len : Z) (m : list Z) : Prop :=
  span (cipheringAlgorithm p) len <= zlen m.

Lemma span_bound algorithm len : 0 <= len -> span algorithm len <= len + 3.
Proof. intros. unfold span, eea1_span. case_match; [div_lia|lia]. Qed.

(** ** Signalling bearers *)

(** The protected PDU: the MAC-I goes behind the data, then the data is
    ciphered with what EEA1 touches behind it. *)
Lemma apply_srb p rb sn hdr sdu mac0 rest f out :
  0 <= rb < NB_RB_MAX B -> 0 < zlen sdu + zlen hdr < 65536 ->
  zlen mac0 = 4 -> bytes (hdr ++ sdu ++ mac0 ++ rest) ->
  let count := pdcp_get_next_count_tx B p true sn in
  word count -> secured p ->
  ciphers aes_ctr (cipheringAlgorithm p) (pdu_cipher p true rb count (zlen sdu)) (zlen sdu) f ->
  computes aes_cmac (integrityProtAlgorithm p)
    (pdu_integrity p rb count (zlen (hdr ++ sdu))) (hdr ++ sdu) out ->
  (forall x, out = Some x -> is_mac x) ->
  apply_security p true rb (zlen hdr) sn (hdr ++ sdu ++ mac0 ++ rest) (zlen sdu)
  = Ok (hdr ++ f (sdu ++ default mac0 out ++ rest)).
Proof.
  intros Hrb Hl Hm Hb count Hc Hp Hf Hi Hx. unfold pdcp_apply_security.
  rewrite (proj2 (andb_true_iff _ _)) by (split; [apply Z.ltb_lt|apply Z.leb_le]; lia).
  cbn [res_guard mbind res_bind]. fold (wire_direction p) count.
  pose proof (zlen_nonneg hdr). pose proof (zlen_nonneg sdu). pose proof (zlen_nonneg rest).
  destruct (se_int _ Hp) as [Hk _]. rewrite (from_offset_key (kRRCint p) 16) by lia. cbn [mbind res_bind].
  replace (zlen hdr + zlen sdu) with (zlen (hdr ++ sdu)) by (by rewrite zlen_app).
  rewrite (u32_bits (zlen (hdr ++ sdu))) by (rewrite zlen_app; lia).
  change (StreamCipher (drop (Z.to_nat 16) (kRRCint p)) 16 count (u8 (rb - 1))
    (wire_direction p) (hdr ++ sdu ++ mac0 ++ rest) (8 * zlen (hdr ++ sdu))) with
    (with_message (pdu_integrity p rb count (zlen (hdr ++ sdu))) (hdr ++ sdu ++ mac0 ++ rest)).
  rewrite (app_assoc hdr sdu), Hi.
  2: { pose proof (span_bound 1 (zlen (hdr ++ sdu)) (zlen_nonneg _)) as Hs.
       change (span 1 _) with (eea1_span (zlen (hdr ++ sdu))) in Hs.
       rewrite (zlen_app (hdr ++ sdu)), (zlen_app mac0). lia. }
  2: { by rewrite <- app_assoc. }
  cbn [mbind res_bind].
  assert (Hw : match out with
               | Some mac_i => wr ((hdr ++ sdu) ++ mac0 ++ rest) (zlen (hdr ++ sdu)) mac_i
               | None => Ok ((hdr ++ sdu) ++ mac0 ++ rest)
               end = Ok ((hdr ++ sdu) ++ default mac0 out ++ rest)).
  { destruct out as [x|]; [|done]. destruct (Hx x eq_refl) as [Hlx _].
    rewrite wr_app; [done|]. unfold zlen in Hm. lia. }
  rewrite Hw. cbn [mbind res_bind]. rewrite <- app_assoc.
  apply (cipher_from_ok (cipheringAlgorithm p) _ _ _ _ (zlen sdu) f); [exact Hf|lia|].
  pose proof (span_bound (cipheringAlgorithm p) (zlen sdu) ltac:(lia)).
  rewrite !zlen_app.
  assert (4 <= zlen (default mac0 out)).
  { destruct out as [x|]; [|cbn; lia]. destruct (Hx x eq_refl) as [Hlx _].
    cbn. unfold zlen. lia. }
  lia.
Qed.

Lemma validate_srb p q rb sn hdr sdu mac rest f out count :
  0 <= rb < NB_RB_MAX B -> 0 < zlen sdu + zlen hdr < 65536 ->
  zlen mac = 4 -> bytes (hdr ++ sdu ++ mac ++ rest) ->
  snd (pdcp_get_next_count_rx B q true sn) = count -> secured p -> peers p q ->
  ciphers aes_ctr (cipheringAlgorithm p) (pdu_cipher p true rb count (zlen sdu)) (zlen sdu) f ->
  computes aes_cmac (integrityProtAlgorithm p)
    (pdu_integrity p rb count (zlen (hdr ++ sdu))) (hdr ++ sdu) out ->
  (integrityProtAlgorithm p <> 0 -> out = Some mac) ->
  forall m, zlen m >= zlen sdu + 4 -> bytes m ->
  take (Z.to_nat (zlen sdu + 4)) m
    = take (Z.to_nat (zlen sdu + 4)) (f (sdu ++ mac ++ rest)) ->
  exists rest', validate_security q true rb (zlen hdr) sn (hdr ++ m) (zlen hdr + zlen sdu)
  = Ok (q <| rx_hfn_offset := 0 |>, 0, hdr ++ sdu ++ mac ++ rest').
Proof.
  intros Hrb Hl Hmac Hb2 Hcount Hp [Hside Hca Hia Hku Hke Hki] Hf Hi Hout m Hm Hbm Htake.
  pose proof (zlen_nonneg hdr). pose proof (zlen_nonneg sdu). pose proof (zlen_nonneg rest).
  unfold pdcp_validate_security.
  rewrite (proj2 (andb_true_iff _ _)) by (split; [apply Z.ltb_lt|apply Z.leb_le]; lia).
  cbn [res_guard mbind res_bind].
  destruct (pdcp_get_next_count_rx B q true sn) as [q' c] eqn:Ec.
  injection Ec as Hq' _. cbn [snd] in Hcount. subst c q'.
  set (q' := q <| rx_hfn_offset := 0 |>).
  change (cipheringAlgorithm q') with (cipheringAlgorithm q).
  change (integrityProtAlgorithm q') with (integrityProtAlgorithm q).
  change (kRRCenc q') with (kRRCenc q). change (kRRCint q') with (kRRCint q).
  rewrite Hca, Hia, Hke, Hki, Hside.
  assert (Hd : (if negb (is_ue p) then SECU_DIRECTION_DOWNLINK else SECU_DIRECTION_UPLINK)
               = wire_direction p) by (unfold wire_direction; by destruct (is_ue p)).
  rewrite Hd. replace (zlen hdr + zlen sdu - zlen hdr) with (zlen sdu) by lia.
  pose proof (span_bound (cipheringAlgorithm p) (zlen sdu) ltac:(lia)) as Hsp.
  rewrite (cipher_from_ok (cipheringAlgorithm p) _ _ _ _ (zlen sdu) f);
    [|exact Hf|lia|lia].
  cbn [mbind res_bind]. destruct Hf as [Hloc _].
  assert (Hfm : take (Z.to_nat (zlen sdu + 4)) (f m) = sdu ++ mac).
  { rewrite (local_cipher_decipher _ _ _ _ (sdu ++ mac ++ rest) m Hloc);
      [|lia|rewrite !zlen_app; lia|lia|done].
    rewrite app_assoc. apply take_app_length'. rewrite length_app. unfold zlen in *. lia. }
  exists (drop (Z.to_nat (zlen sdu + 4)) (f m)).
  rewrite <- (take_drop (Z.to_nat (zlen sdu + 4)) (f m)), Hfm.
  set (rest' := drop _ (f m)).
  rewrite drop_app_length' by (rewrite length_app; unfold zlen in *; lia). rewrite <- app_assoc.
  destruct (se_int _ Hp) as [Hk _]. rewrite (from_offset_key (kRRCint p) 16) by lia. cbn [mbind res_bind].
  replace (zlen hdr + zlen sdu) with (zlen (hdr ++ sdu)) by (by rewrite zlen_app).
  rewrite (app_assoc hdr sdu), from_offset_app, (u32_bits (zlen (hdr ++ sdu))) by (rewrite zlen_app; lia).
  cbn [mbind res_bind].
  set (sc := StreamCipher _ _ _ _ _ _ _).
  assert (Hchk : stream_check_integrity aes_cmac (integrityProtAlgorithm p) sc (mac ++ rest')
                 = Ok 0).
  { unfold stream_check_integrity. destruct (Z.eqb_spec (integrityProtAlgorithm p) EIA0_ALG_ID)
      as [|Hne]; [done|]. change EIA0_ALG_ID with 0 in Hne.
    change sc with (with_message (pdu_integrity p rb count (zlen (hdr ++ sdu)))
      ((hdr ++ sdu) ++ mac ++ rest')).
    rewrite Hi.
    - rewrite (proj2 (Z.eqb_neq _ _)) by done. rewrite (Hout Hne). cbn [mbind res_bind].
      change (negb (0 =? 0)) with false. cbn match.
      replace 4 with (zlen mac) by done. rewrite (rd_n_app [] mac rest' :
        rd_n (mac ++ rest') 0 (zlen mac) = Ok mac). cbn [mbind res_bind].
      by rewrite bool_decide_true.
    - pose proof (span_bound 1 (zlen (hdr ++ sdu)) (zlen_nonneg _)) as Hs.
      change (span 1 _) with (eea1_span (zlen (hdr ++ sdu))) in Hs.
      pose proof (zlen_nonneg rest'). rewrite (zlen_app (hdr ++ sdu)), (zlen_app mac). lia.
    - rewrite !Forall_app in Hb2. destruct Hb2 as (? & ? & ? & _).
      rewrite !Forall_app. split; [done|]. split; [done|]. unfold rest'.
      by apply Forall_drop, (lc_bytes _ _ _ Hloc). }
  rewrite Hchk. done.
Qed.

(** ** Data bearers *)

Lemma apply_drb p rb sn hdr sdu rest f :
  0 <= rb < NB_RB_MAX B -> zlen sdu < 65536 ->
  let count := pdcp_get_next_count_tx B p false sn in
  ciphers aes_ctr (cipheringAlgorithm p) (pdu_cipher p false rb count (zlen sdu)) (zlen sdu) f ->
  room p (zlen sdu) (sdu ++ rest) ->
  apply_security p false rb (zlen hdr) sn (hdr ++ sdu ++ rest) (zlen sdu)
  = Ok (hdr ++ f (sdu ++ rest)).
Proof.
  intros Hrb Hl count Hf Hroom. unfold pdcp_apply_security.
  rewrite (proj2 (andb_true_iff _ _)) by (split; [apply Z.ltb_lt|apply Z.leb_le]; lia).
  cbn [res_guard mbind res_bind]. pose proof (zlen_nonneg sdu).
  apply (cipher_from_ok (cipheringAlgorithm p) _ _ _ _ (zlen sdu) f); [exact Hf|lia|done].
Qed.

Lemma validate_drb p q rb sn hdr sdu rest f count :
  0 <= rb < NB_RB_MAX B -> zlen sdu < 65536 ->
  snd (pdcp_get_next_count_rx B q false sn) = count -> peers p q ->
  ciphers aes_ctr (cipheringAlgorithm p) (pdu_cipher p false rb count (zlen sdu)) (zlen sdu) f ->
  room p (zlen sdu) (sdu ++ rest) ->
  forall m, room p (zlen sdu) m -> zlen sdu <= zlen m ->
  take (length sdu) m = take (length sdu) (f (sdu ++ rest)) ->
  exists rest', validate_security q false rb (zlen hdr) sn (hdr ++ m) (zlen hdr + zlen sdu)
  = Ok (q <| rx_hfn_offset := 0 |>, 0, hdr ++ sdu ++ rest').
Proof.
  intros Hrb Hl Hcount [Hside Hca _ Hku _ _] Hf Hroom m Hm Hlm Htake.
  pose proof (zlen_nonneg hdr). pose proof (zlen_nonneg sdu).
  unfold pdcp_validate_security.
  rewrite (proj2 (andb_true_iff _ _)) by (split; [apply Z.ltb_lt|apply Z.leb_le]; lia).
  cbn [res_guard mbind res_bind].
  destruct (pdcp_get_next_count_rx B q false sn) as [q' c] eqn:Ec.
  injection Ec as Hq' _. cbn [snd] in Hcount. subst c q'.
  set (q' := q <| rx_hfn_offset := 0 |>).
  change (cipheringAlgorithm q') with (cipheringAlgorithm q).
  change (kUPenc q') with (kUPenc q). rewrite Hca, Hku, Hside.
  assert (Hd : (if negb (is_ue p) then SECU_DIRECTION_DOWNLINK else SECU_DIRECTION_UPLINK)
               = wire_direction p) by (unfold wire_direction; by destruct (is_ue p)).
  rewrite Hd. replace (zlen hdr + zlen sdu - zlen hdr) with (zlen sdu) by lia.
  rewrite (cipher_from_ok (cipheringAlgorithm p) _ _ _ _ (zlen sdu) f); [|exact Hf|lia|done].
  cbn [mbind res_bind]. destruct Hf as [Hloc _]. exists (drop (length sdu) (f m)).
  rewrite <- (take_drop (length sdu) (f m)) at 1.
  rewrite (local_cipher_decipher _ _ _ _ (sdu ++ rest) m Hloc);
    [by rewrite take_app_length|unfold zlen; lia|done|done|done].
Qed.

(** ** Both *)

(** The room needed is there as soon as three bytes follow. *)
Lemma room_three p len m : 0 <= len -> len + 3 <= zlen m -> room p len m.
Proof.
  intros Hl Hm. unfold room. pose proof (span_bound (cipheringAlgorithm p) len Hl). lia.
Qed.

Lemma security_roundtrip p q (srb : bool) rb sn hdr sdu mac0 rest :
  0 <= rb < NB_RB_MAX B -> 0 <= sn -> 0 < zlen hdr -> zlen sdu + zlen hdr < 65536 ->
  zlen mac0 = (if srb then 4 else 0) -> bytes (hdr ++ sdu ++ mac0 ++ rest) ->
  secured p -> peers p q ->
  pdcp_get_next_count_tx B p srb sn = snd (pdcp_get_next_count_rx B q srb sn) ->
  room p (zlen sdu) (sdu ++ mac0 ++ rest) ->
  exists wire rest1,
    apply_security p srb rb (zlen hdr) sn (hdr ++ sdu ++ mac0 ++ rest) (zlen sdu)
      = Ok (hdr ++ wire ++ rest1) /\
    zlen wire = zlen sdu + zlen mac0 /\ bytes (wire ++ rest1) /\
    zlen rest1 = zlen rest /\
    forall rest2, bytes rest2 -> room p (zlen sdu) (wire ++ rest2) ->
    exists mac rest3,
      validate_security q srb rb (zlen hdr) sn (hdr ++ wire ++ rest2) (zlen hdr + zlen sdu)
        = Ok (q <| rx_hfn_offset := 0 |>, 0, hdr ++ sdu ++ mac ++ rest3) /\
      zlen mac = zlen mac0.
Proof.
  intros Hrb Hsn Hh Hl Hm0 Hb Hp Hq Hcount Hroom.
  pose proof (zlen_nonneg sdu). pose proof (count_tx_word B p srb sn Hsn) as Hw.
  set (count := pdcp_get_next_count_tx B p srb sn) in *.
  destruct (cipher_local aes_ctr ctr_length ctr_involutive ctr_bytes (cipheringAlgorithm p)
    (pdu_cipher p srb rb count (zlen sdu)) (zlen sdu)) as [f Hf];
    [apply Hp|apply pdu_cipher_params; [done|lia]|].
  pose proof (proj1 Hf) as Hloc.
  assert (Hcut : forall mac, zlen mac = zlen mac0 ->
    let w := f (sdu ++ mac ++ rest) in let n := length (sdu ++ mac0) in
    w = take n w ++ drop n w /\ zlen (take n w) = zlen sdu + zlen mac0 /\
    zlen (drop n w) = zlen rest).
  { intros mac Hmac w n. split; [by rewrite take_drop|].
    assert (Hlw : length w = length (sdu ++ mac ++ rest)) by apply (lc_length _ _ _ Hloc).
    unfold zlen in *. unfold n. rewrite length_take, length_drop, Hlw, !length_app. lia. }
  destruct srb.
  - destruct (integrity_local aes_cmac cmac_length cmac_bytes (integrityProtAlgorithm p)
      (pdu_integrity p rb count (zlen (hdr ++ sdu))) (hdr ++ sdu)) as (out & Hi & Hne & Hz);
      [apply Hp|by apply pdu_integrity_params|done|rewrite zlen_app; lia|].
    assert (Hx : forall x, out = Some x -> is_mac x).
    { intros x ->. destruct (decide (integrityProtAlgorithm p = 0)) as [E|E];
        [by specialize (Hz E)|]. by destruct (Hne E) as (x' & [= <-] & Hx'). }
    set (mac := default mac0 out).
    assert (Hmac : zlen mac = 4).
    { unfold mac. destruct out as [x|]; [|done]. destruct (Hx x eq_refl) as [Hlx _].
      cbn. unfold zlen. lia. }
    assert (Hb2 : bytes (hdr ++ sdu ++ mac ++ rest)).
    { rewrite !Forall_app in Hb |- *. destruct Hb as (? & ? & ? & ?).
      repeat (split; [done|]). split; [|done]. unfold mac. destruct out as [x|]; [|done].
      by apply (Hx x). }
    destruct (Hcut mac) as (E & L1 & L2); [lia|].
    set (n := length (sdu ++ mac0)) in *. set (w := f (sdu ++ mac ++ rest)) in *.
    exists (take n w), (drop n w). rewrite (take_drop n w).
    split; [by apply apply_srb; try lia|]. split; [done|]. split.
    { apply (lc_bytes _ _ _ Hloc). by apply Forall_app in Hb2 as [_ ?]. }
    split; [done|]. intros rest2 Hbr Hroom2.
    destruct (validate_srb p q rb sn hdr sdu mac rest f out count) with
      (m := take n w ++ rest2) as [rest3 Hv]; try done; try lia.
    { intros Hne'. destruct (Hne Hne') as (x & -> & _). done. }
    { rewrite zlen_app, L1. pose proof (zlen_nonneg rest2). lia. }
    { apply Forall_app. split; [|done]. apply Forall_take, (lc_bytes _ _ _ Hloc).
      by apply Forall_app in Hb2 as [_ ?]. }
    { rewrite take_app_le by (unfold zlen in *; lia). rewrite take_take, Nat.min_l; [done|].
      unfold n. rewrite length_app. unfold zlen in *. lia. }
    exists mac, rest3. split; [exact Hv|lia].
  - destruct mac0; [|rewrite zlen_cons in Hm0; pose proof (zlen_nonneg mac0); lia].
    cbn [app] in *. destruct (Hcut []) as (E & L1 & L2); [done|]. cbn [app] in *.
    rewrite app_nil_r in *. change (zlen (@nil Z)) with 0 in *. rewrite Z.add_0_r in *.
    set (w := f (sdu ++ rest)) in *.
    exists (take (length sdu) w), (drop (length sdu) w). rewrite (take_drop _ w).
    split; [apply (apply_drb p rb sn hdr sdu rest f); try done; lia|]. split; [done|].
    split. { apply (lc_bytes _ _ _ Hloc). by apply Forall_app in Hb as [_ ?]. }
    split; [done|]. intros rest2 Hbr Hroom2.
    destruct (validate_drb p q rb sn hdr sdu rest f count) with
      (m := take (length sdu) w ++ rest2) as [rest3 Hv]; try done; try lia.
    { rewrite zlen_app, L1. pose proof (zlen_nonneg rest2). lia. }
    { rewrite take_app_le by (unfold zlen in *; lia). by rewrite take_take, Nat.min_id. }
    exists [], rest3. split; [exact Hv|done].
Qed.

(** C17.  Protection and its removal.  For every algorithm, a PDU protected by one
    end keeps its size and its header, and the other end, under the same COUNT,
    finds its MAC-I right (0 is returned) and the data as they were; what lies
    in memory behind the PDU at the receiver has no influence. *)
Theorem pdcp_security_roundtrip p q (srb : bool) rb sn hdr sdu mac0 rest :
  0 <= rb < NB_RB_MAX B -> 0 <= sn -> 0 < zlen hdr -> zlen sdu + zlen hdr < 65536 ->
  zlen mac0 = (if srb then 4 else 0) -> bytes (hdr ++ sdu ++ mac0 ++ rest) ->
  secured p -> peers p q ->
  pdcp_get_next_count_tx B p srb sn = snd (pdcp_get_next_count_rx B q srb sn) ->
  room p (zlen sdu) (sdu ++ mac0 ++ rest) ->
  exists wire rest1,
    apply_security p srb rb (zlen hdr) sn (hdr ++ sdu ++ mac0 ++ rest) (zlen sdu)
      = Ok (hdr ++ wire ++ rest1) /\
    zlen wire = zlen sdu + zlen mac0 /\ bytes (wire ++ rest1) /\
    zlen rest1 = zlen rest /\
    forall rest2, bytes rest2 -> room p (zlen sdu) (wire ++ rest2) ->
    exists mac rest3,
      validate_security q srb rb (zlen hdr) sn (hdr ++ wire ++ rest2) (zlen hdr + zlen sdu)
        = Ok (q <| rx_hfn_offset := 0 |>, 0, hdr ++ sdu ++ mac ++ rest3) /\
      zlen mac = zlen mac0.
Proof. apply security_roundtrip. Qed.
End security.
