(* ===== verification/Pdcp.v ===== *)
(** PDCP v10.1.0: the data path, [pdcp_data_req] and [pdcp_data_ind] of
    [pdcp.c].  The build is one without the emulation platform ([OAI_EMU]).
    RLC, RRC, GTP-U and the IP layer see the calls recorded here; time
    measurement and traces are left out. *)
From S2P Require Import Prelude.
From S2P Require Import PdcpPrimitives.
From S2P Require Import PdcpSequence.
From S2P Require Import PdcpSecurity.

Local Open Scope Z_scope.
Local Open Scope c_scope.

Definition PDCP_TRANSMISSION_MODE_DATA : Z := 2.
Definition PDCP_TRANSMISSION_MODE_TRANSPARENT : Z := 3.
(** [sizeof (pdcp_data_ind_header_t)]. *)
Definition PDCP_DATA_IND_HEADER_SIZE : Z := 16.
Definition RLC_OP_STATUS_OK : Z := 1.
Definition RLC_OP_STATUS_OUT_OF_RESSOURCES : Z := 3.

(** The arrays [pdcp_array_srb_ue], [pdcp_array_drb_ue], [pdcp_array_srb_eNB]
    and [pdcp_array_drb_eNB]: by side, plane, eNB (0 at the UE), UE and index.
    What is outside an array is not in the map. *)
Abbreviation pdcp_key := (bool * bool * Z * Z * Z)%type.
Abbreviation pdcp_arrays := (gmap pdcp_key pdcp_t).

Definition pdcp_key_of (enb_flagP srb_flagP : bool) (enb_mod_idP ue_mod_idP rb_id : Z)
    : pdcp_key :=
  if enb_flagP then (true, srb_flagP, enb_mod_idP, ue_mod_idP, rb_id - 1)
  else (false, srb_flagP, 0, ue_mod_idP, rb_id - 1).

Definition pdcp_read (arrays : pdcp_arrays) (k : pdcp_key) : res pdcp_t :=
  match arrays !! k with Some p => Ok p | None => Err EBounds end.

(** The arguments of [rlc_data_req] which matter here; [rr_data] is the memory
    of the block. *)
Record rlc_request := RlcRequest {
  rr_srb_flag : bool;
  rr_MBMS_flag : bool;
  rr_rb_id : Z;
  rr_mui : Z;
  rr_confirm : bool;
  rr_size : Z;
  rr_data : list Z
}.

(** What an indication hands over. *)
Inductive pdcp_delivery :=
| ToRrc (rb_id size : Z) (data : list Z)
| ToGtpu (ue_index rab_id : Z) (data : list Z)
| ToIp (rb_id data_size : Z) (data : list Z).

Section data_path.
Variable B : build.
Variable aes_ctr : list Z -> list Z -> list Z -> list Z.
Variable aes_cmac : list Z -> list Z -> list Z.
(** The memory of the block [get_free_mem_block] gives, if it gives one, and
    the status [rlc_data_req] returns. *)
Variable get_free_mem_block : Z -> option (list Z).
Variable rlc_data_req : rlc_request -> Z.

(** ** Transmission *)

(** Takes the next sequence number and writes the header. *)
Definition pdcp_write_header (p : pdcp_t) (srb_flagP : bool) (modeP : Z)
    (sdu_buffer_sizeP pdcp_header_len : Z) (data : list Z)
    : res (pdcp_t * Z * option (list Z)) :=
  let '(p, sn) := pdcp_get_next_tx_seq_number p in
  if srb_flagP then
    let current_sn := u8 sn in
    data ← wr data (sdu_buffer_sizeP + pdcp_header_len) [0; 0; 0; 0];
    data ← pdcp_serialize_control_plane_data_pdu_with_SRB_sn_buffer (Some data)
             (Some (CpHeader current_sn [0; 0; 0; 0]));
    Ok (p, current_sn, data)
  else
    let dc := if modeP =? PDCP_TRANSMISSION_MODE_DATA then PDCP_DATA_PDU_BIT_SET
              else PDCP_CONTROL_PDU_BIT_SET in
    data ← pdcp_serialize_user_plane_data_pdu_with_long_sn_buffer (Some data)
             (Some (LongHeader dc sn));
    Ok (p, sn, data).

(** Appends the data and a MAC-I of zeros, and applies security. *)
Definition pdcp_fill (p : pdcp_t) (srb_flagP : bool) (rb_idP : Z)
    (sdu : list Z) (sdu_buffer_sizeP pdcp_header_len pdcp_tailer_len current_sn : Z)
    (data : list Z) : res (list Z) :=
  d ← rd_n sdu 0 sdu_buffer_sizeP;
  data ← wr data pdcp_header_len d;
  data ← wr data (pdcp_header_len + sdu_buffer_sizeP)
           (replicate (Z.to_nat pdcp_tailer_len) 0);
  if ENABLE_SECURITY B && negb (security_activated p =? 0)
     && (negb (cipheringAlgorithm p =? 0) || negb (integrityProtAlgorithm p =? 0)) then
    pdcp_apply_security B aes_ctr aes_cmac p srb_flagP (rb_idP %% maxDRB B)
      pdcp_header_len current_sn data (u16 sdu_buffer_sizeP)
  else Ok data.

(** The entity, what is returned and the request made to RLC. *)
Definition pdcp_send (p : pdcp_t) (srb_flagP : bool) (rb_idP muiP : Z)
    (confirmP : bool) (sdu_buffer_sizeP : Z) (sdu : list Z) (modeP : Z)
    : res (pdcp_t * bool * option rlc_request) :=
  let pdcp_header_len := if srb_flagP then PDCP_CONTROL_PLANE_DATA_PDU_SN_SIZE
                         else PDCP_USER_PLANE_DATA_PDU_LONG_SN_HEADER_SIZE in
  let pdcp_tailer_len := if srb_flagP then PDCP_CONTROL_PLANE_DATA_PDU_MAC_I_SIZE
                         else 0 in
  let pdcp_pdu_size := u16 (sdu_buffer_sizeP + pdcp_header_len + pdcp_tailer_len) in
  match get_free_mem_block pdcp_pdu_size with
  | None =>
      if STOP_ON_IP_TRAFFIC_OVERLOAD B then Err EAssert else Ok (p, false, None)
  | Some data =>
      '(p, current_sn, data) ←
        pdcp_write_header p srb_flagP modeP sdu_buffer_sizeP pdcp_header_len data;
      match data with
      | None => Ok (p, false, None)
      | Some data =>
          if pdcp_calculate_max_seq_num_for_given_size (seq_num_size p) <? current_sn
          then Ok (p, false, None)
          else
            data ← pdcp_fill p srb_flagP rb_idP sdu sdu_buffer_sizeP pdcp_header_len
                     pdcp_tailer_len current_sn data;
            let r := RlcRequest srb_flagP false rb_idP muiP confirmP pdcp_pdu_size data in
            Ok (p, rlc_data_req r =? RLC_OP_STATUS_OK, Some r)
      end
  end.

Definition pdcp_send_transparent (srb_flagP : bool) (rb_idP muiP : Z)
    (confirmP : bool) (sdu_buffer_sizeP : Z) (sdu : list Z)
    : res (bool * option rlc_request) :=
  match get_free_mem_block sdu_buffer_sizeP with
  | None => if STOP_ON_IP_TRAFFIC_OVERLOAD B then Err EAssert else Ok (false, None)
  | Some data =>
      d ← rd_n sdu 0 sdu_buffer_sizeP;
      data ← wr data 0 d;
      let r := RlcRequest srb_flagP true rb_idP muiP confirmP sdu_buffer_sizeP data in
      Ok (rlc_data_req r =? RLC_OP_STATUS_OK, Some r)
  end.

Definition pdcp_data_req_guards (enb_mod_idP ue_mod_idP : Z) (srb_flagP : bool)
    (rb_idP modeP : Z) : bool :=
  (enb_mod_idP <? NUMBER_OF_eNB_MAX B) && (ue_mod_idP <? NUMBER_OF_UE_MAX B)
  && (if modeP =? PDCP_TRANSMISSION_MODE_TRANSPARENT then rb_idP <? NB_RB_MBMS_MAX B
      else if srb_flagP then rb_idP <? 2 else rb_idP <? maxDRB B).

Definition pdcp_data_req (arrays : pdcp_arrays) (enb_mod_idP ue_mod_idP : Z)
    (enb_flagP srb_flagP : bool) (rb_idP muiP : Z) (confirmP : bool)
    (sdu_buffer_sizeP : Z) (sdu : list Z) (modeP : Z)
    : res (pdcp_arrays * bool * option rlc_request) :=
  if negb (pdcp_data_req_guards enb_mod_idP ue_mod_idP srb_flagP rb_idP modeP)
  then Ok (arrays, false, None)
  else
    let k := pdcp_key_of enb_flagP srb_flagP enb_mod_idP ue_mod_idP rb_idP in
    p ← pdcp_read arrays k;
    let transparent := modeP =? PDCP_TRANSMISSION_MODE_TRANSPARENT in
    if negb (instanciated_instance p) && negb transparent then Ok (arrays, false, None)
    else if sdu_buffer_sizeP =? 0 then Ok (arrays, false, None)
    else
      _ ← res_guard (negb (MAX_IP_PACKET_SIZE B <? sdu_buffer_sizeP)
                     || macphy_exit_returns B) EAssert;
      if transparent then
        '(ret, r) ← pdcp_send_transparent srb_flagP rb_idP muiP confirmP
                      sdu_buffer_sizeP sdu;
        Ok (arrays, ret, r)
      else
        '(p, ret, r) ← pdcp_send p srb_flagP rb_idP muiP confirmP sdu_buffer_sizeP sdu
                         modeP;
        Ok (<[k := p]> arrays, ret, r).

(** ** Reception *)

(** Header and trailer lengths and the sequence number; a size of the numbers
    which is neither 7 nor 12 leaves the length and the number at 0. *)
Definition pdcp_parse (p : pdcp_t) (srb_flagP : bool) (data : list Z)
    : res (Z * Z * Z) :=
  if srb_flagP then
    sn ← pdcp_get_sequence_number_of_pdu_with_SRB_sn (Some data);
    Ok (PDCP_CONTROL_PLANE_DATA_PDU_SN_SIZE, PDCP_CONTROL_PLANE_DATA_PDU_MAC_I_SIZE, sn)
  else if seq_num_size p =? PDCP_SN_7BIT then
    sn ← pdcp_get_sequence_number_of_pdu_with_short_sn (Some data);
    Ok (PDCP_USER_PLANE_DATA_PDU_SHORT_SN_HEADER_SIZE, 0, sn)
  else if seq_num_size p =? PDCP_SN_12BIT then
    sn ← pdcp_get_sequence_number_of_pdu_with_long_sn (Some data);
    Ok (PDCP_USER_PLANE_DATA_PDU_LONG_SN_HEADER_SIZE, 0, sn)
  else Ok (0, 0, 0).

(** What [pdcp_validate_security] returns is not looked at. *)
Definition pdcp_unprotect (p : pdcp_t) (srb_flagP : bool)
    (rb_idP pdcp_header_len sequence_number : Z) (data : list Z) (size : Z)
    : res (pdcp_t * list Z) :=
  if ENABLE_SECURITY B && (security_activated p =? 1) then
    '(p, _, data) ← pdcp_validate_security B aes_ctr aes_cmac p srb_flagP rb_idP
                      pdcp_header_len sequence_number data (u16 size);
    Ok (p, data)
  else Ok (p, data).

(** The end of the function for data bearers: [None] for the entity is MBMS,
    where the pointer is null. *)
Definition pdcp_deliver (otg_enabled : Z) (p : option pdcp_t)
    (enb_flagP srb_flagP : bool) (ue_mod_idP rb_id sequence_number : Z)
    (sdu_buffer_sizeP payload_offset : Z) (data : list Z)
    : res (option pdcp_t * list pdcp_delivery) :=
  let n := sdu_buffer_sizeP - payload_offset in
  if otg_enabled =? 1 then Ok (p, [])
  else if LINK_PDCP_TO_GTPV1U B && enb_flagP && negb srb_flagP then
    d ← rd_n data payload_offset n;
    _ ← res_guard (negb (STOP_ON_IP_TRAFFIC_OVERLOAD B)) EAssert;
    Ok (p, [ToGtpu ue_mod_idP (rb_id + 4) d])
  else
    match get_free_mem_block (n + PDCP_DATA_IND_HEADER_SIZE) with
    | None => Ok (p, [])
    | Some m =>
        match p with
        | None => Err ENull
        | Some p =>
            let p := if rlc_mode p =? RLC_MODE_AM
                     then p <| last_submitted_pdcp_rx_sn := sequence_number |> else p in
            d ← rd_n data payload_offset n;
            m ← wr m 0 (replicate (Z.to_nat PDCP_DATA_IND_HEADER_SIZE) 0);
            m ← wr m PDCP_DATA_IND_HEADER_SIZE d;
            d ← rd_n m PDCP_DATA_IND_HEADER_SIZE n;
            let rb := if enb_flagP then u16 (rb_id + ue_mod_idP * maxDRB B) else rb_id in
            Ok (Some p, [ToIp rb n d])
        end
    end.

(** A PDU which is not of MBMS, for the entity [p]. *)
Definition pdcp_receive (otg_enabled : Z) (p : pdcp_t) (enb_flagP srb_flagP : bool)
    (ue_mod_idP rb_idP rb_id sdu_buffer_sizeP : Z) (data : list Z)
    : res (pdcp_t * bool * list pdcp_delivery) :=
  '(pdcp_header_len, pdcp_tailer_len, sequence_number) ← pdcp_parse p srb_flagP data;
  if sdu_buffer_sizeP <? pdcp_header_len + pdcp_tailer_len then Ok (p, false, [])
  else
    '(p, _) ← pdcp_is_rx_seq_number_valid sequence_number p srb_flagP;
    '(p, data) ← pdcp_unprotect p srb_flagP rb_idP pdcp_header_len sequence_number data
                   (sdu_buffer_sizeP - pdcp_tailer_len);
    if srb_flagP then
      let n := sdu_buffer_sizeP - pdcp_header_len - pdcp_tailer_len in
      d ← rd_n data pdcp_header_len n;
      Ok (p, true, [ToRrc rb_id n d])
    else
      '(q, out) ← pdcp_deliver otg_enabled (Some p) enb_flagP srb_flagP ue_mod_idP rb_id
                    sequence_number sdu_buffer_sizeP pdcp_header_len data;
      Ok (default p q, true, out).

(** The header in front of the data for the IP layer, [pdcp_data_ind_header_t],
    is the first two arguments of [ToIp]. *)
Definition pdcp_data_ind (otg_enabled : Z) (arrays : pdcp_arrays)
    (enb_mod_idP ue_mod_idP : Z) (enb_flagP srb_flagP MBMS_flagP : bool)
    (rb_idP sdu_buffer_sizeP : Z) (data : list Z)
    : res (pdcp_arrays * bool * list pdcp_delivery) :=
  if MBMS_flagP then
    if negb (rb_idP <? NB_RB_MBMS_MAX B) then Ok (arrays, false, [])
    else if sdu_buffer_sizeP =? 0 then Ok (arrays, false, [])
    else
      '(_, out) ← pdcp_deliver otg_enabled None enb_flagP srb_flagP ue_mod_idP rb_idP 0
                    sdu_buffer_sizeP 0 data;
      Ok (arrays, true, out)
  else
    let rb_id := rb_idP %% maxDRB B in
    if negb ((rb_id <? maxDRB B) && (0 <? rb_id)) then Ok (arrays, false, [])
    else if sdu_buffer_sizeP =? 0 then Ok (arrays, false, [])
    else
      let k := pdcp_key_of enb_flagP srb_flagP enb_mod_idP ue_mod_idP rb_id in
      p ← pdcp_read arrays k;
      '(p, ret, out) ← pdcp_receive otg_enabled p enb_flagP srb_flagP ue_mod_idP rb_idP
                         rb_id sdu_buffer_sizeP data;
      Ok (<[k := p]> arrays, ret, out).
End data_path.
