(* ===== verification/PdcpSpec.v ===== *)
(** PDCP v10.1.0: what the data path promises.  The SDUs given to one end of a
    bearer come out at the other end, protected on the way, while the PDUs may
    be lost in between. *)
From S2P Require Import Prelude.
From S2P Require Import OsaStream.
From S2P Require Import OsaStreamSpec.
From S2P Require Import OsaStreamLocal.
From S2P Require Import PdcpPrimitives.
From S2P Require Import PdcpSequence.
From S2P Require Import PdcpSequenceSpec.
From S2P Require Import PdcpSecurity.
From S2P Require Import PdcpSecuritySpec.
From S2P Require Import Pdcp.

Local Open Scope Z_scope.
Local Open Scope c_scope.

(** ** The two ends of a bearer *)

Definition bearer_size (srb : bool) : Z := if srb then 5 else 12.
Definition header_len (srb : bool) : Z := if srb then 1 else 2.
Definition tailer_len (srb : bool) : Z := if srb then 4 else 0.

(** Sender [p], receiver [q]: the same configuration on both sides, and less
    than a cycle of numbers between what is expected and what comes next. *)
Record in_step (srb : bool) (p q : pdcp_t) : Prop := {
  is_tx_wf : seq_wf p;
  is_rx_wf : seq_wf q;
  is_tx_size : seq_num_size p = bearer_size srb;
  is_rx_size : seq_num_size q = bearer_size srb;
  is_mode : resyncs q srb;
  is_offset : rx_hfn_offset q = 0;
  is_inst : instanciated_instance p = true;
  is_active : security_activated q = security_activated p /\
    (security_activated p = 0 \/ security_activated p = 1);
  is_secured : secured p;
  is_peers : peers p q
}.

(** [gap] PDUs were lost since the last one received. *)
Definition gap_ok (srb : bool) (p q : pdcp_t) : Prop :=
  rx_next q <= tx_next p < rx_next q + 2 ^ bearer_size srb /\
  tx_next p + 1 < 2 ^ 32 * 2 ^ bearer_size srb.

(** ** The same COUNT on both sides *)

(** What neither direction changes. *)
Definition static (p : pdcp_t) :=
  (instanciated_instance p, is_ue p, cipheringAlgorithm p, integrityProtAlgorithm p,
   kUPenc p, kRRCint p, kRRCenc p, security_activated p, rlc_mode p, seq_num_size p).

Lemma static_config p q : config p = config q -> static p = static q.
Proof. unfold config, static. intros [=]. congruence. Qed.

Lemma next_cases p :
  let p' := fst (pdcp_get_next_tx_seq_number p) in
  static p' = static p /\ rx_hfn_offset p' = rx_hfn_offset p.
Proof.
  unfold pdcp_get_next_tx_seq_number. destruct (negb (pdcp_is_seq_num_size_valid p)); [done|].
  by destruct (next_pdcp_tx_sn p =? _).
Qed.

Lemma secured_static p p' : static p' = static p -> secured p -> secured p'.
Proof.
  unfold static. intros [= _ _ E1 E2 E3 E4 E5 _ _ _] [].
  split; rewrite ?E1, ?E2, ?E3, ?E4, ?E5; done.
Qed.

Lemma peers_static p p' q q' :
  static p' = static p -> static q' = static q -> peers p q -> peers p' q'.
Proof. unfold static. intros [=] [=] []. split; congruence. Qed.

Lemma in_step_static srb p q p' q' :
  in_step srb p q -> static p' = static p -> static q' = static q ->
  seq_wf p' -> seq_wf q' -> rx_hfn_offset q' = 0 -> in_step srb p' q'.
Proof.
  intros [_ _ H3 H4 H5 _ H7 [H8 H8'] H9 H10] Ep Eq Hp Hq Ho.
  pose proof (secured_static _ _ Ep H9). pose proof (peers_static _ _ _ _ Ep Eq H10).
  unfold static, resyncs in *. injection Ep. injection Eq. intros.
  split; try done; try congruence.
  - destruct H5; [by left|right; congruence].
  - split; [congruence|]. destruct H8'; [left|right]; congruence.
Qed.

(** The COUNT both sides use for the number [sn] after having counted it. *)
Lemma counts_agree B srb p q sn :
  seq_num_size p = bearer_size srb -> seq_num_size q = bearer_size srb ->
  in_u 32 (rx_hfn q) -> rx_hfn_offset q = 0 -> tx_hfn p = rx_hfn q ->
  pdcp_get_next_count_tx B p srb sn = snd (pdcp_get_next_count_rx B q srb sn).
Proof.
  intros Hp Hq Hh Ho Ht. unfold pdcp_get_next_count_tx, pdcp_get_next_count_rx. cbn [snd].
  rewrite Ho, Z.add_0_r, (wrapU_small 32 (rx_hfn q)), Ht, Hp, Hq by done. done.
Qed.

(** Two numbers that are equal have the same digits. *)
Lemma hfn_of_next p q :
  seq_wf p -> seq_wf q -> seq_num_size p = seq_num_size q -> tx_next p = rx_next q ->
  tx_hfn p = rx_hfn q.
Proof.
  intros [_ Ht _ _ _ _] [_ _ Hr _ _ _] Hs E. unfold tx_next, rx_next in E. rewrite Hs in *.
  set (m := 2 ^ seq_num_size q) in *. nia.
Qed.

(** ** The PDU on the wire *)

Definition pdu_header (srb : bool) (sn : Z) : list Z :=
  if srb then [sn] else long_header 1 sn.

Lemma pdu_header_len srb sn : zlen (pdu_header srb sn) = header_len srb.
Proof. by destruct srb. Qed.

Lemma pdu_header_bytes srb sn :
  0 <= sn < 2 ^ bearer_size srb -> bytes (pdu_header srb sn).
Proof.
  unfold in_u. destruct srb; cbn [pdu_header bearer_size]; intros Hs.
  - change (2 ^ 5) with 32 in Hs. change (2 ^ 8) with 256.
    apply Forall_cons. split; [lia|done].
  - change (2 ^ 12) with 4096 in Hs. change (2 ^ 8) with 256. unfold long_header.
    apply Forall_cons. split; [div_lia|]. apply Forall_cons. split; [div_lia|done].
Qed.

(** Writes at a displacement which is the length of what precedes. *)
Lemma wr_at {A} (a b c src : list A) off :
  off = zlen a -> zlen src = zlen b -> wr (a ++ b ++ c) off src = Ok (a ++ src ++ c).
Proof. intros -> Hl. apply wr_app. unfold zlen in Hl. lia. Qed.

Lemma rd_n_at {A} (a b c : list A) off n :
  off = zlen a -> n = zlen b -> rd_n (a ++ b ++ c) off n = Ok b.
Proof. intros -> ->. apply rd_n_app. Qed.

Lemma rd_n_all {A} (l : list A) : rd_n l 0 (zlen l) = Ok l.
Proof. pose proof (rd_n_app [] l []) as H. by rewrite app_nil_r in H. Qed.

Lemma zlen_1 {A} (l : list A) : zlen l = 1 -> exists x, l = [x].
Proof. destruct l as [|x [|y l]]; [done|by exists x|]. unfold zlen. cbn [length]. lia. Qed.

Lemma zlen_2 {A} (l : list A) : zlen l = 2 -> exists x y, l = [x; y].
Proof.
  destruct l as [|x [|y [|z l]]]; [done|done|by exists x, y|]. unfold zlen. cbn [length]. lia.
Qed.

(** Memory cut in four. *)
Lemma cut_memory (m : list Z) a b c :
  0 <= a -> 0 <= b -> 0 <= c -> a + b + c <= zlen m ->
  exists x y z r, m = x ++ y ++ z ++ r /\ zlen x = a /\ zlen y = b /\ zlen z = c.
Proof.
  intros Ha Hb Hc Hm.
  destruct (list_split m a) as (x & m1 & -> & Hx); [lia|]. rewrite zlen_app in Hm.
  destruct (list_split m1 b) as (y & m2 & -> & Hy); [lia|]. rewrite zlen_app in Hm.
  destruct (list_split m2 c) as (z & r & -> & Hz); [lia|]. by exists x, y, z, r.
Qed.

Lemma max_number p srb :
  seq_num_size p = bearer_size srb ->
  pdcp_calculate_max_seq_num_for_given_size (seq_num_size p) = 2 ^ bearer_size srb - 1.
Proof. intros ->. by destruct srb. Qed.

Lemma write_header_ok p srb n hdr0 body0 tl0 rest0 :
  seq_wf p -> seq_num_size p = bearer_size srb -> zlen hdr0 = header_len srb ->
  zlen body0 = n -> zlen tl0 = tailer_len srb ->
  let p' := fst (pdcp_get_next_tx_seq_number p) in
  let sn := next_pdcp_tx_sn p in
  exists tl1, zlen tl1 = tailer_len srb /\
  pdcp_write_header p srb PDCP_TRANSMISSION_MODE_DATA n (header_len srb)
    (hdr0 ++ body0 ++ tl0 ++ rest0)
  = Ok (p', sn, Some (pdu_header srb sn ++ body0 ++ tl1 ++ rest0)).
Proof.
  intros Hp Hs Hh Hb Ht p' sn. pose proof (get_next_ok p Hp) as Hg.
  unfold pdcp_write_header. unfold p'.
  destruct (pdcp_get_next_tx_seq_number p) as [p1 sn1]. destruct Hg as (-> & _).
  pose proof (sq_tx _ Hp) as Hr. rewrite Hs in Hr. fold sn in Hr |- *. cbn [fst].
  destruct srb; cbn [header_len tailer_len bearer_size] in *.
  - exists [0; 0; 0; 0]. split; [done|]. change (2 ^ 5) with 32 in Hr.
    destruct (zlen_1 hdr0 Hh) as [x ->].
    rewrite (app_assoc [x] body0), (wr_at ([x] ++ body0) tl0) by
      (rewrite ?zlen_app, ?zlen_cons; change (zlen (@nil Z)) with 0; try lia; by rewrite Ht).
    cbn [mbind res_bind]. rewrite <- app_assoc. cbn [app]. rewrite u8_small by lia.
    by rewrite serialize_srb.
  - exists tl0. split; [done|]. change (2 ^ 12) with 4096 in Hr.
    destruct (zlen_2 hdr0 Hh) as (x & y & ->).
    cbn [app]. change (PDCP_TRANSMISSION_MODE_DATA =? PDCP_TRANSMISSION_MODE_DATA) with true.
    cbn match. rewrite serialize_long; [done|by right|lia].
Qed.

(** ** Protection and its removal *)

Section path.
Variable B : build.
Variable aes_ctr : list Z -> list Z -> list Z -> list Z.
Variable aes_cmac : list Z -> list Z -> list Z.
Hypothesis ctr_length : forall k m d, length (aes_ctr k m d) = length d.
Hypothesis ctr_involutive : forall k m d, aes_ctr k m (aes_ctr k m d) = d.
Hypothesis ctr_bytes : forall k m d, bytes d -> bytes (aes_ctr k m d).
Hypothesis cmac_length : forall k m, length (aes_cmac k m) = 16%nat.
Hypothesis cmac_bytes : forall k m, bytes (aes_cmac k m).

Lemma zlen_0 {A} (l : list A) : zlen l = 0 -> l = [].
Proof. destruct l; [done|]. unfold zlen. cbn [length]. lia. Qed.

(** With the null algorithms nothing changes. *)
Lemma apply_null p srb rb sn hdr sdu mac0 rest :
  0 <= rb < NB_RB_MAX B -> 0 <= sn -> 0 < zlen sdu + zlen hdr < 65536 ->
  zlen mac0 = tailer_len srb -> bytes (hdr ++ sdu ++ mac0 ++ rest) ->
  secured p -> cipheringAlgorithm p = 0 -> integrityProtAlgorithm p = 0 ->
  pdcp_apply_security B aes_ctr aes_cmac p srb rb (zlen hdr) sn
    (hdr ++ sdu ++ mac0 ++ rest) (zlen sdu) = Ok (hdr ++ sdu ++ mac0 ++ rest).
Proof.
  intros Hrb Hsn Hl Hm Hb Hp Hc Hi. pose proof (zlen_nonneg sdu). pose proof (zlen_nonneg hdr).
  assert (Hf : forall srb count, ciphers aes_ctr (cipheringAlgorithm p)
    (pdu_cipher p srb rb count (zlen sdu)) (zlen sdu) (fun m => m)).
  { intros s c. rewrite Hc. apply eea0_local, pdu_cipher_params; [done|lia]. }
  destruct srb; cbn [tailer_len] in Hm.
  - rewrite (apply_srb B aes_ctr aes_cmac p rb sn hdr sdu mac0 rest (fun m => m) None);
      try done; [by apply count_tx_word|by rewrite Hi].
  - rewrite (zlen_0 mac0 Hm). cbn [app].
    assert (Hr : room p (zlen sdu) (sdu ++ rest)).
    { unfold room. rewrite Hc. change (span 0 (zlen sdu)) with (zlen sdu).
      rewrite zlen_app. pose proof (zlen_nonneg rest). lia. }
    apply (apply_drb B aes_ctr aes_cmac p rb sn hdr sdu rest (fun m => m));
      [done|lia|apply Hf|done].
Qed.

(** What the receiver is left with. *)
Definition after_rx (q q' : pdcp_t) : Prop := q' = q \/ q' = q <| rx_hfn_offset := 0 |>.

Lemma fill_transfer p q srb rb sn hdr sdu body0 tl0 rest :
  0 < rb < maxDRB B -> 0 <= sn -> zlen hdr = header_len srb ->
  0 < zlen sdu < 60000 -> zlen body0 = zlen sdu -> zlen tl0 = tailer_len srb ->
  bytes hdr -> bytes sdu -> bytes rest -> 3 <= zlen rest ->
  secured p -> peers p q ->
  security_activated q = security_activated p ->
  security_activated p = 0 \/ security_activated p = 1 ->
  pdcp_get_next_count_tx B p srb sn = snd (pdcp_get_next_count_rx B q srb sn) ->
  exists wire rest1,
    pdcp_fill B aes_ctr aes_cmac p srb rb sdu (zlen sdu) (header_len srb) (tailer_len srb)
      sn (hdr ++ body0 ++ tl0 ++ rest) = Ok (hdr ++ wire ++ rest1) /\
    zlen wire = zlen sdu + tailer_len srb /\ bytes wire /\
    forall rest2, bytes rest2 -> 3 <= zlen rest2 ->
    exists mac rest3 q',
      pdcp_unprotect B aes_ctr aes_cmac q srb rb (header_len srb) sn (hdr ++ wire ++ rest2)
        (header_len srb + zlen sdu) = Ok (q', hdr ++ sdu ++ mac ++ rest3) /\
      zlen mac = tailer_len srb /\ after_rx q q'.
Proof.
  intros Hrb Hsn Hh Hl Hb0 Ht0 Hbh Hbs Hbr Hr Hp Hq Hact Hact01 Hcount.
  set (tl := replicate (Z.to_nat (tailer_len srb)) 0).
  assert (Htl : zlen tl = tailer_len srb).
  { unfold tl, zlen. rewrite length_replicate. by destruct srb. }
  assert (Hbt : bytes tl) by (by apply Forall_replicate).
  assert (Hhl : 0 < header_len srb <= 2) by (by destruct srb).
  assert (Htl4 : 0 <= tailer_len srb <= 4) by (by destruct srb).
  unfold pdcp_fill. rewrite rd_n_all.
  cbn [mbind res_bind]. rewrite (wr_at hdr body0) by (try done; by rewrite Hb0).
  cbn [mbind res_bind]. rewrite (app_assoc hdr sdu), (wr_at (hdr ++ sdu) tl0) by
    (fold tl; rewrite ?zlen_app; try lia).
  cbn [mbind res_bind]. rewrite <- app_assoc. fold tl.
  assert (Hb : bytes (hdr ++ sdu ++ tl ++ rest)) by (by rewrite !Forall_app).
  rewrite Z.rem_small by lia. rewrite u16_small by lia.
  unfold pdcp_unprotect. rewrite Hact.
  assert (Hoff : ENABLE_SECURITY B = false \/ security_activated p = 0 \/
    (ENABLE_SECURITY B = true /\ security_activated p = 1))
    by (destruct (ENABLE_SECURITY B); tauto).
  assert (Hplain : (if ENABLE_SECURITY B && negb (security_activated p =? 0) &&
      (negb (cipheringAlgorithm p =? 0) || negb (integrityProtAlgorithm p =? 0))
     then pdcp_apply_security B aes_ctr aes_cmac p srb rb (header_len srb) sn
            (hdr ++ sdu ++ tl ++ rest) (zlen sdu)
     else Ok (hdr ++ sdu ++ tl ++ rest))
    = if ENABLE_SECURITY B && (security_activated p =? 1)
      then pdcp_apply_security B aes_ctr aes_cmac p srb rb (header_len srb) sn
            (hdr ++ sdu ++ tl ++ rest) (zlen sdu)
      else Ok (hdr ++ sdu ++ tl ++ rest)).
  { destruct (ENABLE_SECURITY B); [cbn [andb]|done].
    destruct Hact01 as [-> | ->]; [done|]. cbn [Z.eqb negb andb].
    destruct (Z.eqb_spec (cipheringAlgorithm p) 0) as [Hc|]; [|done].
    destruct (Z.eqb_spec (integrityProtAlgorithm p) 0) as [Hi|]; [|done]. cbn [negb orb].
    symmetry. rewrite <- Hh. apply apply_null; try done; unfold NB_RB_MAX; lia. }
  rewrite Hplain. destruct (ENABLE_SECURITY B && (security_activated p =? 1)) eqn:Ea.
  - destruct (security_roundtrip B aes_ctr aes_cmac ctr_length ctr_involutive ctr_bytes
      cmac_length cmac_bytes p q srb rb sn hdr sdu tl rest)
      as (wire & rest1 & A1 & A2 & A3 & _ & A5); try done; try lia.
    { unfold NB_RB_MAX. lia. }
    { apply room_three; [lia|]. rewrite !zlen_app. lia. }
    rewrite <- Hh, A1. exists wire, rest1. split; [done|]. split; [lia|].
    split; [by apply Forall_app in A3 as [? _]|]. intros rest2 Hb2 Hl2.
    destruct (A5 rest2 Hb2) as (mac & rest3 & V1 & V2).
    { apply room_three; [lia|]. rewrite zlen_app. lia. }
    rewrite u16_small by lia. rewrite V1. cbn [mbind res_bind].
    exists mac, rest3, (q <| rx_hfn_offset := 0 |>). split; [done|]. split; [lia|by right].
  - exists (sdu ++ tl), rest. rewrite <- app_assoc. split; [done|].
    split; [rewrite zlen_app; lia|]. split; [by apply Forall_app|]. intros rest2 _ _.
    exists tl, rest2, q. rewrite <- app_assoc. split; [done|]. split; [done|by left].
Qed.

(** ** One PDU from end to end *)

Variable get_free_mem_block : Z -> option (list Z).
Variable rlc_data_req : rlc_request -> Z.
(** Memory is there, with room for the words EEA1 works on. *)
Hypothesis memory : forall n,
  exists m, get_free_mem_block n = Some m /\ n + 3 <= zlen m /\ bytes m.
Variable otg_enabled : Z.
Hypothesis no_otg : otg_enabled <> 1.
Hypothesis no_stop : STOP_ON_IP_TRAFFIC_OVERLOAD B = false.

Abbreviation send := (pdcp_send B aes_ctr aes_cmac get_free_mem_block rlc_data_req).
Abbreviation receive := (pdcp_receive B aes_ctr aes_cmac get_free_mem_block otg_enabled).

(** What the upper layers of the receiving side get. *)
Definition handed (enb srb : bool) (ue rb : Z) (sdu : list Z) : list pdcp_delivery :=
  if srb then [ToRrc rb (zlen sdu) sdu]
  else if LINK_PDCP_TO_GTPV1U B && enb then [ToGtpu ue (rb + 4) sdu]
  else [ToIp (if enb then u16 (rb + ue * maxDRB B) else rb) (zlen sdu) sdu].

Lemma parse_header q srb sn rest :
  seq_num_size q = bearer_size srb -> 0 <= sn < 2 ^ bearer_size srb ->
  pdcp_parse q srb (pdu_header srb sn ++ rest) = Ok (header_len srb, tailer_len srb, sn).
Proof.
  intros Hs Hsn. unfold pdcp_parse. destruct srb; cbn [bearer_size] in *.
  - change (2 ^ 5) with 32 in Hsn. cbn [pdu_header app]. by rewrite get_srb.
  - change (2 ^ 12) with 4096 in Hsn. rewrite Hs. change (12 =? PDCP_SN_7BIT) with false.
    change (12 =? PDCP_SN_12BIT) with true. cbn match. cbn [pdu_header].
    by rewrite get_long by (try lia; by right).
Qed.

Lemma deliver_ok q enb ue rb sn hdr sdu rest :
  rlc_mode q = RLC_MODE_UM ->
  pdcp_deliver B get_free_mem_block otg_enabled (Some q) enb false ue rb sn
    (zlen hdr + zlen sdu) (zlen hdr) (hdr ++ sdu ++ rest)
  = Ok (Some q, handed enb false ue rb sdu).
Proof.
  intros Hm. unfold pdcp_deliver, handed. rewrite (proj2 (Z.eqb_neq _ _)) by done.
  replace (zlen hdr + zlen sdu - zlen hdr) with (zlen sdu) by lia.
  rewrite rd_n_app. rewrite andb_true_r, no_stop. cbn [mbind res_bind].
  destruct (LINK_PDCP_TO_GTPV1U B && enb); [done|].
  destruct (memory (zlen sdu + PDCP_DATA_IND_HEADER_SIZE)) as (m & -> & Hl & _).
  rewrite Hm. change (RLC_MODE_UM =? RLC_MODE_AM) with false. cbn match.
  change PDCP_DATA_IND_HEADER_SIZE with 16 in *.
  destruct (cut_memory m 16 (zlen sdu) 0) as (x & y & z & r & -> & Hx & Hy & _);
    [lia|apply zlen_nonneg|lia|lia|].
  change (x ++ y ++ z ++ r) with ([] ++ x ++ (y ++ z ++ r)).
  rewrite (wr_at [] x) by (try done; by rewrite Hx). cbn [mbind res_bind app].
  rewrite (wr_at (replicate (Z.to_nat 16) 0) y) by (try done; by rewrite Hy).
  cbn [mbind res_bind].
  rewrite (rd_n_at (replicate (Z.to_nat 16) 0) sdu) by done. done.
Qed.

(** The bytes of a request which go over the air. *)
Definition air (r : rlc_request) : list Z := take (Z.to_nat (rr_size r)) (rr_data r).

(** What the sender puts on the air, and what the receiver in state [q] makes of
    it, whatever lies behind it in its memory. *)
Definition carries (p' q : pdcp_t) (srb enb : bool) (ue rb : Z) (sdu : list Z)
    (r : rlc_request) : Prop :=
  forall rest, bytes rest -> 3 <= zlen rest ->
  exists q', receive q enb srb ue rb rb (rr_size r) (air r ++ rest)
    = Ok (q', true, handed enb srb ue rb sdu) /\
    in_step srb p' q' /\ rx_next q' = tx_next p'.

Lemma received p p' q q1 srb enb ue rb sdu sn wire rest q2 mac rest3 :
  in_step srb p q -> in_step srb p' q1 -> 0 <= sn < 2 ^ bearer_size srb ->
  zlen wire = zlen sdu + tailer_len srb ->
  pdcp_is_rx_seq_number_valid sn q srb = Ok (q1, true) ->
  pdcp_unprotect B aes_ctr aes_cmac q1 srb rb (header_len srb) sn
    (pdu_header srb sn ++ wire ++ rest) (header_len srb + zlen sdu)
    = Ok (q2, pdu_header srb sn ++ sdu ++ mac ++ rest3) ->
  after_rx q1 q2 ->
  receive q enb srb ue rb rb (header_len srb + zlen sdu + tailer_len srb)
    ((pdu_header srb sn ++ wire) ++ rest) = Ok (q2, true, handed enb srb ue rb sdu) /\
  in_step srb p' q2 /\ rx_next q2 = rx_next q1.
Proof.
  intros Hs Hs1 Hsn Hw Hv Hu Ha. split.
  - pose proof (zlen_nonneg sdu). unfold pdcp_receive. rewrite <- app_assoc.
    rewrite (parse_header q srb sn) by (try apply Hs; done). cbn [mbind res_bind].
    rewrite (proj2 (Z.ltb_ge _ _)) by lia. rewrite Hv. cbn [mbind res_bind].
    replace (header_len srb + zlen sdu + tailer_len srb - tailer_len srb)
      with (header_len srb + zlen sdu) by lia.
    rewrite Hu. cbn [mbind res_bind]. destruct srb.
    + replace (header_len true + zlen sdu + tailer_len true - header_len true - tailer_len true)
        with (zlen sdu) by lia.
      rewrite (rd_n_at (pdu_header true sn) sdu) by done. done.
    + cbn [tailer_len]. rewrite Z.add_0_r.
      change (header_len false) with (zlen (pdu_header false sn)).
      rewrite deliver_ok; [done|].
      destruct (is_mode _ _ _ Hs1) as [|Hm]; [done|]. by destruct Ha as [-> | ->].
  - destruct Ha as [-> | ->]; [done|]. split; [|done].
    apply (in_step_static _ _ _ _ _ Hs1); try done; [apply Hs1|].
    destruct (is_rx_wf _ _ _ Hs1). by split.
Qed.

Lemma transfer p q srb enb ue rb mui confirm sdu :
  in_step srb p q -> gap_ok srb p q -> 0 < rb < maxDRB B ->
  0 < zlen sdu < 60000 -> bytes sdu ->
  exists p' ret r, send p srb rb mui confirm (zlen sdu) sdu PDCP_TRANSMISSION_MODE_DATA
      = Ok (p', ret, Some r) /\
    rr_size r = header_len srb + zlen sdu + tailer_len srb /\
    zlen (air r) = rr_size r /\ bytes (air r) /\
    in_step srb p' q /\ tx_next p' = tx_next p + 1 /\
    carries p' q srb enb ue rb sdu r.
Proof.
  intros Hs [Hgap Hmax] Hrb Hl Hb.
  pose proof (is_tx_wf _ _ _ Hs) as Hp. pose proof (is_rx_wf _ _ _ Hs) as Hq.
  pose proof (is_tx_size _ _ _ Hs) as Hsp. pose proof (is_rx_size _ _ _ Hs) as Hsq.
  pose proof (get_next_ok p Hp) as Hg. pose proof (next_cases p) as [Hst _].
  set (p' := fst (pdcp_get_next_tx_seq_number p)) in *.
  assert (Hp' : tx_next p' = tx_next p + 1 /\ seq_wf p').
  { unfold p'. destruct (pdcp_get_next_tx_seq_number p) as [p1 sn1].
    destruct Hg as (_ & E & W & _). split; [|done]. cbn [fst]. rewrite E.
    unfold count_mod. rewrite Hsp. apply Z.mod_small.
    unfold tx_next in *. destruct Hp as [_ Ht _ Hth _ _]. unfold in_u in Hth.
    pose proof (Z.pow_nonneg 2 (seq_num_size p)). split; [nia|exact Hmax]. }
  destruct Hp' as [Ht' Hw']. clear Hg.
  assert (Hs' : in_step srb p' q) by
    (apply (in_step_static _ _ _ _ _ Hs); try done; apply Hs).
  set (sn := next_pdcp_tx_sn p) in *.
  assert (Hsn : 0 <= sn < 2 ^ bearer_size srb) by (rewrite <- Hsp; apply Hp).
  assert (HT : sn = tx_next p mod 2 ^ seq_num_size q)
    by (rewrite Hsq, <- Hsp; symmetry; by apply tx_next_sn).
  (* the receiver's side of the numbers *)
  destruct (rx_ok q sn srb Hq (is_mode _ _ _ Hs)) as (q1 & V1 & V2 & _ & V4 & V5 & V6 & _);
    [by rewrite Hsq|].
  rewrite HT, infer_near in V2 by (try done; by rewrite Hsq).
  assert (V2' : rx_next q1 = tx_next p').
  { rewrite V2, Ht'. unfold count_mod. rewrite Hsq. apply Z.mod_small.
    unfold tx_next in *. destruct Hp as [_ Ht _ Hth _ _]. unfold in_u in Hth.
    pose proof (Z.pow_nonneg 2 (seq_num_size p)). split; [nia|exact Hmax]. }
  assert (Ho1 : rx_hfn_offset q1 = 0) by (rewrite V6; destruct srb; [done|apply Hs]).
  assert (Hs1 : in_step srb p' q1).
  { apply (in_step_static _ _ _ _ _ Hs); try done. by eapply static_config, rx_config. }
  assert (Hsz : seq_num_size p' = seq_num_size q1)
    by (rewrite (is_tx_size _ _ _ Hs1), (is_rx_size _ _ _ Hs1); done).
  pose proof (counts_agree B srb p' q1 sn (is_tx_size _ _ _ Hs1) (is_rx_size _ _ _ Hs1)
    (sq_rx_hfn _ V5) Ho1 (hfn_of_next p' q1 Hw' V5 Hsz (eq_sym V2'))) as Hcount.
  (* the PDU *)
  assert (Hh : 0 < header_len srb <= 2 /\ 0 <= tailer_len srb <= 4) by (by destruct srb).
  destruct (memory (header_len srb + zlen sdu + tailer_len srb)) as (m & Hm & Hlm & Hbm).
  destruct (cut_memory m (header_len srb) (zlen sdu) (tailer_len srb))
    as (hdr0 & body0 & tl0 & rest0 & -> & C1 & C2 & C3); [lia..|].
  destruct (write_header_ok p srb (zlen sdu) hdr0 body0 tl0 rest0) as (tl1 & C4 & Hwrite);
    try done. fold sn p' in Hwrite.
  rewrite !zlen_app in Hlm. rewrite !Forall_app in Hbm. destruct Hbm as (_ & _ & _ & Hbr).
  destruct (fill_transfer p' q1 srb rb sn (pdu_header srb sn) sdu body0 tl1 rest0)
    as (wire & rest1 & F1 & F2 & F3 & F4); try done; try lia.
  { by apply pdu_header_len. }
  { by apply pdu_header_bytes. }
  { apply Hs1. }
  { apply Hs1. }
  { apply Hs1. }
  { apply Hs1. }
  set (n := header_len srb + zlen sdu + tailer_len srb) in *.
  set (data := pdu_header srb sn ++ wire ++ rest1) in *.
  set (r := RlcRequest srb false rb mui confirm n data).
  assert (Hair : air r = pdu_header srb sn ++ wire).
  { unfold air, r, data. cbn [rr_size rr_data]. rewrite app_assoc. apply take_app_length'.
    pose proof (pdu_header_len srb sn). rewrite length_app. unfold zlen in *. lia. }
  exists p', (rlc_data_req r =? RLC_OP_STATUS_OK), r.
  split.
  { unfold pdcp_send.
    change (if srb then PDCP_CONTROL_PLANE_DATA_PDU_SN_SIZE
            else PDCP_USER_PLANE_DATA_PDU_LONG_SN_HEADER_SIZE) with (header_len srb).
    change (if srb then PDCP_CONTROL_PLANE_DATA_PDU_MAC_I_SIZE else 0) with (tailer_len srb).
    replace (u16 (zlen sdu + header_len srb + tailer_len srb)) with n
      by (rewrite u16_small by lia; unfold n; lia).
    rewrite Hm.
    rewrite Hwrite. cbn [mbind res_bind].
    rewrite (max_number p' srb) by apply Hs1.
    rewrite (proj2 (Z.ltb_ge _ _)) by lia. rewrite F1. fold n. done. }
  split; [done|]. split.
  { rewrite Hair, zlen_app, F2, pdu_header_len. cbn [rr_size r]. unfold n. lia. }
  split; [rewrite Hair; apply Forall_app; split; [by apply pdu_header_bytes|done]|].
  split; [done|]. split; [done|].
  intros rest Hbrest Hlrest. destruct (F4 rest Hbrest Hlrest) as (mac & rest3 & q2 & G1 & G2 & G3).
  rewrite Hair. exists q2.
  destruct (received p p' q q1 srb enb ue rb sdu sn wire rest q2 mac rest3)
    as (R1 & R2 & R3); try done. by rewrite R3.
Qed.

(** ** A bearer: many PDUs, some of them lost *)

(** The sender is on side [e]. *)
Variables (e srb : bool) (enb_mod ue_mod rb : Z).
Hypothesis rb_ok : 0 < rb < maxDRB B /\ (srb = true -> rb < 2).
Hypothesis mod_ok : enb_mod < NUMBER_OF_eNB_MAX B /\ ue_mod < NUMBER_OF_UE_MAX B.
(** The receiver's memory behind each block. *)
Variable spare : list Z.
Hypothesis spare_ok : bytes spare /\ 3 <= zlen spare.

Definition tx_key : pdcp_key := pdcp_key_of e srb enb_mod ue_mod rb.
Definition rx_key : pdcp_key := pdcp_key_of (negb e) srb enb_mod ue_mod rb.

Abbreviation data_req := (pdcp_data_req B aes_ctr aes_cmac get_free_mem_block rlc_data_req).
Abbreviation data_ind := (pdcp_data_ind B aes_ctr aes_cmac get_free_mem_block otg_enabled).

Definition sdu_ok (sdu : list Z) : Prop :=
  0 < zlen sdu < 60000 /\ zlen sdu <= MAX_IP_PACKET_SIZE B /\ bytes sdu.

(** Each SDU with whether its PDU arrives; the arrays of both sides and what the
    receiver hands over. *)
Fixpoint bearer_run (evs : list (list Z * bool)) (tx rx : pdcp_arrays)
    : res (pdcp_arrays * pdcp_arrays * list pdcp_delivery) :=
  match evs with
  | [] => Ok (tx, rx, [])
  | (sdu, arrives) :: evs =>
      '(tx, _, r) ← data_req tx enb_mod ue_mod e srb rb 0 false (zlen sdu) sdu
                      PDCP_TRANSMISSION_MODE_DATA;
      match r with
      | None => Err EAssert
      | Some r =>
          '(rx, out) ← (
            if arrives : bool then
              '(rx, ok, out) ← data_ind rx enb_mod ue_mod (negb e) srb false rb (rr_size r)
                                 (air r ++ spare);
              _ ← res_guard ok EAssert;
              Ok (rx, out)
            else Ok (rx, []));
          '(tx, rx, outs) ← bearer_run evs tx rx;
          Ok (tx, rx, out ++ outs)
      end
  end.

(** Fewer than [m] PDUs in a row are lost, [g] being lost already. *)
Fixpoint losses_ok (m g : Z) (evs : list (list Z * bool)) : Prop :=
  match evs with
  | [] => True
  | (_, arrives) :: evs => g < m /\ losses_ok m (if arrives : bool then 0 else g + 1) evs
  end.

Fixpoint arrived (evs : list (list Z * bool)) : list (list Z) :=
  match evs with
  | [] => []
  | (sdu, arrives) :: evs => if arrives : bool then sdu :: arrived evs else arrived evs
  end.

Lemma data_req_send tx p sdu p' ret r :
  tx !! tx_key = Some p -> instanciated_instance p = true -> sdu_ok sdu ->
  send p srb rb 0 false (zlen sdu) sdu PDCP_TRANSMISSION_MODE_DATA = Ok (p', ret, r) ->
  data_req tx enb_mod ue_mod e srb rb 0 false (zlen sdu) sdu PDCP_TRANSMISSION_MODE_DATA
  = Ok (<[tx_key := p']> tx, ret, r).
Proof.
  intros Hp Hi (Hl & Hmax & _) Hs. unfold pdcp_data_req.
  assert (Hg : pdcp_data_req_guards B enb_mod ue_mod srb rb PDCP_TRANSMISSION_MODE_DATA = true).
  { unfold pdcp_data_req_guards. rewrite !andb_true_iff.
    split; [split; apply Z.ltb_lt; lia|].
    change (PDCP_TRANSMISSION_MODE_DATA =? PDCP_TRANSMISSION_MODE_TRANSPARENT) with false.
    cbn match. destruct srb; apply Z.ltb_lt; [by apply rb_ok|lia]. }
  rewrite Hg. cbn [negb]. fold tx_key. unfold pdcp_read. rewrite Hp. cbn [mbind res_bind].
  rewrite Hi. cbn [negb andb]. rewrite (proj2 (Z.eqb_neq _ _)) by lia.
  rewrite (proj2 (Z.ltb_ge _ _)) by lia. cbn [negb orb res_guard mbind res_bind].
  change (PDCP_TRANSMISSION_MODE_DATA =? PDCP_TRANSMISSION_MODE_TRANSPARENT) with false.
  cbn match. by rewrite Hs.
Qed.

Lemma data_ind_receive rx q size data q' out :
  rx !! rx_key = Some q -> 0 < size ->
  receive q (negb e) srb ue_mod rb rb size data = Ok (q', true, out) ->
  data_ind rx enb_mod ue_mod (negb e) srb false rb size data
  = Ok (<[rx_key := q']> rx, true, out).
Proof.
  intros Hq Hs Hr. unfold pdcp_data_ind. rewrite Z.rem_small by lia.
  rewrite (proj2 (Z.ltb_lt rb _)), (proj2 (Z.ltb_lt 0 rb)) by lia. cbn [negb andb].
  rewrite (proj2 (Z.eqb_neq _ _)) by lia. fold rx_key. unfold pdcp_read. rewrite Hq.
  cbn [mbind res_bind]. by rewrite Hr.
Qed.

Lemma bearer_run_ok evs : forall tx rx p q,
  tx !! tx_key = Some p -> rx !! rx_key = Some q -> in_step srb p q ->
  rx_next q <= tx_next p ->
  losses_ok (2 ^ bearer_size srb) (tx_next p - rx_next q) evs ->
  tx_next p + zlen evs < 2 ^ 32 * 2 ^ bearer_size srb ->
  Forall sdu_ok evs.*1 ->
  exists tx' rx' p' q', bearer_run evs tx rx
    = Ok (tx', rx', concat (handed (negb e) srb ue_mod rb <$> arrived evs)) /\
    tx' !! tx_key = Some p' /\ rx' !! rx_key = Some q' /\ in_step srb p' q'.
Proof.
  induction evs as [|[sdu arrives] evs IH]; intros tx rx p q Hp Hq Hs Hle Hl Hmax Hok.
  { by exists tx, rx, p, q. }
  destruct Hl as [Hg Hl]. rewrite zlen_cons in Hmax. pose proof (zlen_nonneg evs).
  cbn [fmap list_fmap fst] in Hok. apply Forall_cons in Hok as [Hsdu Hok].
  destruct (transfer p q srb (negb e) ue_mod rb 0 false sdu Hs) as
    (p' & ret & r & S1 & S2 & S3 & S4 & S5 & S6 & S7);
    [split; lia|lia|apply Hsdu|apply Hsdu|].
  cbn [bearer_run]. rewrite (data_req_send tx p sdu p' ret (Some r)) by (try done; apply Hs).
  cbn [mbind res_bind].
  assert (Htx : <[tx_key := p']> tx !! tx_key = Some p') by apply lookup_insert_eq.
  destruct arrives.
  - destruct (S7 spare) as (q' & R1 & R2 & R3); [apply spare_ok..|].
    rewrite (data_ind_receive rx q (rr_size r) _ q' (handed (negb e) srb ue_mod rb sdu)); try done.
    2: { rewrite S2. destruct Hsdu as ([? _] & _). destruct srb; cbn; lia. }
    cbn [mbind res_bind res_guard].
    destruct (IH (<[tx_key := p']> tx) (<[rx_key := q']> rx) p' q') as
      (tx' & rx' & p2 & q2 & I1 & I2 & I3 & I4); try done; try lia.
    { apply lookup_insert_eq. }
    { by rewrite R3, Z.sub_diag. }
    exists tx', rx', p2, q2. rewrite I1. done.
  - cbn [mbind res_bind].
    destruct (IH (<[tx_key := p']> tx) rx p' q) as
      (tx' & rx' & p2 & q2 & I1 & I2 & I3 & I4); try done; try lia.
    { by replace (tx_next p' - rx_next q) with (tx_next p - rx_next q + 1) by lia. }
    exists tx', rx', p2, q2. rewrite I1. done.
Qed.

End path.

(** ** COUNT of the transmitter *)

Lemma count_of_spec h n s mask :
  0 <= h -> 0 < n <= 32 -> 0 <= s < 2 ^ n -> mask = 2 ^ n - 1 ->
  count_of h n s mask = u32 (h * 2 ^ n + s).
Proof.
  intros Hh Hn Hs ->. unfold count_of. rewrite land_ones_mod, (Z.mod_small s) by lia.
  rewrite Z.shiftl_mul_pow2 by lia. unfold wrapU.
  assert (E : 2 ^ 32 = 2 ^ (32 - n) * 2 ^ n) by (rewrite <- Z.pow_add_r by lia; f_equal; lia).
  assert (0 < 2 ^ n) by lia. assert (0 < 2 ^ (32 - n)) by (apply Z.pow_pos_nonneg; lia).
  rewrite E, Z.mul_mod_distr_r, <- Z.shiftl_mul_pow2, lor_shiftl_add by lia.
  symmetry. rewrite (Z.div_mod h (2 ^ (32 - n))) at 1 by lia.
  set (q := h / _). set (r := h mod _).
  replace ((2 ^ (32 - n) * q + r) * 2 ^ n + s)
    with (r * 2 ^ n + s + q * (2 ^ (32 - n) * 2 ^ n)) by lia.
  rewrite Z.mod_add by lia. apply Z.mod_small.
  assert (0 <= r < 2 ^ (32 - n)) by (apply Z.mod_pos_bound; lia). nia.
Qed.


(** ** What is refused *)

Section refused.
Variable B : build.
Variable aes_ctr : list Z -> list Z -> list Z -> list Z.
Variable aes_cmac : list Z -> list Z -> list Z.
Variable get_free_mem_block : Z -> option (list Z).
Variable rlc_data_req : rlc_request -> Z.

(** C33.  A request is refused, with nothing sent and the entities as they were, when
    an identifier is too high, the entity is not configured, the SDU is empty,
    or memory is out. *)
Theorem pdcp_data_req_refused arrays enb_mod ue_mod enb srb rb mui confirm sdu p mode :
  let req := pdcp_data_req B aes_ctr aes_cmac get_free_mem_block rlc_data_req arrays
    enb_mod ue_mod enb srb rb mui confirm (zlen sdu) sdu mode in
  let k := pdcp_key_of enb srb enb_mod ue_mod rb in
  mode <> PDCP_TRANSMISSION_MODE_TRANSPARENT -> arrays !! k = Some p ->
  (NUMBER_OF_eNB_MAX B <= enb_mod \/ NUMBER_OF_UE_MAX B <= ue_mod \/
   (if srb then 2 else maxDRB B) <= rb -> req = Ok (arrays, false, None)) /\
  (instanciated_instance p = false -> req = Ok (arrays, false, None)) /\
  (sdu = [] -> req = Ok (arrays, false, None)) /\
  (zlen sdu <= MAX_IP_PACKET_SIZE B -> (forall n, get_free_mem_block n = None) ->
   STOP_ON_IP_TRAFFIC_OVERLOAD B = false -> req = Ok (arrays, false, None)).
Proof.
  intros req k Hm Hk. unfold req, pdcp_data_req. fold k. clear req.
  rewrite (proj2 (Z.eqb_neq mode _)) by done. cbn [negb andb].
  set (g := pdcp_data_req_guards _ _ _ _ _ _).
  split.
  { intros Hg. assert (g = false) as ->; [|done]. unfold g, pdcp_data_req_guards.
    rewrite (proj2 (Z.eqb_neq mode _)) by done. rewrite !andb_false_iff, !Z.ltb_ge.
    destruct Hg as [?|[?|Hg]]; [by left; left|by left; right|right].
    destruct srb; by apply Z.ltb_ge. }
  destruct (negb g); [done|]. unfold pdcp_read. rewrite Hk. cbn [mbind res_bind].
  rewrite andb_true_r.
  split; [by intros ->|]. destruct (instanciated_instance p); [|done]. cbn [negb].
  split; [by intros ->|]. intros Hmax Hmem Hstop.
  destruct (zlen sdu =? 0); [done|]. rewrite (proj2 (Z.ltb_ge _ _)) by done.
  cbn [negb orb res_guard mbind res_bind]. unfold pdcp_send. rewrite Hmem, Hstop.
  cbn [mbind res_bind]. by rewrite insert_id.
Qed.

(** A PDU too short for its header and MAC-I is refused: nothing is delivered
    and the entity does not change. *)
Theorem pdcp_data_ind_short otg arrays enb_mod ue_mod enb srb rb size data q :
  0 < rb < maxDRB B -> 0 < size < header_len srb + tailer_len srb ->
  header_len srb <= zlen data ->
  arrays !! pdcp_key_of enb srb enb_mod ue_mod rb = Some q ->
  seq_num_size q = bearer_size srb ->
  pdcp_data_ind B aes_ctr aes_cmac get_free_mem_block otg arrays enb_mod ue_mod enb srb false
    rb size data = Ok (arrays, false, []).
Proof.
  intros Hrb Hs Hd Hq Hn. unfold pdcp_data_ind. rewrite Z.rem_small by lia.
  rewrite (proj2 (Z.ltb_lt rb _)), (proj2 (Z.ltb_lt 0 rb)) by lia. cbn [negb andb].
  rewrite (proj2 (Z.eqb_neq _ _)) by lia. unfold pdcp_read. rewrite Hq.
  cbn [mbind res_bind].
  assert (Hp : exists sn, pdcp_parse q srb data = Ok (header_len srb, tailer_len srb, sn)).
  { unfold pdcp_parse. destruct srb; cbn [header_len tailer_len bearer_size] in *.
    - destruct data as [|x data]; [done|]. by eexists.
    - rewrite Hn. destruct data as [|x [|y data]]; [done|done|]. by eexists. }
  destruct Hp as [sn Hp]. unfold pdcp_receive. rewrite Hp. cbn [mbind res_bind].
  rewrite (proj2 (Z.ltb_lt _ _)) by lia. cbn [mbind res_bind]. by rewrite insert_id.
Qed.
End refused.
