(* ===== verification/PdcpExamples.v ===== *)
(** PDCP v10.1.0: the theorems on the data path at concrete inputs, and what
    the code does on inputs outside their hypotheses. *)
From S2P Require Import Prelude.
From S2P Require Import OsaStream.
From S2P Require Import OsaStreamSpec.
From S2P Require Import PdcpPrimitives.
From S2P Require Import PdcpSequence.
From S2P Require Import PdcpSequenceSpec.
From S2P Require Import PdcpSecurity.
From S2P Require Import PdcpSecuritySpec.
From S2P Require Import Pdcp.
From S2P Require Import PdcpSpec.

Local Open Scope Z_scope.

(** ** A build, a library and entities *)

(** A counter mode and a CMAC with the properties the theorems assume. *)
Definition flip_ctr (k m d : list Z) : list Z := (fun b => Z.lxor b 90) <$> d.
Definition flat_cmac (k m : list Z) : list Z := replicate 16 7.

Lemma flip_length k m d : length (flip_ctr k m d) = length d.
Proof. apply length_fmap. Qed.

Lemma flip_involutive k m d : flip_ctr k m (flip_ctr k m d) = d.
Proof.
  unfold flip_ctr. induction d as [|b d IH]; [done|]. rewrite !fmap_cons, IH.
  by rewrite Z.lxor_assoc, Z.lxor_nilpotent, Z.lxor_0_r.
Qed.

Lemma flip_bytes k m d : bytes d -> bytes (flip_ctr k m d).
Proof.
  induction 1 as [|b d Hb _ IH]; [done|]. apply Forall_cons. split; [|done].
  by apply in_u_lxor.
Qed.

Lemma flat_length k m : length (flat_cmac k m) = 16%nat.
Proof. done. Qed.
Lemma flat_bytes k m : bytes (flat_cmac k m).
Proof. by apply Forall_replicate. Qed.

Definition build0 : build := Build 11 0 3 16 1 1500 true false false true.

(** 7-bit numbers are 7 in the entities and 0 in the ASN.1 enumeration. *)
Definition bearer_entity (ue : bool) (c i : Z) (active mode size : Z) : pdcp_t :=
  pdcp_init_seq_numbers
    (Pdcp true ue c i (replicate 16 1) (replicate 32 2) (replicate 16 3) active mode size
       0 0 0 0 0 0 0 (replicate 512 0)).

Definition blocks (n : Z) : option (list Z) := Some (replicate (Z.to_nat n + 3) 170).

Lemma blocks_ok n : exists m, blocks n = Some m /\ n + 3 <= zlen m /\ bytes m.
Proof.
  eexists. split; [reflexivity|]. split; [|by apply Forall_replicate].
  unfold zlen. rewrite length_replicate. lia.
Qed.

Definition rlc_accepts (r : rlc_request) : Z := RLC_OP_STATUS_OK.

Lemma bearer_entity_wf ue c i active mode size :
  sn_size size -> seq_wf (bearer_entity ue c i active mode size).
Proof.
  intros Hn. pose proof (sn_modulus _ Hn).
  split; [done|split; [done|change (0 < 2 ^ size); lia]..|done|done|done].
Qed.

Lemma bearer_entity_secured ue c i active mode size :
  0 <= c <= 2 -> 0 <= i <= 2 -> secured (bearer_entity ue c i active mode size).
Proof.
  intros Hc Hi. split; [done|done|..].
  - by vm_compute.
  - by vm_compute.
  - split; [by vm_compute|]. by apply Forall_replicate.
Qed.

Lemma entities_in_step srb c i :
  0 <= c <= 2 -> 0 <= i <= 2 ->
  in_step srb (bearer_entity true c i 1 RLC_MODE_UM (bearer_size srb))
    (bearer_entity false c i 1 RLC_MODE_UM (bearer_size srb)).
Proof.
  intros Hc Hi.
  assert (sn_size (bearer_size srb)) by (destruct srb; [by left|by right; right]).
  split; try done; try (by apply bearer_entity_wf).
  - by right.
  - split; [done|by right].
  - by apply bearer_entity_secured.
Qed.

Lemma pdcp_security_roundtrip_witness :
  let p := bearer_entity true 1 1 1 RLC_MODE_AM 5 in
  let q := bearer_entity false 1 1 1 RLC_MODE_AM 5 in
  exists wire rest1,
    pdcp_apply_security build0 flip_ctr flat_cmac p true 1 (zlen [4]) 4
      ([4] ++ [10; 20; 30] ++ [0; 0; 0; 0] ++ []) (zlen [10; 20; 30])
      = Ok ([4] ++ wire ++ rest1) /\
    zlen wire = zlen [10; 20; 30] + zlen [0; 0; 0; 0] /\ bytes (wire ++ rest1) /\
    zlen rest1 = zlen (@nil Z) /\
    forall rest2, bytes rest2 -> room p (zlen [10; 20; 30]) (wire ++ rest2) ->
    exists mac rest3,
      pdcp_validate_security build0 flip_ctr flat_cmac q true 1 (zlen [4]) 4
        ([4] ++ wire ++ rest2) (zlen [4] + zlen [10; 20; 30])
        = Ok (q <| rx_hfn_offset := 0 |>, 0, [4] ++ [10; 20; 30] ++ mac ++ rest3) /\
      zlen mac = zlen [0; 0; 0; 0].
Proof.
  apply (pdcp_security_roundtrip build0 flip_ctr flat_cmac flip_length flip_involutive
    flip_bytes flat_length flat_bytes).
  - by vm_compute.
  - done.
  - done.
  - done.
  - done.
  - cbn. repeat (apply Forall_cons; split); done.
  - by apply bearer_entity_secured.
  - by split.
  - reflexivity.
  - by vm_compute.
Defined.

(** A signalling bearer of a UE under EEA1 and EIA2: three SDUs, the second
    lost. *)
Definition srb_events : list (list Z * bool) :=
  [([1; 2; 3], true); ([4; 5], false); ([6], true)].

Definition srb_key (enb : bool) : pdcp_key := pdcp_key_of enb true 0 0 1.
Definition srb_tx : pdcp_arrays := {[ srb_key false := bearer_entity true 1 2 1 RLC_MODE_UM 5 ]}.
Definition srb_rx : pdcp_arrays := {[ srb_key true := bearer_entity false 1 2 1 RLC_MODE_UM 5 ]}.



Lemma pdcp_data_req_refused_witness :
  let req := pdcp_data_req build0 flip_ctr flat_cmac (fun _ => None) rlc_accepts srb_tx
    0 0 false true 1 0 false (zlen [1; 2]) [1; 2] PDCP_TRANSMISSION_MODE_DATA in
  req = Ok (srb_tx, false, None).
Proof.
  apply (pdcp_data_req_refused build0 flip_ctr flat_cmac (fun _ => None) rlc_accepts srb_tx
    0 0 false true 1 0 false [1; 2] (bearer_entity true 1 2 1 RLC_MODE_UM 5)
    PDCP_TRANSMISSION_MODE_DATA); try done.
Defined.

Lemma pdcp_data_ind_short_witness :
  pdcp_data_ind build0 flip_ctr flat_cmac blocks 0 srb_rx 0 0 true true false 1 4 [3; 0; 0; 0]
  = Ok (srb_rx, false, []).
Proof.
  apply (pdcp_data_ind_short build0 flip_ctr flat_cmac blocks 0 srb_rx 0 0 true true 1 4
    [3; 0; 0; 0] (bearer_entity false 1 2 1 RLC_MODE_UM 5)); try done.
Defined.

(** ** Outside the hypotheses *)

(** The PDU a sender makes, as it goes over the air. *)
Definition sent_pdu (B : build) (p : pdcp_t) (srb : bool) (sdu : list Z) : res (list Z) :=
  '(_, _, r) ← pdcp_send B flip_ctr flat_cmac blocks rlc_accepts p srb 1 0 false (zlen sdu) sdu
                 PDCP_TRANSMISSION_MODE_DATA;
  match r with Some r => Ok (air r) | None => Err EAssert end.

Definition handed_over (B : build) (q : pdcp_t) (srb : bool) (pdu : list Z)
    : res (bool * list pdcp_delivery) :=
  '(_, ok, out) ← pdcp_receive B flip_ctr flat_cmac blocks 0 q true srb 0 1 1 (zlen pdu)
                    (pdu ++ [0; 0; 0]);
  Ok (ok, out).


(** With 7-bit sequence numbers the sender writes the header for 12-bit ones,
    the receiver reads one octet of it: the sequence number is read as 0 and its
    octet is delivered in front of the SDU. *)
Theorem pdcp_short_sn_mismatch :
  let p := (bearer_entity true 0 0 0 RLC_MODE_UM 7) <| next_pdcp_tx_sn := 9 |> in
  let q := (bearer_entity false 0 0 0 RLC_MODE_UM 7) <| next_pdcp_rx_sn := 9 |> in
  sent_pdu build0 p false [1; 2; 3] = Ok [128; 9; 1; 2; 3] /\
  handed_over build0 q false [128; 9; 1; 2; 3] = Ok (true, [ToIp 1 4 [9; 1; 2; 3]]).
Proof. vm_compute. split; reflexivity. Qed.

(** An MBMS packet is delivered through a null pointer: after memory was
    found for it, the mode of the entity is read, and there is none. *)
Theorem pdcp_mbms_null arrays enb_mod ue_mod srb size data :
  0 < size ->
  pdcp_data_ind build0 flip_ctr flat_cmac blocks 0 arrays enb_mod ue_mod false srb true
    0 size data = Err ENull.
Proof.
  intros Hs. unfold pdcp_data_ind. change (0 <? NB_RB_MBMS_MAX build0) with true.
  cbn [negb]. by rewrite (proj2 (Z.eqb_neq size 0)) by lia.
Qed.

Lemma pdcp_mbms_null_witness :
  pdcp_data_ind build0 flip_ctr flat_cmac blocks 0 srb_rx 0 0 false false true 0 3 [1; 2; 3]
  = Err ENull.
Proof. by apply (pdcp_mbms_null srb_rx 0 0 false 3 [1; 2; 3]). Defined.

(** Built to stop on overload and with GTP-U, the eNB stops at the first uplink
    data packet: the [else] meant for a failed allocation belongs to the test
    whether the packet was forwarded. *)
Theorem pdcp_gtpu_stops :
  let build1 := Build 11 0 3 16 1 1500 true true true true in
  handed_over build1 (bearer_entity false 0 0 0 RLC_MODE_UM 12) false [128; 0; 1; 2; 3]
  = Err EAssert.
Proof. vm_compute. reflexivity. Qed.

(** Signalling bearer 2 is refused by [pdcp_data_req], and bearer 0 is not: it
    is looked up at index -1, in front of the array. *)
Theorem pdcp_data_req_bearers arrays sdu :
  let req rb := pdcp_data_req build0 flip_ctr flat_cmac blocks rlc_accepts arrays 0 0 false true
    rb 0 false (zlen sdu) sdu PDCP_TRANSMISSION_MODE_DATA in
  req 2 = Ok (arrays, false, None) /\
  (arrays !! (false, true, 0, 0, -1) = None -> req 0 = Err EBounds).
Proof.
  split; [done|]. intros H. unfold pdcp_data_req.
  change (pdcp_data_req_guards build0 0 0 true 0 PDCP_TRANSMISSION_MODE_DATA) with true.
  cbn [negb]. unfold pdcp_read. change (pdcp_key_of false true 0 0 0) with (false, true, 0, 0, -1).
  by rewrite H.
Qed.

Lemma pdcp_data_req_bearers_witness :
  pdcp_data_req build0 flip_ctr flat_cmac blocks rlc_accepts srb_tx 0 0 false true
    0 0 false (zlen [1]) [1] PDCP_TRANSMISSION_MODE_DATA = Err EBounds.
Proof. by apply (pdcp_data_req_bearers srb_tx [1]). Defined.
