(* ===== verification/PdcpOverUm.v ===== *)
(** The user plane of one side to the other: PDCP over RLC UM with 5-bit
    sequence numbers.  The requests PDCP makes are the SDUs of the RLC entity,
    what the peer RLC entity delivers is indicated to the peer PDCP entity. *)
From S2P Require Import Prelude.
From S2P Require Import RlcUmEntity.
From S2P Require Import RlcUmHeader.
From S2P Require Import RlcUmReassembly.
From S2P Require Import RlcUmDar.
From S2P Require Import RlcUmDarSpec.
From S2P Require Import RlcUmDarRefine.
From S2P Require Import RlcUmReceiver.
From S2P Require Import RlcUmSegment.
From S2P Require Import RlcUmSegmentSpec.
From S2P Require Import RlcUm.
From S2P Require Import RlcUmLink.
From S2P Require Import PdcpPrimitives.
From S2P Require Import PdcpSequence.
From S2P Require Import PdcpSequenceSpec.
From S2P Require Import PdcpSecurity.
From S2P Require Import PdcpSecuritySpec.
From S2P Require Import Pdcp.
From S2P Require Import PdcpSpec.
From S2P Require Import RlcUmExamples.
From S2P Require Import PdcpExamples.

Local Open Scope Z_scope.

(** With 5-bit numbers nothing is added to an SDU. *)
Lemma padded_0 sent got : Forall2 (padded 0) sent got -> sent = got.
Proof.
  induction 1 as [|s g sent got (pad & -> & Hp) _ IH]; [done|]. subst got.
  destruct pad as [|x pad]; [by rewrite app_nil_r|].
  rewrite zlen_cons in Hp. pose proof (zlen_nonneg pad). lia.
Qed.

Section stack.
Variable B : build.
Variable aes_ctr : list Z -> list Z -> list Z -> list Z.
Variable aes_cmac : list Z -> list Z -> list Z.
Hypothesis ctr_length : forall k m d, length (aes_ctr k m d) = length d.
Hypothesis ctr_involutive : forall k m d, aes_ctr k m (aes_ctr k m d) = d.
Hypothesis ctr_bytes : forall k m d, bytes d -> bytes (aes_ctr k m d).
Hypothesis cmac_length : forall k m, length (aes_cmac k m) = 16%nat.
Hypothesis cmac_bytes : forall k m, bytes (aes_cmac k m).
Variable get_free_mem_block : Z -> option (list Z).
Variable rlc_data_req : rlc_request -> Z.
Hypothesis memory : forall n,
  exists m, get_free_mem_block n = Some m /\ n + 3 <= zlen m /\ bytes m.
Variable otg_enabled : Z.
Hypothesis no_otg : otg_enabled <> 1.
Hypothesis no_stop : STOP_ON_IP_TRAFFIC_OVERLOAD B = false.
Variables (e srb : bool) (enb_mod ue_mod rb : Z).
Hypothesis rb_ok : 0 < rb < maxDRB B /\ (srb = true -> rb < 2).
Hypothesis mod_ok : enb_mod < NUMBER_OF_eNB_MAX B /\ ue_mod < NUMBER_OF_UE_MAX B.
Variable spare : list Z.
Hypothesis spare_ok : bytes spare /\ 3 <= zlen spare.

(** The requests of the SDUs, in order. *)
Fixpoint pdcp_sends (sdus : list (list Z)) (tx : pdcp_arrays)
    : res (pdcp_arrays * list rlc_request) :=
  match sdus with
  | [] => Ok (tx, [])
  | sdu :: sdus =>
      '(tx, _, r) ← pdcp_data_req B aes_ctr aes_cmac get_free_mem_block rlc_data_req tx
        enb_mod ue_mod e srb rb 0 false (zlen sdu) sdu PDCP_TRANSMISSION_MODE_DATA;
      match r with
      | None => Err EAssert
      | Some r => '(tx, rs) ← pdcp_sends sdus tx; Ok (tx, r :: rs)
      end
  end.

(** The indications of the PDUs RLC delivers. *)
Fixpoint pdcp_inds (pdus : list (list Z)) (rx : pdcp_arrays)
    : res (pdcp_arrays * list pdcp_delivery) :=
  match pdus with
  | [] => Ok (rx, [])
  | pdu :: pdus =>
      '(rx, _, out) ← pdcp_data_ind B aes_ctr aes_cmac get_free_mem_block otg_enabled rx
        enb_mod ue_mod (negb e) srb false rb (zlen pdu) (pdu ++ spare);
      '(rx, outs) ← pdcp_inds pdus rx;
      Ok (rx, out ++ outs)
  end.

Abbreviation handed_on := (handed B (negb e) srb ue_mod rb).

Lemma sends_inds sdus : forall tx rx p q,
  tx !! tx_key e srb enb_mod ue_mod rb = Some p ->
  rx !! rx_key e srb enb_mod ue_mod rb = Some q ->
  in_step srb p q -> rx_next q = tx_next p ->
  tx_next p + zlen sdus < 2 ^ 32 * 2 ^ bearer_size srb -> Forall (sdu_ok B) sdus ->
  exists tx' rs, pdcp_sends sdus tx = Ok (tx', rs) /\ length rs = length sdus /\
    forall k, exists rx', pdcp_inds (take k (air <$> rs)) rx
      = Ok (rx', concat (handed_on <$> take k sdus)).
Proof.
  induction sdus as [|sdu sdus IH]; intros tx rx p q Hp Hq Hs Heq Hmax Hok.
  { exists tx, []. split; [done|]. split; [done|]. intros k. exists rx. by destruct k. }
  rewrite zlen_cons in Hmax. pose proof (zlen_nonneg sdus).
  apply Forall_cons in Hok as [Hsdu Hok].
  assert (Hpos : 0 < 2 ^ bearer_size srb) by (by destruct srb).
  destruct (transfer B aes_ctr aes_cmac ctr_length ctr_involutive ctr_bytes cmac_length
    cmac_bytes get_free_mem_block rlc_data_req memory otg_enabled no_otg no_stop p q srb
    (negb e) ue_mod rb 0 false sdu Hs) as (p' & ret & r & S1 & S2 & S3 & S4 & S5 & S6 & S7);
    [split; lia|lia|apply Hsdu|apply Hsdu|].
  destruct (S7 spare) as (q' & R1 & R2 & R3); [apply spare_ok..|].
  destruct (IH (<[tx_key e srb enb_mod ue_mod rb := p']> tx)
               (<[rx_key e srb enb_mod ue_mod rb := q']> rx) p' q') as
    (tx' & rs & I1 & I2 & I3); try done; try lia; [apply lookup_insert_eq..|].
  cbn [pdcp_sends].
  rewrite (data_req_send B aes_ctr aes_cmac get_free_mem_block rlc_data_req e srb enb_mod
    ue_mod rb rb_ok mod_ok tx p sdu p' ret (Some r)) by (try done; apply Hs).
  cbn [mbind res_bind]. rewrite I1. cbn [mbind res_bind]. exists tx', (r :: rs).
  split; [done|]. split; [cbn [length]; lia|]. intros [|k]; [by exists rx|].
  destruct (I3 k) as [rx' Hk]. exists rx'. rewrite fmap_cons. cbn [take pdcp_inds].
  rewrite S3, (data_ind_receive B aes_ctr aes_cmac get_free_mem_block otg_enabled e srb
    enb_mod ue_mod rb rb_ok rx q (rr_size r) _ q' (handed_on sdu)); try done.
  2: { rewrite S2. destruct Hsdu as ([? _] & _). destruct srb; cbn; lia. }
  cbn [mbind res_bind]. rewrite Hk. done.
Qed.

End stack.

(** ** A data bearer of a UE under EEA2 *)

Definition drb_key (enb : bool) : pdcp_key := pdcp_key_of enb false 0 0 1.
Definition drb_tx : pdcp_arrays := {[ drb_key false := bearer_entity true 2 0 1 RLC_MODE_UM 12 ]}.
Definition drb_rx : pdcp_arrays := {[ drb_key true := bearer_entity false 2 0 1 RLC_MODE_UM 12 ]}.

