(* ===== verification/RlcAmEntity.v ===== *)
(** RLC AM v9.3.0: the transmitting side of an entity ([rlc_am_entity.h],
    [rlc_am_structs.h], [rlc_am_constants.h]), the tests on sequence numbers
    ([rlc_am_windows.c]), the timer of the polls
    ([rlc_am_timer_poll_retransmit.c]) and the buffer of SDUs
    ([rlc_am_in_sdu.c]). *)
From S2P Require Import Prelude.

Local Open Scope Z_scope.
Local Open Scope c_scope.

Definition RLC_AM_SN_MODULO : Z := 1024.
Definition RLC_AM_SN_MASK : Z := 0x3FF.
Definition RLC_AM_WINDOW_SIZE : Z := 512.
Definition RLC_AM_SDU_CONTROL_BUFFER_SIZE : Z := 128.
Definition RLC_AM_MAX_SDU_IN_PDU : Z := 32.
Definition RLC_AM_MAX_NACK_IN_STATUS_PDU : Z := 1023.
Definition RLC_AM_MAX_HOLES_REPORT_PER_PDU : Z := 32.

(** [rlc_am_timer_t]. *)
Record am_timer := AmTimer {
  frame_time_out : Z;
  frame_start : Z;
  time_out : Z;
  running : bool;
  timed_out : bool
}.
#[export] Instance am_timer_eta : Eta am_timer := fun t =>
  AmTimer (frame_time_out t) (frame_start t) (time_out t) (running t) (timed_out t).

(** [rlc_am_tx_sdu_management_t]; the block is represented by the bytes it
    holds.  Of [flags] only [transmitted_successfully] is used by the code, and
    [pdus_index] is written but never read. *)
Record am_tx_sdu := AmTxSdu {
  sdu_mem_block : option (list Z);
  sdu_creation_time : Z;
  sdu_mui : Z;
  sdu_remaining_size : Z;
  sdu_segmented_size : Z;
  sdu_size : Z;
  nb_pdus : Z;
  nb_pdus_ack : Z;
  transmitted_successfully : bool
}.
#[export] Instance am_tx_sdu_eta : Eta am_tx_sdu := fun s =>
  AmTxSdu (sdu_mem_block s) (sdu_creation_time s) (sdu_mui s) (sdu_remaining_size s)
    (sdu_segmented_size s) (sdu_size s) (nb_pdus s) (nb_pdus_ack s)
    (transmitted_successfully s).

Definition am_sdu0 : am_tx_sdu := AmTxSdu None 0 0 0 0 0 0 0 false.

(** [rlc_am_tx_data_pdu_management_t]; [hole_so_start] and [hole_so_stop] are one
    array of pairs, the block is the memory from [first_byte] on and [payload] the
    displacement from there. *)
Record am_tx_pdu := AmTxPdu {
  pdu_mem_block : option (list Z);
  pdu_payload : Z;
  sdus_index : list Z;
  last_nack_time : Z;
  holes : list (Z * Z);
  num_holes : Z;
  header_and_payload_size : Z;
  payload_size : Z;
  nack_so_start : Z;
  nack_so_stop : Z;
  nb_sdus : Z;
  retx_count : Z;
  flag_ack : bool;
  flag_retransmit : bool
}.
#[export] Instance am_tx_pdu_eta : Eta am_tx_pdu := fun p =>
  AmTxPdu (pdu_mem_block p) (pdu_payload p) (sdus_index p) (last_nack_time p) (holes p)
    (num_holes p) (header_and_payload_size p) (payload_size p) (nack_so_start p) (nack_so_stop p)
    (nb_sdus p) (retx_count p) (flag_ack p) (flag_retransmit p).

(** Cleared by [memset]. *)
Definition am_pdu0 : am_tx_pdu :=
  AmTxPdu None 0 (replicate 32 0) 0 (replicate 32 (0, 0)) 0 0 0 0 0 0 0 false false.

(** What [rlc_data_conf] tells the upper layer. *)
Inductive sdu_confirm := RLC_SDU_CONFIRM_YES | RLC_SDU_CONFIRM_NO.

(** [rlc_am_entity_t], the fields of the transmitting side which
    acknowledgement is about.  The arrays [input_sdus] and [pdu_retrans_buffer]
    are maps, where what is missing is cleared; [confirms] are the calls of
    [rlc_data_conf]. *)
Record am_tx := AmTx {
  input_sdus : gmap Z am_tx_sdu;
  nb_sdu : Z;
  nb_sdu_no_segmented : Z;
  next_sdu_index : Z;
  current_sdu_index : Z;
  pdu_retrans_buffer : gmap Z am_tx_pdu;
  retrans_num_pdus : Z;
  retrans_num_bytes : Z;
  retrans_num_bytes_to_retransmit : Z;
  num_nack_so : Z;
  num_nack_sn : Z;
  vt_a : Z;
  vt_ms : Z;
  vt_s : Z;
  poll_sn : Z;
  t_poll_retransmit : am_timer;
  max_retx_threshold : Z;
  first_retrans_pdu_sn : Z;
  stat_tx_pdcp_sdu_discarded : Z;
  stat_tx_pdcp_bytes_discarded : Z;
  stat_timer_poll_retransmit_timed_out : Z;
  confirms : list (Z * sdu_confirm)
}.
#[export] Instance am_tx_eta : Eta am_tx := fun e =>
  AmTx (input_sdus e) (nb_sdu e) (nb_sdu_no_segmented e) (next_sdu_index e)
    (current_sdu_index e) (pdu_retrans_buffer e) (retrans_num_pdus e)
    (retrans_num_bytes e) (retrans_num_bytes_to_retransmit e) (num_nack_so e)
    (num_nack_sn e) (vt_a e) (vt_ms e) (vt_s e) (poll_sn e) (t_poll_retransmit e)
    (max_retx_threshold e) (first_retrans_pdu_sn e) (stat_tx_pdcp_sdu_discarded e)
    (stat_tx_pdcp_bytes_discarded e) (stat_timer_poll_retransmit_timed_out e) (confirms e).

(** ** The arrays *)

Definition sn_in_bounds (sn : Z) : bool := (0 <=? sn) && (sn <? RLC_AM_SN_MODULO).
Definition sdu_in_bounds (i : Z) : bool :=
  (0 <=? i) && (i <? RLC_AM_SDU_CONTROL_BUFFER_SIZE).

(** [pdu_retrans_buffer[sn]] and [input_sdus[i]], within the arrays. *)
Definition pdu_at (e : am_tx) (sn : Z) : am_tx_pdu :=
  default am_pdu0 (pdu_retrans_buffer e !! sn).
Definition sdu_at (e : am_tx) (i : Z) : am_tx_sdu :=
  default am_sdu0 (input_sdus e !! i).

Definition pdu_read (e : am_tx) (sn : Z) : res am_tx_pdu :=
  if sn_in_bounds sn then Ok (pdu_at e sn) else Err EBounds.
Definition pdu_write (e : am_tx) (sn : Z) (p : am_tx_pdu) : res am_tx :=
  if sn_in_bounds sn
  then Ok (e <| pdu_retrans_buffer := <[sn := p]> (pdu_retrans_buffer e) |>)
  else Err EBounds.
Definition sdu_read (e : am_tx) (i : Z) : res am_tx_sdu :=
  if sdu_in_bounds i then Ok (sdu_at e i) else Err EBounds.
Definition sdu_write (e : am_tx) (i : Z) (s : am_tx_sdu) : res am_tx :=
  if sdu_in_bounds i
  then Ok (e <| input_sdus := <[i := s]> (input_sdus e) |>)
  else Err EBounds.

(** ** [rlc_am_windows.c], the transmitting side *)

Definition rlc_am_in_tx_window (e : am_tx) (snP : Z) : Z :=
  let snP := s16 snP in
  if RLC_AM_SN_MODULO <=? snP then 0
  else
    let shifted_sn := u16 (snP - vt_a e) %% RLC_AM_SN_MODULO in
    let upper_bound := u16 (vt_ms e - vt_a e) %% RLC_AM_SN_MODULO in
    if (0 <=? shifted_sn) && (shifted_sn <? upper_bound) then 1 else 0.

Definition rlc_am_tx_sn1_gt_sn2 (e : am_tx) (sn1P sn2P : Z) : Z :=
  let sn1P := s16 sn1P in
  let sn2P := s16 sn2P in
  if (RLC_AM_SN_MODULO <=? sn1P) || (RLC_AM_SN_MODULO <=? sn2P) then 0
  else
    let shifted_sn := u16 (sn1P - vt_a e) %% RLC_AM_SN_MODULO in
    let upper_bound := u16 (sn2P - vt_a e) %% RLC_AM_SN_MODULO in
    if upper_bound <? shifted_sn then 1 else 0.

(** [(sn + 1) & RLC_AM_SN_MASK]. *)
Definition sn_after (sn : Z) : Z := (sn + 1) .& RLC_AM_SN_MASK.

(** ** [rlc_am_timer_poll_retransmit.c] *)

Definition rlc_am_stop_and_reset_timer_poll_retransmit (e : am_tx) : am_tx :=
  e <| t_poll_retransmit := AmTimer 0 0 (time_out (t_poll_retransmit e)) false false |>.

Definition rlc_am_start_timer_poll_retransmit (e : am_tx) (frameP : Z) : am_tx :=
  e <| t_poll_retransmit :=
         AmTimer (u32 (frameP + time_out (t_poll_retransmit e))) frameP
           (time_out (t_poll_retransmit e)) true false |>.

Definition poll_expired (t : am_timer) (frameP : Z) : bool :=
  ((frame_start t <? frame_time_out t)
   && ((frame_time_out t <=? frameP) || (frameP <? frame_start t)))
  || ((frame_time_out t <? frame_start t)
      && (frameP <? frame_start t) && (frame_time_out t <=? frameP)).

Definition rlc_am_check_timer_poll_retransmit (e : am_tx) (frameP : Z) : am_tx :=
  let t := t_poll_retransmit e in
  if running t && poll_expired t frameP then
    e <| t_poll_retransmit :=
           t <| running := false |> <| timed_out := true |>
             <| frame_time_out := u32 (frameP + time_out t) |> |>
      <| stat_timer_poll_retransmit_timed_out :=
           u32 (stat_timer_poll_retransmit_timed_out e + 1) |>
  else e.

Definition rlc_am_is_timer_poll_retransmit_timed_out (e : am_tx) : Z :=
  if timed_out (t_poll_retransmit e) then 1 else 0.

Definition rlc_am_init_timer_poll_retransmit (e : am_tx) (time_outP : Z) : am_tx :=
  e <| t_poll_retransmit := AmTimer 0 0 (u32 time_outP) false false |>.

(** ** [rlc_am_in_sdu.c] *)

(** The [while] loop; the index goes through the array once at most. *)
Fixpoint skip_transmitted (fuel : nat) (e : am_tx) : res am_tx :=
  match fuel with
  | O => Err EFuel
  | S fuel =>
      if current_sdu_index e =? next_sdu_index e then Ok e
      else
        s ← sdu_read e (current_sdu_index e);
        if transmitted_successfully s then
          skip_transmitted fuel
            (e <| current_sdu_index :=
                    (current_sdu_index e + 1) %% RLC_AM_SDU_CONTROL_BUFFER_SIZE |>)
        else Ok e
  end.

(** [index_in_bufferP] is unsigned. *)
Definition rlc_am_free_in_sdu (index_in_bufferP : Z) (e : am_tx) : res am_tx :=
  let i := u32 index_in_bufferP in
  if i <=? RLC_AM_SDU_CONTROL_BUFFER_SIZE then
    s ← sdu_read e i;
    let e := match sdu_mem_block s with
             | Some _ => e <| nb_sdu_no_segmented := s32 (nb_sdu_no_segmented e - 1) |>
             | None => e
             end in
    let e := e <| nb_sdu := s32 (nb_sdu e - 1) |> in
    e ← sdu_write e i (am_sdu0 <| transmitted_successfully := true |>);
    let e :=
      if current_sdu_index e =? i
      then e <| current_sdu_index :=
                  (current_sdu_index e + 1) %% RLC_AM_SDU_CONTROL_BUFFER_SIZE |>
      else e in
    skip_transmitted 129 e
  else Ok e.

Definition rlc_am_free_in_sdu_data (index_in_bufferP : Z) (e : am_tx) : res am_tx :=
  let i := u32 index_in_bufferP in
  if i <=? RLC_AM_SDU_CONTROL_BUFFER_SIZE then
    s ← sdu_read e i;
    match sdu_mem_block s with
    | Some _ =>
        e ← sdu_write e i (s <| sdu_mem_block := None |> <| sdu_remaining_size := 0 |>);
        Ok (e <| nb_sdu_no_segmented := s32 (nb_sdu_no_segmented e - 1) |>)
    | None => Ok e
    end
  else Ok e.

Definition rlc_am_in_sdu_is_empty (e : am_tx) : Z := if nb_sdu e =? 0 then 1 else 0.
