(* ===== verification/RlcAmSn.v ===== *)
(** RLC AM v9.3.0: arithmetic on sequence numbers, which count modulo 1024. *)
From S2P Require Import Prelude.
From S2P Require Import RlcAmEntity.

Local Open Scope Z_scope.

Definition sn_ok (sn : Z) : Prop := 0 <= sn < 1024.

(** How far [sn] is behind [a]. *)
Definition dist (a sn : Z) : Z := (sn - a) mod 1024.

Lemma dist_range a sn : 0 <= dist a sn < 1024.
Proof. unfold dist. div_lia. Qed.

Lemma dist_self a : dist a a = 0.
Proof. unfold dist. by rewrite Z.sub_diag. Qed.

Lemma dist_0 a sn : sn_ok a -> sn_ok sn -> dist a sn = 0 -> sn = a.
Proof. unfold sn_ok, dist. div_lia. Qed.

Lemma dist_inj a x y : sn_ok x -> sn_ok y -> dist a x = dist a y -> x = y.
Proof. unfold sn_ok, dist. div_lia. Qed.

Lemma next_sn_mod sn : sn_after sn = (sn + 1) mod 1024.
Proof. apply (land_ones_mod _ 10). lia. Qed.

Lemma next_sn_ok sn : sn_ok (sn_after sn).
Proof. rewrite next_sn_mod. unfold sn_ok. div_lia. Qed.

Lemma dist_next a sn : sn_ok a -> sn_ok sn -> sn <> a -> dist (sn_after a) sn = dist a sn - 1.
Proof. rewrite next_sn_mod. unfold sn_ok, dist. div_lia. Qed.

Lemma dist_next_r a sn : dist a sn < 1023 -> dist a (sn_after sn) = dist a sn + 1.
Proof. rewrite next_sn_mod. unfold dist. div_lia. Qed.

(** [b] between [a] and [s]. *)
Definition between (a b s : Z) : Prop := dist a b + dist b s = dist a s.

Lemma between_dist a b s x : between a b s -> dist a x = dist a b + dist b x \/
  dist a x = dist a b + dist b x - 1024.
Proof. unfold between, dist. div_lia. Qed.

Lemma between_trans a b c s : between a b s -> between b c s -> between a c s.
Proof. unfold between, dist. div_lia. Qed.

Lemma between_left a s : between a a s.
Proof. unfold between. rewrite dist_self. lia. Qed.

Lemma sn_in_bounds_ok sn : sn_in_bounds sn = true <-> sn_ok sn.
Proof. unfold sn_in_bounds, sn_ok, RLC_AM_SN_MODULO. lia. Qed.
