(* ===== verification/RlcAmStatus.v ===== *)
(** RLC AM v9.3.0: the format of STATUS PDUs ([rlc_am_status_report.c]): fields
    of bits at any displacement, the writer and the parser. *)
From S2P Require Import Prelude.
From S2P Require Import RlcAmEntity.

Local Open Scope Z_scope.
Local Open Scope c_scope.

(** [nack_sn_t]. *)
Record nack_sn := NackSn {
  nack_sn_ : Z;
  nack_e1 : Z;
  nack_e2 : Z;
  so_start : Z;
  so_end : Z
}.
#[export] Instance nack_sn_eta : Eta nack_sn := fun n =>
  NackSn (nack_sn_ n) (nack_e1 n) (nack_e2 n) (so_start n) (so_end n).
#[export] Instance nack_sn_eq_dec : EqDecision nack_sn.
Proof. solve_decision. Defined.

(** [rlc_am_control_pdu_info_t]; of [nack_list] the first [num_nack] entries. *)
Record control_pdu_info := ControlPduInfo {
  d_c : Z;
  cpt : Z;
  ack_sn : Z;
  info_e1 : Z;
  nack_list : list nack_sn
}.
#[export] Instance control_pdu_info_eta : Eta control_pdu_info := fun i =>
  ControlPduInfo (d_c i) (cpt i) (ack_sn i) (info_e1 i) (nack_list i).

Definition num_nack (i : control_pdu_info) : Z := zlen (nack_list i).

(** ** Fields of bits

    The byte at displacement [pos] of the memory [l] is current, [bit] of its
    bits, from the most significant one on, are done. *)

(** A turn takes the rest of a byte: three are enough for 16 bits. *)
Fixpoint read_bits (fuel : nat) (l : list Z) (pos bit bits_to_readP value : Z)
    : res (Z * Z * Z) :=
  match fuel with
  | O => Err EFuel
  | S fuel =>
      b ← rd l pos;
      let bits_read := 8 - bit in
      let rest := b .& (0xFF .>> bit) in
      if bits_to_readP <? bits_read then
        Ok (u16 (u16 (value .<< bits_to_readP) .| (rest .>> (bits_read - bits_to_readP))),
            pos, bit + bits_to_readP)
      else if bits_read =? bits_to_readP then
        Ok (u16 (u16 (value .<< bits_to_readP) .| rest), pos + 1, 0)
      else
        let value := u16 (u16 (value .<< bits_read) .| rest) in
        let bits_to_readP := bits_to_readP - bits_read in
        if 0 <? bits_to_readP then read_bits fuel l (pos + 1) 0 bits_to_readP value
        else Ok (value, pos + 1, 0)
  end.

(** The value read, and the position after it. *)
Definition rlc_am_read_bit_field (l : list Z) (pos bit bits_to_readP : Z)
    : res (Z * Z * Z) := read_bits 3 l pos bit bits_to_readP 0.

Fixpoint write_bits (fuel : nat) (l : list Z) (pos bit bits_to_writeP valueP : Z)
    : res (list Z * Z * Z) :=
  match fuel with
  | O => Err EFuel
  | S fuel =>
      let available_bits := 8 - bit in
      b ← rd l pos;
      if bits_to_writeP <? available_bits then
        let shift := available_bits - bits_to_writeP in
        l ← wr l pos [u8 (b .| ((valueP .& (0xFF .>> shift)) .<< shift))];
        Ok (l, pos, bit + bits_to_writeP)
      else if available_bits =? bits_to_writeP then
        l ← wr l pos [u8 (b .| (valueP .& (0xFF .>> (8 - bits_to_writeP))))];
        Ok (l, pos + 1, 0)
      else
        l ← wr l pos [u8 (b .| (valueP .>> (bits_to_writeP - available_bits)))];
        let bits_to_writeP := bits_to_writeP - available_bits in
        if 0 <? bits_to_writeP then write_bits fuel l (pos + 1) 0 bits_to_writeP valueP
        else Ok (l, pos + 1, 0)
  end.

Definition rlc_am_write8_bit_field (l : list Z) (pos bit bits_to_writeP valueP : Z)
    : res (list Z * Z * Z) := write_bits 2 l pos bit bits_to_writeP (u8 valueP).

Definition rlc_am_write16_bit_field (l : list Z) (pos bit bits_to_writeP valueP : Z)
    : res (list Z * Z * Z) :=
  _ ← res_guard (bits_to_writeP <=? 16) EAssert;
  let valueP := u16 valueP in
  if 8 <? bits_to_writeP then
    '(l, pos, bit) ← rlc_am_write8_bit_field l pos bit (bits_to_writeP - 8) (valueP .>> 8);
    rlc_am_write8_bit_field l pos bit 8 (valueP .& 0x00FF)
  else rlc_am_write8_bit_field l pos bit bits_to_writeP (valueP .& 0x00FF).

(** ** The parser *)

(** One turn of the [while] loop. *)
Definition read_nack (l : list Z) (pos bit : Z) : res (nack_sn * Z * Z) :=
  '(sn, pos, bit) ← rlc_am_read_bit_field l pos bit 10;
  '(e1, pos, bit) ← rlc_am_read_bit_field l pos bit 1;
  '(e2, pos, bit) ← rlc_am_read_bit_field l pos bit 1;
  if truth e2 then
    '(so_start, pos, bit) ← rlc_am_read_bit_field l pos bit 15;
    '(so_end, pos, bit) ← rlc_am_read_bit_field l pos bit 15;
    Ok (NackSn sn e1 e2 so_start so_end, pos, bit)
  else Ok (NackSn sn e1 e2 0 0x7FFF, pos, bit).

(** At most 1023 turns; [n] of them are left.  The code returned, the entries,
    and the position after them. *)
Fixpoint read_nacks (n : nat) (l : list Z) (pos bit : Z)
    : res (Z * list nack_sn * Z * Z) :=
  '(nack, pos, bit) ← read_nack l pos bit;
  if negb (truth (nack_e1 nack)) then Ok (0, [nack], pos, bit)
  else
    match n with
    | O => Ok (-2, [nack], pos, bit)
    | S n =>
        '(rc, nacks, pos, bit) ← read_nacks n l pos bit;
        Ok (rc, nack :: nacks, pos, bit)
    end.

(** What is returned, the fields, and [total_size] less the bytes read.  [l] is
    the memory from [header_pP] on: the size is not looked at. *)
Definition rlc_am_get_control_pdu_infos (l : list Z) (total_size : Z)
    : res (Z * control_pdu_info * Z) :=
  b1 ← rd l 0;
  let i := ControlPduInfo 0 0 0 0 [] in
  let i := i <| d_c := b1 .>> 7 |> in
  if truth (d_c i) then Ok (-1, i, total_size)
  else
    let i := i <| cpt := (b1 .>> 4) .& 0x07 |> in
    if negb (cpt i =? 0) then Ok (-3, i, total_size)
    else
      b2 ← rd l 1;
      let i := i <| ack_sn := ((b2 .>> 2) .& 0x3F) .| u16 ((b1 .& 0x0F) .<< 6) |>
                 <| info_e1 := (b2 .>> 1) .& 0x01 |> in
      if truth (info_e1 i) then
        '(rc, nacks, pos, bit) ← read_nacks 1022 l 1 7;
        Ok (rc, i <| nack_list := nacks |>, s32 (total_size - (pos + (bit + 7) / 8)))
      else Ok (0, i, s32 (total_size - 2)).

(** ** The writer *)

Definition write_nack (n : nack_sn) (l : list Z) (pos bit : Z) : res (list Z * Z * Z) :=
  '(l, pos, bit) ← rlc_am_write16_bit_field l pos bit 10 (nack_sn_ n);
  '(l, pos, bit) ← rlc_am_write8_bit_field l pos bit 1 (nack_e1 n);
  '(l, pos, bit) ← rlc_am_write8_bit_field l pos bit 1 (nack_e2 n);
  if 0 <? nack_e2 n then
    '(l, pos, bit) ← rlc_am_write16_bit_field l pos bit 15 (so_start n);
    rlc_am_write16_bit_field l pos bit 15 (so_end n)
  else Ok (l, pos, bit).

Fixpoint write_nacks (nacks : list nack_sn) (l : list Z) (pos bit : Z)
    : res (list Z * Z * Z) :=
  match nacks with
  | [] => Ok (l, pos, bit)
  | n :: nacks =>
      '(l, pos, bit) ← write_nack n l pos bit;
      write_nacks nacks l pos bit
  end.

(** The memory written, and the number of bytes. *)
Definition rlc_am_write_status_pdu (i : control_pdu_info) (l : list Z)
    : res (list Z * Z) :=
  '(l, pos, bit) ← rlc_am_write16_bit_field l 0 4 10 (ack_sn i);
  '(l, pos, bit) ← rlc_am_write8_bit_field l pos bit 1 (if 0 <? num_nack i then 1 else 0);
  '(l, pos, bit) ← write_nacks (nack_list i) l pos bit;
  Ok (l, if 0 <? bit then pos + 1 else pos).
