(* ===== verification/RlcAmStatusSpec.v ===== *)
(** RLC AM v9.3.0: STATUS PDUs as strings of bits, and the round trip between
    the writer and the parser. *)
From S2P Require Import Prelude.
From S2P Require Import RlcAmEntity.
From S2P Require Import RlcAmStatus.

Local Open Scope Z_scope.

(** ** Bits, the most significant first *)

Definition bit_num (bs : list bool) : Z := foldl (fun n b => 2 * n + Z.b2z b) 0 bs.

Fixpoint to_bits (n : nat) (v : Z) : list bool :=
  match n with
  | O => []
  | S n => Z.testbit v (Z.of_nat n) :: to_bits n v
  end.

Definition byte_bits (b : Z) : list bool := to_bits 8 b.
Definition mem_bits (l : list Z) : list bool := concat (byte_bits <$> l).

Lemma to_bits_length n v : length (to_bits n v) = n.
Proof. induction n; cbn; congruence. Qed.

Lemma bit_num_acc bs : forall a, foldl (fun n b => 2 * n + Z.b2z b) a bs = a * 2 ^ zlen bs + bit_num bs.
Proof.
  unfold bit_num. induction bs as [|b bs IH]; intros a; cbn [foldl].
  - rewrite zlen_nil. lia.
  - rewrite IH, (IH (2 * 0 + Z.b2z b)), zlen_cons.
    pose proof (zlen_nonneg bs). rewrite Z.pow_add_r by lia. change (2 ^ 1) with 2. ring.
Qed.

Lemma bit_num_app a b : bit_num (a ++ b) = bit_num a * 2 ^ zlen b + bit_num b.
Proof. unfold bit_num at 1. rewrite foldl_app. apply bit_num_acc. Qed.

Lemma bit_num_cons b bs : bit_num (b :: bs) = Z.b2z b * 2 ^ zlen bs + bit_num bs.
Proof. apply (bit_num_app [b] bs). Qed.

Lemma bit_num_bound bs : 0 <= bit_num bs < 2 ^ zlen bs.
Proof.
  induction bs as [|b bs IH]; [change (0 <= 0 < 1); lia|].
  rewrite bit_num_cons, zlen_cons. pose proof (zlen_nonneg bs).
  rewrite Z.pow_add_r by lia. change (2 ^ 1) with 2. destruct b; cbn [Z.b2z]; lia.
Qed.

Lemma bit_num_to_bits n v : bit_num (to_bits n v) = v mod 2 ^ Z.of_nat n.
Proof.
  induction n as [|n IH]; [cbn; by rewrite Z.mod_1_r|].
  cbn [to_bits]. rewrite bit_num_cons, IH. unfold zlen. rewrite to_bits_length.
  rewrite Z.testbit_spec' by lia. rewrite Nat2Z.inj_succ, Z.pow_succ_r by lia.
  rewrite (Z.mul_comm 2), Z.rem_mul_r by lia. ring.
Qed.

Lemma to_bits_small n v : 0 <= v < 2 ^ Z.of_nat n -> bit_num (to_bits n v) = v.
Proof. intros H. rewrite bit_num_to_bits. by apply Z.mod_small. Qed.

Lemma to_bits_app n k v : to_bits (n + k) v = to_bits n (v / 2 ^ Z.of_nat k) ++ to_bits k v.
Proof.
  induction n as [|n IH]; [done|]. cbn [to_bits Nat.add app]. f_equal; [|done].
  rewrite Z.div_pow2_bits by lia. f_equal. lia.
Qed.

Lemma to_bits_mod n v w : v mod 2 ^ Z.of_nat n = w mod 2 ^ Z.of_nat n -> to_bits n v = to_bits n w.
Proof.
  revert v w. induction n as [|n IH]; intros v w H; [done|]. cbn [to_bits]. f_equal.
  - rewrite <- (Z.mod_pow2_bits_low v (Z.of_nat (S n))), H, Z.mod_pow2_bits_low by lia. done.
  - apply IH. rewrite Nat2Z.inj_succ, Z.pow_succ_r in H by lia.
    apply (f_equal (fun z => z mod 2 ^ Z.of_nat n)) in H.
    by rewrite !Z.mod_mod_divide in H by (exists 2; lia).
Qed.

(** ** Bytes *)

Lemma mem_bits_app a b : mem_bits (a ++ b) = mem_bits a ++ mem_bits b.
Proof. unfold mem_bits. by rewrite fmap_app, concat_app. Qed.

Lemma mem_bits_cons x l : mem_bits (x :: l) = byte_bits x ++ mem_bits l.
Proof. done. Qed.

Lemma mem_bits_length l : length (mem_bits l) = (8 * length l)%nat.
Proof.
  induction l as [|x l IH]; [done|]. rewrite mem_bits_cons, length_app, IH.
  unfold byte_bits. rewrite to_bits_length. cbn [length]. lia.
Qed.

(** A memory split inside of a byte. *)
Lemma mem_bits_split l pre bs post pos bit :
  mem_bits l = pre ++ bs ++ post -> zlen pre = 8 * pos + bit -> 0 <= bit < 8 -> bs <> [] ->
  exists la b lb, l = la ++ b :: lb /\ zlen la = pos /\
    pre = mem_bits la ++ take (Z.to_nat bit) (byte_bits b) /\
    bs ++ post = drop (Z.to_nat bit) (byte_bits b) ++ mem_bits lb.
Proof.
  intros E Hpre Hbit Hne.
  assert (Hlen : zlen pre < 8 * zlen l).
  { pose proof (mem_bits_length l) as H. rewrite E, !length_app in H.
    destruct bs as [|b bs]; [done|]. cbn [length] in H. unfold zlen in *. lia. }
  destruct (list_split l pos) as (la & lb & -> & Hla); [unfold zlen in *; lia|].
  destruct lb as [|b lb].
  { rewrite app_nil_r in Hlen. unfold zlen in *. lia. }
  exists la, b, lb. split; [done|]. split; [done|].
  rewrite mem_bits_app, mem_bits_cons in E.
  assert (H8 : length (byte_bits b) = 8%nat) by apply to_bits_length.
  rewrite <- (take_drop (Z.to_nat bit) (byte_bits b)), <- app_assoc, app_assoc in E.
  apply app_inj_1 in E as [E1 E2]; [done|].
  rewrite length_app, length_take, mem_bits_length, H8. unfold zlen in *. lia.
Qed.

(** ** One byte

    Decided by running through the bytes, the displacements and the lengths. *)

Definition upto (n : nat) : list nat := seq 0 n.

Definition read_byte_ok (b : Z) : bool :=
  forallb (fun bit => forallb (fun n =>
    Z.eqb (Z.shiftr (Z.land b (Z.shiftr 255 (Z.of_nat bit))) (Z.of_nat (8 - bit - n)))
          (bit_num (take n (drop bit (byte_bits b)))))
    (upto (S (8 - bit)))) (upto 8).

Lemma read_byte b bit n :
  in_u 8 b -> 0 <= bit < 8 -> 0 <= n <= 8 - bit ->
  Z.shiftr (Z.land b (Z.shiftr 255 bit)) (8 - bit - n)
    = bit_num (take (Z.to_nat n) (drop (Z.to_nat bit) (byte_bits b))).
Proof.
  intros Hb Hbit Hn.
  assert (H : read_byte_ok b = true) by (by apply byte_forall; [vm_compute|]).
  unfold read_byte_ok in H. rewrite forallb_forall in H.
  specialize (H (Z.to_nat bit)). rewrite forallb_forall in H.
  assert (H1 : In (Z.to_nat bit) (upto 8)) by (apply in_seq; lia).
  assert (H2 : In (Z.to_nat n) (upto (S (8 - Z.to_nat bit)))) by (apply in_seq; lia).
  specialize (H H1 (Z.to_nat n) H2). apply Z.eqb_eq in H. rewrite <- H.
  f_equal; [|lia]. by rewrite Z2Nat.id by lia.
Qed.

Definition write_byte_ok (b : Z) : bool :=
  let bs := byte_bits b in
  forallb (fun bit => forallb (fun n =>
    if forallb negb (take n (drop bit bs)) then
      forallb (fun v =>
        let b' := wrapU 8 (Z.lor b (Z.shiftl (Z.of_nat v) (Z.of_nat (8 - bit - n)))) in
        bool_decide (byte_bits b' = take bit bs ++ to_bits n (Z.of_nat v) ++ drop (bit + n) bs))
        (upto (2 ^ n))
    else true)
    (upto (S (8 - bit)))) (upto 8).

Lemma write_byte b bit n v :
  in_u 8 b -> 0 <= bit < 8 -> 0 <= n <= 8 - bit -> 0 <= v < 2 ^ n ->
  Forall (fun x => x = false) (take (Z.to_nat n) (drop (Z.to_nat bit) (byte_bits b))) ->
  byte_bits (wrapU 8 (Z.lor b (Z.shiftl v (8 - bit - n))))
    = take (Z.to_nat bit) (byte_bits b) ++ to_bits (Z.to_nat n) v
      ++ drop (Z.to_nat bit + Z.to_nat n) (byte_bits b).
Proof.
  intros Hb Hbit Hn Hv Hz.
  assert (H : write_byte_ok b = true) by (by apply byte_forall; [vm_compute|]).
  unfold write_byte_ok in H. rewrite forallb_forall in H.
  assert (H1 : In (Z.to_nat bit) (upto 8)) by (apply in_seq; lia).
  assert (H2 : In (Z.to_nat n) (upto (S (8 - Z.to_nat bit)))) by (apply in_seq; lia).
  specialize (H _ H1). rewrite forallb_forall in H. specialize (H _ H2).
  replace (forallb negb _) with true in H.
  2: { symmetry. apply forallb_forall. intros x Hx. rewrite Forall_forall in Hz.
       by rewrite (Hz x) by (by apply list_elem_of_In). }
  rewrite forallb_forall in H.
  assert (H3 : In (Z.to_nat v) (upto (2 ^ Z.to_nat n))).
  { apply in_seq. split; [lia|]. apply Nat2Z.inj_lt.
    rewrite Nat.add_0_l, Nat2Z.inj_pow, !Z2Nat.id by lia. lia. }
  specialize (H _ H3). apply bool_decide_eq_true in H.
  rewrite Z2Nat.id in H by lia.
  replace (Z.of_nat (8 - Z.to_nat bit - Z.to_nat n)) with (8 - bit - n) in H by lia. done.
Qed.

(** ** Reading a field *)

Abbreviation all_bytes l := (Forall (in_u 8) l).

Lemma position q : (q / 8, q mod 8) = (q / 8, q mod 8) /\ q = 8 * (q / 8) + q mod 8 /\ 0 <= q mod 8 < 8.
Proof. split; [done|]. div_lia. Qed.

Lemma end_same q pos bit n : q = 8 * pos + bit -> 0 <= bit -> 0 <= n -> bit + n < 8 ->
  (q + n) / 8 = pos /\ (q + n) mod 8 = bit + n.
Proof. intros. div_lia. Qed.

Lemma end_next q pos bit n : q = 8 * pos + bit -> bit + n = 8 ->
  (q + n) / 8 = pos + 1 /\ (q + n) mod 8 = 0.
Proof. intros. div_lia. Qed.

(** The field read so far, [value], with [n] more bits of which the rest is
    [x]. *)
Lemma value_more value n x :
  0 <= value -> 0 <= n -> 0 <= x < 2 ^ n -> (value + 1) * 2 ^ n <= 65536 ->
  u16 (Z.lor (u16 (Z.shiftl value n)) x) = value * 2 ^ n + x.
Proof.
  intros Hv Hn Hx Hb. rewrite (u16_small (Z.shiftl value n)) by (rewrite Z.shiftl_mul_pow2; nia).
  rewrite lor_shiftl_add by lia. apply u16_small. nia.
Qed.

Lemma byte_bits_length b : length (byte_bits b) = 8%nat.
Proof. apply to_bits_length. Qed.

(** Bits within the current byte. *)
Lemma byte_field l pre bs post pos bit :
  all_bytes l -> mem_bits l = pre ++ bs ++ post -> zlen pre = 8 * pos + bit ->
  0 <= bit < 8 -> 0 < zlen bs <= 8 - bit ->
  exists b, rd l pos = Ok b /\
    Z.shiftr (Z.land b (Z.shiftr 255 bit)) (8 - bit - zlen bs) = bit_num bs.
Proof.
  intros Hl E Hpre Hbit Hn.
  destruct (mem_bits_split l pre bs post pos bit E Hpre Hbit)
    as (la & b & lb & -> & Hla & _ & Ebs); [intros ->; unfold zlen in Hn; cbn in Hn; lia|].
  exists b. rewrite <- Hla, rd_app_here. split; [done|].
  pose proof Hl as [_ [Hb _]%Forall_cons]%Forall_app.
  rewrite read_byte by (done || lia). f_equal. rewrite to_nat_zlen.
  apply (f_equal (take (length bs))) in Ebs. rewrite take_app_length in Ebs.
  rewrite Ebs at 2. rewrite take_app_le; [done|].
  rewrite length_drop, byte_bits_length. unfold zlen in Hn. lia.
Qed.

(** The result of reading [bs] behind [pre]. *)
Definition reads (f : nat) : Prop := forall l pre bs post pos bit value,
  all_bytes l -> mem_bits l = pre ++ bs ++ post -> zlen pre = 8 * pos + bit ->
  0 <= bit < 8 -> 0 < zlen bs <= 8 * Z.of_nat f - bit ->
  0 <= value -> (value + 1) * 2 ^ zlen bs <= 65536 ->
  read_bits f l pos bit (zlen bs) value
    = Ok (value * 2 ^ zlen bs + bit_num bs, (zlen pre + zlen bs) / 8, (zlen pre + zlen bs) mod 8).

(** Over the end of the current byte. *)
Lemma read_over f l pre b1 b2 post pos bit value :
  reads f ->
  all_bytes l -> mem_bits l = pre ++ (b1 ++ b2) ++ post -> zlen pre = 8 * pos + bit ->
  0 <= bit < 8 -> zlen b1 = 8 - bit -> 0 < zlen b2 <= 8 * Z.of_nat f ->
  0 <= value -> (value + 1) * 2 ^ zlen (b1 ++ b2) <= 65536 ->
  read_bits (S f) l pos bit (zlen (b1 ++ b2)) value
    = Ok (value * 2 ^ zlen (b1 ++ b2) + bit_num (b1 ++ b2),
          (zlen pre + zlen (b1 ++ b2)) / 8, (zlen pre + zlen (b1 ++ b2)) mod 8).
Proof.
  intros IH Hl E Hpre Hbit H1 H2 Hv Hb. cbn [read_bits]. rewrite zlen_app in *.
  pose proof (bit_num_bound b1) as Hb1.
  destruct (byte_field l pre b1 (b2 ++ post) pos bit) as (b & -> & Hf); [done| |done..|lia|].
  { by rewrite E, <- app_assoc. }
  replace (8 - bit - zlen b1) with 0 in Hf by lia. rewrite Z.shiftr_0_r in Hf.
  rewrite res_ok_bind, Hf. rewrite (proj2 (Z.ltb_ge _ _)), (proj2 (Z.eqb_neq _ _)) by lia.
  rewrite Z.pow_add_r in Hb by lia. rewrite <- H1.
  replace (zlen b1 + zlen b2 - zlen b1) with (zlen b2) by lia.
  rewrite (proj2 (Z.ltb_lt _ _)), value_more by nia.
  rewrite (IH l (pre ++ b1) b2 post (pos + 1) 0); [|done| | |lia|lia|nia|nia].
  - rewrite bit_num_app, Z.pow_add_r, zlen_app, Z.add_assoc by lia.
    rewrite Z.mul_add_distr_r, <- Z.mul_assoc, <- !Z.add_assoc. done.
  - by rewrite E, <- !app_assoc.
  - rewrite zlen_app. lia.
Qed.

Lemma reads_ok f : reads f.
Proof.
  induction f as [|f IH]; intros l pre bs post pos bit value Hl E Hpre Hbit Hn Hv Hb; [lia|].
  destruct (Z.lt_ge_cases (8 - bit) (zlen bs)) as [Hgt|Hle].
  - destruct (list_split bs (8 - bit)) as (b1 & b2 & -> & H1); [lia|].
    apply (read_over f _ _ _ _ post); try done; rewrite zlen_app in *; lia.
  - pose proof (bit_num_bound bs) as Hbs. cbn [read_bits].
    destruct (byte_field l pre bs post pos bit) as (b & -> & Hf); [done..|lia|].
    rewrite res_ok_bind. destruct (Z.ltb_spec (zlen bs) (8 - bit)) as [Hlt|Hge].
    + rewrite Hf, value_more by lia.
      destruct (end_same (zlen pre) pos bit (zlen bs)) as [-> ->]; lia || done.
    + rewrite (proj2 (Z.eqb_eq _ _)) by lia.
      replace (8 - bit - zlen bs) with 0 in Hf by lia. rewrite Z.shiftr_0_r in Hf.
      rewrite Hf, value_more by lia.
      destruct (end_next (zlen pre) pos bit (zlen bs)) as [-> ->]; lia || done.
Qed.

Lemma read_field_ok l pre bs post pos bit :
  all_bytes l -> mem_bits l = pre ++ bs ++ post -> zlen pre = 8 * pos + bit ->
  0 <= bit < 8 -> 0 < zlen bs <= 16 ->
  rlc_am_read_bit_field l pos bit (zlen bs)
    = Ok (bit_num bs, (zlen pre + zlen bs) / 8, (zlen pre + zlen bs) mod 8).
Proof.
  intros Hl E Hpre Hbit Hn. unfold rlc_am_read_bit_field.
  rewrite (reads_ok 3 l pre bs post); [|done..|lia|lia|].
  - by rewrite Z.mul_0_l.
  - pose proof (Z.pow_le_mono_r 2 (zlen bs) 16). lia.
Qed.

(** ** Writing a field *)

Lemma rep_false_forall n (bs : list bool) :
  bs = replicate n false -> Forall (fun x => x = false) bs.
Proof. intros ->. by apply Forall_replicate. Qed.

Lemma replicate_drop (n k : nat) (x : bool) : drop k (replicate n x) = replicate (n - k) x.
Proof. apply drop_replicate. Qed.

(** [n] bits written within the current byte. *)
Lemma byte_write l pre n post pos bit v :
  all_bytes l -> mem_bits l = pre ++ replicate (Z.to_nat n) false ++ post ->
  zlen pre = 8 * pos + bit -> 0 <= bit < 8 -> 0 < n <= 8 - bit -> 0 <= v < 2 ^ n ->
  exists b l', rd l pos = Ok b /\
    wr l pos [u8 (Z.lor b (Z.shiftl v (8 - bit - n)))] = Ok l' /\ all_bytes l' /\
    length l' = length l /\ mem_bits l' = pre ++ to_bits (Z.to_nat n) v ++ post.
Proof.
  intros Hl E Hpre Hbit Hn Hv.
  destruct (mem_bits_split l pre _ post pos bit E Hpre Hbit)
    as (la & b & lb & -> & Hla & Epre & Ebs); [by destruct (Z.to_nat n) eqn:E0; [lia|]|].
  pose proof Hl as [Ha [Hb Hlb]%Forall_cons]%Forall_app.
  set (b' := u8 (Z.lor b (Z.shiftl v (8 - bit - n)))). exists b, (la ++ b' :: lb).
  rewrite <- Hla at 1 2. rewrite rd_app_here. split; [done|].
  split; [by apply (wr_app la [b] lb [b'])|].
  split; [apply Forall_app; split; [done|]; apply Forall_cons; split; [|done];
          by apply in_u_wrap|].
  split; [by rewrite !length_app|].
  pose proof (byte_bits_length b) as H8.
  assert (Hlen : (Z.to_nat n <= length (drop (Z.to_nat bit) (byte_bits b)))%nat)
    by (rewrite length_drop, H8; lia).
  rewrite mem_bits_app, mem_bits_cons. unfold b'. rewrite write_byte; [|done|lia|lia|done|].
  - rewrite Epre, <- !app_assoc. do 3 f_equal.
    apply (f_equal (drop (Z.to_nat n))) in Ebs.
    rewrite drop_app_length', drop_app_le in Ebs by (rewrite ?length_replicate; done).
    rewrite Ebs, drop_drop. done.
  - apply (f_equal (take (Z.to_nat n))) in Ebs.
    rewrite take_app_length', take_app_le in Ebs by (rewrite ?length_replicate; done).
    rewrite <- Ebs. by eapply rep_false_forall.
Qed.

(** The masks of the code. *)
Lemma mask_mod v k : 0 <= k <= 8 -> Z.land v (Z.shiftr 255 k) = v mod 2 ^ (8 - k).
Proof.
  intros Hk. rewrite Z.shiftr_div_pow2 by lia.
  assert (255 / 2 ^ k = 2 ^ (8 - k) - 1) as ->.
  { assert (k = 0 \/ k = 1 \/ k = 2 \/ k = 3 \/ k = 4 \/ k = 5 \/ k = 6 \/ k = 7 \/ k = 8)
      as [->|[->|[->|[->|[->|[->|[->|[->| ->]]]]]]]] by lia; reflexivity. }
  by apply land_ones_mod; lia.
Qed.

(** What a write leaves: [bs] in place of the cleared bits behind [pre]. *)
Definition written (l l' : list Z) (pre bs post : list bool) : Prop :=
  all_bytes l' /\ length l' = length l /\ mem_bits l' = pre ++ bs ++ post.

(** The last byte of a field: [v] has [n] bits, or the field starts the byte and
    the mask cuts [v]. *)
Lemma write_last f l pre n post pos bit v :
  all_bytes l -> mem_bits l = pre ++ replicate (Z.to_nat n) false ++ post ->
  zlen pre = 8 * pos + bit -> 0 <= bit < 8 -> 0 < n <= 8 - bit ->
  0 <= v -> v < 2 ^ n \/ bit = 0 ->
  exists l', write_bits (S f) l pos bit n v = Ok (l', (zlen pre + n) / 8, (zlen pre + n) mod 8) /\
    written l l' pre (to_bits (Z.to_nat n) v) post.
Proof.
  intros Hl E Hpre Hbit Hn Hv0 Hv.
  destruct (byte_write l pre n post pos bit (v mod 2 ^ n)) as (b & l' & Hrd & Hwr & Hl' & Hlen & E');
    [done..|apply Z.mod_pos_bound; lia|].
  replace (to_bits (Z.to_nat n) (v mod 2 ^ n)) with (to_bits (Z.to_nat n) v) in E'.
  2: { apply to_bits_mod. rewrite Z2Nat.id by lia. by rewrite Z.mod_mod by lia. }
  exists l'. split; [|done]. cbn [write_bits]. rewrite Hrd, res_ok_bind.
  destruct (Z.ltb_spec n (8 - bit)) as [Hlt|Hge].
  - assert (Z.land v (Z.shiftr 255 (8 - bit - n)) = v mod 2 ^ n) as ->.
    { destruct Hv as [Hv| ->].
      - rewrite mask_mod, !Z.mod_small; [done|lia| |lia].
        split; [lia|]. eapply Z.lt_le_trans; [done|]. apply Z.pow_le_mono_r; lia.
      - rewrite mask_mod by lia. do 2 f_equal. lia. }
    rewrite Hwr, res_ok_bind. destruct (end_same (zlen pre) pos bit n) as [-> ->]; lia || done.
  - assert (8 - bit = n) as Hnb by lia. rewrite Hnb, Z.eqb_refl.
    rewrite mask_mod by lia. replace (8 - (8 - n)) with n by lia.
    replace (8 - bit - n) with 0 in Hwr by lia. rewrite Z.shiftl_0_r in Hwr.
    rewrite Hwr, res_ok_bind. destruct (end_next (zlen pre) pos bit n) as [-> ->]; lia || done.
Qed.

Lemma write8_ok l pre n post pos bit v :
  all_bytes l -> mem_bits l = pre ++ replicate (Z.to_nat n) false ++ post ->
  zlen pre = 8 * pos + bit -> 0 <= bit < 8 -> 0 < n <= 8 -> 0 <= v < 2 ^ n ->
  exists l', rlc_am_write8_bit_field l pos bit n v
      = Ok (l', (zlen pre + n) / 8, (zlen pre + n) mod 8) /\
    written l l' pre (to_bits (Z.to_nat n) v) post.
Proof.
  intros Hl E Hpre Hbit Hn Hv. unfold rlc_am_write8_bit_field.
  rewrite u8_small by (pose proof (Z.pow_le_mono_r 2 n 8); lia).
  destruct (Z.lt_ge_cases (8 - bit) n) as [Hgt|Hle].
  2: { apply write_last; [done..|lia|lia|by left; lia]. }
  set (k := 8 - bit) in *. set (w := v / 2 ^ (n - k)).
  assert (Hw : 0 <= w < 2 ^ k).
  { unfold w. split; [apply Z.div_pos; lia|]. apply Z.div_lt_upper_bound; [lia|].
    rewrite <- Z.pow_add_r by lia. replace (n - k + k) with n by lia. lia. }
  assert (Esplit : mem_bits l = pre ++ replicate (Z.to_nat k) false
    ++ (replicate (Z.to_nat (n - k)) false ++ post)).
  { rewrite E, (app_assoc (replicate _ _)), <- replicate_add. do 3 f_equal. lia. }
  destruct (byte_write l pre k _ pos bit w Hl Esplit Hpre Hbit) as (b & l1 & Hrd & Hwr & Hl1 & Hlen & E1);
    [unfold k; lia|done|].
  replace (8 - bit - k) with 0 in Hwr by (unfold k; lia). rewrite Z.shiftl_0_r in Hwr.
  cbn [write_bits]. fold k. rewrite Hrd, res_ok_bind.
  rewrite (proj2 (Z.ltb_ge _ _)), (proj2 (Z.eqb_neq _ _)) by lia.
  rewrite (Z.shiftr_div_pow2 v (n - k)) by lia. fold w. rewrite Hwr, res_ok_bind.
  rewrite (proj2 (Z.ltb_lt _ _)) by lia.
  destruct (write_last 0 l1 (pre ++ to_bits (Z.to_nat k) w) (n - k) post (pos + 1) 0 v)
    as (l2 & E2 & Hl2 & Hlen2 & Em2); [done|by rewrite E1, <- app_assoc| |lia|lia|lia|by right|].
  { rewrite zlen_app. unfold zlen at 2. rewrite to_bits_length. lia. }
  cbn [write_bits] in E2. rewrite E2. exists l2. split.
  - rewrite zlen_app. unfold zlen at 2 4. rewrite to_bits_length, Z2Nat.id by lia.
    do 3 f_equal; [f_equal|]; lia.
  - split; [done|]. split; [congruence|]. rewrite Em2, <- app_assoc. f_equal.
    rewrite app_assoc. f_equal. replace (Z.to_nat n) with (Z.to_nat k + Z.to_nat (n - k))%nat by lia.
    rewrite to_bits_app. do 2 f_equal. unfold w. f_equal. f_equal. lia.
Qed.

Lemma write16_ok l pre n post pos bit v :
  all_bytes l -> mem_bits l = pre ++ replicate (Z.to_nat n) false ++ post ->
  zlen pre = 8 * pos + bit -> 0 <= bit < 8 -> 0 < n <= 16 -> 0 <= v < 2 ^ n ->
  exists l', rlc_am_write16_bit_field l pos bit n v
      = Ok (l', (zlen pre + n) / 8, (zlen pre + n) mod 8) /\
    written l l' pre (to_bits (Z.to_nat n) v) post.
Proof.
  intros Hl E Hpre Hbit Hn Hv. unfold rlc_am_write16_bit_field.
  rewrite (proj2 (Z.leb_le _ _)) by lia. cbn [res_guard]. rewrite res_ok_bind.
  rewrite u16_small by (pose proof (Z.pow_le_mono_r 2 n 16); lia).
  assert (Hlow : Z.land v 255 = v mod 2 ^ 8) by (apply (land_ones_mod v 8); lia).
  rewrite Hlow. destruct (Z.ltb_spec 8 n) as [Hgt|Hle].
  2: { rewrite Z.mod_small by (pose proof (Z.pow_le_mono_r 2 n 8); lia).
       apply write8_ok; [done..|lia|done]. }
  rewrite Z.shiftr_div_pow2 by lia. set (k := n - 8) in *. set (w := v / 2 ^ 8).
  assert (Hw : 0 <= w < 2 ^ k).
  { unfold w. split; [apply Z.div_pos; lia|]. apply Z.div_lt_upper_bound; [lia|].
    rewrite <- Z.pow_add_r by lia. replace (8 + k) with n by lia. lia. }
  assert (Esplit : mem_bits l = pre ++ replicate (Z.to_nat k) false
    ++ (replicate (Z.to_nat 8) false ++ post)).
  { rewrite E, (app_assoc (replicate _ _)), <- replicate_add. do 3 f_equal. lia. }
  destruct (write8_ok l pre k _ pos bit w Hl Esplit Hpre Hbit) as (l1 & -> & Hl1 & Hlen & E1);
    [lia|done|].
  rewrite res_ok_bind. assert (Hk : zlen (to_bits (Z.to_nat k) w) = k)
    by (unfold zlen; rewrite to_bits_length; lia).
  destruct (write8_ok l1 (pre ++ to_bits (Z.to_nat k) w) 8 post
    ((zlen pre + k) / 8) ((zlen pre + k) mod 8) (v mod 2 ^ 8)) as (l2 & -> & Hl2 & Hlen2 & E2).
  { done. }
  { by rewrite E1, <- app_assoc. }
  { rewrite zlen_app, Hk. div_lia. }
  { div_lia. }
  { lia. }
  { apply Z.mod_pos_bound. lia. }
  exists l2. rewrite zlen_app, Hk. split; [do 3 f_equal; [f_equal|]; lia|].
  split; [done|]. split; [congruence|]. rewrite E2, <- app_assoc. f_equal.
  rewrite app_assoc. f_equal.
  replace (Z.to_nat n) with (Z.to_nat k + 8)%nat by lia. rewrite to_bits_app. f_equal.
  apply to_bits_mod. by rewrite Z.mod_mod.
Qed.

(** ** Writers and readers

    What writes the bits [bs] wherever the memory is cleared, and what reads
    [v] from the bits [bs] wherever they are. *)

Definition writer := list Z -> Z -> Z -> res (list Z * Z * Z).
Definition reader A := list Z -> Z -> Z -> res (A * Z * Z).

Definition writes (w : writer) (bs : list bool) : Prop := forall l pre post,
  all_bytes l -> mem_bits l = pre ++ replicate (length bs) false ++ post ->
  exists l', w l (zlen pre / 8) (zlen pre mod 8)
      = Ok (l', zlen (pre ++ bs) / 8, zlen (pre ++ bs) mod 8) /\
    written l l' pre bs post.

Definition reads_as {A} (r : reader A) (bs : list bool) (v : A) : Prop := forall l pre post,
  all_bytes l -> mem_bits l = pre ++ bs ++ post ->
  r l (zlen pre / 8) (zlen pre mod 8)
    = Ok (v, zlen (pre ++ bs) / 8, zlen (pre ++ bs) mod 8).

Lemma zlen_to_bits n v : zlen (to_bits n v) = Z.of_nat n.
Proof. unfold zlen. by rewrite to_bits_length. Qed.

Lemma writes_nothing : writes (fun l pos bit => Ok (l, pos, bit)) [].
Proof. intros l pre post Hl E. exists l. rewrite app_nil_r. by repeat split. Qed.

Lemma writes_bind (w1 w2 : writer) b1 b2 :
  writes w1 b1 -> writes w2 b2 ->
  writes (fun l pos bit => '(l, pos, bit) ← w1 l pos bit; w2 l pos bit) (b1 ++ b2).
Proof.
  intros H1 H2 l pre post Hl E. rewrite length_app, replicate_add, <- app_assoc in E.
  destruct (H1 l pre _ Hl E) as (l1 & E1 & Hl1 & Hn1 & Em1).
  rewrite app_assoc in Em1. destruct (H2 l1 _ _ Hl1 Em1) as (l2 & E2 & Hl2 & Hn2 & Em2).
  rewrite <- !app_assoc in *. exists l2. rewrite E1, res_ok_bind. split; [done|].
  split; [done|]. split; [congruence|]. by rewrite Em2, <- app_assoc.
Qed.

Lemma writes8 n v : 0 < Z.of_nat n <= 8 -> 0 <= v < 2 ^ Z.of_nat n ->
  writes (fun l pos bit => rlc_am_write8_bit_field l pos bit (Z.of_nat n) v) (to_bits n v).
Proof.
  intros Hn Hv l pre post Hl E. rewrite to_bits_length in E.
  destruct (write8_ok l pre (Z.of_nat n) post (zlen pre / 8) (zlen pre mod 8) v)
    as (l' & E' & H); [done|by rewrite Nat2Z.id|div_lia|div_lia|done|done|].
  rewrite Nat2Z.id in H. exists l'. by rewrite zlen_app, zlen_to_bits.
Qed.

Lemma writes16 n v : 0 < Z.of_nat n <= 16 -> 0 <= v < 2 ^ Z.of_nat n ->
  writes (fun l pos bit => rlc_am_write16_bit_field l pos bit (Z.of_nat n) v) (to_bits n v).
Proof.
  intros Hn Hv l pre post Hl E. rewrite to_bits_length in E.
  destruct (write16_ok l pre (Z.of_nat n) post (zlen pre / 8) (zlen pre mod 8) v)
    as (l' & E' & H); [done|by rewrite Nat2Z.id|div_lia|div_lia|done|done|].
  rewrite Nat2Z.id in H. exists l'. by rewrite zlen_app, zlen_to_bits.
Qed.

Lemma reads_ret {A} (v : A) : reads_as (fun _ pos bit => Ok (v, pos, bit)) [] v.
Proof. intros l pre post Hl E. by rewrite app_nil_r. Qed.

Lemma reads_bind {A B} (r : reader A) (k : A -> reader B) b1 b2 v w :
  reads_as r b1 v -> reads_as (k v) b2 w ->
  reads_as (fun l pos bit => '(v, pos, bit) ← r l pos bit; k v l pos bit) (b1 ++ b2) w.
Proof.
  intros H1 H2 l pre post Hl E. rewrite <- app_assoc in E.
  rewrite (H1 l pre (b2 ++ post)), res_ok_bind by done. rewrite app_assoc in E.
  by rewrite (H2 l _ post), <- app_assoc by done.
Qed.

Lemma reads_field n v : 0 < Z.of_nat n <= 16 -> 0 <= v < 2 ^ Z.of_nat n ->
  reads_as (fun l pos bit => rlc_am_read_bit_field l pos bit (Z.of_nat n)) (to_bits n v) v.
Proof.
  intros Hn Hv l pre post Hl E. rewrite <- (zlen_to_bits n v) at 1.
  rewrite (read_field_ok l pre (to_bits n v) post); [|done..|div_lia|div_lia|by rewrite zlen_to_bits].
  by rewrite to_bits_small, zlen_app.
Qed.

(** ** The bits of a STATUS PDU *)

Definition nack_bits (n : nack_sn) : list bool :=
  to_bits 10 (nack_sn_ n) ++ to_bits 1 (nack_e1 n) ++ to_bits 1 (nack_e2 n)
  ++ (if 0 <? nack_e2 n then to_bits 15 (so_start n) ++ to_bits 15 (so_end n) else []).

Definition nacks_bits (ns : list nack_sn) : list bool := concat (nack_bits <$> ns).

Definition status_tail (i : control_pdu_info) : list bool :=
  to_bits 10 (ack_sn i) ++ to_bits 1 (if 0 <? num_nack i then 1 else 0)
  ++ nacks_bits (nack_list i).

(** D/C and CPT come first. *)
Definition status_bits (i : control_pdu_info) : list bool := to_bits 4 0 ++ status_tail i.

(** The entries the format can hold. *)
Definition nack_ok (n : nack_sn) : Prop :=
  0 <= nack_sn_ n < 1024 /\ 0 <= nack_e1 n < 2 /\
  ((nack_e2 n = 1 /\ 0 <= so_start n < 2 ^ 15 /\ 0 <= so_end n < 2 ^ 15)
   \/ (nack_e2 n = 0 /\ so_start n = 0 /\ so_end n = 0x7FFF)).

(** E1 says that another entry follows. *)
Fixpoint e1_chain (ns : list nack_sn) : Prop :=
  match ns with
  | [] => True
  | [n] => nack_e1 n = 0
  | n :: ns => nack_e1 n = 1 /\ e1_chain ns
  end.

Record info_ok (i : control_pdu_info) : Prop := {
  ok_d_c : d_c i = 0;
  ok_cpt : cpt i = 0;
  ok_ack : 0 <= ack_sn i < 1024;
  ok_e1 : info_e1 i = if 0 <? num_nack i then 1 else 0;
  ok_nacks : Forall nack_ok (nack_list i);
  ok_chain : e1_chain (nack_list i);
  ok_count : num_nack i <= 1023
}.

Lemma writes_nack n : nack_ok n -> writes (write_nack n) (nack_bits n).
Proof.
  intros (Hsn & H1 & H2). unfold nack_bits.
  apply (writes_bind (fun l pos bit => rlc_am_write16_bit_field l pos bit 10 (nack_sn_ n)));
    [apply (writes16 10); lia|].
  apply (writes_bind (fun l pos bit => rlc_am_write8_bit_field l pos bit 1 (nack_e1 n)));
    [apply (writes8 1); lia|].
  apply (writes_bind (fun l pos bit => rlc_am_write8_bit_field l pos bit 1 (nack_e2 n)));
    [apply (writes8 1); lia|].
  destruct (0 <? nack_e2 n) eqn:E2; [|apply writes_nothing].
  apply (writes_bind (fun l pos bit => rlc_am_write16_bit_field l pos bit 15 (so_start n))
           (fun l pos bit => rlc_am_write16_bit_field l pos bit 15 (so_end n)));
    apply (writes16 15); lia.
Qed.

Lemma writes_nacks ns : Forall nack_ok ns -> writes (write_nacks ns) (nacks_bits ns).
Proof.
  induction 1 as [|n ns Hn _ IH]; [apply writes_nothing|].
  apply (writes_bind (write_nack n) (write_nacks ns)); [by apply writes_nack|done].
Qed.

Lemma reads_nack n : nack_ok n -> reads_as read_nack (nack_bits n) n.
Proof.
  intros (Hsn & H1 & H2). unfold nack_bits, read_nack.
  apply (reads_bind (fun l pos bit => rlc_am_read_bit_field l pos bit 10) _ _ _ (nack_sn_ n));
    [apply (reads_field 10); lia|].
  apply (reads_bind (fun l pos bit => rlc_am_read_bit_field l pos bit 1) _ _ _ (nack_e1 n));
    [apply (reads_field 1); lia|].
  apply (reads_bind (fun l pos bit => rlc_am_read_bit_field l pos bit 1) _ _ _ (nack_e2 n));
    [apply (reads_field 1); lia|].
  destruct n as [sn e1 e2 s1 s2]. cbn [nack_sn_ nack_e1 nack_e2 so_start so_end] in *.
  destruct H2 as [(-> & Hs & He)|(-> & -> & ->)]; [|apply (reads_ret (NackSn _ _ _ _ _))].
  apply (reads_bind (fun l pos bit => rlc_am_read_bit_field l pos bit 15) _ _ _ s1);
    [apply (reads_field 15); lia|].
  rewrite <- (app_nil_r (to_bits 15 s2)).
  apply (reads_bind (fun l pos bit => rlc_am_read_bit_field l pos bit 15)
           (fun so_end _ pos bit => Ok (NackSn sn e1 1 s1 so_end, pos, bit)) _ _ s2);
    [apply (reads_field 15); lia|apply (reads_ret (NackSn _ _ _ _ _))].
Qed.

Lemma reads_nacks k ns :
  Forall nack_ok ns -> e1_chain ns -> ns <> [] -> (length ns <= S k)%nat ->
  reads_as (read_nacks k) (nacks_bits ns) (0, ns).
Proof.
  revert ns. induction k as [|k IH]; intros [|n ns] HF Hc Hne Hk; [done| |done|];
    apply Forall_cons in HF as [Hn Hns]; cbn [length] in Hk.
  all: change (nacks_bits (n :: ns)) with (nack_bits n ++ nacks_bits ns).
  - destruct ns; [|cbn [length] in Hk; lia]. cbn [e1_chain] in Hc.
    apply (reads_bind read_nack (fun nack l pos bit =>
      if negb (truth (nack_e1 nack)) then Ok (0, [nack], pos, bit) else Ok (-2, [nack], pos, bit))
      _ _ n); [by apply reads_nack|]. rewrite Hc. apply (reads_ret (0, [n])).
  - apply (reads_bind read_nack (fun nack l pos bit =>
      if negb (truth (nack_e1 nack)) then Ok (0, [nack], pos, bit)
      else '(rc, nacks, pos, bit) ← read_nacks k l pos bit; Ok (rc, nack :: nacks, pos, bit))
      _ _ n); [by apply reads_nack|].
    destruct ns as [|n' ns]; [cbn [e1_chain] in Hc; rewrite Hc; apply (reads_ret (0, [n]))|].
    destruct Hc as [-> Hc]. change (negb (truth 1)) with false.
    intros l pre post Hl E. rewrite (IH (n' :: ns) Hns Hc) with (post := post); [done|done| |done|done].
    cbn [length] in *. lia.
Qed.

(** ** The header *)

Lemma rd_2 (b1 b2 : Z) lb : rd (b1 :: b2 :: lb) 0 = Ok b1 /\ rd (b1 :: b2 :: lb) 1 = Ok b2.
Proof. split; [apply (rd_app_here [])|apply (rd_app_next [])]. Qed.

Definition header_ok (b : Z) : bool :=
  let bs := byte_bits b in
  forallb (fun '(x, y) => Z.eqb x y)
    [(Z.shiftr b 7, bit_num (take 1 bs)); (Z.land (Z.shiftr b 4) 7, bit_num (take 3 (drop 1 bs)));
     (u16 (Z.shiftl (Z.land b 15) 6), bit_num (drop 4 bs) * 64);
     (Z.land (Z.shiftr b 2) 63, bit_num (take 6 bs));
     (Z.land (Z.shiftr b 1) 1, bit_num (take 1 (drop 6 bs)))].

Lemma header_fields b : in_u 8 b ->
  let bs := byte_bits b in
  Z.shiftr b 7 = bit_num (take 1 bs) /\ Z.land (Z.shiftr b 4) 7 = bit_num (take 3 (drop 1 bs)) /\
  u16 (Z.shiftl (Z.land b 15) 6) = bit_num (drop 4 bs) * 64 /\
  Z.land (Z.shiftr b 2) 63 = bit_num (take 6 bs) /\
  Z.land (Z.shiftr b 1) 1 = bit_num (take 1 (drop 6 bs)).
Proof.
  intros Hb. assert (H : header_ok b = true) by (by apply byte_forall; [vm_compute|]).
  unfold header_ok in H. cbv zeta in *. cbn [forallb] in H.
  rewrite !andb_true_iff, !Z.eqb_eq in H. tauto.
Qed.

(** The parser behind the header of a STATUS PDU. *)
Definition header_info (ack e1 : Z) : control_pdu_info := ControlPduInfo 0 0 ack e1 [].

Lemma parse_status_header l total ack e rest :
  all_bytes l -> 0 <= ack < 1024 -> 0 <= e < 2 -> rest <> [] ->
  mem_bits l = to_bits 4 0 ++ to_bits 10 ack ++ to_bits 1 e ++ rest ->
  rlc_am_get_control_pdu_infos l total =
    if truth e then
      '(rc, nacks, pos, bit) ← read_nacks 1022 l 1 7;
      Ok (rc, (header_info ack e) <| nack_list := nacks |>, s32 (total - (pos + (bit + 7) / 8)))
    else Ok (0, header_info ack e, s32 (total - 2)).
Proof.
  intros Hl Hack He Hrest E. destruct rest as [|x rest]; [done|].
  pose proof (f_equal length E) as Hlen. rewrite mem_bits_length in Hlen.
  cbn [app to_bits length] in Hlen.
  destruct l as [|b1 [|b2 lb]]; [cbn [length] in Hlen; lia..|].
  apply Forall_cons in Hl as [Hb1 [Hb2 _]%Forall_cons].
  change (to_bits 10 ack) with (to_bits (4 + 6) ack) in E.
  rewrite (to_bits_app 4 6 ack), !mem_bits_cons in E.
  assert (E' : byte_bits b1 ++ byte_bits b2 ++ mem_bits lb
    = (to_bits 4 0 ++ to_bits 4 (ack / 64)) ++ (to_bits 6 ack ++ to_bits 1 e ++ [x]) ++ rest)
    by (rewrite E, <- !app_assoc; reflexivity).
  apply app_inj_1 in E' as [E1 E2]; [|done]. apply app_inj_1 in E2 as [E2 _]; [|done].
  destruct (header_fields b1 Hb1) as (H1 & H2 & H3 & _ & _).
  destruct (header_fields b2 Hb2) as (_ & _ & _ & H4 & H5).
  assert (Ed : Z.shiftr b1 7 = 0) by (rewrite H1, E1; reflexivity).
  assert (Ec : Z.land (Z.shiftr b1 4) 7 = 0) by (rewrite H2, E1; reflexivity).
  assert (Ea : Z.lor (Z.land (Z.shiftr b2 2) 63) (u16 (Z.shiftl (Z.land b1 15) 6)) = ack).
  { rewrite H3, H4, E1, E2. change (drop 4 _) with (to_bits 4 (ack / 64)).
    change (take 6 _) with (to_bits 6 ack). rewrite !bit_num_to_bits.
    change (2 ^ Z.of_nat 4) with 16. change (2 ^ Z.of_nat 6) with (2 ^ 6).
    rewrite Z.lor_comm, <- (Z.shiftl_mul_pow2 _ 6), lor_shiftl_add by div_lia.
    rewrite (Z.mod_small (ack / 64)) by div_lia. div_lia. }
  assert (Ee : Z.land (Z.shiftr b2 1) 1 = e).
  { rewrite H5, E2. change (take 1 _) with (to_bits 1 e). by apply to_bits_small. }
  unfold rlc_am_get_control_pdu_infos. destruct (rd_2 b1 b2 lb) as [-> ->].
  rewrite !res_ok_bind, Ed. cbn -[rd read_nacks Z.shiftr Z.land Z.lor]. rewrite Ec.
  cbn -[rd read_nacks Z.shiftr Z.land Z.lor]. rewrite Ea, Ee. done.
Qed.

(** ** The whole PDU *)

Lemma status_bits_split i :
  status_bits i = to_bits 4 0 ++ to_bits 10 (ack_sn i)
    ++ to_bits 1 (if 0 <? num_nack i then 1 else 0) ++ nacks_bits (nack_list i).
Proof. done. Qed.

(** The bytes of a STATUS PDU. *)
Definition status_len (i : control_pdu_info) : Z := (zlen (status_bits i) + 7) / 8.

Lemma mem_bits_zeros n : mem_bits (replicate n 0) = replicate (8 * n) false.
Proof.
  induction n as [|n IH]; [done|]. cbn [replicate]. rewrite mem_bits_cons, IH.
  replace (8 * S n)%nat with (8 + 8 * n)%nat by lia. by rewrite replicate_add.
Qed.

Lemma bytes_up n : (n / 8 + if 0 <? n mod 8 then 1 else 0) = (n + 7) / 8.
Proof. destruct (Z.ltb_spec 0 (n mod 8)); div_lia. Qed.

(** The writer, on cleared memory that is long enough. *)
Lemma write_status_ok i n :
  info_ok i -> zlen (status_bits i) <= 8 * Z.of_nat n ->
  exists l, rlc_am_write_status_pdu i (replicate n 0) = Ok (l, status_len i) /\
    all_bytes l /\ length l = n /\
    mem_bits l = status_bits i ++ replicate (8 * n - length (status_bits i)) false.
Proof.
  intros [_ _ Hack _ Hn _ _] Hlen.
  assert (Hw : writes (fun l pos bit =>
    '(l, pos, bit) ← rlc_am_write16_bit_field l pos bit 10 (ack_sn i);
    '(l, pos, bit) ← rlc_am_write8_bit_field l pos bit 1 (if 0 <? num_nack i then 1 else 0);
    write_nacks (nack_list i) l pos bit) (status_tail i)).
  { apply (writes_bind (fun l pos bit => rlc_am_write16_bit_field l pos bit 10 (ack_sn i)));
      [apply (writes16 10); lia|].
    apply (writes_bind (fun l pos bit =>
      rlc_am_write8_bit_field l pos bit 1 (if 0 <? num_nack i then 1 else 0)));
      [apply (writes8 1); [lia|by case_match]|by apply writes_nacks]. }
  set (k := (8 * n - length (status_bits i))%nat).
  destruct (Hw (replicate n 0) (to_bits 4 0) (replicate k false)) as (l & E & Hl & Hll & Em).
  { by apply Forall_replicate. }
  { rewrite mem_bits_zeros. change (to_bits 4 0) with (replicate 4 false).
    rewrite <- !replicate_add. f_equal. subst k.
    unfold zlen, status_bits in *. rewrite length_app, to_bits_length in *. lia. }
  exists l. split; [|split; [done|split; [by rewrite length_replicate in Hll|]]].
  - unfold rlc_am_write_status_pdu.
    change (zlen (to_bits 4 0) / 8) with 0 in E. change (zlen (to_bits 4 0) mod 8) with 4 in E.
    fold (status_bits i) in E. unfold status_len. rewrite <- bytes_up.
    destruct (rlc_am_write16_bit_field _ 0 4 10 _) as [[[l1 p1] q1]|]; [|discriminate E].
    cbn [mbind res_bind] in E |- *. destruct (rlc_am_write8_bit_field l1 p1 q1 1 _) as [[[l2 p2] q2]|];
      [|discriminate E]. cbn [mbind res_bind] in E |- *. rewrite E.
    cbn [mbind res_bind]. destruct (0 <? zlen (status_bits i) mod 8); by rewrite ?Z.add_0_r.
  - by rewrite Em, app_assoc.
Qed.

(** The parser, on memory that starts with a STATUS PDU. *)
Lemma parse_status_ok i l rest total :
  info_ok i -> all_bytes l -> mem_bits l = status_bits i ++ rest ->
  rlc_am_get_control_pdu_infos l total = Ok (0, i, s32 (total - status_len i)).
Proof.
  intros [Hdc Hcpt Hack He1 Hn Hc Hk] Hl E.
  assert (Hrest : nacks_bits (nack_list i) ++ rest <> []).
  { apply (f_equal length) in E as E0. rewrite mem_bits_length, status_bits_split in E0.
    intros H0. rewrite <- !app_assoc, H0, !length_app, !to_bits_length in E0. cbn in E0. lia. }
  rewrite status_bits_split, <- !app_assoc in E.
  assert (He : 0 <= (if 0 <? num_nack i then 1 else 0) < 2) by (by case_match).
  rewrite (parse_status_header l total _ _ (nacks_bits (nack_list i) ++ rest) Hl Hack He);
    [|done..].
  destruct i as [dc cp ack e1 ns]. cbn [d_c cpt ack_sn info_e1 nack_list] in *. subst dc cp.
  unfold status_len. rewrite status_bits_split, !zlen_app, !zlen_to_bits.
  unfold num_nack in *. cbn [nack_list ack_sn] in *.
  destruct ns as [|n ns]; [by subst e1|].
  rewrite (proj2 (Z.ltb_lt 0 _)) in * by (rewrite zlen_cons; pose proof (zlen_nonneg ns); lia).
  change (truth 1) with true. cbn [andb].
  pose proof (reads_nacks 1022 (n :: ns) Hn Hc ltac:(done)) as Hr.
  specialize (Hr ltac:(unfold zlen in Hk; lia) l
    (to_bits 4 0 ++ to_bits 10 ack ++ to_bits 1 1) rest Hl).
  change (zlen (_ ++ _ ++ to_bits 1 1) / 8) with 1 in Hr.
  change (zlen (_ ++ _ ++ to_bits 1 1) mod 8) with 7 in Hr.
  rewrite Hr, res_ok_bind by (by rewrite E, <- !app_assoc).
  unfold header_info. cbn [update]. subst e1. do 3 f_equal.
  rewrite !zlen_app, !zlen_to_bits. div_lia.
Qed.

(** C22.  What [rlc_am_write_status_pdu] writes into cleared memory,
    [rlc_am_get_control_pdu_infos] reads back: the acknowledged SN and all the
    entries, with the offsets of those that have some, and it takes from the
    size exactly the bytes written. *)
Theorem am_status_roundtrip i n total :
  info_ok i -> status_len i <= Z.of_nat n ->
  exists l, rlc_am_write_status_pdu i (replicate n 0) = Ok (l, status_len i) /\
    length l = n /\
    rlc_am_get_control_pdu_infos l total = Ok (0, i, s32 (total - status_len i)).
Proof.
  intros Hi Hn. destruct (write_status_ok i n Hi) as (l & Ew & Hl & Hlen & Em).
  { unfold status_len in Hn. div_lia. }
  exists l. split; [done|]. split; [done|]. by eapply parse_status_ok.
Qed.
