(* ===== verification/RlcAmRetransmit.v ===== *)
(** RLC AM v9.3.0: the parts of a PDU to be retransmitted
    ([rlc_am_segments_holes.c]), the acknowledgement of PDUs
    ([rlc_am_retransmit.c]) and the processing of a STATUS PDU
    ([rlc_am_status_report.c]). *)
From S2P Require Import Prelude.
From S2P Require Import RlcAmEntity.
From S2P Require Import RlcAmStatus.

Local Open Scope Z_scope.
Local Open Scope c_scope.

(** ** [rlc_am_segments_holes.c]

    On [pdu_retrans_buffer[snP]]. *)

Definition hole_read (p : am_tx_pdu) (i : Z) : res (Z * Z) := rd (holes p) i.
Definition hole_write (p : am_tx_pdu) (i : Z) (h : Z * Z) : res am_tx_pdu :=
  hs ← wr (holes p) i [h]; Ok (p <| holes := hs |>).

Definition rlc_am_clear_holes (p : am_tx_pdu) : am_tx_pdu := p <| num_holes := 0 |>.

Fixpoint shift_down (fuel : nat) (i : Z) (p : am_tx_pdu) : res am_tx_pdu :=
  match fuel with
  | O => Err EFuel
  | S fuel =>
      if i <? num_holes p - 1 then
        h ← hole_read p (i + 1);
        p ← hole_write p i h;
        shift_down fuel (i + 1) p
      else Ok p
  end.

Definition rlc_am_shift_down_holes (p : am_tx_pdu) (indexP : Z) : res am_tx_pdu :=
  p ← shift_down 256 indexP p;
  Ok (p <| num_holes := u8 (num_holes p - 1) |>).

(** [hole[i] = hole[i-1]] for [i] down to [last]. *)
Fixpoint shift_up (fuel : nat) (i last : Z) (p : am_tx_pdu) : res am_tx_pdu :=
  match fuel with
  | O => Err EFuel
  | S fuel =>
      if last <=? i then
        h ← hole_read p (i - 1);
        p ← hole_write p i h;
        shift_up fuel (i - 1) last p
      else Ok p
  end.

Definition rlc_am_shift_up_holes (p : am_tx_pdu) (indexP : Z) : res am_tx_pdu :=
  p ← shift_up 257 (num_holes p) (indexP + 1) p;
  let p := p <| num_holes := u8 (num_holes p + 1) |> in
  _ ← res_guard (num_holes p <? RLC_AM_MAX_HOLES_REPORT_PER_PDU) EAssert;
  Ok p.

(** The lowest and the highest offset, from the holes that are left. *)
Definition nack_bounds (p : am_tx_pdu) : res am_tx_pdu :=
  if num_holes p =? 0 then Ok (p <| nack_so_start := 0 |> <| nack_so_stop := 0x7FFF |>)
  else
    h ← hole_read p 0;
    h' ← hole_read p (num_holes p - 1);
    Ok (p <| nack_so_start := fst h |> <| nack_so_stop := snd h' |>).

(** The [for] loop of [rlc_am_remove_hole], from [i] on; the flag says that it
    returned. *)
Fixpoint remove_holes (fuel : nat) (i so_startP so_stopP : Z) (p : am_tx_pdu)
    : res (bool * am_tx_pdu) :=
  match fuel with
  | O => Err EFuel
  | S fuel =>
      if i <? num_holes p then
        h ← hole_read p i;
        if so_startP <=? fst h then
          if snd h <=? so_stopP then
            p ← rlc_am_shift_down_holes p i;
            remove_holes fuel i so_startP so_stopP p
          else
            p ← hole_write p i (so_stopP, snd h);
            p ← nack_bounds p;
            Ok (true, p)
        else if so_startP <=? snd h then
          if so_stopP <? snd h then
            p ← rlc_am_shift_up_holes p (i + 1);
            p ← hole_write p (i + 1) (s32 (so_startP + 1), snd h);
            p ← hole_write p i (fst h, s32 (so_startP - 1));
            remove_holes fuel (i + 1) so_startP so_stopP p
          else
            p ← hole_write p i (fst h, so_startP);
            remove_holes fuel (i + 1) so_startP so_stopP p
        else remove_holes fuel (i + 1) so_startP so_stopP p
      else Ok (false, p)
  end.

Definition rlc_am_remove_hole (p : am_tx_pdu) (so_startP so_stopP : Z) : res am_tx_pdu :=
  _ ← res_guard (so_startP <=? so_stopP) EAssert;
  '(returned, p) ←
    (if num_holes p =? 0 then
       _ ← res_guard (so_startP =? nack_so_start p) EAssert;
       _ ← res_guard (so_stopP <=? nack_so_stop p) EAssert;
       let p := p <| nack_so_start := s32 (so_stopP + 1) |> in
       Ok (false,
           if nack_so_stop p <=? nack_so_start p
           then p <| nack_so_start := 0 |> <| nack_so_stop := 0x7FFF |> else p)
     else
       '(returned, p) ← remove_holes 512 0 so_startP so_stopP p;
       if (returned : bool) then Ok (true, p)
       else p ← nack_bounds p; Ok (false, p));
  if (returned : bool) then Ok p
  else
    _ ← res_guard (nack_so_start p <? payload_size p) EAssert;
    Ok p.

(** The offsets of the next part to retransmit. *)
Definition rlc_am_get_next_hole (p : am_tx_pdu) : res (Z * Z) :=
  if num_holes p =? 0 then Ok (nack_so_start p, nack_so_stop p) else hole_read p 0.

(** The [while] loop of [rlc_am_add_hole]: the index of the first hole behind
    [so_stopP], or [num_holes]. *)
Fixpoint hole_behind (fuel : nat) (p : am_tx_pdu) (so_stopP i : Z) : res Z :=
  match fuel with
  | O => Err EFuel
  | S fuel =>
      if i <? num_holes p then
        h ← hole_read p i;
        if so_stopP <? fst h then Ok i else hole_behind fuel p so_stopP (i + 1)
      else Ok i
  end.

(** The asserts at the end of [rlc_am_add_hole]. *)
Definition hole_asserts (p : am_tx_pdu) : res am_tx_pdu :=
  _ ← res_guard (nack_so_start p <? payload_size p) EAssert;
  _ ← res_guard (num_holes p <? RLC_AM_MAX_HOLES_REPORT_PER_PDU) EAssert;
  Ok p.

Definition rlc_am_add_hole (p : am_tx_pdu) (so_startP so_stopP : Z) : res am_tx_pdu :=
  _ ← res_guard (so_startP <=? so_stopP) EAssert;
  _ ← res_guard (so_startP <? 0x7FFF) EAssert;
  _ ← res_guard (so_stopP <=? 0x7FFF) EAssert;
  if (so_startP =? 0) && ((so_stopP =? 0x7FFF) || (so_stopP =? payload_size p - 1)) then
    let p := p <| num_holes := 0 |> <| nack_so_start := so_startP |>
               <| nack_so_stop := so_stopP |> in
    _ ← res_guard (nack_so_start p <? payload_size p) EAssert;
    Ok p
  else
    let so_stopP := if so_stopP =? 0x7FFF then s32 (payload_size p - 1) else so_stopP in
    if num_holes p =? 0 then
      p ← hole_write p 0 (so_startP, so_stopP);
      let p := p <| num_holes := 1 |> <| nack_so_start := so_startP |>
                 <| nack_so_stop := so_stopP |> in
      _ ← res_guard (nack_so_start p <? payload_size p) EAssert;
      Ok p
    else
      i ← hole_behind 256 p so_stopP 0;
      if i <? num_holes p then
        _ ← res_guard (num_holes p <? RLC_AM_MAX_HOLES_REPORT_PER_PDU) EAssert;
        _ ← (if 0 <? i
             then h ← hole_read p (i - 1); res_guard (snd h <? so_startP) EAssert
             else Ok tt);
        p ← shift_up 257 (num_holes p) i p;
        p ← hole_write p i (so_startP, so_stopP);
        let p := if i =? 0 then p <| nack_so_start := so_startP |> else p in
        let p := p <| num_holes := u8 (num_holes p + 1) |> in
        hole_asserts p
      else
        h ← hole_read p (i - 1);
        _ ← res_guard (snd h <? so_startP) EAssert;
        _ ← res_guard (num_holes p <? RLC_AM_MAX_HOLES_REPORT_PER_PDU) EAssert;
        p ← hole_write p i (so_startP, so_stopP);
        let p := p <| num_holes := u8 (num_holes p + 1) |> <| nack_so_stop := so_stopP |> in
        hole_asserts p.

(** ** [rlc_am_nack_pdu] *)

(** The loop over the SDUs of a PDU that was retransmitted too often. *)
Fixpoint discard_sdus (fuel : nat) (i : Z) (p : am_tx_pdu) (e : am_tx) : res am_tx :=
  match fuel with
  | O => Err EFuel
  | S fuel =>
      if i <? nb_sdus p then
        sdu_index ← rd (sdus_index p) i;
        _ ← res_guard (i <? RLC_AM_MAX_SDU_IN_PDU) EAssert;
        _ ← res_guard (sdu_index <? RLC_AM_SDU_CONTROL_BUFFER_SIZE) EAssert;
        s ← sdu_read e sdu_index;
        let s := s <| nb_pdus_ack := u8 (nb_pdus_ack s + 1) |> in
        e ← sdu_write e sdu_index s;
        e ← (if nb_pdus_ack s =? nb_pdus s then
               rlc_am_free_in_sdu sdu_index
                 (e <| confirms := confirms e ++ [(sdu_mui s, RLC_SDU_CONFIRM_NO)] |>
                    <| stat_tx_pdcp_sdu_discarded := u32 (stat_tx_pdcp_sdu_discarded e + 1) |>
                    <| stat_tx_pdcp_bytes_discarded :=
                         u32 (stat_tx_pdcp_bytes_discarded e + sdu_size s) |>)
             else Ok e);
        discard_sdus fuel (i + 1) p e
      else Ok e
  end.

Definition rlc_am_nack_pdu (e : am_tx) (frameP snP so_startP so_endP : Z) : res am_tx :=
  p ← pdu_read e snP;
  match pdu_mem_block p with
  | None => Ok e
  | Some _ =>
      let e := e <| num_nack_sn := u32 (num_nack_sn e + 1) |> in
      _ ← res_guard (so_startP <=? so_endP) EAssert;
      let p := if last_nack_time p =? frameP then p
               else rlc_am_clear_holes (p <| last_nack_time := frameP |>) in
      let e := if (so_startP =? 0) && (so_endP =? 0x7FFF) then e
               else e <| num_nack_so := u32 (num_nack_so e + 1) |> in
      p ← rlc_am_add_hole p so_startP so_endP;
      let e :=
        if (first_retrans_pdu_sn e <? 0)
           || truth (rlc_am_tx_sn1_gt_sn2 e (first_retrans_pdu_sn e) snP)
        then e <| first_retrans_pdu_sn := snP |> else e in
      let p := p <| flag_retransmit := true |> in
      let e := if retx_count p =? -1
               then e <| retrans_num_bytes_to_retransmit :=
                           s32 (retrans_num_bytes_to_retransmit e + header_and_payload_size p) |>
               else e in
      let p := p <| retx_count := if retx_count p =? -1 then 0 else s8 (retx_count p + 1) |> in
      e ← pdu_write e snP p;
      if max_retx_threshold e <=? retx_count p then discard_sdus 129 0 p e else Ok e
  end.

(** ** [rlc_am_ack_pdu] *)

(** The loop over the SDUs of the PDU. *)
Fixpoint ack_sdus (fuel : nat) (i : Z) (p : am_tx_pdu) (e : am_tx) : res am_tx :=
  match fuel with
  | O => Err EFuel
  | S fuel =>
      if i <? nb_sdus p then
        sdu_index ← rd (sdus_index p) i;
        _ ← res_guard (0 <=? sdu_index) EAssert;
        _ ← res_guard (sdu_index <? RLC_AM_SDU_CONTROL_BUFFER_SIZE) EAssert;
        s ← sdu_read e sdu_index;
        let s := s <| nb_pdus_ack := u8 (nb_pdus_ack s + 1) |> in
        e ← sdu_write e sdu_index s;
        e ← (if (nb_pdus_ack s =? nb_pdus s) && (sdu_remaining_size s =? 0) then
               rlc_am_free_in_sdu sdu_index
                 (e <| confirms := confirms e ++ [(sdu_mui s, RLC_SDU_CONFIRM_YES)] |>)
             else Ok e);
        ack_sdus fuel (i + 1) p e
      else Ok e
  end.

(** The loop that moves VT(A) over the acknowledged PDUs and clears them. *)
Fixpoint advance_vt_a (fuel : nat) (e : am_tx) : res am_tx :=
  match fuel with
  | O => Err EFuel
  | S fuel =>
      e ← pdu_write e (vt_a e) am_pdu0;
      let e := if vt_a e =? first_retrans_pdu_sn e
               then e <| first_retrans_pdu_sn := sn_after (vt_a e) |> else e in
      let e := e <| vt_a := sn_after (vt_a e) |> in
      p ← pdu_read e (vt_a e);
      if flag_ack p && negb (vt_a e =? vt_s e) then advance_vt_a fuel e else Ok e
  end.

(** VT(A), then VT(MS). *)
Definition move_window (e : am_tx) : res am_tx :=
  e ← advance_vt_a 1025 e;
  Ok (e <| vt_ms := (vt_a e + RLC_AM_WINDOW_SIZE) .& RLC_AM_SN_MASK |>).

(** The loop that looks for the next PDU to retransmit. *)
Fixpoint next_retrans (fuel : nat) (e : am_tx) : res am_tx :=
  match fuel with
  | O => Err EFuel
  | S fuel =>
      let e := e <| first_retrans_pdu_sn := sn_after (first_retrans_pdu_sn e) |> in
      p ← pdu_read e (first_retrans_pdu_sn e);
      if 0 <=? retx_count p then Ok e
      else if first_retrans_pdu_sn e =? vt_s e then Ok e
      else next_retrans fuel e
  end.

Definition rlc_am_ack_pdu (e : am_tx) (snP : Z) : res am_tx :=
  p ← pdu_read e snP;
  let p := p <| flag_retransmit := false |> in
  if negb (flag_ack p) && bool_decide (is_Some (pdu_mem_block p)) then
    let p := p <| pdu_mem_block := None |> in
    e ← pdu_write e snP p;
    let e := e <| retrans_num_pdus := s32 (retrans_num_pdus e - 1) |>
               <| retrans_num_bytes :=
                    s32 (retrans_num_bytes e - header_and_payload_size p) |> in
    let e := if 0 <=? retx_count p
             then e <| retrans_num_bytes_to_retransmit :=
                         s32 (retrans_num_bytes_to_retransmit e - header_and_payload_size p) |>
             else e in
    e ← ack_sdus 129 0 p e;
    p ← pdu_read e snP;
    e ← pdu_write e snP (p <| flag_ack := true |>);
    e ← (if snP =? vt_a e then move_window e else Ok e);
    if snP =? first_retrans_pdu_sn e then
      e ← next_retrans 1025 e;
      Ok (if vt_s e =? first_retrans_pdu_sn e then e <| first_retrans_pdu_sn := -1 |> else e)
    else Ok e
  else
    e ← pdu_write e snP (p <| pdu_mem_block := None |>);
    if flag_ack p && (snP =? vt_a e) then move_window e else Ok e.

(** ** [rlc_am_receive_process_control_pdu] *)

Definition stop_poll (e : am_tx) (sn_cursor : Z) : am_tx :=
  if sn_cursor =? poll_sn e then rlc_am_stop_and_reset_timer_poll_retransmit e else e.

(** The loop without negative acknowledgements. *)
Fixpoint ack_all (fuel : nat) (ack sn_cursor : Z) (e : am_tx) : res am_tx :=
  match fuel with
  | O => Err EFuel
  | S fuel =>
      if sn_cursor =? ack then Ok e
      else
        e ← rlc_am_ack_pdu (stop_poll e sn_cursor) sn_cursor;
        ack_all fuel ack (sn_after sn_cursor) e
  end.

(** [sn_cursor] after a turn: it stays where the next entry has the same SN. *)
Definition move_cursor (nacks : list nack_sn) (nack_index sn_cursor : Z) : res Z :=
  if (nack_index <? zlen nacks) && (0 <? nack_index) then
    n ← rd nacks nack_index;
    n' ← rd nacks (nack_index - 1);
    Ok (if nack_sn_ n =? nack_sn_ n' then sn_cursor else sn_after sn_cursor)
  else Ok (sn_after sn_cursor).

(** The loop with negative acknowledgements.  [snn] is the variable [nack_sn]. *)
Fixpoint ack_nack (fuel : nat) (frameP ack : Z) (nacks : list nack_sn)
    (nack_index snn sn_cursor : Z) (e : am_tx) : res am_tx :=
  match fuel with
  | O => Err EFuel
  | S fuel =>
      if sn_cursor =? ack then Ok e
      else
        let e := stop_poll e sn_cursor in
        '(e, nack_index, snn) ←
          (if negb (sn_cursor =? snn) then
             e ← rlc_am_ack_pdu e sn_cursor; Ok (e, nack_index, snn)
           else
             n ← rd nacks nack_index;
             e ← rlc_am_nack_pdu e frameP sn_cursor (so_start n) (so_end n);
             let nack_index := nack_index + 1 in
             if nack_index =? zlen nacks then Ok (e, nack_index, s16 0xFFFF)
             else n ← rd nacks nack_index; Ok (e, nack_index, nack_sn_ n));
        sn_cursor ← move_cursor nacks nack_index sn_cursor;
        ack_nack fuel frameP ack nacks nack_index snn sn_cursor e
  end.

(** What is done with a STATUS PDU that was decoded. *)
Definition process_status (e : am_tx) (frameP : Z) (i : control_pdu_info) : res am_tx :=
  _ ← res_guard (ack_sn i <? RLC_AM_SN_MODULO) EAssert;
  _ ← res_guard (num_nack i <? RLC_AM_MAX_NACK_IN_STATUS_PDU) EAssert;
  if 0 <? rlc_am_in_tx_window e (ack_sn i) then
    let e := e <| num_nack_so := 0 |> <| num_nack_sn := 0 |> in
    match nack_list i with
    | [] => ack_all 1025 (ack_sn i) (vt_a e) e
    | n :: _ => ack_nack 2049 frameP (ack_sn i) (nack_list i) 0 (nack_sn_ n) (vt_a e) e
    end
  else Ok e.

(** The entity, and [*tb_size_in_bytes_pP] at the end; [*first_byte_ppP] moves by
    the difference.  [l] is the memory from [*first_byte_ppP] on. *)
Definition rlc_am_receive_process_control_pdu (e : am_tx) (frameP : Z) (l : list Z)
    (tb_size : Z) : res (am_tx * Z) :=
  '(rc, i, size) ← rlc_am_get_control_pdu_infos l tb_size;
  if 0 <=? rc then
    e ← process_status e frameP i;
    Ok (e, size)
  else Ok (e, size).
