(* ===== verification/RlcAmHolesSpec.v ===== *)
(** RLC AM v9.3.0: the holes of a PDU.  What [rlc_am_add_hole] leaves is the
    sorted list with the hole in its place. *)
From Stdlib Require Import Sorted.
From S2P Require Import Prelude.
From S2P Require Import RlcAmEntity.
From S2P Require Import RlcAmRetransmit.

Local Open Scope Z_scope.

(** ** What the operations leave alone *)

(** [p'] is [p] with other holes, within the array. *)
Record holes_only (p p' : am_tx_pdu) : Prop := HolesOnly {
  ho_rest : p' = p <| holes := holes p' |> <| num_holes := num_holes p' |>
                   <| nack_so_start := nack_so_start p' |> <| nack_so_stop := nack_so_stop p' |>;
  ho_length : length (holes p') = length (holes p);
  ho_num : 0 <= num_holes p' < 32
}.

Lemma wr_length {A} (l l' : list A) i x : wr l i x = Ok l' -> length l' = length l.
Proof.
  unfold wr. case_bool_decide as H; [|discriminate]. intros [= <-].
  rewrite !length_app, length_take, length_drop. unfold zlen in H. lia.
Qed.

(** [p'] is [p] with another array of holes. *)
Record array_only (p p' : am_tx_pdu) : Prop := ArrayOnly {
  ao_rest : p' = p <| holes := holes p' |>;
  ao_length : length (holes p') = length (holes p)
}.

Lemma array_only_refl p : array_only p p.
Proof. by destruct p. Qed.

Lemma array_only_trans p q r : array_only p q -> array_only q r -> array_only p r.
Proof. intros [-> H1] [-> H2]. split; [done|]. cbn in *. congruence. Qed.

Lemma hole_write_array p p' i h : hole_write p i h = Ok p' -> array_only p p'.
Proof.
  unfold hole_write. intros (hs & Hw & [= <-])%res_bind_ok. split; [done|].
  by apply wr_length in Hw.
Qed.

Lemma shift_up_array fuel i last p p' : shift_up fuel i last p = Ok p' -> array_only p p'.
Proof.
  revert i p. induction fuel as [|fuel IH]; intros i p H; [discriminate|]. cbn [shift_up] in H.
  destruct (last <=? i); [|injection H as <-; apply array_only_refl].
  apply res_bind_ok in H as (h & _ & (q & Hq & H)%res_bind_ok).
  eapply array_only_trans; [by eapply hole_write_array|by eapply IH].
Qed.

Lemma res_guard_ok b x u : res_guard b x = Ok u -> b = true.
Proof. by destruct b. Qed.

Lemma hole_asserts_ok p p' : hole_asserts p = Ok p' -> p' = p /\ num_holes p < 32.
Proof.
  unfold hole_asserts. intros (? & _ & (? & H%res_guard_ok & [= <-])%res_bind_ok)%res_bind_ok.
  split; [done|]. by apply Z.ltb_lt in H.
Qed.

Lemma u8_range z : 0 <= u8 z.
Proof. apply Z.mod_pos_bound. lia. Qed.

(** Whatever the offsets are. *)
Lemma add_hole_only p s t p' : rlc_am_add_hole p s t = Ok p' -> holes_only p p'.
Proof.
  unfold rlc_am_add_hole.
  intros (? & _ & (? & _ & (? & _ & H)%res_bind_ok)%res_bind_ok)%res_bind_ok.
  case_match.
  { apply res_bind_ok in H as (? & _ & [= <-]). by destruct p; split. }
  set (t' := if t =? 0x7FFF then _ else _) in *. case_match.
  { apply res_bind_ok in H as (q & [-> Hl]%hole_write_array & (? & _ & [= <-])%res_bind_ok).
    by split. }
  apply res_bind_ok in H as (i & _ & H). case_match.
  - apply res_bind_ok in H as (? & _ & (? & _ & (q1 & Hs%shift_up_array & H)%res_bind_ok)%res_bind_ok).
    apply res_bind_ok in H as (q2 & Hw%hole_write_array & [-> Hn]%hole_asserts_ok).
    destruct (array_only_trans _ _ _ Hs Hw) as [E Hl]. rewrite E in Hn |- *.
    destruct (i =? 0); (split; [by destruct p|done|split; [apply u8_range|done]]).
  - apply res_bind_ok in H as (? & _ & (? & _ & (? & _ & H)%res_bind_ok)%res_bind_ok).
    apply res_bind_ok in H as (q2 & [E Hl]%hole_write_array & [-> Hn]%hole_asserts_ok).
    rewrite E in Hn |- *. split; [by destruct p|done|split; [apply u8_range|done]].
Qed.

(** A negative acknowledgement of the whole PDU never fails. *)
Lemma add_hole_whole p :
  0 < payload_size p -> exists p', rlc_am_add_hole p 0 0x7FFF = Ok p' /\ num_holes p' = 0 /\
    nack_so_start p' = 0 /\ nack_so_stop p' = 0x7FFF.
Proof.
  intros Hp. unfold rlc_am_add_hole. cbn [res_guard Z.leb Z.ltb Z.compare].
  rewrite !res_ok_bind. cbn [Z.eqb andb orb].
  unfold update. cbn [payload_size nack_so_start num_holes].
  rewrite (proj2 (Z.ltb_lt _ _)) by done. eexists. split; [reflexivity|done].
Qed.

(** ** The sorted list of holes *)

Definition hole_list (p : am_tx_pdu) : list (Z * Z) :=
  take (Z.to_nat (num_holes p)) (holes p).

Definition hole_lt (h h' : Z * Z) : Prop := snd h < fst h'.

Record holes_wf (p : am_tx_pdu) : Prop := HolesWf {
  hw_array : length (holes p) = 32%nat;
  hw_num : 0 <= num_holes p < 32;
  hw_size : 0 < payload_size p <= 0x7FFF;
  hw_sorted : StronglySorted hole_lt (hole_list p);
  hw_each : Forall (fun h => 0 <= fst h <= snd h /\ snd h < payload_size p) (hole_list p);
  hw_start : num_holes p <> 0 -> Some (nack_so_start p) = fst <$> head (hole_list p);
  hw_stop : num_holes p <> 0 -> Some (nack_so_stop p) = snd <$> last (hole_list p)
}.

Lemma hole_list_num p : holes_wf p -> zlen (hole_list p) = num_holes p.
Proof.
  intros H. destruct H as [Hl Hn _ _ _ _ _]. unfold hole_list. rewrite zlen_take.
  unfold zlen. lia.
Qed.

(** The array is the list and what is behind it. *)
Lemma hole_list_split p : holes p = hole_list p ++ drop (Z.to_nat (num_holes p)) (holes p).
Proof. symmetry. apply take_drop. Qed.

(** The loop that makes room at [i], behind a hole. *)
Lemma shift_up_ok b : forall fuel a h c0 c p,
  holes p = (a ++ [h]) ++ b ++ c0 :: c -> (length b < fuel)%nat ->
  shift_up (S fuel) (zlen (a ++ [h]) + zlen b) (zlen (a ++ [h])) p
    = Ok (p <| holes := (a ++ [h]) ++ h :: b ++ c |>).
Proof.
  induction b as [|x b IH] using rev_ind; intros fuel a h c0 c p E Hf.
  - rewrite zlen_nil, Z.add_0_r. cbn [shift_up]. rewrite Z.leb_refl. unfold hole_read, hole_write.
    rewrite E. replace (zlen (a ++ [h]) - 1) with (zlen a) by (rewrite zlen_app; change (zlen [h]) with 1; lia).
    rewrite <- app_assoc at 1. cbn [app]. rewrite rd_app_here, res_ok_bind.
    change (c0 :: c) with ([c0] ++ c).
    rewrite (wr_app (a ++ [h]) [c0] c [h]) by done. rewrite !res_ok_bind.
    destruct fuel as [|fuel]; [lia|]. cbn [shift_up].
    rewrite (proj2 (Z.leb_gt _ _)) by (rewrite zlen_app; change (zlen [h]) with 1; lia). done.
  - cbn [shift_up]. rewrite (zlen_app b [x]). change (zlen [x]) with 1. pose proof (zlen_nonneg b).
    rewrite (proj2 (Z.leb_le _ _)) by lia. unfold hole_read, hole_write. rewrite E.
    replace (zlen (a ++ [h]) + (zlen b + 1) - 1) with (zlen ((a ++ [h]) ++ b)) by (rewrite zlen_app; lia).
    replace ((a ++ [h]) ++ (b ++ [x]) ++ c0 :: c) with (((a ++ [h]) ++ b) ++ x :: c0 :: c)
      by (by rewrite <- !app_assoc).
    rewrite rd_app_here, res_ok_bind.
    replace (zlen (a ++ [h]) + (zlen b + 1)) with (zlen (((a ++ [h]) ++ b) ++ [x]))
      by (rewrite !zlen_app; change (zlen [x]) with 1; lia).
    replace (((a ++ [h]) ++ b) ++ x :: c0 :: c) with ((((a ++ [h]) ++ b) ++ [x]) ++ [c0] ++ c)
      by (by rewrite <- !app_assoc).
    rewrite wr_app, !res_ok_bind by done. rewrite length_app in Hf. cbn [length] in Hf.
    destruct fuel as [|fuel]; [lia|].
    rewrite (zlen_app (a ++ [h]) b).
    rewrite (IH fuel a h x (x :: c)); [|by cbn; rewrite <- !app_assoc|lia].
    destruct p. unfold update. cbn. rewrite <- !app_assoc. done.
Qed.

(** ** Adding a hole *)

(** The search, over holes that are before [t]. *)
Lemma hole_behind_ok p t b c : forall a fuel,
  holes p = a ++ b ++ c -> num_holes p = zlen a + zlen b ->
  Forall (fun h => fst h <= t) a -> Forall (fun h => t < fst h) b ->
  forall a1 a2, a = a1 ++ a2 -> (length a2 < fuel)%nat ->
  hole_behind fuel p t (zlen a1) = Ok (zlen a).
Proof.
  intros a fuel E Hn Ha Hb a1 a2. revert fuel a1. induction a2 as [|x a2 IH]; intros fuel a1 Ea Hf.
  - rewrite app_nil_r in Ea. subst a1. destruct fuel as [|fuel]; [lia|]. cbn [hole_behind].
    destruct (Z.ltb_spec (zlen a) (num_holes p)) as [Hlt|]; [|done].
    destruct b as [|y b]; [rewrite zlen_nil in Hn; lia|]. unfold hole_read. rewrite E.
    cbn [app]. rewrite rd_app_here, res_ok_bind. apply Forall_cons in Hb as [Hy _].
    by rewrite (proj2 (Z.ltb_lt _ _)).
  - destruct fuel as [|fuel]; [lia|]. cbn [hole_behind].
    pose proof (f_equal zlen Ea) as El. rewrite zlen_app, zlen_cons in El.
    pose proof (zlen_nonneg a2). pose proof (zlen_nonneg b).
    rewrite (proj2 (Z.ltb_lt _ _)) by lia. unfold hole_read.
    replace (holes p) with (a1 ++ x :: (a2 ++ b ++ c)) by (by rewrite E, Ea, <- app_assoc).
    rewrite rd_app_here, res_ok_bind.
    assert (Hx : fst x <= t) by (rewrite Ea in Ha; by apply Forall_app in Ha as [_ [Hx _]%Forall_cons]).
    rewrite (proj2 (Z.ltb_ge _ _)) by lia.
    replace (zlen a1 + 1) with (zlen (a1 ++ [x])) by (rewrite zlen_app; done).
    apply IH; [by rewrite <- app_assoc|cbn [length] in Hf; lia].
Qed.

Lemma sorted_insert {A} (R : A -> A -> Prop) x b : forall a,
  StronglySorted R (a ++ b) -> Forall (fun y => R y x) a -> Forall (R x) b ->
  StronglySorted R (a ++ x :: b).
Proof.
  induction a as [|y a IH]; intros H Ha Hb; cbn [app] in *; [by constructor|].
  apply StronglySorted_inv in H as [H Hy]. apply Forall_cons in Ha as [Hyx Ha].
  constructor; [by apply IH|]. rewrite Forall_app in Hy. rewrite Forall_app, Forall_cons. tauto.
Qed.

(** The list and the bounds that a well-formed PDU has after an insertion. *)
Lemma holes_wf_insert p p' a b s t rest :
  holes_wf p -> hole_list p = a ++ b ->
  Forall (fun h => snd h < s) a -> Forall (fun h => t < fst h) b ->
  0 <= s <= t -> t < payload_size p -> num_holes p < 31 ->
  holes p' = a ++ (s, t) :: b ++ rest -> length (holes p') = length (holes p) ->
  num_holes p' = num_holes p + 1 -> payload_size p' = payload_size p ->
  Some (nack_so_start p') = fst <$> head (a ++ (s, t) :: b) ->
  Some (nack_so_stop p') = snd <$> last (a ++ (s, t) :: b) ->
  hole_list p' = a ++ (s, t) :: b /\ holes_wf p'.
Proof.
  intros Hwf E Ha Hb Hst Ht Hn Eh El En Ep Es Ee.
  pose proof (hole_list_num p Hwf) as Hnum. rewrite E, zlen_app in Hnum.
  destruct Hwf as [Hl H0 Hsz Hso Hea _ _].
  assert (EL : hole_list p' = a ++ (s, t) :: b).
  { unfold hole_list. rewrite Eh, En.
    replace (a ++ (s, t) :: b ++ rest) with ((a ++ (s, t) :: b) ++ rest) by (by rewrite <- app_assoc).
    apply take_app_length'. rewrite length_app. cbn [length]. unfold zlen in Hnum. lia. }
  split; [done|]. rewrite E in Hso, Hea. split; rewrite ?EL, ?Ep; try done; try lia.
  - by apply sorted_insert.
  - apply Forall_app in Hea as [Hea1 Hea2]. apply Forall_app. split; [done|].
    apply Forall_cons. split; [|done]. cbn. lia.
Qed.

(** What the theorem below assumes of the hole: its place between the others. *)
Record fits (p : am_tx_pdu) (a b : list (Z * Z)) (s t so_end : Z) : Prop := Fits {
  fit_list : hole_list p = a ++ b;
  fit_before : Forall (fun h => snd h < s) a;
  fit_behind : Forall (fun h => t < fst h) b;
  fit_front : a = [] -> b = [];
  fit_order : 0 <= s <= t;
  fit_size : t < payload_size p;
  fit_part : ~ (s = 0 /\ t = payload_size p - 1);
  fit_end : so_end = t \/ (so_end = 0x7FFF /\ t = payload_size p - 1);
  fit_room : num_holes p < 31
}.

(** The beginning of [rlc_am_add_hole], for a hole that is a part of the PDU. *)
Lemma add_hole_part p a b s t so_end :
  holes_wf p -> fits p a b s t so_end ->
  (s <=? so_end) = true /\ (s <? 0x7FFF) = true /\ (so_end <=? 0x7FFF) = true /\
  ((s =? 0) && ((so_end =? 0x7FFF) || (so_end =? payload_size p - 1)))%bool = false /\
  (if so_end =? 0x7FFF then s32 (payload_size p - 1) else so_end) = t.
Proof.
  intros [_ _ Hsz _ _ _ _] [_ _ _ _ Ho Ht Hp He _].
  rewrite !Z.leb_le, Z.ltb_lt. do 3 (split; [lia|]). split.
  - apply andb_false_iff. rewrite Z.eqb_neq, orb_false_iff, !Z.eqb_neq. lia.
  - destruct (Z.eqb_spec so_end 0x7FFF) as [Heq|]; [|lia]. rewrite s32_small; lia.
Qed.

(** There is room behind the list. *)
Lemma hole_room p : holes_wf p -> exists c0 c, holes p = hole_list p ++ c0 :: c.
Proof.
  intros [Hl Hn _ _ _ _ _]. destruct (drop (Z.to_nat (num_holes p)) (holes p)) as [|c0 c] eqn:Ed.
  - apply (f_equal length) in Ed. rewrite length_drop in Ed. cbn in Ed. lia.
  - exists c0, c. by rewrite <- Ed, <- hole_list_split.
Qed.

Lemma hole_write_app p a x b h :
  holes p = a ++ x :: b -> hole_write p (zlen a) h = Ok (p <| holes := a ++ h :: b |>).
Proof.
  intros E. unfold hole_write. rewrite E. change (x :: b) with ([x] ++ b).
  by rewrite wr_app, res_ok_bind.
Qed.

(** The first hole. *)
Lemma add_hole_first p s t :
  holes_wf p -> num_holes p = 0 -> 0 <= s <= t -> t < payload_size p ->
  exists p', (p ← hole_write p 0 (s, t);
      let p := p <| num_holes := 1 |> <| nack_so_start := s |> <| nack_so_stop := t |> in
      _ ← res_guard (nack_so_start p <? payload_size p) EAssert;
      Ok p) = Ok p' /\ hole_list p' = [(s, t)] /\ holes_wf p'.
Proof.
  intros Hwf H0 Hst Ht. destruct (hole_room p Hwf) as (c0 & c & Ec).
  assert (EL : hole_list p = []) by (unfold hole_list; by rewrite H0). rewrite EL in Ec.
  change 0 with (zlen (@nil (Z * Z))) at 1. rewrite (hole_write_app _ [] c0 c), res_ok_bind by done.
  unfold update. cbn [nack_so_start payload_size]. rewrite (proj2 (Z.ltb_lt _ _)) by lia.
  eexists. split; [reflexivity|].
  apply (holes_wf_insert p _ [] [] s t c Hwf); cbn; rewrite ?Ec, ?H0; (done || lia).
Qed.

(** Between two holes. *)
Lemma add_hole_between p a h b s t :
  holes_wf p -> hole_list p = (a ++ [h]) ++ b -> b <> [] ->
  Forall (fun h => snd h < s) (a ++ [h]) -> Forall (fun h => t < fst h) b ->
  0 <= s <= t -> t < payload_size p -> num_holes p < 31 ->
  exists p', (_ ← (if 0 <? zlen (a ++ [h])
             then h ← hole_read p (zlen (a ++ [h]) - 1); res_guard (snd h <? s) EAssert
             else Ok tt);
        p ← shift_up 257 (num_holes p) (zlen (a ++ [h])) p;
        p ← hole_write p (zlen (a ++ [h])) (s, t);
        let p := if zlen (a ++ [h]) =? 0 then p <| nack_so_start := s |> else p in
        let p := p <| num_holes := u8 (num_holes p + 1) |> in
        hole_asserts p) = Ok p' /\ hole_list p' = (a ++ [h]) ++ (s, t) :: b /\ holes_wf p'.
Proof.
  intros Hwf E Hb0 Ha Hb Hst Ht Hr. destruct (hole_room p Hwf) as (c0 & c & Ec).
  pose proof (hole_list_num p Hwf) as Hnum. rewrite E, zlen_app in Hnum.
  pose proof Hwf as [Hl Hn Hsz _ Hea Hsta Hsto]. rewrite E, <- app_assoc in Ec.
  assert (Hza : 0 < zlen (a ++ [h])).
  { rewrite zlen_app. change (zlen [h]) with 1. pose proof (zlen_nonneg a). lia. }
  rewrite (proj2 (Z.ltb_lt 0 _)), (proj2 (Z.eqb_neq _ 0)) by lia.
  assert (Erd : hole_read p (zlen (a ++ [h]) - 1) = Ok h).
  { unfold hole_read. rewrite Ec, <- app_assoc.
    replace (zlen (a ++ [h]) - 1) with (zlen a); [apply rd_app_here|].
    rewrite zlen_app. change (zlen [h]) with 1. lia. }
  rewrite Erd, res_ok_bind. apply Forall_app in Ha as Ha'. destruct Ha' as [_ [Hh _]%Forall_cons].
  rewrite (proj2 (Z.ltb_lt (snd h) s)) by done. cbn [res_guard]. rewrite res_ok_bind, <- Hnum.
  rewrite (shift_up_ok b 256 a h c0 c p) by (done || (unfold zlen in Hnum; lia)).
  rewrite res_ok_bind, (hole_write_app _ (a ++ [h]) h (b ++ c)), res_ok_bind by done. unfold hole_asserts, update.
  cbn [holes num_holes nack_so_start nack_so_stop payload_size].
  rewrite u8_small, (proj2 (Z.ltb_lt (num_holes p + 1) _)) by (unfold RLC_AM_MAX_HOLES_REPORT_PER_PDU; lia).
  assert (Hne : num_holes p <> 0) by (pose proof (zlen_nonneg b); lia).
  specialize (Hsta Hne). specialize (Hsto Hne). rewrite E in Hea, Hsta, Hsto.
  assert (Hlow : nack_so_start p < payload_size p).
  { destruct (a ++ [h]) as [|x l] eqn:Ex; [by destruct a|]. cbn in Hsta. injection Hsta as ->.
    apply Forall_app in Hea as [[Hx _]%Forall_cons _]. lia. }
  rewrite (proj2 (Z.ltb_lt _ _)) by done. cbn [res_guard]. rewrite !res_ok_bind.
  eexists. split; [reflexivity|].
  apply (holes_wf_insert p _ (a ++ [h]) b s t c Hwf); cbn; try (done || lia).
  - rewrite Ec, !length_app. cbn [length app]. rewrite !length_app. cbn [length]. lia.
  - rewrite Hsta. by destruct a.
  - destruct b as [|x b]; [done|]. rewrite Hsto, !last_app. change (last ((s, t) :: x :: b)) with (last (x :: b)).
    destruct (last (x :: b)) as [y|] eqn:Ey; [done|by apply last_None in Ey].
Qed.

(** Behind the last hole. *)
Lemma add_hole_tail p a h s t :
  holes_wf p -> hole_list p = a ++ [h] -> Forall (fun h => snd h < s) (a ++ [h]) ->
  0 <= s <= t -> t < payload_size p -> num_holes p < 31 ->
  exists p', (h ← hole_read p (num_holes p - 1);
        _ ← res_guard (snd h <? s) EAssert;
        _ ← res_guard (num_holes p <? RLC_AM_MAX_HOLES_REPORT_PER_PDU) EAssert;
        p ← hole_write p (num_holes p) (s, t);
        let p := p <| num_holes := u8 (num_holes p + 1) |> <| nack_so_stop := t |> in
        hole_asserts p) = Ok p' /\ hole_list p' = (a ++ [h]) ++ [(s, t)] /\ holes_wf p'.
Proof.
  intros Hwf E Ha Hst Ht Hr. destruct (hole_room p Hwf) as (c0 & c & Ec).
  pose proof (hole_list_num p Hwf) as Hnum. rewrite E in Hnum.
  pose proof Hwf as [Hl Hn Hsz Hso Hea Hsta Hsto]. rewrite E in Ec, Hea, Hsta, Hsto, Hso.
  assert (Hza : zlen (a ++ [h]) = zlen a + 1) by (rewrite zlen_app; done).
  apply Forall_app in Ha as Ha'. destruct Ha' as [_ [Hh _]%Forall_cons].
  assert (Erd : hole_read p (num_holes p - 1) = Ok h).
  { unfold hole_read. rewrite Ec, <- app_assoc. replace (num_holes p - 1) with (zlen a) by lia.
    apply rd_app_here. }
  rewrite Erd, res_ok_bind, (proj2 (Z.ltb_lt (snd h) s)) by done.
  unfold RLC_AM_MAX_HOLES_REPORT_PER_PDU. rewrite (proj2 (Z.ltb_lt (num_holes p) 32)) by lia.
  cbn [res_guard]. rewrite !res_ok_bind.
  pose proof (hole_write_app p (a ++ [h]) c0 c (s, t) Ec) as Ew. rewrite Hnum in Ew.
  rewrite Ew, res_ok_bind.
  unfold hole_asserts, update, RLC_AM_MAX_HOLES_REPORT_PER_PDU.
  cbn [holes num_holes nack_so_start nack_so_stop payload_size].
  rewrite u8_small, (proj2 (Z.ltb_lt (num_holes p + 1) _)) by lia.
  assert (Hne : num_holes p <> 0) by (pose proof (zlen_nonneg a); lia).
  specialize (Hsta Hne). specialize (Hsto Hne).
  assert (Hlow : nack_so_start p < payload_size p).
  { destruct (a ++ [h]) as [|x l] eqn:Ex; [by destruct a|]. cbn in Hsta. injection Hsta as ->.
    apply Forall_cons in Hea as [Hx _]. lia. }
  rewrite (proj2 (Z.ltb_lt _ _)) by done. cbn [res_guard]. rewrite !res_ok_bind.
  eexists. split; [reflexivity|].
  apply (holes_wf_insert p _ (a ++ [h]) [] s t c Hwf); cbn; try (done || lia).
  - by rewrite app_nil_r.
  - rewrite Ec, !length_app. cbn [length]. lia.
  - rewrite Hsta. by destruct a.
  - by rewrite last_app.
Qed.

(** C29.  A hole that lies between the holes of a PDU is put in its place: the list
    of holes stays sorted and disjoint, the array is not overrun, and the bounds
    [nack_so_start] and [nack_so_stop] are those of the list. *)
Theorem am_add_hole_inserts p a b s t so_end :
  holes_wf p -> fits p a b s t so_end ->
  exists p', rlc_am_add_hole p s so_end = Ok p' /\ hole_list p' = a ++ (s, t) :: b /\ holes_wf p'.
Proof.
  intros Hwf Hf. destruct (add_hole_part p a b s t so_end Hwf Hf) as (E1 & E2 & E3 & E4 & E5).
  pose proof (hole_list_num p Hwf) as Hnum. destruct (hole_room p Hwf) as (c0 & c & Esp).
  pose proof Hwf as [Hl Hn Hsz _ Hea _ _].
  destruct Hf as [E Ha Hb Hfr Ho Ht _ _ Hr]. rewrite E in Hnum, Esp, Hea.
  unfold rlc_am_add_hole. rewrite E1, E2, E3, E4, E5. cbn [res_guard]. rewrite !res_ok_bind.
  destruct (Z.eqb_spec (num_holes p) 0) as [H0|H0].
  { destruct a as [|? ?]; [|rewrite zlen_app, zlen_cons in Hnum; pose proof (zlen_nonneg a);
      pose proof (zlen_nonneg b); lia]. rewrite (Hfr eq_refl). by apply add_hole_first. }
  destruct a as [|h a _] using rev_ind; [rewrite (Hfr eq_refl) in Hnum; by destruct H0|].
  rewrite <- app_assoc in Esp.
  assert (Hle : Forall (fun h => fst h <= t) (a ++ [h])).
  { apply Forall_app in Hea as [Hea _]. rewrite Forall_forall in Ha, Hea |- *. intros x Hx.
    specialize (Ha x Hx). specialize (Hea x Hx). lia. }
  rewrite app_assoc in Esp. rewrite zlen_app in Hnum.
  rewrite <- app_assoc in Esp.
  pose proof (hole_behind_ok p t b (c0 :: c) (a ++ [h]) 256 Esp (eq_sym Hnum) Hle Hb [] _ eq_refl
    ltac:(unfold zlen in Hnum; lia)) as Eb. change (zlen []) with 0 in Eb.
  rewrite Eb, res_ok_bind. destruct b as [|x b].
  - rewrite zlen_nil, Z.add_0_r in Hnum. rewrite Hnum, Z.ltb_irrefl. rewrite app_nil_r in E.
    by apply add_hole_tail.
  - rewrite (proj2 (Z.ltb_lt _ (num_holes p))) by (rewrite <- Hnum, zlen_cons; pose proof (zlen_nonneg b); lia).
    rewrite (proj2 (Z.ltb_lt _ RLC_AM_MAX_HOLES_REPORT_PER_PDU))
      by (unfold RLC_AM_MAX_HOLES_REPORT_PER_PDU; lia). cbn [res_guard]. rewrite res_ok_bind.
    by apply add_hole_between.
Qed.
