(* ===== verification/RlcAmArqSpec.v ===== *)
(** RLC AM v9.3.0: the acknowledgement of PDUs.  A STATUS PDU takes exactly what
    it acknowledges from the PDUs that are outstanding, and VT(A) moves to the
    first that is left. *)
From S2P Require Import Prelude.
From S2P Require Import RlcAmEntity.
From S2P Require Import RlcAmSn.
From S2P Require Import RlcAmStatus.
From S2P Require Import RlcAmRetransmit.
From S2P Require Import RlcAmHolesSpec.

Local Open Scope Z_scope.

(** ** The retransmission buffer *)

Definition write_pdu (e : am_tx) (sn : Z) (p : am_tx_pdu) : am_tx :=
  e <| pdu_retrans_buffer := <[sn := p]> (pdu_retrans_buffer e) |>.

Lemma pdu_write_eq e sn p : sn_ok sn -> pdu_write e sn p = Ok (write_pdu e sn p).
Proof. intros H. unfold pdu_write. by rewrite (proj2 (sn_in_bounds_ok sn)). Qed.

Lemma pdu_read_eq e sn : sn_ok sn -> pdu_read e sn = Ok (pdu_at e sn).
Proof. intros H. unfold pdu_read. by rewrite (proj2 (sn_in_bounds_ok sn)). Qed.

Lemma pdu_at_write e sn p sn' :
  pdu_at (write_pdu e sn p) sn' = if decide (sn = sn') then p else pdu_at e sn'.
Proof.
  unfold pdu_at, write_pdu, update. cbn [pdu_retrans_buffer]. case_decide as H.
  - subst. by rewrite lookup_insert_eq.
  - by rewrite lookup_insert_ne.
Qed.

(** A PDU that waits for its acknowledgement. *)
Definition held (p : am_tx_pdu) : bool := bool_decide (is_Some (pdu_mem_block p)).
Definition outstanding (e : am_tx) (sn : Z) : bool := held (pdu_at e sn).

(** The sum of [f] over the buffer. *)
Definition total (f : am_tx_pdu -> Z) (e : am_tx) : Z :=
  foldr (fun sn n => f (pdu_at e sn) + n) 0 (seqZ 0 1024).

Definition count_pdu (p : am_tx_pdu) : Z := if held p then 1 else 0.
Definition count_bytes (p : am_tx_pdu) : Z := if held p then header_and_payload_size p else 0.

Lemma total_list_write f e sn p : forall l, NoDup l ->
  foldr (fun x n => f (pdu_at (write_pdu e sn p) x) + n) 0 l
    = foldr (fun x n => f (pdu_at e x) + n) 0 l
      + (if decide (sn ∈ l) then f p - f (pdu_at e sn) else 0).
Proof.
  induction 1 as [|x l Hx Hl IH]; [done|]. cbn [foldr]. rewrite IH, pdu_at_write.
  destruct (decide (sn = x)) as [->|Hne].
  - rewrite (decide_False (P := x ∈ l)), decide_True by (done || set_solver). lia.
  - destruct (decide (sn ∈ l)); [rewrite decide_True by set_solver|rewrite decide_False by set_solver]; lia.
Qed.

Lemma total_write f e sn p : sn_ok sn ->
  total f (write_pdu e sn p) = total f e + f p - f (pdu_at e sn).
Proof.
  intros H. unfold total. rewrite total_list_write by apply NoDup_seqZ.
  rewrite decide_True by (apply elem_of_seqZ; unfold sn_ok in H; lia). lia.
Qed.

Lemma total_bound f e b :
  (forall sn, sn_ok sn -> 0 <= f (pdu_at e sn) <= b) -> 0 <= b -> 0 <= total f e <= 1024 * b.
Proof.
  intros H Hb. unfold total.
  assert (Hl : forall l, Forall sn_ok l -> 0 <= foldr (fun sn n => f (pdu_at e sn) + n) 0 l <= zlen l * b).
  { induction 1 as [|x l Hx _ IH]; cbn [foldr]; [by cbn|].
    rewrite zlen_cons. specialize (H x Hx). lia. }
  apply (Hl (seqZ 0 1024)). apply Forall_forall. intros x Hx%elem_of_seqZ. unfold sn_ok. lia.
Qed.

Lemma total_ext f e e' :
  (forall sn, sn_ok sn -> f (pdu_at e' sn) = f (pdu_at e sn)) -> total f e' = total f e.
Proof.
  intros H. unfold total.
  assert (Hl : forall l, Forall sn_ok l -> foldr (fun sn n => f (pdu_at e' sn) + n) 0 l
    = foldr (fun sn n => f (pdu_at e sn) + n) 0 l).
  { induction 1 as [|x l Hx _ IH]; cbn [foldr]; [done|]. by rewrite IH, H. }
  apply Hl, Forall_forall. intros x Hx%elem_of_seqZ. unfold sn_ok. lia.
Qed.

(** ** The invariant *)

Record pdu_ok (p : am_tx_pdu) : Prop := PduOk {
  po_nb : 0 <= nb_sdus p <= 32;
  po_index : length (sdus_index p) = 32%nat;
  po_sdus : Forall (fun i => 0 <= i < 128) (sdus_index p);
  po_holes : length (holes p) = 32%nat;
  po_num : 0 <= num_holes p < 32;
  po_size : 0 <= header_and_payload_size p < 65536;
  po_payload : held p = true -> 0 < payload_size p
}.

Record sdus_ok (e : am_tx) : Prop := SdusOk {
  so_cur : 0 <= current_sdu_index e < 128;
  so_next : 0 <= next_sdu_index e < 128
}.

(** The invariant while VT(A) is behind. *)
Record tx_inv (e : am_tx) : Prop := TxInv {
  ok_a : sn_ok (vt_a e);
  ok_s : sn_ok (vt_s e);
  ok_window : dist (vt_a e) (vt_s e) <= 512;
  ok_inside : forall sn, sn_ok sn -> dist (vt_a e) sn < dist (vt_a e) (vt_s e) ->
    flag_ack (pdu_at e sn) = negb (outstanding e sn);
  ok_outside : forall sn, sn_ok sn -> dist (vt_a e) (vt_s e) <= dist (vt_a e) sn ->
    flag_ack (pdu_at e sn) = false /\ outstanding e sn = false;
  ok_pdus : forall sn, sn_ok sn -> pdu_ok (pdu_at e sn);
  ok_sdus : sdus_ok e;
  ok_num : retrans_num_pdus e = total count_pdu e;
  ok_bytes : retrans_num_bytes e = total count_bytes e;
  ok_retrans : -1 <= first_retrans_pdu_sn e < 1024
}.

(** VT(A) is the first PDU outstanding, or VT(S), and VT(MS) is up to date. *)
Record am_ok (e : am_tx) : Prop := TxOk {
  ok_inv : tx_inv e;
  ok_ms : vt_ms e = (vt_a e + 512) mod 1024;
  ok_first : vt_a e <> vt_s e -> outstanding e (vt_a e) = true
}.

(** What only the SDUs are changed by. *)
Record same_arq (e e' : am_tx) : Prop := SameArq {
  sa_buffer : pdu_retrans_buffer e' = pdu_retrans_buffer e;
  sa_a : vt_a e' = vt_a e;
  sa_s : vt_s e' = vt_s e;
  sa_ms : vt_ms e' = vt_ms e;
  sa_num : retrans_num_pdus e' = retrans_num_pdus e;
  sa_bytes : retrans_num_bytes e' = retrans_num_bytes e;
  sa_retrans : first_retrans_pdu_sn e' = first_retrans_pdu_sn e;
  sa_sdus : sdus_ok e -> sdus_ok e'
}.

#[export] Instance same_arq_preorder : PreOrder same_arq.
Proof.
  split; [by intros e|]. intros e1 e2 e3 [] []. split; try congruence. tauto.
Qed.

(** ** The SDUs *)

(** [r] is an entity that differs from [e] in its SDUs only. *)
Definition arq_result (e : am_tx) (r : res am_tx) : Prop :=
  exists e', r = Ok e' /\ same_arq e e' /\ sdus_ok e'.

Lemma arq_ok e : sdus_ok e -> arq_result e (Ok e).
Proof. intros H. by exists e. Qed.

(** From an entity with the same buffer. *)
Lemma arq_from e e1 r : same_arq e e1 -> arq_result e1 r -> arq_result e r.
Proof. intros H (e' & -> & H' & Hs). exists e'. split; [done|]. split; [by etrans|done]. Qed.

Lemma arq_bind e r k :
  arq_result e r -> (forall e', same_arq e e' -> sdus_ok e' -> arq_result e' (k e')) ->
  arq_result e (r ≫= k).
Proof. intros (e' & -> & H & Hs) Hk. rewrite res_ok_bind. by eapply arq_from, Hk. Qed.

Lemma sdu_index_ok i : 0 <= i < 128 -> sdu_in_bounds i = true.
Proof. unfold sdu_in_bounds, RLC_AM_SDU_CONTROL_BUFFER_SIZE. lia. Qed.

Lemma sdu_read_eq e i : 0 <= i < 128 -> sdu_read e i = Ok (sdu_at e i).
Proof. intros H. unfold sdu_read. by rewrite sdu_index_ok. Qed.

Lemma sdu_write_arq e i s : 0 <= i < 128 -> sdus_ok e -> arq_result e (sdu_write e i s).
Proof.
  intros Hi [Hc Hn]. unfold sdu_write. rewrite sdu_index_ok by done.
  eexists. split; [reflexivity|]. by split.
Qed.

Lemma next_index i : 0 <= i < 128 -> 0 <= Z.rem (i + 1) 128 < 128.
Proof. intros H. rewrite Z.rem_mod_nonneg by lia. div_lia. Qed.

(** The index of the current SDU moves to the next one at most. *)
Lemma skip_transmitted_arq fuel : forall e,
  sdus_ok e -> (next_sdu_index e - current_sdu_index e) mod 128 < Z.of_nat fuel ->
  arq_result e (skip_transmitted fuel e).
Proof.
  induction fuel as [|fuel IH]; intros e Hs Hf; [pose proof (Z.mod_pos_bound
    (next_sdu_index e - current_sdu_index e) 128); lia|].
  destruct Hs as [Hc Hn]. cbn [skip_transmitted].
  destruct (Z.eqb_spec (current_sdu_index e) (next_sdu_index e)) as [|Hne]; [by apply arq_ok|].
  rewrite sdu_read_eq, res_ok_bind by done. destruct (transmitted_successfully _); [|by apply arq_ok].
  eapply arq_from; [|apply IH]; unfold RLC_AM_SDU_CONTROL_BUFFER_SIZE.
  - split; try done. intros _. split; [by apply next_index|done].
  - split; [by apply next_index|done].
  - unfold update. cbn [next_sdu_index current_sdu_index].
    rewrite Z.rem_mod_nonneg by lia. div_lia.
Qed.

Lemma free_in_sdu_arq i e : 0 <= i < 128 -> sdus_ok e -> arq_result e (rlc_am_free_in_sdu i e).
Proof.
  intros Hi Hs. unfold rlc_am_free_in_sdu. rewrite u32_small by lia.
  rewrite (proj2 (Z.leb_le _ _)) by (unfold RLC_AM_SDU_CONTROL_BUFFER_SIZE; lia).
  rewrite sdu_read_eq, res_ok_bind by done.
  eapply (arq_from _ (_ <| nb_sdu := _ |>)).
  2: apply arq_bind; [apply sdu_write_arq; [done|]|].
  1, 2: by destruct (sdu_mem_block _); destruct Hs; split.
  intros e' _ [Hc Hn]. destruct (_ =? i).
  - eapply arq_from; [|apply skip_transmitted_arq].
    + split; try done. intros _. split; [by apply next_index|done].
    + split; [by apply next_index|done].
    + div_lia.
  - apply skip_transmitted_arq; [done|div_lia].
Qed.

(** An SDU named by a PDU. *)
Lemma sdus_index_read p i : pdu_ok p -> 0 <= i < 32 ->
  exists k, rd (sdus_index p) i = Ok k /\ 0 <= k < 128.
Proof.
  intros [_ Hl Hf _ _ _ _] Hi. destruct (rd_ok (sdus_index p) i) as [k Hk]; [unfold zlen; lia|].
  exists k. split; [done|]. unfold rd in Hk. rewrite bool_decide_true in Hk by lia.
  destruct (_ !! _) as [x|] eqn:E; [|done]. injection Hk as ->.
  rewrite Forall_lookup in Hf. by eapply Hf.
Qed.

(** What is done with an SDU: [e1] is [e] with other counters. *)
Lemma finish_sdu_arq e e1 k (b : bool) :
  0 <= k < 128 -> sdus_ok e -> same_arq e e1 ->
  arq_result e (if b then rlc_am_free_in_sdu k e1 else Ok e).
Proof.
  intros Hk Hs H. destruct b; [|by apply arq_ok].
  eapply arq_from; [exact H|]. apply free_in_sdu_arq; [done|by apply H].
Qed.

Lemma ack_sdus_arq p : pdu_ok p -> forall fuel i e,
  sdus_ok e -> 0 <= i <= nb_sdus p -> nb_sdus p - i < Z.of_nat fuel ->
  arq_result e (ack_sdus fuel i p e).
Proof.
  intros Hp. induction fuel as [|fuel IH]; intros i e Hs Hi Hf; [lia|]. cbn [ack_sdus].
  destruct (Z.ltb_spec i (nb_sdus p)) as [Hlt|Hge]; [|by apply arq_ok].
  destruct (sdus_index_read p i Hp) as (k & -> & Hk); [destruct Hp; lia|].
  rewrite res_ok_bind, (proj2 (Z.leb_le 0 k)), (proj2 (Z.ltb_lt k _)) by
    (unfold RLC_AM_SDU_CONTROL_BUFFER_SIZE; lia). cbn [res_guard].
  rewrite !res_ok_bind, sdu_read_eq, res_ok_bind by done. cbv zeta.
  apply arq_bind; [by apply sdu_write_arq|]. intros e1 _ Hs1.
  apply arq_bind; [apply finish_sdu_arq; [done..|by split; try done; intros []]|]. intros e2 _ Hs2. apply IH; [done|lia..].
Qed.

Lemma discard_sdus_arq p : pdu_ok p -> forall fuel i e,
  sdus_ok e -> 0 <= i <= nb_sdus p -> nb_sdus p - i < Z.of_nat fuel ->
  arq_result e (discard_sdus fuel i p e).
Proof.
  intros Hp. induction fuel as [|fuel IH]; intros i e Hs Hi Hf; [lia|]. cbn [discard_sdus].
  destruct (Z.ltb_spec i (nb_sdus p)) as [Hlt|Hge]; [|by apply arq_ok].
  assert (Hi32 : i < 32) by (destruct Hp; lia).
  destruct (sdus_index_read p i Hp) as (k & -> & Hk); [lia|].
  rewrite res_ok_bind, (proj2 (Z.ltb_lt i _)), (proj2 (Z.ltb_lt k _)) by
    (unfold RLC_AM_SDU_CONTROL_BUFFER_SIZE, RLC_AM_MAX_SDU_IN_PDU; lia). cbn [res_guard].
  rewrite !res_ok_bind, sdu_read_eq, res_ok_bind by done. cbv zeta.
  apply arq_bind; [by apply sdu_write_arq|]. intros e1 _ Hs1.
  apply arq_bind; [apply finish_sdu_arq; [done..|by split; try done; intros []]|]. intros e2 _ Hs2. apply IH; [done|lia..].
Qed.

(** ** VT(A) *)

(** A turn of [advance_vt_a]. *)
Definition cleared (e : am_tx) : am_tx :=
  let e := write_pdu e (vt_a e) am_pdu0 in
  let e := if vt_a e =? first_retrans_pdu_sn e
           then e <| first_retrans_pdu_sn := sn_after (vt_a e) |> else e in
  e <| vt_a := sn_after (vt_a e) |>.

Lemma advance_step fuel e : sn_ok (vt_a e) ->
  advance_vt_a (S fuel) e
    = if flag_ack (pdu_at (cleared e) (sn_after (vt_a e))) && negb (sn_after (vt_a e) =? vt_s e)
      then advance_vt_a fuel (cleared e) else Ok (cleared e).
Proof.
  intros Ha. cbn [advance_vt_a]. rewrite pdu_write_eq, res_ok_bind by done.
  unfold cleared. cbv zeta.
  destruct (_ =? first_retrans_pdu_sn _); rewrite pdu_read_eq, res_ok_bind by apply next_sn_ok; done.
Qed.

(** What [e'] is after VT(A) has moved by [k]. *)
Record advanced (e e' : am_tx) (k : Z) : Prop := Advanced {
  av_k : 1 <= k <= dist (vt_a e) (vt_s e);
  av_a : sn_ok (vt_a e');
  av_dist : dist (vt_a e) (vt_a e') = k;
  av_pdus : forall sn, sn_ok sn ->
    pdu_at e' sn = if decide (dist (vt_a e) sn < k) then am_pdu0 else pdu_at e sn;
  av_acked : forall sn, sn_ok sn -> 1 <= dist (vt_a e) sn < k -> flag_ack (pdu_at e sn) = true;
  av_stop : vt_a e' <> vt_s e -> flag_ack (pdu_at e (vt_a e')) = false;
  av_s : vt_s e' = vt_s e;
  av_num : retrans_num_pdus e' = retrans_num_pdus e;
  av_bytes : retrans_num_bytes e' = retrans_num_bytes e;
  av_retrans : -1 <= first_retrans_pdu_sn e < 1024 -> -1 <= first_retrans_pdu_sn e' < 1024;
  av_sdus : sdus_ok e -> sdus_ok e'
}.

Lemma cleared_fields e :
  vt_a (cleared e) = sn_after (vt_a e) /\ vt_s (cleared e) = vt_s e /\
  retrans_num_pdus (cleared e) = retrans_num_pdus e /\
  retrans_num_bytes (cleared e) = retrans_num_bytes e /\
  (-1 <= first_retrans_pdu_sn e < 1024 -> -1 <= first_retrans_pdu_sn (cleared e) < 1024) /\
  (sdus_ok e -> sdus_ok (cleared e)) /\
  (forall sn, pdu_at (cleared e) sn = if decide (vt_a e = sn) then am_pdu0 else pdu_at e sn).
Proof.
  unfold cleared. cbv zeta. pose proof (next_sn_ok (vt_a (write_pdu e (vt_a e) am_pdu0))) as Hn.
  assert (Hp : forall sn, pdu_at (write_pdu e (vt_a e) am_pdu0) sn
    = if decide (vt_a e = sn) then am_pdu0 else pdu_at e sn) by apply pdu_at_write.
  unfold sn_ok in Hn. destruct (_ =? first_retrans_pdu_sn _); split_and!; try done.
  2, 3: by intros [].
  intros _. unfold update. cbn [first_retrans_pdu_sn vt_a] in *. lia.
Qed.

Lemma dist_from_next a x : dist (sn_after a) x < 1023 -> dist a x = dist (sn_after a) x + 1.
Proof. rewrite next_sn_mod. unfold dist. div_lia. Qed.

(** The loop ends after this turn. *)
Lemma advanced_once e :
  sn_ok (vt_a e) -> 1 <= dist (vt_a e) (vt_s e) ->
  (sn_after (vt_a e) <> vt_s e -> flag_ack (pdu_at (cleared e) (sn_after (vt_a e))) = false) ->
  advanced e (cleared e) 1.
Proof.
  intros Ha Hd Hst. destruct (cleared_fields e) as (Ea & Es & En & Eb & Er & Esd & Ep).
  pose proof (next_sn_ok (vt_a e)) as Hnok.
  assert (Hdn : dist (vt_a e) (sn_after (vt_a e)) = 1).
  { rewrite dist_next_r, dist_self; [done|]. rewrite dist_self. lia. }
  rewrite Ep in Hst. rewrite decide_False in Hst by (intros E0; rewrite <- E0, dist_self in Hdn; lia).
  split; rewrite ?Ea; try done; [|lia].
  intros sn Hsn. rewrite Ep. apply decide_ext. split.
  - intros <-. rewrite dist_self. lia.
  - intros H. symmetry. apply dist_0; [done..|]. pose proof (dist_range (vt_a e) sn). lia.
Qed.

(** The loop goes on. *)
Lemma advanced_more e e' k :
  sn_ok (vt_a e) -> sn_ok (vt_s e) -> sn_after (vt_a e) <> vt_s e -> vt_a e <> vt_s e ->
  flag_ack (pdu_at e (sn_after (vt_a e))) = true ->
  advanced (cleared e) e' k -> advanced e e' (k + 1).
Proof.
  intros Ha Hs Hneq Hne Hack [Hk Ha' Hd Hp Hak Hst Es' En' Eb' Er' Esd'].
  destruct (cleared_fields e) as (Ea & Es & En & Eb & Er & Esd & Ep).
  rewrite Ea, Es, dist_next in Hk by done. rewrite Ea in *. rewrite Es in *.
  pose proof (dist_range (vt_a e) (vt_s e)) as Hr.
  assert (Hd' : dist (vt_a e) (vt_a e') = k + 1) by (rewrite dist_from_next; lia).
  assert (Hna : forall sn, sn_ok sn -> sn <> vt_a e -> dist (sn_after (vt_a e)) sn = dist (vt_a e) sn - 1)
    by (intros; by apply dist_next).
  split; try (done || lia || congruence || tauto).
  - intros sn Hsn. rewrite Hp, Ep by done. destruct (decide (vt_a e = sn)) as [<-|Hsa].
    + rewrite dist_self, (decide_True (P := 0 < k + 1)) by lia. by case_decide.
    + rewrite Hna by done. apply decide_ext. lia.
  - intros sn Hsn Hsk. destruct (decide (sn = sn_after (vt_a e))) as [->|Hsn1]; [done|].
    assert (sn <> vt_a e) by (intros ->; rewrite dist_self in Hsk; lia).
    assert (dist (vt_a e) sn <> 1).
    { intros H1. apply Hsn1. apply (dist_inj (vt_a e)); [done|apply next_sn_ok|].
      rewrite dist_next_r, dist_self by (rewrite dist_self; lia). done. }
    specialize (Hak sn Hsn). rewrite Hna, Ep, decide_False in Hak by done. apply Hak. lia.
  - intros H. specialize (Hst H). rewrite Ep in Hst. rewrite decide_False in Hst; [done|].
    intros E0. rewrite <- E0, dist_self in Hd'. lia.
Qed.

Lemma advance_vt_a_ok fuel : forall e,
  sn_ok (vt_a e) -> sn_ok (vt_s e) -> vt_a e <> vt_s e -> dist (vt_a e) (vt_s e) < Z.of_nat fuel ->
  exists e' k, advance_vt_a fuel e = Ok e' /\ advanced e e' k.
Proof.
  induction fuel as [|fuel IH]; intros e Ha Hs Hne Hf; [pose proof (dist_range (vt_a e) (vt_s e)); lia|].
  rewrite advance_step by done.
  destruct (cleared_fields e) as (Ea & Es & _ & _ & _ & _ & Ep).
  assert (Hd : 1 <= dist (vt_a e) (vt_s e)).
  { pose proof (dist_range (vt_a e) (vt_s e)). assert (dist (vt_a e) (vt_s e) <> 0); [|lia].
    intros H0. by apply Hne, eq_sym, dist_0. }
  assert (Hn : vt_a e <> sn_after (vt_a e)).
  { rewrite next_sn_mod. unfold sn_ok in Ha. div_lia. }
  pose proof (next_sn_ok (vt_a e)) as Hnok.
  destruct (flag_ack (pdu_at (cleared e) (sn_after (vt_a e)))) eqn:Eack;
    destruct (Z.eqb_spec (sn_after (vt_a e)) (vt_s e)) as [Heq|Hneq]; cbn [andb negb];
    try (exists (cleared e), 1; split; [done|by apply advanced_once]).
  destruct (IH (cleared e)) as (e' & k & E & Hadv); rewrite ?Ea, ?Es; [done..| |].
  { rewrite dist_next by done. lia. }
  exists e', (k + 1). split; [done|]. apply advanced_more; try done.
  rewrite Ep, decide_False in Eack by done. exact Eack.
Qed.

(** ** Acknowledgement *)

(** [e'] is [e] after the acknowledgement of the SNs [acked] and the negative
    acknowledgement of the SNs [nacked]. *)
Record effect (acked nacked : Z -> bool) (e e' : am_tx) : Prop := Effect {
  ef_s : vt_s e' = vt_s e;
  ef_a : between (vt_a e) (vt_a e') (vt_s e);
  ef_out : forall sn, sn_ok sn -> outstanding e' sn = outstanding e sn && negb (acked sn);
  ef_kept : forall sn, sn_ok sn -> outstanding e' sn = true ->
    pdu_mem_block (pdu_at e' sn) = pdu_mem_block (pdu_at e sn) /\
    if nacked sn then flag_retransmit (pdu_at e' sn) = true else pdu_at e' sn = pdu_at e sn
}.

Definition none : Z -> bool := fun _ => false.
Definition either (f g : Z -> bool) : Z -> bool := fun sn => f sn || g sn.

Lemma effect_refl e : effect none none e e.
Proof. split; [done|apply between_left|intros; by rewrite andb_true_r|done]. Qed.

Lemma effect_trans a1 n1 a2 n2 e1 e2 e3 :
  effect a1 n1 e1 e2 -> effect a2 n2 e2 e3 -> effect (either a1 a2) (either n1 n2) e1 e3.
Proof.
  intros [Hs1 Ha1 Ho1 Hk1] [Hs2 Ha2 Ho2 Hk2]. split.
  - congruence.
  - rewrite Hs1 in Ha2. by eapply between_trans.
  - intros sn Hsn. rewrite Ho2, Ho1 by done. unfold either. by rewrite negb_orb, andb_assoc.
  - intros sn Hsn Hout. pose proof Hout as Hout2. rewrite Ho2 in Hout2 by done.
    apply andb_true_iff in Hout2 as [Hout2 _].
    destruct (Hk1 sn Hsn Hout2) as [Em1 E1]. destruct (Hk2 sn Hsn Hout) as [Em2 E2].
    split; [congruence|]. unfold either. destruct (n1 sn), (n2 sn); cbn [orb]; congruence.
Qed.

(** The sets may be replaced by others that agree on what matters. *)
Lemma effect_ext a n a' n' e e' :
  (forall sn, sn_ok sn -> outstanding e sn = true -> a sn = a' sn) ->
  (forall sn, sn_ok sn -> outstanding e sn = true -> n' sn = n sn) ->
  effect a n e e' -> effect a' n' e e'.
Proof.
  intros Ha Hn [Hs Hb Ho Hk]. split; [done..| |].
  - intros sn Hsn. rewrite Ho by done. destruct (outstanding e sn) eqn:E; [|done].
    cbn [andb]. f_equal. by apply Ha.
  - intros sn Hsn Hout. rewrite Hn; [by apply Hk|done|].
    rewrite Ho in Hout by done. by apply andb_true_iff in Hout as [? _].
Qed.

Lemma held_none p : pdu_mem_block p = None -> held p = false.
Proof. intros H. unfold held. rewrite H. by apply bool_decide_false, is_Some_None. Qed.

Lemma pdu0_held : held am_pdu0 = false.
Proof. done. Qed.

Lemma pdu0_ok : pdu_ok am_pdu0.
Proof. split; cbn; try lia; try done. by repeat constructor. Qed.

Lemma tx_inv_ms e x : tx_inv e -> tx_inv (e <| vt_ms := x |>).
Proof. intros [? ? ? ? ? ? [] ? ? ?]. by split. Qed.

Lemma move_window_ok e :
  tx_inv e -> vt_a e <> vt_s e -> outstanding e (vt_a e) = false ->
  exists e', move_window e = Ok e' /\ am_ok e' /\ effect none none e e'.
Proof.
  intros [Ha Hs Hw Hin Hout Hp Hsd Hnum Hby Hre] Hne Hna.
  assert (Hd : 0 < dist (vt_a e) (vt_s e)).
  { pose proof (dist_range (vt_a e) (vt_s e)). assert (dist (vt_a e) (vt_s e) <> 0); [|lia].
    intros H0. by apply Hne, eq_sym, dist_0. }
  destruct (advance_vt_a_ok 1025 e Ha Hs Hne) as (e1 & k & E & [Hk Ha' Hdk Hp' Hak Hst Es En Eb Er Esd]);
    [lia|].
  unfold move_window. rewrite E, res_ok_bind. eexists. split; [reflexivity|].
  assert (Hout' : forall sn, sn_ok sn -> outstanding e1 sn = outstanding e sn).
  { intros sn Hsn. unfold outstanding at 1. rewrite Hp' by done. case_decide as Hlt; [|done].
    rewrite pdu0_held. destruct (decide (sn = vt_a e)) as [->|Hsa]; [by rewrite Hna|].
    symmetry. apply negb_true_iff. rewrite <- Hin by (done || lia).
    apply Hak; [done|]. pose proof (dist_range (vt_a e) sn).
    assert (dist (vt_a e) sn <> 0); [|lia]. intros H0. by apply Hsa, dist_0. }
  assert (Hbet : between (vt_a e) (vt_a e1) (vt_s e)).
  { unfold between. unfold dist in *. revert Hk Hdk. clear. div_lia. }
  assert (Hsum : forall f, f am_pdu0 = 0 -> (forall p, held p = false -> f p = 0) -> total f e1 = total f e).
  { intros f Hf0 Hf. apply total_ext. intros sn Hsn. rewrite Hp' by done. case_decide as Hlt; [|done].
    rewrite Hf0. symmetry. apply Hf. rewrite <- (pdu0_held). fold (outstanding e sn).
    rewrite <- Hout' by done. unfold outstanding. rewrite Hp' by done. by rewrite decide_True. }
  assert (Hkept : forall sn, sn_ok sn -> outstanding e1 sn = true -> pdu_at e1 sn = pdu_at e sn).
  { intros sn Hsn H. rewrite Hp' by done. case_decide as Hlt; [|done].
    unfold outstanding in H. rewrite Hp' in H by done. by rewrite decide_True in H. }
  assert (Hsplit : forall sn, dist (vt_a e) sn = k + dist (vt_a e1) sn
    \/ dist (vt_a e) sn = k + dist (vt_a e1) sn - 1024).
  { intros sn. destruct (between_dist _ _ _ sn Hbet); lia. }
  unfold between in Hbet. rewrite Hdk in Hbet.
  set (e2 := e1 <| vt_ms := _ |>).
  assert (Hinv : tx_inv e2).
  { apply tx_inv_ms. split; rewrite ?Es, ?En, ?Eb; try done; try (by auto); try lia.
    - intros sn Hsn Hlt. pose proof (dist_range (vt_a e) sn). pose proof (dist_range (vt_a e1) sn).
      destruct (Hsplit sn); [|lia].
      rewrite Hout', Hp', decide_False by (done || lia). apply Hin; [done|lia].
    - intros sn Hsn Hge. rewrite Hout', Hp' by done. case_decide as Hlt.
      + split; [done|]. rewrite <- Hout' by done. unfold outstanding. by rewrite Hp', decide_True.
      + apply Hout; [done|]. pose proof (dist_range (vt_a e1) sn). pose proof (dist_range (vt_a e) sn).
        destruct (Hsplit sn); lia.
    - intros sn Hsn. rewrite Hp' by done. case_decide; [apply pdu0_ok|by apply Hp].
    - rewrite Hnum. symmetry. apply Hsum; [done|]. intros p Hh. unfold count_pdu. by rewrite Hh.
    - rewrite Hby. symmetry. apply Hsum; [done|]. intros p Hh. unfold count_bytes. by rewrite Hh. }
  split.
  { split; [done| |].
    + unfold e2, update. cbn [vt_ms vt_a]. apply (land_ones_mod _ 10). lia.
    + change (vt_a e1 <> vt_s e1 -> outstanding e1 (vt_a e1) = true). rewrite Es. intros H.
      specialize (Hst H). rewrite Hout' by done. rewrite Hin in Hst; [by apply negb_false_iff|done|].
      pose proof (dist_range (vt_a e1) (vt_s e)).
      assert (dist (vt_a e1) (vt_s e) <> 0); [|lia]. intros Hz. by apply H, eq_sym, dist_0. }
  split.
  - done.
  - change (between (vt_a e) (vt_a e1) (vt_s e)). unfold between. lia.
  - intros sn Hsn. rewrite andb_true_r. by apply Hout'.
  - intros sn Hsn H. change (pdu_at e2 sn) with (pdu_at e1 sn). by rewrite (Hkept sn Hsn H).
Qed.

(** The search for the next PDU to retransmit. *)
Lemma next_retrans_ok fuel : forall e,
  sn_ok (vt_s e) -> dist (sn_after (first_retrans_pdu_sn e)) (vt_s e) < Z.of_nat fuel ->
  exists x, next_retrans fuel e = Ok (e <| first_retrans_pdu_sn := x |>) /\ sn_ok x.
Proof.
  induction fuel as [|fuel IH]; intros e Hs Hf;
    [pose proof (dist_range (sn_after (first_retrans_pdu_sn e)) (vt_s e)); lia|].
  cbn [next_retrans]. set (x := sn_after (first_retrans_pdu_sn e)) in *.
  set (e1 := e <| first_retrans_pdu_sn := x |>).
  change (first_retrans_pdu_sn e1) with x. change (vt_s e1) with (vt_s e).
  assert (Hx : sn_ok x) by apply next_sn_ok.
  rewrite pdu_read_eq, res_ok_bind by done.
  destruct (0 <=? _); [by exists x|]. destruct (Z.eqb_spec x (vt_s e)) as [|Hne]; [by exists x|].
  destruct (IH e1 Hs) as (y & -> & Hy).
  { change (dist (sn_after x) (vt_s e) < Z.of_nat fuel). rewrite dist_next by (done || by apply not_eq_sym).
    lia. }
  by exists y.
Qed.

Lemma tx_ok_retrans e x : am_ok e -> -1 <= x < 1024 -> am_ok (e <| first_retrans_pdu_sn := x |>).
Proof. intros [[? ? ? ? ? ? [] ? ? ?] Hm Hf] Hx. by split; [split|..]. Qed.

Lemma effect_retrans a n e e' x :
  effect a n e e' -> effect a n e (e' <| first_retrans_pdu_sn := x |>).
Proof. intros [Hs Hb Ho Hk]. by split. Qed.

Lemma tx_inv_same e e' : tx_inv e -> same_arq e e' -> sdus_ok e' -> tx_inv e'.
Proof.
  intros [? ? ? Hi Ho Hp ? Hn Hb ?] [Eb Ea Es Em En Ey Er _] Hsd.
  assert (Hpd : forall sn, pdu_at e' sn = pdu_at e sn) by (intros; unfold pdu_at; by rewrite Eb).
  assert (Hou : forall sn, outstanding e' sn = outstanding e sn)
    by (intros; unfold outstanding; by rewrite Hpd).
  split; rewrite ?Ea, ?Es, ?En, ?Ey, ?Er; try done.
  - intros sn. rewrite Hpd, Hou. apply Hi.
  - intros sn. rewrite Hpd, Hou. apply Ho.
  - intros sn. rewrite Hpd. apply Hp.
  - rewrite Hn. symmetry. apply total_ext. intros sn _. by rewrite Hpd.
  - rewrite Hb. symmetry. apply total_ext. intros sn _. by rewrite Hpd.
Qed.

(** [e'] has [p] in the place of [sn]. *)
Record replaced (e : am_tx) (sn : Z) (p : am_tx_pdu) (e' : am_tx) : Prop := Replaced {
  rp_pdus : forall sn', pdu_at e' sn' = if decide (sn = sn') then p else pdu_at e sn';
  rp_a : vt_a e' = vt_a e;
  rp_s : vt_s e' = vt_s e;
  rp_num : retrans_num_pdus e' = retrans_num_pdus e + count_pdu p - count_pdu (pdu_at e sn);
  rp_bytes : retrans_num_bytes e' = retrans_num_bytes e + count_bytes p - count_bytes (pdu_at e sn);
  rp_retrans : -1 <= first_retrans_pdu_sn e' < 1024;
  rp_sdus : sdus_ok e'
}.

Lemma replaced_total f e sn p e' : sn_ok sn -> replaced e sn p e' ->
  total f e' = total f e + f p - f (pdu_at e sn).
Proof.
  intros Hsn H. rewrite <- total_write by done. apply total_ext. intros sn' _.
  by rewrite (rp_pdus _ _ _ _ H), pdu_at_write.
Qed.

Lemma replaced_out e sn p e' sn' : replaced e sn p e' ->
  outstanding e' sn' = if decide (sn = sn') then held p else outstanding e sn'.
Proof. intros H. unfold outstanding. rewrite (rp_pdus _ _ _ _ H). by case_decide. Qed.

Lemma replaced_inv e sn p e' :
  tx_inv e -> sn_ok sn -> replaced e sn p e' -> pdu_ok p ->
  (dist (vt_a e) sn < dist (vt_a e) (vt_s e) -> flag_ack p = negb (held p)) ->
  (dist (vt_a e) (vt_s e) <= dist (vt_a e) sn -> flag_ack p = false /\ held p = false) ->
  tx_inv e'.
Proof.
  intros [Ha Hs Hw Hin Hout Hp Hsd Hnum Hby Hre] Hsn H Hpo H1 H2.
  pose proof H as [Ep Ea Es En Eb Er Esd].
  split; rewrite ?Ea, ?Es; try done.
  - intros sn' Hsn' Hlt. rewrite Ep, (replaced_out _ _ _ _ sn' H). case_decide; subst; auto.
  - intros sn' Hsn' Hge. rewrite Ep, (replaced_out _ _ _ _ sn' H). case_decide; subst; auto.
  - intros sn' Hsn'. rewrite Ep. case_decide; auto.
  - rewrite En, (replaced_total _ _ _ _ _ Hsn H). lia.
  - rewrite Eb, (replaced_total _ _ _ _ _ Hsn H). lia.
Qed.

(** The set of one SN. *)
Definition only (sn : Z) : Z -> bool := fun sn' => bool_decide (sn = sn').

(** A PDU that is not held any more. *)
Lemma replaced_acked e sn p e' : replaced e sn p e' -> held p = false ->
  effect (only sn) none e e'.
Proof.
  intros H Hp. pose proof H as [Ep Ea Es _ _ _ _]. split; [done|rewrite Ea; apply between_left| |].
  - intros sn' _. rewrite (replaced_out _ _ _ _ sn' H). unfold only.
    case_decide as Hd; [rewrite bool_decide_true|rewrite bool_decide_false, andb_true_r]; try done.
    by rewrite Hp, andb_false_r.
  - intros sn' _. rewrite (replaced_out _ _ _ _ sn' H), Ep. unfold none. case_decide; [congruence|done].
Qed.

Lemma tx_first_ok e sn p e' : am_ok e -> replaced e sn p e' -> tx_inv e' -> vt_ms e' = vt_ms e ->
  sn <> vt_a e -> am_ok e'.
Proof.
  intros [_ Hm Hf] H Hi Em Hne. split; [done|by rewrite Em, (rp_a _ _ _ _ H)|].
  rewrite (rp_a _ _ _ _ H), (rp_s _ _ _ _ H), (replaced_out _ _ _ _ _ H). by rewrite decide_False.
Qed.

(** The counters stay within an [int]. *)
Lemma counts_small e : tx_inv e ->
  0 <= retrans_num_pdus e <= 1024 /\ 0 <= retrans_num_bytes e <= 1024 * 65536.
Proof.
  intros H. rewrite (ok_num _ H), (ok_bytes _ H). split.
  - pose proof (total_bound count_pdu e 1) as Hb. apply Hb; [|lia].
    intros sn _. unfold count_pdu. case_match; lia.
  - apply total_bound; [|lia]. intros sn Hsn. unfold count_bytes.
    pose proof (po_size _ (ok_pdus _ H sn Hsn)). case_match; lia.
Qed.

Lemma pdu_ok_same p p' : pdu_ok p ->
  nb_sdus p' = nb_sdus p -> sdus_index p' = sdus_index p -> holes p' = holes p ->
  num_holes p' = num_holes p -> header_and_payload_size p' = header_and_payload_size p ->
  payload_size p' = payload_size p -> (held p' = true -> held p = true) -> pdu_ok p'.
Proof. intros [] E1 E2 E3 E4 E5 E6 Hh. split; rewrite ?E1, ?E2, ?E3, ?E4, ?E5, ?E6; by auto. Qed.

(** A PDU outstanding is within the window and not acknowledged. *)
Lemma outstanding_inside e sn : tx_inv e -> sn_ok sn -> outstanding e sn = true ->
  dist (vt_a e) sn < dist (vt_a e) (vt_s e) /\ flag_ack (pdu_at e sn) = false.
Proof.
  intros H Hsn Ho. destruct (Z.lt_ge_cases (dist (vt_a e) sn) (dist (vt_a e) (vt_s e))) as [Hlt|Hge].
  - split; [done|]. rewrite (ok_inside _ H) by done. by rewrite Ho.
  - destruct (ok_outside _ H sn Hsn Hge) as [_ Hf]. congruence.
Qed.

(** The entity after the first half of [rlc_am_ack_pdu], for a PDU held. *)
Definition acked_pdu (p : am_tx_pdu) : am_tx_pdu :=
  p <| flag_retransmit := false |> <| pdu_mem_block := None |> <| flag_ack := true |>.

Lemma acked_pdu_ok p : pdu_ok p -> pdu_ok (acked_pdu p).
Proof. intros H. by apply (pdu_ok_same p). Qed.

(** What follows once the PDU is marked. *)
Lemma ack_tail e sn e3 :
  am_ok e -> sn_ok sn -> outstanding e sn = true ->
  replaced e sn (acked_pdu (pdu_at e sn)) e3 -> vt_ms e3 = vt_ms e ->
  exists e', (e ← (if sn =? vt_a e3 then move_window e3 else Ok e3);
    if sn =? first_retrans_pdu_sn e then
      e ← next_retrans 1025 e;
      Ok (if vt_s e =? first_retrans_pdu_sn e then e <| first_retrans_pdu_sn := -1 |> else e)
    else Ok e) = Ok e' /\ am_ok e' /\ effect (only sn) none e e'.
Proof.
  intros Hok Hsn Ho H3 Hms. pose proof (ok_inv _ Hok) as Hinv.
  destruct (outstanding_inside e sn Hinv Hsn Ho) as [Hin _].
  assert (Hi3 : tx_inv e3).
  { apply (replaced_inv e sn _ e3 Hinv Hsn H3); [apply acked_pdu_ok, (ok_pdus _ Hinv sn Hsn)|done|lia]. }
  pose proof (replaced_acked _ _ _ _ H3 eq_refl) as Heff.
  assert (H4 : exists e4, (if sn =? vt_a e3 then move_window e3 else Ok e3) = Ok e4 /\ am_ok e4 /\
    effect (only sn) none e e4).
  { destruct (Z.eqb_spec sn (vt_a e3)) as [Heq|Hne].
    - destruct (move_window_ok e3 Hi3) as (e4 & -> & Hok4 & Heff4).
      + rewrite <- Heq, (rp_s _ _ _ _ H3). intros Hs. rewrite (rp_a _ _ _ _ H3) in Heq.
        rewrite Heq, <- Hs, Heq in Hin. lia.
      + rewrite (replaced_out _ _ _ _ _ H3), decide_True by done. done.
      + exists e4. split; [done|]. split; [done|].
        pose proof (effect_trans _ _ _ _ _ _ _ Heff Heff4) as He.
        eapply effect_ext; [..|exact He]; unfold either, none; intros; by rewrite ?orb_false_r.
    - exists e3. split; [done|]. split; [|done].
      eapply tx_first_ok; try done. by rewrite <- (rp_a _ _ _ _ H3). }
  destruct H4 as (e4 & -> & Hok4 & Heff4). rewrite res_ok_bind.
  destruct (sn =? first_retrans_pdu_sn e4); [|by exists e4].
  destruct (next_retrans_ok 1025 e4) as (x & -> & Hx).
  { apply Hok4. }
  { pose proof (dist_range (sn_after (first_retrans_pdu_sn e4)) (vt_s e4)). lia. }
  rewrite res_ok_bind. unfold sn_ok in Hx. eexists. split; [reflexivity|].
  split; case_match; repeat (apply tx_ok_retrans || apply effect_retrans); (done || lia).
Qed.

(** The entity when the SDUs are looked at. *)
Definition release (e : am_tx) (sn : Z) (p : am_tx_pdu) : am_tx :=
  let e := write_pdu e sn p in
  let e := e <| retrans_num_pdus := s32 (retrans_num_pdus e - 1) |>
             <| retrans_num_bytes := s32 (retrans_num_bytes e - header_and_payload_size p) |> in
  if 0 <=? retx_count p
  then e <| retrans_num_bytes_to_retransmit :=
              s32 (retrans_num_bytes_to_retransmit e - header_and_payload_size p) |>
  else e.

Lemma release_fields e sn p :
  pdu_retrans_buffer (release e sn p) = <[sn := p]> (pdu_retrans_buffer e) /\
  vt_a (release e sn p) = vt_a e /\ vt_s (release e sn p) = vt_s e /\
  vt_ms (release e sn p) = vt_ms e /\
  retrans_num_pdus (release e sn p) = s32 (retrans_num_pdus e - 1) /\
  retrans_num_bytes (release e sn p) = s32 (retrans_num_bytes e - header_and_payload_size p) /\
  first_retrans_pdu_sn (release e sn p) = first_retrans_pdu_sn e /\
  (sdus_ok e -> sdus_ok (release e sn p)).
Proof. unfold release. cbv zeta. case_match; split_and!; try done; by intros []. Qed.

(** The SDUs are done, and the PDU is marked. *)
Lemma release_replaced e sn e2 :
  tx_inv e -> sn_ok sn -> held (pdu_at e sn) = true ->
  let p1 := (pdu_at e sn) <| flag_retransmit := false |> <| pdu_mem_block := None |> in
  same_arq (release e sn p1) e2 -> sdus_ok e2 ->
  replaced e sn (acked_pdu (pdu_at e sn)) (write_pdu e2 sn ((pdu_at e2 sn) <| flag_ack := true |>)).
Proof.
  intros Hinv Hsn Hh p1 [Sb Sa Ss _ Sn Sy Sr _] Hsd.
  destruct (release_fields e sn p1) as (Fb & Fa & Fs & _ & Fn & Fy & Fr & _).
  pose proof (counts_small e Hinv) as [Hc1 Hc2].
  pose proof (po_size _ (ok_pdus _ Hinv sn Hsn)) as Hsz.
  assert (Ep : forall sn', pdu_at e2 sn' = pdu_at (write_pdu e sn p1) sn').
  { intros sn'. unfold pdu_at at 1. by rewrite Sb, Fb. }
  split.
  - intros sn'. rewrite pdu_at_write, !Ep, !pdu_at_write. rewrite (decide_True (P := sn = sn)) by done.
    by case_decide.
  - by rewrite <- Fa, <- Sa.
  - by rewrite <- Fs, <- Ss.
  - change (retrans_num_pdus (write_pdu _ _ _)) with (retrans_num_pdus e2).
    rewrite Sn, Fn, s32_small by lia. unfold count_pdu at 2. rewrite Hh.
    change (count_pdu (acked_pdu _)) with 0. lia.
  - change (retrans_num_bytes (write_pdu _ _ _)) with (retrans_num_bytes e2).
    change (header_and_payload_size p1) with (header_and_payload_size (pdu_at e sn)) in *.
    rewrite Sy, Fy, s32_small by lia. unfold count_bytes at 2. rewrite Hh.
    change (count_bytes (acked_pdu _)) with 0. lia.
  - change (first_retrans_pdu_sn (write_pdu _ _ _)) with (first_retrans_pdu_sn e2).
    rewrite Sr, Fr. apply Hinv.
  - by destruct Hsd.
Qed.

Lemma ack_held e sn :
  am_ok e -> sn_ok sn -> outstanding e sn = true ->
  exists e', rlc_am_ack_pdu e sn = Ok e' /\ am_ok e' /\ effect (only sn) none e e'.
Proof.
  intros Hok Hsn Ho. pose proof (ok_inv _ Hok) as Hinv.
  destruct (outstanding_inside e sn Hinv Hsn Ho) as [Hin Hack].
  pose proof (ok_pdus _ Hinv sn Hsn) as Hpo. pose proof (ok_sdus _ Hinv) as Hsd.
  unfold rlc_am_ack_pdu. rewrite pdu_read_eq, res_ok_bind by done. cbv zeta.
  change (bool_decide (is_Some (pdu_mem_block ((pdu_at e sn) <| flag_retransmit := false |>))))
    with (outstanding e sn).
  change (flag_ack ((pdu_at e sn) <| flag_retransmit := false |>)) with (flag_ack (pdu_at e sn)).
  rewrite Hack, Ho. cbn [negb andb]. rewrite pdu_write_eq, res_ok_bind by done.
  set (p1 := (pdu_at e sn) <| flag_retransmit := false |> <| pdu_mem_block := None |>).
  fold (release e sn p1).
  destruct (release_fields e sn p1) as (_ & _ & _ & Fm & _ & _ & _ & Fsd).
  assert (Hp1 : pdu_ok p1) by (by apply (pdu_ok_same (pdu_at e sn))).
  destruct (ack_sdus_arq p1 Hp1 129 0 (release e sn p1)) as (e2 & -> & H2 & Hsd2).
  { by apply Fsd. }
  { destruct Hp1; lia. }
  { destruct Hp1; lia. }
  rewrite res_ok_bind, pdu_read_eq, res_ok_bind, pdu_write_eq, res_ok_bind by done.
  apply ack_tail; [done..| |].
  - by apply release_replaced.
  - change (vt_ms (write_pdu _ _ _)) with (vt_ms e2). by rewrite (sa_ms _ _ H2).
Qed.

(** An acknowledgement of what is not outstanding changes nothing. *)
Lemma ack_not_held e sn :
  am_ok e -> sn_ok sn -> outstanding e sn = false ->
  exists e', rlc_am_ack_pdu e sn = Ok e' /\ am_ok e' /\ effect none none e e'.
Proof.
  intros Hok Hsn Ho. pose proof (ok_inv _ Hok) as Hinv.
  pose proof (ok_pdus _ Hinv sn Hsn) as Hpo. pose proof (ok_sdus _ Hinv) as Hsd.
  unfold rlc_am_ack_pdu. rewrite pdu_read_eq, res_ok_bind by done. cbv zeta.
  change (bool_decide (is_Some (pdu_mem_block ((pdu_at e sn) <| flag_retransmit := false |>))))
    with (outstanding e sn).
  change (flag_ack ((pdu_at e sn) <| flag_retransmit := false |>)) with (flag_ack (pdu_at e sn)).
  rewrite Ho, andb_false_r. rewrite pdu_write_eq, res_ok_bind by done.
  set (p1 := (pdu_at e sn) <| flag_retransmit := false |> <| pdu_mem_block := None |>).
  assert (Hp1 : pdu_ok p1) by (by apply (pdu_ok_same (pdu_at e sn))).
  assert (H1 : replaced e sn p1 (write_pdu e sn p1)).
  { split; try done; try apply pdu_at_write; try apply Hinv.
    - unfold count_pdu. change (held p1) with false. unfold outstanding in Ho. rewrite Ho.
      change (retrans_num_pdus (write_pdu e sn p1)) with (retrans_num_pdus e). lia.
    - unfold count_bytes. change (held p1) with false. unfold outstanding in Ho. rewrite Ho.
      change (retrans_num_bytes (write_pdu e sn p1)) with (retrans_num_bytes e). lia.
    - by destruct Hsd. }
  assert (Hi1 : tx_inv (write_pdu e sn p1)).
  { eapply replaced_inv; [done..| |].
    - intros Hlt. change (flag_ack p1) with (flag_ack (pdu_at e sn)). rewrite (ok_inside _ Hinv) by done.
      by rewrite Ho.
    - intros Hge. by destruct (ok_outside _ Hinv sn Hsn Hge). }
  pose proof (replaced_acked _ _ _ _ H1 eq_refl) as Heff.
  assert (Heff1 : effect none none e (write_pdu e sn p1)).
  { eapply effect_ext; [..|exact Heff]; [|done]. intros sn' Hsn' Ho'. unfold only, none.
    apply bool_decide_false. intros <-. congruence. }
  exists (write_pdu e sn p1). split; [|split; [|done]].
  - change (vt_a (write_pdu e sn p1)) with (vt_a e).
    destruct (flag_ack (pdu_at e sn)) eqn:Ef; [|done]. destruct (Z.eqb_spec sn (vt_a e)) as [->|]; [|done].
    destruct (decide (vt_a e = vt_s e)) as [Heq|Hne].
    + destruct (ok_outside _ Hinv (vt_a e)) as [Hf _]; [done|rewrite Heq; lia|congruence].
    + rewrite (ok_first _ Hok Hne) in Ho. done.
  - split; [done|apply Hok|]. intros Hne. rewrite (replaced_out _ _ _ _ _ H1).
    change (vt_a (write_pdu e sn p1)) with (vt_a e) in *.
    case_decide as Hd; [|by apply Hok]. subst sn. by rewrite (ok_first _ Hok Hne) in Ho.
Qed.

Lemma ack_pdu_ok e sn :
  am_ok e -> sn_ok sn ->
  exists e', rlc_am_ack_pdu e sn = Ok e' /\ am_ok e' /\ effect (only sn) none e e'.
Proof.
  intros Hok Hsn. destruct (outstanding e sn) eqn:Ho; [by apply ack_held|].
  destruct (ack_not_held e sn Hok Hsn Ho) as (e' & -> & Hok' & Heff).
  exists e'. split; [done|]. split; [done|]. eapply effect_ext; [..|exact Heff]; [|done].
  intros sn' _ Ho'. unfold only, none. symmetry. apply bool_decide_false. intros <-. congruence.
Qed.
