(* ===== verification/RlcAmStatusRefine.v ===== *)
(** RLC AM v9.3.0: the processing of a whole STATUS PDU against what it means. *)
From S2P Require Import Prelude.
From S2P Require Import RlcAmEntity.
From S2P Require Import RlcAmSn.
From S2P Require Import RlcAmStatus.
From S2P Require Import RlcAmStatusSpec.
From S2P Require Import RlcAmRetransmit.
From S2P Require Import RlcAmHolesSpec.
From S2P Require Import RlcAmArqSpec.

Local Open Scope Z_scope.

(** ** Negative acknowledgement *)

(** The part of [rlc_am_nack_pdu] behind [rlc_am_add_hole]; [e] has counted the
    entry and [p] has the hole. *)
Definition nack_mark (e : am_tx) (snP : Z) (p : am_tx_pdu) : res am_tx :=
  let e :=
    if (first_retrans_pdu_sn e <? 0)
       || truth (rlc_am_tx_sn1_gt_sn2 e (first_retrans_pdu_sn e) snP)
    then e <| first_retrans_pdu_sn := snP |> else e in
  let p := p <| flag_retransmit := true |> in
  let e := if retx_count p =? -1
           then e <| retrans_num_bytes_to_retransmit :=
                       s32 (retrans_num_bytes_to_retransmit e + header_and_payload_size p) |>
           else e in
  let p := p <| retx_count := if retx_count p =? -1 then 0 else s8 (retx_count p + 1) |> in
  e ← pdu_write e snP p;
  if max_retx_threshold e <=? retx_count p then discard_sdus 129 0 p e else Ok e.

Lemma tx_ok_same e e' : am_ok e -> same_arq e e' -> sdus_ok e' -> am_ok e'.
Proof.
  intros [Hi Hm Hf] H Hsd. split; [by eapply tx_inv_same|by rewrite (sa_ms _ _ H), (sa_a _ _ H)|].
  unfold outstanding, pdu_at. rewrite (sa_a _ _ H), (sa_s _ _ H), (sa_buffer _ _ H). exact Hf.
Qed.

Lemma effect_same a n e e1 e2 : effect a n e e1 -> same_arq e1 e2 -> effect a n e e2.
Proof.
  intros [Hs Ha Ho Hk] [Sb Sa Ss _ _ _ _ _].
  assert (Hp : forall sn, pdu_at e2 sn = pdu_at e1 sn) by (intros; unfold pdu_at; by rewrite Sb).
  split; rewrite ?Ss, ?Sa; try done; intros sn Hsn; unfold outstanding; rewrite Hp;
    [by apply Ho|by apply Hk].
Qed.

(** A PDU that is marked and still held. *)
Lemma replaced_nacked e sn p e' : replaced e sn p e' ->
  outstanding e sn = true -> pdu_mem_block p = pdu_mem_block (pdu_at e sn) ->
  flag_retransmit p = true -> effect none (only sn) e e'.
Proof.
  intros H Ho Hm Hf. pose proof H as [Ep Ea Es _ _ _ _]. split; [done|rewrite Ea; apply between_left| |].
  - intros sn' _. rewrite (replaced_out _ _ _ _ sn' H), andb_true_r. case_decide; [|done].
    subst sn'. unfold held. by rewrite Hm.
  - intros sn' _ _. rewrite Ep. unfold only. case_decide as Hd.
    + subst sn'. by rewrite bool_decide_true.
    + by rewrite bool_decide_false.
Qed.

Lemma nack_mark_ok e e0 sn p :
  am_ok e -> sn_ok sn -> outstanding e sn = true ->
  same_arq e e0 -> sdus_ok e0 -> pdu_ok p ->
  pdu_mem_block p = pdu_mem_block (pdu_at e sn) ->
  header_and_payload_size p = header_and_payload_size (pdu_at e sn) ->
  flag_ack p = flag_ack (pdu_at e sn) ->
  exists e', nack_mark e0 sn p = Ok e' /\ am_ok e' /\ effect none (only sn) e e'.
Proof.
  intros Hok Hsn Ho H0 Hsd Hp Hm Hsz Hfa. pose proof (ok_inv _ Hok) as Hinv.
  destruct (outstanding_inside e sn Hinv Hsn Ho) as [Hin Hack].
  assert (Hh : held p = true) by (unfold held; by rewrite Hm).
  unfold nack_mark. cbv zeta.
  set (e1 := if (first_retrans_pdu_sn e0 <? 0) || _ then _ else _).
  set (p1 := p <| flag_retransmit := true |>).
  set (e2 := if retx_count p1 =? -1 then e1 <| retrans_num_bytes_to_retransmit := _ |> else e1).
  set (p2 := p1 <| retx_count := _ |>).
  assert (Hp2 : pdu_ok p2) by (by apply (pdu_ok_same p)).
  assert (H2 : vt_ms (write_pdu e2 sn p2) = vt_ms e /\ replaced e sn p2 (write_pdu e2 sn p2)).
  { destruct H0 as [Sb Sa Ss Sm Sn Sy Sr _].
    assert (Hb : pdu_retrans_buffer e2 = pdu_retrans_buffer e /\ vt_a e2 = vt_a e /\
      vt_s e2 = vt_s e /\ vt_ms e2 = vt_ms e /\ retrans_num_pdus e2 = retrans_num_pdus e /\
      retrans_num_bytes e2 = retrans_num_bytes e /\ -1 <= first_retrans_pdu_sn e2 < 1024 /\
      sdus_ok e2).
    { pose proof (ok_retrans _ Hinv) as Hr. unfold sn_ok in Hsn.
      subst e2 e1. destruct Hsd. destruct (_ || _), (retx_count p1 =? -1);
        split_and!; try done; try (unfold update; cbn [first_retrans_pdu_sn]; lia). }
    destruct Hb as (Eb & Ea & Es & Em & En & Ey & Er & Esd). split; [exact Em|].
    split; try done.
    - intros sn'. rewrite pdu_at_write. unfold pdu_at. by rewrite Eb.
    - change (retrans_num_pdus (write_pdu e2 sn p2)) with (retrans_num_pdus e2).
      unfold count_pdu. change (held p2) with (held p). unfold outstanding in Ho. rewrite Ho, Hh. lia.
    - change (retrans_num_bytes (write_pdu e2 sn p2)) with (retrans_num_bytes e2).
      unfold count_bytes. change (held p2) with (held p). unfold outstanding in Ho. rewrite Ho, Hh.
      change (header_and_payload_size p2) with (header_and_payload_size p). lia.
    - by destruct Esd. }
  destruct H2 as [Hms H2].
  assert (Hok2 : am_ok (write_pdu e2 sn p2)).
  { split.
    - eapply replaced_inv; [done..|intros _|lia].
      change (flag_ack p2) with (flag_ack p). change (held p2) with (held p). by rewrite Hfa, Hack, Hh.
    - rewrite Hms, (rp_a _ _ _ _ H2). apply Hok.
    - rewrite (rp_a _ _ _ _ H2), (rp_s _ _ _ _ H2), (replaced_out _ _ _ _ _ H2). intros Hne.
      case_decide; [exact Hh|by apply Hok]. }
  pose proof (replaced_nacked _ _ _ _ H2 Ho Hm eq_refl) as Heff.
  rewrite pdu_write_eq, res_ok_bind by done. destruct (_ <=? _); [|by eexists].
  destruct (discard_sdus_arq p2 Hp2 129 0 (write_pdu e2 sn p2)) as (e3 & -> & H3 & Hsd3).
  { apply Hok2. }
  { destruct Hp2; lia. }
  { destruct Hp2; lia. }
  exists e3. split; [done|]. split; [by eapply tx_ok_same|by eapply effect_same].
Qed.

(** An entry that is not for the whole PDU. *)
Definition whole_pdu (n : nack_sn) : bool := (so_start n =? 0) && (so_end n =? 0x7FFF).

Lemma nack_pdu_eq e frame sn s t :
  sn_ok sn -> outstanding e sn = true ->
  rlc_am_nack_pdu e frame sn s t =
    (let e1 := e <| num_nack_sn := u32 (num_nack_sn e + 1) |> in
     _ ← res_guard (s <=? t) EAssert;
     p ← rlc_am_add_hole
           (if last_nack_time (pdu_at e sn) =? frame then pdu_at e sn
            else rlc_am_clear_holes ((pdu_at e sn) <| last_nack_time := frame |>)) s t;
     nack_mark (if (s =? 0) && (t =? 0x7FFF) then e1
                else e1 <| num_nack_so := u32 (num_nack_so e1 + 1) |>) sn p).
Proof.
  intros Hsn Ho. unfold rlc_am_nack_pdu. rewrite pdu_read_eq, res_ok_bind by done.
  unfold outstanding, held in Ho. apply bool_decide_eq_true in Ho as [b Hb]. by rewrite Hb.
Qed.

Lemma not_held p : held p = false -> pdu_mem_block p = None.
Proof. unfold held. intros H%bool_decide_eq_false. by apply eq_None_not_Some. Qed.

Lemma nack_pdu_ok e frame sn s t :
  am_ok e -> sn_ok sn ->
  match rlc_am_nack_pdu e frame sn s t with
  | Ok e' => am_ok e' /\ effect none (only sn) e e'
  | Err _ => (s =? 0) && (t =? 0x7FFF) = false
  end.
Proof.
  intros Hok Hsn. pose proof (ok_inv _ Hok) as Hinv. destruct (outstanding e sn) eqn:Ho.
  2: { unfold rlc_am_nack_pdu. rewrite pdu_read_eq, res_ok_bind by done.
       rewrite (not_held _ Ho). split; [done|]. apply (effect_ext none none); [done| |apply effect_refl].
       intros sn' _ Ho'. unfold only, none. apply bool_decide_false. intros <-. congruence. }
  rewrite nack_pdu_eq by done. cbv zeta.
  set (p0 := if last_nack_time _ =? frame then _ else _).
  pose proof (ok_pdus _ Hinv sn Hsn) as Hpo.
  assert (Hp0 : pdu_ok p0 /\ pdu_mem_block p0 = pdu_mem_block (pdu_at e sn) /\
    header_and_payload_size p0 = header_and_payload_size (pdu_at e sn) /\
    flag_ack p0 = flag_ack (pdu_at e sn)).
  { subst p0. destruct (_ =? frame); [done|]. split; [|done]. destruct Hpo. by split. }
  destruct Hp0 as (Hp0 & Hm0 & Hs0 & Hf0).
  assert (Hgood : forall p1, rlc_am_add_hole p0 s t = Ok p1 -> forall e0, same_arq e e0 -> sdus_ok e0 ->
    exists e', nack_mark e0 sn p1 = Ok e' /\ am_ok e' /\ effect none (only sn) e e').
  { intros p1 [E Hl Hn]%add_hole_only e0 H0 Hsd0. apply nack_mark_ok; try done; rewrite E; try done.
    destruct Hp0. split; unfold update; cbn; try done; congruence. }
  set (e0 := if _ && _ then _ else _).
  assert (H0 : same_arq e e0 /\ sdus_ok e0).
  { subst e0. destruct (ok_sdus _ Hinv). destruct (_ && _);
      (split; [split; try done; by intros []|by split]). }
  destruct H0 as [H0 Hsd0].
  destruct ((s =? 0) && (t =? 0x7FFF)) eqn:Ew.
  - apply andb_true_iff in Ew as [->%Z.eqb_eq ->%Z.eqb_eq].
    change (0 <=? 0x7FFF) with true. cbn [res_guard]. rewrite res_ok_bind.
    destruct (add_hole_whole p0) as (p1 & Ep1 & _).
    { apply (po_payload _ Hp0). unfold held. rewrite Hm0. exact Ho. }
    rewrite Ep1, res_ok_bind. by destruct (Hgood p1 Ep1 e0 H0 Hsd0) as (e' & -> & ?).
  - destruct (s <=? t); [|done]. cbn [res_guard]. rewrite res_ok_bind.
    destruct (rlc_am_add_hole p0 s t) as [p1|x] eqn:Ep1; [|done]. rewrite res_ok_bind.
    by destruct (Hgood p1 eq_refl e0 H0 Hsd0) as (e' & -> & ?).
Qed.

(** ** The walk over the window *)

Lemma stop_poll_same e c : same_arq e (stop_poll e c).
Proof. unfold stop_poll. case_match; [|done]. split; try done. by intros []. Qed.

Lemma stop_poll_ok e c : am_ok e -> am_ok (stop_poll e c) /\ effect none none e (stop_poll e c).
Proof.
  intros H. pose proof (stop_poll_same e c) as Hs. split.
  - eapply tx_ok_same; [done..|]. apply Hs, H.
  - eapply effect_same; [apply effect_refl|done].
Qed.

(** One acknowledgement of the walk. *)
Lemma walk_ack e c : am_ok e -> sn_ok c ->
  exists e', rlc_am_ack_pdu (stop_poll e c) c = Ok e' /\ am_ok e' /\ effect (only c) none e e'.
Proof.
  intros H Hc. destruct (stop_poll_ok e c H) as [H1 He1].
  destruct (ack_pdu_ok _ c H1 Hc) as (e' & E & H' & He'). exists e'. split; [done|]. split; [done|].
  eapply effect_ext; [..|exact (effect_trans _ _ _ _ _ _ _ He1 He')]; unfold either, none;
    intros; by rewrite ?orb_false_l.
Qed.

Lemma walk_nack e frame c s t : am_ok e -> sn_ok c ->
  match rlc_am_nack_pdu (stop_poll e c) frame c s t with
  | Ok e' => am_ok e' /\ effect none (only c) e e'
  | Err _ => (s =? 0) && (t =? 0x7FFF) = false
  end.
Proof.
  intros H Hc. destruct (stop_poll_ok e c H) as [H1 He1].
  pose proof (nack_pdu_ok _ frame c s t H1 Hc) as Hn. destruct (rlc_am_nack_pdu _ _ _ _ _); [|done].
  destruct Hn as [H' He']. split; [done|].
  eapply effect_ext; [..|exact (effect_trans _ _ _ _ _ _ _ He1 He')]; unfold either, none;
    intros; by rewrite ?orb_false_l.
Qed.

(** The entries that the walk from the offset [lo] to [ack] meets: those in
    increasing order.  [a] is VT(A) at the start. *)
Fixpoint reached (a ack lo : Z) (nacks : list nack_sn) : list nack_sn :=
  match nacks with
  | [] => []
  | n :: ns =>
      let o := dist a (nack_sn_ n) in
      if (lo <=? o) && (o <? dist a ack) then n :: reached a ack o ns else []
  end.

Definition named (ns : list nack_sn) (sn : Z) : bool := bool_decide (sn ∈ nack_sn_ <$> ns).

(** The SNs that the walk acknowledges. *)
Definition walked (a ack lo : Z) (ns : list nack_sn) (sn : Z) : bool :=
  (lo <=? dist a sn) && (dist a sn <? dist a ack) && negb (named ns sn).

Lemma named_cons n ns sn : named (n :: ns) sn = either (only (nack_sn_ n)) (named ns) sn.
Proof.
  unfold named, either, only. apply Bool.eq_iff_eq_true.
  rewrite orb_true_iff, !bool_decide_eq_true, fmap_cons, elem_of_cons. naive_solver.
Qed.

Lemma reached_next a ack lo n ns : sn_ok a -> sn_ok (nack_sn_ n) -> dist a (nack_sn_ n) <> lo ->
  reached a ack (lo + 1) (n :: ns) = reached a ack lo (n :: ns).
Proof.
  intros Ha Hn Hne. cbn [reached].
  destruct (Z.leb_spec (lo + 1) (dist a (nack_sn_ n))), (Z.leb_spec lo (dist a (nack_sn_ n)));
    try done; lia.
Qed.

(** What [reached] gives is within the walk. *)
Lemma reached_range a ack ns : forall lo, Forall (fun n =>
  lo <= dist a (nack_sn_ n) < dist a ack) (reached a ack lo ns).
Proof.
  induction ns as [|n ns IH]; intros lo; [done|]. cbn [reached].
  destruct (Z.leb_spec lo (dist a (nack_sn_ n))), (Z.ltb_spec (dist a (nack_sn_ n)) (dist a ack));
    cbn [andb]; try done.
  apply Forall_cons. split; [lia|]. eapply Forall_impl; [apply IH|]. cbn. lia.
Qed.

Lemma named_range a ack lo ns sn : named (reached a ack lo ns) sn = true -> lo <= dist a sn < dist a ack.
Proof.
  unfold named. rewrite bool_decide_eq_true, list_elem_of_fmap. intros (n & -> & Hn).
  pose proof (reached_range a ack ns lo) as H. rewrite Forall_forall in H. by apply H.
Qed.

(** The acknowledgement of the SN at the offset [lo], and what is walked after. *)
Lemma walked_step a ack ns c sn :
  sn_ok a -> sn_ok c -> sn_ok sn -> dist a c < dist a ack -> named ns c = false ->
  either (only c) (walked a ack (dist a c + 1) ns) sn = walked a ack (dist a c) ns sn.
Proof.
  intros Ha Hc Hsn Hlt Hn. unfold either, only, walked. destruct (decide (c = sn)) as [->|Hne].
  - rewrite bool_decide_true, Hn by done. rewrite Z.leb_refl, (proj2 (Z.ltb_lt _ _)) by done. done.
  - rewrite bool_decide_false by done. cbn [orb]. assert (dist a c <> dist a sn).
    { intros E. apply Hne. by apply (dist_inj a). }
    destruct (Z.leb_spec (dist a c + 1) (dist a sn)), (Z.leb_spec (dist a c) (dist a sn)); try done; lia.
Qed.

(** The SN of [n] at the offset [lo] is passed. *)
Lemma walked_passed a ack n ns sn :
  sn_ok a -> sn_ok (nack_sn_ n) -> sn_ok sn ->
  walked a ack (dist a (nack_sn_ n)) (n :: ns) sn = walked a ack (dist a (nack_sn_ n) + 1) ns sn.
Proof.
  intros Ha Hc Hsn. unfold walked. rewrite named_cons. unfold either, only.
  destruct (decide (nack_sn_ n = sn)) as [<-|Hne].
  - rewrite bool_decide_true by done. cbn [orb negb]. rewrite andb_false_r.
    by rewrite (proj2 (Z.leb_gt _ _)) by lia.
  - rewrite bool_decide_false by done. cbn [orb]. assert (dist a (nack_sn_ n) <> dist a sn).
    { intros E. apply Hne. by apply (dist_inj a). }
    destruct (Z.leb_spec (dist a (nack_sn_ n) + 1) (dist a sn)),
      (Z.leb_spec (dist a (nack_sn_ n)) (dist a sn)); try done; lia.
Qed.

(** The SN of [n] is named once more. *)
Lemma walked_again a ack lo n ns sn : named ns (nack_sn_ n) = true ->
  walked a ack lo (n :: ns) sn = walked a ack lo ns sn.
Proof.
  intros H. unfold walked. rewrite named_cons. unfold either, only. f_equal. f_equal.
  case_bool_decide as E; [|done]. by rewrite <- E, H.
Qed.

(** What the walk from the cursor [c] on gives.  [ns] are the entries left. *)
Definition walk_result (a ack c : Z) (ns : list nack_sn) (e : am_tx) (r : res am_tx) : Prop :=
  match r with
  | Ok e' => am_ok e' /\
      effect (walked a ack (dist a c) (reached a ack (dist a c) ns))
        (named (reached a ack (dist a c) ns)) e e'
  | Err _ => exists n, n ∈ ns /\ whole_pdu n = false
  end.

Lemma walk_end a ack ns e : am_ok e -> walk_result a ack ack ns e (Ok e).
Proof.
  intros H. split; [done|]. eapply effect_ext; [..|apply effect_refl]; intros sn Hsn _; unfold none.
  - unfold walked. destruct (Z.leb_spec (dist a ack) (dist a sn)), (Z.ltb_spec (dist a sn) (dist a ack));
      try done; lia.
  - destruct (named _ sn) eqn:E; [|done]. apply named_range in E. lia.
Qed.

Lemma reached_nil_named a ack lo ns : lo >= dist a ack -> reached a ack lo ns = [].
Proof.
  intros H. destruct ns as [|n ns]; [done|]. cbn [reached].
  destruct (Z.leb_spec lo (dist a (nack_sn_ n))), (Z.ltb_spec (dist a (nack_sn_ n)) (dist a ack));
    try done; lia.
Qed.

Lemma reached_skip a ack c ns :
  sn_ok a -> sn_ok c -> Forall (fun n => sn_ok (nack_sn_ n)) ns ->
  (forall n ns', ns = n :: ns' -> nack_sn_ n <> c) ->
  reached a ack (dist a c + 1) ns = reached a ack (dist a c) ns.
Proof.
  intros Ha Hc Hns Hhd. destruct ns as [|n ns]; [done|]. apply Forall_cons in Hns as [Hn _].
  apply reached_next; [done..|]. intros E. eapply Hhd; [done|]. by apply (dist_inj a).
Qed.

Lemma reached_here a ack n ns : dist a (nack_sn_ n) < dist a ack ->
  reached a ack (dist a (nack_sn_ n)) (n :: ns) = n :: reached a ack (dist a (nack_sn_ n)) ns.
Proof. intros H. cbn [reached]. by rewrite Z.leb_refl, (proj2 (Z.ltb_lt _ _)). Qed.

(** A turn that acknowledges [c], which the entry to come does not name. *)
Lemma walk_ack_step a ack c ns e e1 r :
  sn_ok a -> sn_ok c -> dist a c < dist a ack -> dist a c < 1023 ->
  Forall (fun n => sn_ok (nack_sn_ n)) ns -> (forall n ns', ns = n :: ns' -> nack_sn_ n <> c) ->
  effect (only c) none e e1 ->
  walk_result a ack (sn_after c) ns e1 r -> walk_result a ack c ns e r.
Proof.
  intros Ha Hc Hlt H1023 Hns Hhd He1. unfold walk_result. rewrite dist_next_r by done.
  pose proof (reached_skip a ack c ns Ha Hc Hns Hhd) as Er.
  assert (Hnc : named (reached a ack (dist a c) ns) c = false).
  { rewrite <- Er. destruct (named _ c) eqn:E; [|done]. apply named_range in E. lia. }
  rewrite Er. destruct r as [e'|]; [|done]. intros [Hok He2]. split; [done|].
  eapply effect_ext; [..|exact (effect_trans _ _ _ _ _ _ _ He1 He2)].
  - intros sn Hsn _. by apply walked_step.
  - done.
Qed.

(** A turn for the entry [n], before one for another SN. *)
Lemma walk_nack_step a ack n ns e e1 r :
  sn_ok a -> sn_ok (nack_sn_ n) -> dist a (nack_sn_ n) < dist a ack -> dist a (nack_sn_ n) < 1023 ->
  Forall (fun n => sn_ok (nack_sn_ n)) ns ->
  (forall m ns', ns = m :: ns' -> nack_sn_ m <> nack_sn_ n) ->
  effect none (only (nack_sn_ n)) e e1 ->
  walk_result a ack (sn_after (nack_sn_ n)) ns e1 r -> walk_result a ack (nack_sn_ n) (n :: ns) e r.
Proof.
  intros Ha Hc Hlt H1023 Hns Hhd He1. unfold walk_result. rewrite dist_next_r by done.
  rewrite reached_here, (reached_skip a ack (nack_sn_ n) ns) by done.
  destruct r as [e'|]; [|intros (m & Hm & Hw); exists m; split; [by apply list_elem_of_further|done]].
  intros [Hok He2]. split; [done|].
  eapply effect_ext; [..|exact (effect_trans _ _ _ _ _ _ _ He1 He2)].
  - intros sn Hsn _. unfold either, none. cbn [orb]. symmetry. by apply walked_passed.
  - intros sn Hsn _. by rewrite named_cons.
Qed.

(** A turn for the entry [n], before another for the same SN. *)
Lemma walk_nack_again a ack n m ns e e1 r :
  dist a (nack_sn_ n) < dist a ack -> nack_sn_ m = nack_sn_ n ->
  effect none (only (nack_sn_ n)) e e1 ->
  walk_result a ack (nack_sn_ n) (m :: ns) e1 r -> walk_result a ack (nack_sn_ n) (n :: m :: ns) e r.
Proof.
  intros Hlt Hm He1. unfold walk_result. rewrite (reached_here a ack n (m :: ns)) by done.
  assert (Hnam : named (reached a ack (dist a (nack_sn_ n)) (m :: ns)) (nack_sn_ n) = true).
  { rewrite <- Hm in Hlt |- *. rewrite reached_here, named_cons by done. unfold either, only.
    by rewrite bool_decide_true. }
  destruct r as [e'|]; [|intros (k & Hk & Hw); exists k; split; [by apply list_elem_of_further|done]].
  intros [Hok He2]. split; [done|].
  eapply effect_ext; [..|exact (effect_trans _ _ _ _ _ _ _ He1 He2)].
  - intros sn Hsn _. unfold either, none. cbn [orb]. symmetry. by apply walked_again.
  - intros sn Hsn _. by rewrite named_cons.
Qed.

(** ** The loops *)

Lemma walk_bounds a c ack : sn_ok c -> sn_ok ack -> c <> ack -> dist a c <= dist a ack ->
  dist a c < dist a ack /\ dist a c < 1023.
Proof.
  intros Hc Hack Hne Hle. pose proof (dist_range a ack).
  assert (dist a c <> dist a ack); [|lia]. intros E. by apply Hne, (dist_inj a).
Qed.

Lemma ack_all_walk a ack : sn_ok a -> sn_ok ack -> forall fuel c e,
  am_ok e -> sn_ok c -> dist a c <= dist a ack -> dist a ack - dist a c < Z.of_nat fuel ->
  walk_result a ack c [] e (ack_all fuel ack c e).
Proof.
  intros Ha Hack. induction fuel as [|fuel IH]; intros c e He Hc Hle Hf; [lia|]. cbn [ack_all].
  destruct (Z.eqb_spec c ack) as [->|Hne]; [by apply walk_end|].
  destruct (walk_bounds a c ack) as [Hlt H1]; [done..|].
  destruct (walk_ack e c He Hc) as (e1 & -> & He1 & Hef1). rewrite res_ok_bind.
  eapply walk_ack_step; try done. apply IH; [done|apply next_sn_ok|..]; rewrite dist_next_r by done; lia.
Qed.

(** The variable [nack_sn]: the SN of the entry to come, or none. *)
Definition next_named (ns : list nack_sn) : Z :=
  match ns with [] => -1 | n :: _ => nack_sn_ n end.

(** Two entries in a row with the same SN stop the cursor there. *)
Definition cursor_fits (pre ns : list nack_sn) (c : Z) : Prop :=
  forall p m n ns', pre = p ++ [m] -> ns = n :: ns' -> nack_sn_ n = nack_sn_ m -> c = nack_sn_ n.

Lemma move_cursor_next pre ns c :
  (forall p m n ns', pre = p ++ [m] -> ns = n :: ns' -> nack_sn_ n <> nack_sn_ m) ->
  move_cursor (pre ++ ns) (zlen pre) c = Ok (sn_after c).
Proof.
  intros H. unfold move_cursor. rewrite zlen_app.
  destruct ns as [|n ns]; [by rewrite (proj2 (Z.ltb_ge _ _)) by (change (zlen []) with 0; lia)|].
  destruct pre as [|m p _] using rev_ind; [by rewrite andb_false_r|].
  pose proof (zlen_nonneg ns). pose proof (zlen_nonneg p).
  rewrite (proj2 (Z.ltb_lt _ _)), (proj2 (Z.ltb_lt 0 _))
    by (rewrite ?zlen_app, ?zlen_cons; change (zlen []) with 0; lia). cbn [andb].
  rewrite rd_app_here, res_ok_bind, <- app_assoc.
  replace (zlen (p ++ [m]) - 1) with (zlen p) by (rewrite zlen_app; change (zlen [m]) with 1; lia).
  cbn [app]. rewrite rd_app_here, res_ok_bind.
  rewrite (proj2 (Z.eqb_neq _ _)); [done|by eapply H].
Qed.

Lemma move_cursor_stay p m n ns c : nack_sn_ n = nack_sn_ m ->
  move_cursor ((p ++ [m]) ++ n :: ns) (zlen (p ++ [m])) c = Ok c.
Proof.
  intros H. unfold move_cursor. rewrite (zlen_app (p ++ [m])).
  pose proof (zlen_nonneg ns). pose proof (zlen_nonneg p).
  rewrite (proj2 (Z.ltb_lt _ _)), (proj2 (Z.ltb_lt 0 _))
    by (rewrite ?zlen_app, ?zlen_cons; change (zlen []) with 0; lia). cbn [andb].
  rewrite rd_app_here, res_ok_bind, <- app_assoc.
  replace (zlen (p ++ [m]) - 1) with (zlen p) by (rewrite zlen_app; change (zlen [m]) with 1; lia).
  cbn [app]. rewrite rd_app_here, res_ok_bind, H. by rewrite Z.eqb_refl.
Qed.

Lemma same_next ns n :
  (exists m ns', ns = m :: ns' /\ nack_sn_ m = nack_sn_ n)
  \/ (forall m ns', ns = m :: ns' -> nack_sn_ m <> nack_sn_ n).
Proof.
  destruct ns as [|m ns]; [by right|]. destruct (decide (nack_sn_ m = nack_sn_ n)) as [H|H].
  - left. by exists m, ns.
  - right. by intros ? ? [= <- <-].
Qed.

Lemma ack_nack_walk a ack frame nacks : sn_ok a -> sn_ok ack ->
  Forall (fun n => sn_ok (nack_sn_ n)) nacks -> forall fuel pre ns c e,
  nacks = pre ++ ns -> cursor_fits pre ns c ->
  am_ok e -> sn_ok c -> dist a c <= dist a ack ->
  dist a ack - dist a c + zlen ns < Z.of_nat fuel ->
  walk_result a ack c ns e (ack_nack fuel frame ack nacks (zlen pre) (next_named ns) c e).
Proof.
  intros Ha Hack Hall. induction fuel as [|fuel IH]; intros pre ns c e E Hfit He Hc Hle Hf;
    [pose proof (zlen_nonneg ns); lia|]. cbn [ack_nack].
  destruct (Z.eqb_spec c ack) as [->|Hne]; [by apply walk_end|].
  destruct (walk_bounds a c ack) as [Hlt H1]; [done..|].
  assert (Hns : Forall (fun n => sn_ok (nack_sn_ n)) ns) by (rewrite E in Hall; by apply Forall_app in Hall as [_ ?]).
  destruct (Z.eqb_spec c (next_named ns)) as [Heq|Hnn]; cbn [negb].
  - destruct ns as [|n ns]; [cbn in Heq; unfold sn_ok in Hc; lia|]. cbn [next_named] in Heq. subst c.
    rewrite E at 1. rewrite rd_app_here, res_ok_bind.
    pose proof (walk_nack e frame (nack_sn_ n) (so_start n) (so_end n) He Hc) as Hn.
    destruct (rlc_am_nack_pdu _ _ _ _ _) as [e1|x].
    2: { exists n. split; [by apply list_elem_of_here|exact Hn]. }
    destruct Hn as [He1 Hef1]. rewrite res_ok_bind.
    apply Forall_cons in Hns as [_ Hns].
    replace (zlen pre + 1) with (zlen (pre ++ [n])) by (rewrite zlen_app; done).
    assert (E' : nacks = (pre ++ [n]) ++ ns) by (by rewrite E, <- app_assoc).
    assert (Enext : (if zlen (pre ++ [n]) =? zlen nacks then Ok (e1, zlen (pre ++ [n]), s16 0xFFFF)
      else n0 ← rd nacks (zlen (pre ++ [n])); Ok (e1, zlen (pre ++ [n]), nack_sn_ n0))
      = Ok (e1, zlen (pre ++ [n]), next_named ns)).
    { rewrite E'. destruct ns as [|m ns]; [by rewrite app_nil_r, Z.eqb_refl|].
      rewrite (zlen_app (pre ++ [n])), (proj2 (Z.eqb_neq _ _)), rd_app_here; [done|].
      rewrite zlen_cons. pose proof (zlen_nonneg ns). lia. }
    rewrite Enext, res_ok_bind. rewrite zlen_cons in Hf.
    destruct (same_next ns n) as [(m & ns' & -> & Hm)|Hhd].
    + rewrite E' at 1. rewrite move_cursor_stay, res_ok_bind by done.
      eapply walk_nack_again; try done. apply IH; try done; [|lia].
      intros p m0 n0 ns0 _ Hs _. by injection Hs as -> ->.
    + rewrite E' at 1. rewrite move_cursor_next, res_ok_bind.
      2: { intros p m n0 ns' [_ [= <-]]%app_inj_tail -> . by eapply Hhd. }
      eapply walk_nack_step; try done.
      apply IH; [done| |done|apply next_sn_ok|..]; rewrite ?dist_next_r by done; try lia.
      intros p m n0 ns' [_ [= <-]]%app_inj_tail -> Hmn. by destruct (Hhd n0 ns').
  - destruct (walk_ack e c He Hc) as (e1 & -> & He1 & Hef1). rewrite !res_ok_bind.
    rewrite E at 1. rewrite move_cursor_next, res_ok_bind.
    2: { intros p m n ns' -> -> Hs. apply Hnn. by apply (Hfit p m n ns'). }
    eapply walk_ack_step; try done.
    { intros n ns' -> Hs. by apply Hnn. }
    apply IH; [done| |done|apply next_sn_ok|..]; rewrite ?dist_next_r by done; try lia.
    intros p m n ns' Hp Hs Hmn. exfalso. apply Hnn. rewrite Hs. by apply (Hfit p m n ns').
Qed.

(** ** A STATUS PDU *)

Lemma tx_window_dist e sn : am_ok e -> sn_ok sn ->
  (0 <? rlc_am_in_tx_window e sn) = (dist (vt_a e) sn <? 512).
Proof.
  intros [Hi Hm _] Hsn. pose proof (ok_a _ Hi) as Ha. unfold rlc_am_in_tx_window, sn_ok in *.
  rewrite s16_small by lia. unfold RLC_AM_SN_MODULO. rewrite (proj2 (Z.leb_gt _ _)) by lia.
  rewrite Hm. unfold wrapU, dist. rewrite !Z.rem_mod_nonneg by div_lia.
  replace (((vt_a e + 512) mod 1024 - vt_a e) mod 2 ^ 16 mod 1024) with 512 by div_lia.
  replace ((sn - vt_a e) mod 2 ^ 16 mod 1024) with ((sn - vt_a e) mod 1024) by div_lia.
  rewrite (proj2 (Z.leb_le 0 _)) by div_lia. cbn [andb]. by case_match.
Qed.

(** What a STATUS PDU acknowledges, and what it asks for again. *)
Definition status_named (e : am_tx) (i : control_pdu_info) : list nack_sn :=
  if dist (vt_a e) (ack_sn i) <? 512 then reached (vt_a e) (ack_sn i) 0 (nack_list i) else [].
Definition status_acks (e : am_tx) (i : control_pdu_info) (sn : Z) : bool :=
  (dist (vt_a e) (ack_sn i) <? 512) && walked (vt_a e) (ack_sn i) 0 (status_named e i) sn.

(** The result of the processing of [i]. *)
Definition status_result (e : am_tx) (i : control_pdu_info) (r : res am_tx) : Prop :=
  match r with
  | Ok e' => am_ok e' /\ effect (status_acks e i) (named (status_named e i)) e e'
  | Err _ => exists n, n ∈ nack_list i /\ whole_pdu n = false
  end.

Lemma process_status_ok e frame i :
  am_ok e -> info_ok i -> num_nack i < 1023 -> status_result e i (process_status e frame i).
Proof.
  intros He [_ _ Hack _ Hn _ _] Hnum. unfold process_status, RLC_AM_SN_MODULO.
  rewrite (proj2 (Z.ltb_lt (ack_sn i) 1024)), (proj2 (Z.ltb_lt (num_nack i) _))
    by (unfold RLC_AM_MAX_NACK_IN_STATUS_PDU; lia). cbn [res_guard]. rewrite !res_ok_bind.
  rewrite tx_window_dist by done. unfold status_result, status_acks, status_named.
  destruct (dist (vt_a e) (ack_sn i) <? 512) eqn:Ew.
  2: { split; [done|]. eapply effect_ext; [..|apply effect_refl]; done. }
  cbn [andb]. set (e1 := e <| num_nack_so := 0 |> <| num_nack_sn := 0 |>).
  assert (Hs1 : same_arq e e1) by (split; try done; by intros []).
  assert (He1 : am_ok e1) by (eapply tx_ok_same; [done..|apply Hs1, He]).
  pose proof (ok_a _ (ok_inv _ He)) as Ha. pose proof (dist_range (vt_a e) (ack_sn i)) as Hr.
  assert (Hall : Forall (fun n => sn_ok (nack_sn_ n)) (nack_list i)).
  { eapply Forall_impl; [exact Hn|]. by intros n [H _]. }
  set (r := match nack_list i with [] => _ | _ => _ end).
  assert (Hw : walk_result (vt_a e) (ack_sn i) (vt_a e) (nack_list i) e1 r).
  { subst r. destruct (nack_list i) as [|n ns] eqn:Ei.
    - apply ack_all_walk; try done; rewrite dist_self; lia.
    - apply (ack_nack_walk (vt_a e) (ack_sn i) frame (n :: ns) Ha Hack Hall 2049 []); try done;
        rewrite ?dist_self; try lia.
      + intros p m ? ? Hp. by destruct p.
      + unfold num_nack in Hnum. rewrite Ei in Hnum. lia. }
  unfold walk_result in Hw. rewrite dist_self in Hw. destruct r as [e'|x]; [|done].
  destruct Hw as [Hok' Hef]. split; [done|].
  destruct Hs1 as [Sb Sa Ss _ _ _ _ _]. destruct Hef as [Es Eb Eo Ek]. by split.
Qed.

