(* ===== verification/RlcAmExamples.v ===== *)
(** RLC AM v9.3.0: a decision procedure for the invariant of the transmitter, the
    theorems at concrete inputs, and what the model showed of the code. *)
From S2P Require Import Prelude.
From S2P Require Import RlcAmEntity.
From S2P Require Import RlcAmSn.
From S2P Require Import RlcAmStatus.
From S2P Require Import RlcAmStatusSpec.
From S2P Require Import RlcAmRetransmit.
From S2P Require Import RlcAmHolesSpec.
From S2P Require Import RlcAmArqSpec.
From S2P Require Import RlcAmStatusRefine.

Local Open Scope Z_scope.

(** ** Deciding the invariant *)

Definition pdu_check (p : am_tx_pdu) : bool :=
  (0 <=? nb_sdus p) && (nb_sdus p <=? 32) && (length (sdus_index p) =? 32)%nat
  && forallb (fun i => (0 <=? i) && (i <? 128)) (sdus_index p) && (length (holes p) =? 32)%nat
  && (0 <=? num_holes p) && (num_holes p <? 32)
  && (0 <=? header_and_payload_size p) && (header_and_payload_size p <? 65536)
  && (negb (held p) || (0 <? payload_size p)).

Lemma pdu_check_ok p : pdu_check p = true -> pdu_ok p.
Proof.
  unfold pdu_check. rewrite !andb_true_iff, !Nat.eqb_eq, !Z.leb_le, !Z.ltb_lt, forallb_forall.
  intros (((((((((H1 & H2) & H3) & H4) & H5) & H6) & H7) & H8) & H9) & H10).
  split; try lia.
  - apply Forall_forall. intros x Hx. apply list_elem_of_In in Hx. specialize (H4 x Hx). lia.
  - intros Hh. rewrite Hh in H10. cbn in H10. lia.
Qed.

Lemma sn_forall (f : Z -> bool) : forallb f (seqZ 0 1024) = true -> forall sn, sn_ok sn -> f sn = true.
Proof.
  intros H sn Hsn. rewrite forallb_forall in H. apply H, list_elem_of_In, elem_of_seqZ.
  unfold sn_ok in Hsn. lia.
Qed.

Definition slot_check (e : am_tx) (sn : Z) : bool :=
  let p := pdu_at e sn in
  pdu_check p &&
  (if dist (vt_a e) sn <? dist (vt_a e) (vt_s e) then eqb (flag_ack p) (negb (held p))
   else negb (flag_ack p) && negb (held p)).

Definition tx_check (e : am_tx) : bool :=
  (0 <=? vt_a e) && (vt_a e <? 1024) && (0 <=? vt_s e) && (vt_s e <? 1024)
  && (vt_ms e =? (vt_a e + 512) mod 1024) && (dist (vt_a e) (vt_s e) <=? 512)
  && forallb (slot_check e) (seqZ 0 1024)
  && ((vt_a e =? vt_s e) || outstanding e (vt_a e))
  && (0 <=? current_sdu_index e) && (current_sdu_index e <? 128)
  && (0 <=? next_sdu_index e) && (next_sdu_index e <? 128)
  && (retrans_num_pdus e =? total count_pdu e) && (retrans_num_bytes e =? total count_bytes e)
  && (-1 <=? first_retrans_pdu_sn e) && (first_retrans_pdu_sn e <? 1024).

Lemma slot_check_ok e sn : slot_check e sn = true ->
  pdu_ok (pdu_at e sn) /\
  (dist (vt_a e) sn < dist (vt_a e) (vt_s e) -> flag_ack (pdu_at e sn) = negb (outstanding e sn)) /\
  (dist (vt_a e) (vt_s e) <= dist (vt_a e) sn ->
     flag_ack (pdu_at e sn) = false /\ outstanding e sn = false).
Proof.
  unfold slot_check. cbv zeta. intros [Hp H]%andb_true_iff. split; [by apply pdu_check_ok|].
  fold (outstanding e sn) in H. destruct (Z.ltb_spec (dist (vt_a e) sn) (dist (vt_a e) (vt_s e))).
  - split; [|lia]. intros _. by apply eqb_prop.
  - split; [lia|]. intros _. by apply andb_true_iff in H as [->%negb_true_iff ->%negb_true_iff].
Qed.

Lemma tx_check_ok e : tx_check e = true -> am_ok e.
Proof.
  unfold tx_check. rewrite !andb_true_iff, !Z.leb_le, !Z.ltb_lt, !Z.eqb_eq, orb_true_iff, Z.eqb_eq.
  intros H. decompose [and] H. clear H.
  assert (Hs : forall sn, sn_ok sn -> slot_check e sn = true) by (by apply sn_forall).
  split; [split| |]; unfold sn_ok; try done; try lia.
  - intros sn Hsn. by apply slot_check_ok, Hs.
  - intros sn Hsn. by apply slot_check_ok, Hs.
  - intros sn Hsn. by apply slot_check_ok, Hs.
  - intros Hne. by destruct_or?.
Qed.

(** ** A transmitter *)

Definition no_timer : am_timer := AmTimer 0 0 0 false false.

(** As [rlc_am_init_timers] and [rlc_am_reset_state_variables] leave it. *)
Definition am_tx0 : am_tx :=
  AmTx ∅ 0 0 0 0 ∅ 0 0 0 0 0 0 512 0 0 no_timer 4 (-1) 0 0 0 [].

(** The PDU that carries the SDU [k], of 10 bytes and a header of 2. *)
Definition a_pdu (k : Z) : am_tx_pdu :=
  am_pdu0 <| pdu_mem_block := Some [] |> <| sdus_index := k :: replicate 31 0 |>
    <| header_and_payload_size := 12 |> <| payload_size := 10 |> <| nb_sdus := 1 |>
    <| retx_count := -1 |>.
Definition an_sdu (k : Z) : am_tx_sdu := AmTxSdu None 0 (100 + k) 0 10 10 1 0 false.

(** Four PDUs from SN 1022 on wait for their acknowledgement, over the end of the
    numbers. *)
Definition four_pdus : am_tx :=
  am_tx0 <| pdu_retrans_buffer :=
              {[ 1022 := a_pdu 0; 1023 := a_pdu 1; 0 := a_pdu 2; 1 := a_pdu 3 ]} |>
         <| input_sdus := {[ 0 := an_sdu 0; 1 := an_sdu 1; 2 := an_sdu 2; 3 := an_sdu 3 ]} |>
         <| nb_sdu := 4 |> <| next_sdu_index := 4 |> <| current_sdu_index := 4 |>
         <| retrans_num_pdus := 4 |> <| retrans_num_bytes := 48 |>
         <| vt_a := 1022 |> <| vt_ms := 510 |> <| vt_s := 2 |>.

(** ACK_SN 2, all of SN 1023 missing. *)
Definition one_missing : control_pdu_info :=
  ControlPduInfo 0 0 2 1 [NackSn 1023 0 0 0 0x7FFF].

Definition one_missing_bytes : list Z := [0x00; 0x0B; 0xFF; 0x80; 0xAA].

Lemma one_missing_ok : info_ok one_missing.
Proof.
  split; try done. apply Forall_singleton. split; [done|]. split; [done|]. by right.
Qed.

Lemma four_pdus_ok : am_ok four_pdus.
Proof. apply tx_check_ok. vm_compute. reflexivity. Qed.

(** What is left to see of a result. *)
Definition seen (r : res (am_tx * Z)) : option (Z * Z * list (Z * sdu_confirm)) :=
  match r with Ok (e, size) => Some (size, vt_a e, confirms e) | Err _ => None end.

Definition one_missing_run : res (am_tx * Z) :=
  rlc_am_receive_process_control_pdu four_pdus 7 one_missing_bytes 5.

Lemma one_missing_seen : seen one_missing_run
  = Some (1, 1023, [(100, RLC_SDU_CONFIRM_YES); (102, RLC_SDU_CONFIRM_YES); (103, RLC_SDU_CONFIRM_YES)]).
Proof. vm_compute. reflexivity. Qed.

Lemma seen_ok r x : seen r = Some x ->
  exists e size, r = Ok (e, size) /\ x = (size, vt_a e, confirms e).
Proof. destruct r as [[e size]|]; [|discriminate]. intros [= <-]. by exists e, size. Qed.


(** With an entry that has offsets. *)
Definition a_part : control_pdu_info :=
  ControlPduInfo 0 0 2 1 [NackSn 1023 1 1 2 5; NackSn 0 0 0 0 0x7FFF].

Lemma a_part_ok : info_ok a_part.
Proof.
  split; try done. apply Forall_cons. split; [|apply Forall_singleton].
  - split; [done|]. split; [done|]. by left.
  - split; [done|]. split; [done|]. by right.
Qed.

Lemma am_status_roundtrip_witness :
  exists l, rlc_am_write_status_pdu a_part (replicate 10 0) = Ok (l, 9) /\ length l = 10%nat /\
    rlc_am_get_control_pdu_infos l 10 = Ok (0, a_part, 1).
Proof.
  apply (am_status_roundtrip a_part 10 10 a_part_ok). vm_compute. discriminate.
Defined.

(** A PDU with the holes 2-3 and 8-9. *)
Definition two_holes : am_tx_pdu :=
  (a_pdu 0) <| payload_size := 20 |> <| num_holes := 2 |>
    <| holes := (2, 3) :: (8, 9) :: replicate 30 (0, 0) |>
    <| nack_so_start := 2 |> <| nack_so_stop := 9 |>.

Lemma two_holes_wf : holes_wf two_holes.
Proof.
  split; try done.
  - by repeat constructor.
  - by repeat constructor.
Qed.

Lemma am_add_hole_inserts_witness :
  exists p', rlc_am_add_hole two_holes 5 6 = Ok p' /\ hole_list p' = [(2, 3); (5, 6); (8, 9)] /\
    holes_wf p'.
Proof.
  apply (am_add_hole_inserts two_holes [(2, 3)] [(8, 9)] 5 6 6 two_holes_wf).
  split; try done.
  - by apply Forall_singleton.
  - by apply Forall_singleton.
  - vm_compute. intros [? ?]. discriminate.
  - by left.
Defined.

(** ** What the model showed *)

(** With 512 PDUs outstanding, the STATUS PDU that acknowledges them all has ACK_SN =
    VT(S) = VT(MS), which [rlc_am_in_tx_window] puts outside of the window: the
    acknowledgement is dropped, and VT(A) never moves. *)
Theorem full_window_ack_dropped e frame :
  am_ok e -> dist (vt_a e) (vt_s e) = 512 ->
  process_status e frame (ControlPduInfo 0 0 (vt_s e) 0 []) = Ok e.
Proof.
  intros He Hd. pose proof (ok_s _ (ok_inv _ He)) as Hs. unfold sn_ok in Hs. unfold process_status.
  change (ack_sn (ControlPduInfo 0 0 (vt_s e) 0 [])) with (vt_s e).
  change (num_nack (ControlPduInfo 0 0 (vt_s e) 0 [])) with 0.
  rewrite (proj2 (Z.ltb_lt (vt_s e) RLC_AM_SN_MODULO)) by (unfold RLC_AM_SN_MODULO; lia).
  cbn [res_guard]. rewrite res_ok_bind. change (0 <? RLC_AM_MAX_NACK_IN_STATUS_PDU) with true.
  cbn [res_guard]. rewrite res_ok_bind, tx_window_dist, Hd by done. done.
Qed.

(** The parser does not look at the size of the PDU: with two bytes it reads on in
    the memory behind them, and [*total_size_pP] gets negative. *)
Example parser_reads_on :
  match rlc_am_get_control_pdu_infos [0x00; 0x0B; 0xFF; 0x80] 2 with
  | Ok (rc, i, size) => rc = 0 /\ map nack_sn_ (nack_list i) = [1023] /\ size = -2
  | Err _ => False
  end.
Proof. vm_compute. auto. Qed.

(** An entry whose SOstart is behind its SOend, or whose part overlaps one named
    before in the same frame, stops the program. *)
Definition part_of_0 (s t : Z) : nack_sn := NackSn 1022 0 1 s t.
Example offsets_reversed :
  process_status four_pdus 7 (ControlPduInfo 0 0 2 1 [part_of_0 5 3]) = Err EAssert.
Proof. vm_compute. reflexivity. Qed.
Example parts_overlap :
  process_status four_pdus 7
    (ControlPduInfo 0 0 2 1 [(part_of_0 2 5) <| nack_e1 := 1 |>; part_of_0 4 7]) = Err EAssert.
Proof. vm_compute. reflexivity. Qed.

(** A part before the first of the holes: the loop that makes room reads
    [hole_so_start[-1]]. *)
Example hole_in_front : rlc_am_add_hole two_holes 0 1 = Err EBounds.
Proof. vm_compute. reflexivity. Qed.

(** What is left of the hole 2-9 once 4-5 has been retransmitted: the second part
    starts at 5 instead of 6; and of 2-9 without 2-5, a hole from 5. *)
Definition one_hole : am_tx_pdu :=
  (a_pdu 0) <| payload_size := 20 |> <| num_holes := 1 |>
    <| holes := (2, 9) :: replicate 31 (0, 0) |> <| nack_so_start := 2 |> <| nack_so_stop := 9 |>.
Definition holes_of (r : res am_tx_pdu) : option (list (Z * Z)) :=
  match r with Ok p => Some (hole_list p) | Err _ => None end.
Example remove_hole_splits : holes_of (rlc_am_remove_hole one_hole 4 5) = Some [(2, 3); (5, 9)].
Proof. vm_compute. reflexivity. Qed.
Example remove_hole_front : holes_of (rlc_am_remove_hole one_hole 2 5) = Some [(5, 9)].
Proof. vm_compute. reflexivity. Qed.

(** An SDU in two PDUs, one of which was acknowledged never and the other one asked for
    again and again: beyond [max_retx_threshold] each turn counts as an
    acknowledgement, and the SDU is given up with both its PDUs outstanding. *)
Definition split_sdu : am_tx :=
  four_pdus <| max_retx_threshold := 1 |>
    <| input_sdus := {[ 0 := (an_sdu 0) <| nb_pdus := 2 |>; 1 := an_sdu 1; 2 := an_sdu 2; 3 := an_sdu 3 ]} |>.
Fixpoint nacked_again (n : nat) (e : am_tx) : res am_tx :=
  match n with
  | O => Ok e
  | S n => e ← rlc_am_nack_pdu e (Z.of_nat n) 1022 0 0x7FFF; nacked_again n e
  end.
Example nack_counts_as_ack :
  match nacked_again 3 split_sdu with
  | Ok e => (confirms e, outstanding e 1022)
  | Err _ => ([], false)
  end = ([(100, RLC_SDU_CONFIRM_NO)], true).
Proof. vm_compute. reflexivity. Qed.

(** The test of the index lets 128 through, one behind the end of [input_sdus]. *)
Example free_in_sdu_bound : rlc_am_free_in_sdu 128 four_pdus = Err EBounds.
Proof. vm_compute. reflexivity. Qed.
