(* ===== verification/RlcAmRx.v ===== *)
(** RLC AM v9.3.0: the receiving side of an entity ([rlc_am_entity.h],
    [rlc_am_structs.h]), its tests on sequence numbers ([rlc_am_windows.c]) and
    its timers ([rlc_am_timer_reordering.c], [rlc_am_timer_status_prohibit.c]),
    and the decoding of data PDUs ([rlc_am_get_data_pdu_infos] of
    [rlc_am_receiver.c]). *)
From S2P Require Import Prelude.
From S2P Require Import RlcAmEntity.

Local Open Scope Z_scope.
Local Open Scope c_scope.

(** [rlc_am_pdu_info_t].  [payload] is the displacement of the pointer from the
    first byte of the PDU. *)
Record am_pdu_info := AmPduInfo {
  di_d_c : Z;
  di_rf : Z;
  di_p : Z;
  di_fi : Z;
  di_e : Z;
  di_sn : Z;
  di_lsf : Z;
  di_so : Z;
  di_num_li : Z;
  di_li_list : list Z;
  di_hidden_size : Z;
  di_payload : Z;
  di_payload_size : Z;
  di_header_size : Z
}.
#[export] Instance am_pdu_info_eta : Eta am_pdu_info := fun i =>
  AmPduInfo (di_d_c i) (di_rf i) (di_p i) (di_fi i) (di_e i) (di_sn i) (di_lsf i)
    (di_so i) (di_num_li i) (di_li_list i) (di_hidden_size i) (di_payload i)
    (di_payload_size i) (di_header_size i).

(** A block of the receiver buffer: [rlc_am_rx_pdu_management_t] and the memory
    from the first byte of the PDU on. *)
Record am_rx_pdu := AmRxPdu {
  pdu_info : am_pdu_info;
  all_segments_received : bool;
  pdu_bytes : list Z
}.
#[export] Instance am_rx_pdu_eta : Eta am_rx_pdu := fun c =>
  AmRxPdu (pdu_info c) (all_segments_received c) (pdu_bytes c).

Definition rx_sn (c : am_rx_pdu) : Z := di_sn (pdu_info c).

(** [rlc_am_entity_t], the fields of the receiving side.  [receiver_buffer] is the
    list of the blocks from the head on; [pool] the answers [get_free_mem_block]
    will give for SDUs (exhausted means it succeeds); [delivered] the SDUs given
    to [rlc_data_ind]; of [control_pdu_list] the PDUs, the head first. *)
Record am_rx := AmRx {
  receiver_buffer : list am_rx_pdu;
  output_sdu_in_construction : option (list Z);
  output_sdu_size_to_write : Z;
  vr_r : Z;
  vr_mr : Z;
  vr_x : Z;
  vr_ms : Z;
  vr_h : Z;
  t_reordering : am_timer;
  t_status_prohibit : am_timer;
  status_requested : bool;
  nb_bytes_requested_by_mac : Z;
  control_pdu_list : list (list Z);
  stat_tx_control_pdu : Z;
  stat_tx_control_bytes : Z;
  stat_rx_pdcp_sdu : Z;
  stat_rx_pdcp_bytes : Z;
  stat_rx_data_pdu : Z;
  stat_rx_data_bytes : Z;
  stat_rx_data_pdu_dropped : Z;
  stat_rx_data_bytes_dropped : Z;
  stat_rx_data_pdu_out_of_window : Z;
  stat_rx_data_bytes_out_of_window : Z;
  stat_rx_control_pdu : Z;
  stat_rx_control_bytes : Z;
  stat_timer_status_prohibit_timed_out : Z;
  pool : list bool;
  delivered : list (list Z)
}.
#[export] Instance am_rx_eta : Eta am_rx := fun e =>
  AmRx (receiver_buffer e) (output_sdu_in_construction e) (output_sdu_size_to_write e)
    (vr_r e) (vr_mr e) (vr_x e) (vr_ms e) (vr_h e) (t_reordering e)
    (t_status_prohibit e) (status_requested e) (nb_bytes_requested_by_mac e)
    (control_pdu_list e) (stat_tx_control_pdu e) (stat_tx_control_bytes e)
    (stat_rx_pdcp_sdu e) (stat_rx_pdcp_bytes e) (stat_rx_data_pdu e)
    (stat_rx_data_bytes e) (stat_rx_data_pdu_dropped e) (stat_rx_data_bytes_dropped e)
    (stat_rx_data_pdu_out_of_window e) (stat_rx_data_bytes_out_of_window e)
    (stat_rx_control_pdu e) (stat_rx_control_bytes e)
    (stat_timer_status_prohibit_timed_out e) (pool e) (delivered e).

(** ** [rlc_am_windows.c], the receiving side *)

(** A number counted from VR(R), as all the tests do. *)
Definition rx_shift (e : am_rx) (sn : Z) : Z := u16 (sn - vr_r e) %% RLC_AM_SN_MODULO.

Definition rlc_am_in_rx_window (e : am_rx) (snP : Z) : Z :=
  let snP := s16 snP in
  if RLC_AM_SN_MODULO <=? snP then 0
  else
    let shifted_sn := rx_shift e snP in
    let upper_bound := rx_shift e (vr_mr e) in
    if (0 <=? shifted_sn) && (shifted_sn <? upper_bound) then 1 else 0.

Definition rlc_am_sn_gte_vr_h (e : am_rx) (snP : Z) : Z :=
  let snP := s16 snP in
  if RLC_AM_SN_MODULO <=? snP then 0
  else if rx_shift e (vr_h e) <=? rx_shift e snP then 1 else 0.

Definition rlc_am_sn_gte_vr_x (e : am_rx) (snP : Z) : Z :=
  let snP := s16 snP in
  if RLC_AM_SN_MODULO <=? snP then 0
  else if rx_shift e (vr_x e) <=? rx_shift e snP then 1 else 0.

Definition rlc_am_sn_gt_vr_ms (e : am_rx) (snP : Z) : Z :=
  let snP := s16 snP in
  if RLC_AM_SN_MODULO <=? snP then 0
  else if rx_shift e (vr_ms e) <? rx_shift e snP then 1 else 0.

Definition rlc_am_rx_sn1_gt_sn2 (e : am_rx) (sn1P sn2P : Z) : Z :=
  let sn1P := s16 sn1P in
  let sn2P := s16 sn2P in
  if (RLC_AM_SN_MODULO <=? sn1P) || (RLC_AM_SN_MODULO <=? sn2P) then 0
  else if rx_shift e sn2P <? rx_shift e sn1P then 1 else 0.

(** ** The timers *)

(** [return] comes first: what follows it is never executed. *)
Definition rlc_am_check_timer_reordering (e : am_rx) (frameP : Z) : am_rx := e.

Definition rlc_am_stop_and_reset_timer_reordering (e : am_rx) : am_rx :=
  e <| t_reordering := AmTimer 0 0 (time_out (t_reordering e)) false false |>.

Definition rlc_am_start_timer_reordering (e : am_rx) (frameP : Z) : am_rx :=
  e <| t_reordering :=
         AmTimer (u32 (frameP + time_out (t_reordering e))) frameP
           (time_out (t_reordering e)) true false |>.

Definition rlc_am_init_timer_reordering (e : am_rx) (time_outP : Z) : am_rx :=
  e <| t_reordering := AmTimer 0 0 (u32 time_outP) false false |>.

Definition rlc_am_stop_and_reset_timer_status_prohibit (e : am_rx) : am_rx :=
  if 0 <? time_out (t_status_prohibit e) then
    e <| t_status_prohibit := AmTimer 0 0 (time_out (t_status_prohibit e)) false false |>
  else e.

(** The test on frames is the one of [rlc_am_check_timer_poll_retransmit]. *)
Definition rlc_am_check_timer_status_prohibit (e : am_rx) (frameP : Z) : am_rx :=
  let t := t_status_prohibit e in
  if (0 <? time_out t) && running t && poll_expired t frameP then
    rlc_am_stop_and_reset_timer_status_prohibit
      (e <| t_status_prohibit := t <| running := false |> <| timed_out := true |> |>
         <| stat_timer_status_prohibit_timed_out :=
              u32 (stat_timer_status_prohibit_timed_out e + 1) |>)
  else e.

Definition rlc_am_start_timer_status_prohibit (e : am_rx) (frameP : Z) : am_rx :=
  if 0 <? time_out (t_status_prohibit e) then
    e <| t_status_prohibit :=
           AmTimer (u32 (time_out (t_status_prohibit e) + frameP)) frameP
             (time_out (t_status_prohibit e)) true false |>
  else e.

Definition rlc_am_init_timer_status_prohibit (e : am_rx) (time_outP : Z) : am_rx :=
  e <| t_status_prohibit := AmTimer 0 0 (u32 time_outP) false false |>.

(** ** [rlc_am_get_data_pdu_infos] *)

(** Cleared by [memset]; the elements of [li_list] are those written. *)
Definition am_pdu_info0 : am_pdu_info := AmPduInfo 0 0 0 0 0 0 0 0 0 [] 0 0 0 0.

(** The loop over the length indicators: [e_li] is the displacement of the current
    group of three bytes, [li_length_in_bytes] alternates between 2 and 1.  The
    state after it, and whether it was left by [return -2]. *)
Fixpoint am_li_loop (fuel : nat) (header_pP : list Z)
    (e_li li_length_in_bytes sum_li : Z) (i : am_pdu_info)
    : res (bool * Z * Z * Z * am_pdu_info) :=
  match fuel with
  | O => Err EFuel
  | S fuel =>
      let li_length_in_bytes := li_length_in_bytes .^ 3 in
      '(li, li_to_read, e_li, hsz) ← (
        if li_length_in_bytes =? 2 then
          b1 ← rd header_pP e_li;
          b2 ← rd header_pP (e_li + 1);
          Ok ((u16 (b1 .<< 4) .& 0x07F0) .| (u8 (b2 .>> 4) .& 0x000F),
              b1 .& 0x80, e_li, 2)
        else
          b2 ← rd header_pP (e_li + 1);
          b3 ← rd header_pP (e_li + 2);
          Ok ((u16 (b2 .<< 8) .& 0x0700) .| b3, b2 .& 0x08, e_li + 3, 1));
      (* li_list[num_li] = li *)
      _ ← res_guard (di_num_li i <? RLC_AM_MAX_SDU_IN_PDU) EBounds;
      let i := i <| di_li_list := di_li_list i ++ [li] |>
                 <| di_header_size := s16 (di_header_size i + hsz) |> in
      let sum_li := s16 (sum_li + li) in
      let i := i <| di_num_li := u16 (di_num_li i + 1) |> in
      if RLC_AM_MAX_SDU_IN_PDU <? di_num_li i
      then Ok (true, e_li, li_length_in_bytes, sum_li, i)
      else if truth li_to_read
      then am_li_loop fuel header_pP e_li li_length_in_bytes sum_li i
      else Ok (false, e_li, li_length_in_bytes, sum_li, i)
  end.

(** The fields before the length indicators. *)
Definition am_fixed_header (header_pP : list Z) : res am_pdu_info :=
  b1 ← rd header_pP 0;
  let i := am_pdu_info0 <| di_d_c := b1 .>> 7 |> in
  if truth (di_d_c i) then
    b2 ← rd header_pP 1;
    let i := i <| di_rf := (b1 .>> 6) .& 0x01 |>
               <| di_p := (b1 .>> 5) .& 0x01 |>
               <| di_fi := (b1 .>> 3) .& 0x03 |>
               <| di_e := (b1 .>> 2) .& 0x01 |>
               <| di_sn := b2 + u16 ((b1 .& 0x03) .<< 8) |>
               <| di_header_size := 2 |> in
    if truth (di_rf i) then
      d0 ← rd header_pP 2;
      d1 ← rd header_pP 3;
      Ok (i <| di_lsf := (d0 .>> 7) .& 0x01 |>
            <| di_so := d1 + u16 ((d0 .& 0x7F) .<< 8) |>
            <| di_payload := 4 |>
            <| di_header_size := 4 |>)
    else Ok (i <| di_payload := 2 |>)
  else Ok i.

(** The value returned and [*pdu_info_pP]; [header_pP] is the memory from the first
    byte of the PDU on, in which nothing stops the reading. *)
Definition rlc_am_get_data_pdu_infos (header_pP : list Z) (total_sizeP : Z)
    : res (Z * am_pdu_info) :=
  i ← am_fixed_header header_pP;
  if truth (di_d_c i) then
    '(failed, sum_li, i) ← (
      if truth (di_e i) then
        '(failed, e_li, len, sum_li, i) ←
          am_li_loop 34 header_pP (if truth (di_rf i) then 4 else 2) 1 0 i;
        Ok (failed, sum_li,
            if (failed : bool) then i
            else i <| di_payload := if len =? 2 then e_li + 2 else e_li |>)
      else Ok (false, 0, i));
    if (failed : bool) then Ok (-2, i)
    else
      let i := i <| di_payload_size := s16 (s16 total_sizeP - di_header_size i) |> in
      let i := if sum_li <? di_payload_size i
               then i <| di_hidden_size := s16 (di_payload_size i - sum_li) |>
               else i in
      Ok (0, i)
  else Ok (-1, i).
