(* ===== verification/RlcAmReassembly.v ===== *)
(** RLC AM v9.3.0: reassembly of SDUs ([rlc_am_reassembly.c]). *)
From S2P Require Import Prelude.
From S2P Require Import RlcAmEntity.
From S2P Require Import RlcAmRx.

Local Open Scope Z_scope.

Definition RLC_SDU_MAX_SIZE : Z := 9000.

Definition rlc_am_clear_rx_sdu (e : am_rx) : am_rx :=
  e <| output_sdu_size_to_write := 0 |>.

(** The block for a new SDU; the [assert] refuses a null pointer. *)
Definition am_output_block (e : am_rx) : res am_rx :=
  match output_sdu_in_construction e with
  | Some _ => Ok e
  | None =>
      match pool e with
      | false :: _ => Err EAssert
      | _ => Ok (e <| pool := tail (pool e) |> <| output_sdu_in_construction := Some [] |>
                   <| output_sdu_size_to_write := 0 |>)
      end
  end.

(** [src_pP] is the memory from the pointer on.  The block is the list of the bytes
    written so far, of which the first [output_sdu_size_to_write] count. *)
Definition rlc_am_reassembly (src_pP : list Z) (lengthP : Z) (e : am_rx) : res am_rx :=
  e ← am_output_block e;
  match output_sdu_in_construction e with
  | Some blk =>
      if output_sdu_size_to_write e + lengthP <=? RLC_SDU_MAX_SIZE then
        src ← rd_n src_pP 0 lengthP;
        let off := Z.to_nat (output_sdu_size_to_write e) in
        Ok (e <| output_sdu_in_construction := Some (take off blk ++ src) |>
              <| output_sdu_size_to_write := s32 (output_sdu_size_to_write e + lengthP) |>)
      else Ok (e <| output_sdu_size_to_write := 0 |>)
  | None => Ok e
  end.

Definition rlc_am_send_sdu (e : am_rx) : res am_rx :=
  match output_sdu_in_construction e with
  | Some blk =>
      let n := output_sdu_size_to_write e in
      if 0 <? n then
        Ok (e <| stat_rx_pdcp_sdu := u32 (stat_rx_pdcp_sdu e + 1) |>
              <| stat_rx_pdcp_bytes := u32 (stat_rx_pdcp_bytes e + n) |>
              <| delivered := delivered e ++ [take (Z.to_nat n) blk] |>
              <| output_sdu_in_construction := None |>
              <| output_sdu_size_to_write := 0 |>)
      else Err EAssert
  | None => Ok e
  end.

(** [reassembly], then [send_sdu]. *)
Definition am_append_send (src_pP : list Z) (lengthP : Z) (e : am_rx) : res am_rx :=
  e ← rlc_am_reassembly src_pP lengthP e; rlc_am_send_sdu e.

(** The loop over the length indicators; [data] is the payload from [j] on. *)
Fixpoint am_reassemble_lis (lis data : list Z) (e : am_rx) : res (am_rx * list Z) :=
  match lis with
  | [] => Ok (e, data)
  | li :: lis =>
      e ← am_append_send data li e;
      am_reassemble_lis lis (drop (Z.to_nat li) data) e
  end.

(** A PDU without length indicators. *)
Definition am_reassemble_no_li (fi : Z) (data : list Z) (size : Z) (e : am_rx)
    : res am_rx :=
  if fi =? 0 then e ← rlc_am_send_sdu e; am_append_send data size e
  else if fi =? 1 then e ← rlc_am_send_sdu e; rlc_am_reassembly data size e
  else if fi =? 2 then am_append_send data size e
  else if fi =? 3 then rlc_am_reassembly data size e
  else Ok e.

(** A PDU with length indicators. *)
Definition am_reassemble_li (fi : Z) (lis data : list Z) (hidden_size : Z) (e : am_rx)
    : res am_rx :=
  e ← (if (fi =? 0) || (fi =? 1) then rlc_am_send_sdu e else Ok e);
  '(e, data) ← am_reassemble_lis lis data e;
  if 0 <? hidden_size then
    if (fi =? 0) || (fi =? 2) then am_append_send data hidden_size e
    else rlc_am_reassembly data hidden_size e
  else Ok e.

Definition rlc_am_reassemble_pdu (c : am_rx_pdu) (e : am_rx) : res am_rx :=
  let i := pdu_info c in
  let payload := drop (Z.to_nat (di_payload i)) (pdu_bytes c) in
  if di_e i =? 0 then am_reassemble_no_li (di_fi i) payload (di_payload_size i) e
  else am_reassemble_li (di_fi i) (di_li_list i) payload (di_hidden_size i) e.
