(* ===== verification/RlcAmRxList.v ===== *)
(** RLC AM v9.3.0: the receiver buffer ([rlc_am_rx_list.c]), a list of PDUs and
    segments of PDUs. *)
From S2P Require Import Prelude.
From S2P Require Import RlcAmEntity.
From S2P Require Import RlcAmRx.
From S2P Require Import RlcAmReassembly.

Local Open Scope Z_scope.

(** [so + payload_size - 1], the last byte of a segment. *)
Definition di_end (i : am_pdu_info) : Z := di_so i + di_payload_size i - 1.

(** ** [rlc_am_rx_list_insert_pdu] *)

(** What a turn of a loop decides: the PDU is put beside the cursor, it is
    dropped, or the cursor moves on. *)
Inductive verdict := Place | Drop | Next.

(** A turn of the loops from the head on, both of which have this body: the PDU,
    the previous cursor and the cursor. *)
Definition turn_forward (p : am_pdu_info) (previous : option am_pdu_info)
    (cursor : am_pdu_info) : verdict :=
  if di_sn p <? di_sn cursor then
    match previous with
    | Some q =>
        if di_sn q =? di_sn p then
          if negb (di_rf p =? di_rf q) then Drop
          else if (di_rf p =? 1) && (di_so p <=? di_end q) then Drop
          else Place
        else Place
    | None => Place
    end
  else if di_sn p =? di_sn cursor then
    if di_rf cursor =? 0 then Drop
    else if di_rf p =? 1 then
      if di_end p <? di_so cursor then
        match previous with
        | Some q =>
            if di_sn q =? di_sn cursor then
              if di_end q <? di_so p then Place else Drop
            else Place
        | None => Place
        end
      else if di_so p <=? di_so cursor then Drop
      else Next
    else Drop
  else Next.

(** A turn of the loop from the tail on, where the previous cursor is the next
    element of the list. *)
Definition turn_backward (p : am_pdu_info) (previous : option am_pdu_info)
    (cursor : am_pdu_info) : verdict :=
  if di_sn cursor <? di_sn p then
    match previous with
    | Some q =>
        if di_sn q =? di_sn cursor then
          if negb (di_rf p =? di_rf q) then Drop
          else if (di_rf p =? 1) && (di_so q <=? di_end p) then Drop
          else Place
        else Place
    | None => Place
    end
  else if di_sn p =? di_sn cursor then
    if di_rf cursor =? 0 then Drop
    else if di_rf p =? 1 then
      if di_end cursor <? di_so p then
        match previous with
        | Some q =>
            if di_sn q =? di_sn cursor then
              if di_end p <? di_so q then Place else Drop
            else Place
        | None => Place
        end
      else if di_so cursor <=? di_so p then Drop
      else Next
    else Drop
  else Next.

(** How a loop ends: at a cursor beside which the PDU is put, with the PDU
    dropped, or by its condition, at a cursor or at the end of the list. *)
Inductive walk := WPlace (i : nat) | WDrop | WEnd (i : nat).

Section loop.
Context (turn : am_pdu_info -> option am_pdu_info -> am_pdu_info -> verdict).
Context (cond : am_pdu_info -> bool) (p : am_pdu_info).

(** The loop at the cursor [i], from which on the list is [l]. *)
Fixpoint walk_list (previous : option am_pdu_info) (i : nat) (l : list am_rx_pdu) : walk :=
  match l with
  | [] => WEnd i
  | c :: l =>
      if cond (pdu_info c) then
        match turn p previous (pdu_info c) with
        | Place => WPlace i
        | Drop => WDrop
        | Next => walk_list (Some (pdu_info c)) (S i) l
        end
      else WEnd i
  end.
End loop.

(** [list2_insert_before_element] of the element [i], at the tail if there is
    none: the list, and the place of the new element. *)
Definition insert_before {A} (i : nat) (x : A) (l : list A) : list A * nat :=
  (take i l ++ x :: drop i l, i).
(** [list2_insert_after_element] of the element [i] from the tail on. *)
Definition insert_after_rev {A} (i : nat) (x : A) (l : list A) : list A * nat :=
  insert_before (length l - i) x l.

(** The end of both loops with wrapped numbers when they have reached the end of
    the list: [cursor] is the last element visited.  Whether the PDU is put at the
    tail. *)
Definition past_the_end (p cursor : am_pdu_info) : bool :=
  if di_rf cursor =? 0 then true
  else if (di_rf p =? 1) && (di_rf cursor =? 1) && (di_sn p =? di_sn cursor) then
    di_end cursor <? di_so p
  else negb (di_sn p =? di_sn cursor).

(** VR(MR) < VR(R) <= SN. *)
Definition insert_upper (vr_r : Z) (tb : am_rx_pdu) (l : list am_rx_pdu)
    : option (list am_rx_pdu * nat) :=
  let p := pdu_info tb in
  match walk_list turn_forward (fun c => vr_r <=? di_sn c) p None 0 l with
  | WPlace i => Some (insert_before i tb l)
  | WDrop => None
  | WEnd i =>
      if (i <? length l)%nat then Some (insert_before i tb l)
      else
        match last l with
        | Some c => if past_the_end p (pdu_info c) then Some (insert_before (length l) tb l)
                    else None
        | None => None
        end
  end.

(** VR(MR) < VR(R) and SN < VR(R). *)
Definition insert_lower (vr_r : Z) (tb : am_rx_pdu) (l : list am_rx_pdu)
    : option (list am_rx_pdu * nat) :=
  let p := pdu_info tb in
  match walk_list turn_backward (fun c => di_sn c <? vr_r) p None 0 (rev l) with
  | WPlace i => Some (insert_after_rev i tb l)
  | WDrop => None
  | WEnd i =>
      if (i <? length l)%nat then Some (insert_after_rev i tb l)
      else
        match head l with
        | Some c => if past_the_end p (pdu_info c) then Some (insert_before (length l) tb l)
                    else None
        | None => None
        end
  end.

(** VR(R) <= VR(MR). *)
Definition insert_simple (tb : am_rx_pdu) (l : list am_rx_pdu)
    : option (list am_rx_pdu * nat) :=
  let p := pdu_info tb in
  match walk_list turn_forward (fun _ => true) p None 0 l with
  | WPlace i => Some (insert_before i tb l)
  | WDrop => None
  | WEnd _ =>
      match last l with
      | Some c =>
          if di_sn p =? di_sn (pdu_info c) then
            if di_end (pdu_info c) <? di_so p then Some (insert_before (length l) tb l)
            else None
          else Some (insert_before (length l) tb l)
      | None => None
      end
  end.

(** The entity and the place of [tb_pP] in the buffer, [None] for a negative
    return, with nothing changed. *)
Definition rlc_am_rx_list_insert_pdu (e : am_rx) (tb_pP : am_rx_pdu)
    : option (am_rx * nat) :=
  let l := receiver_buffer e in
  r ← (match l with
       | [] => Some ([tb_pP], O)
       | _ :: _ =>
           if vr_mr e <? vr_r e then
             if vr_r e <=? rx_sn tb_pP then insert_upper (vr_r e) tb_pP l
             else insert_lower (vr_r e) tb_pP l
           else insert_simple tb_pP l
       end);
  Some (e <| receiver_buffer := r.1 |>, r.2).

(** ** [rlc_am_rx_check_all_byte_segments] *)

(** [rlc_am_rx_mark_all_segments_received]; [l] is the list from the first segment
    on, whose sequence number is [sn]. *)
Fixpoint mark_all (sn : Z) (l : list am_rx_pdu) : list am_rx_pdu :=
  match l with
  | [] => []
  | c :: l' =>
      if rx_sn c =? sn then c <| all_segments_received := true |> :: mark_all sn l' else l
  end.

Definition rlc_am_rx_mark_all_segments_received (first : nat) (sn : Z)
    (l : list am_rx_pdu) : list am_rx_pdu :=
  take first l ++ mark_all sn (drop first l).

(** The first element, from the cursor [i] back, of those with the number [sn]. *)
Fixpoint first_segment (sn : Z) (l : list am_rx_pdu) (i : nat) : nat :=
  match i with
  | O => O
  | S j =>
      match l !! j with
      | Some c => if rx_sn c =? sn then first_segment sn l j else i
      | None => i
      end
  end.

(** The loop over the elements behind the first: whether it calls
    [rlc_am_rx_mark_all_segments_received], which leaves what it reads alone.
    [next_waited_so] has no influence and is left out. *)
Fixpoint segments_complete (sn last_end_so : Z) (l : list am_rx_pdu) : bool :=
  match l with
  | [] => false
  | c :: l =>
      let i := pdu_info c in
      if di_sn i =? sn then
        if negb (di_rf i =? 1) || negb (di_so i <=? last_end_so) then false
        else (0 <? di_lsf i) || segments_complete sn (di_so i + di_payload_size i) l
      else false
  end.

(** [tb_pP] is the element [i] of the buffer. *)
Definition rlc_am_rx_check_all_byte_segments (i : nat) (l : list am_rx_pdu)
    : list am_rx_pdu :=
  match l !! i with
  | None => l
  | Some tb =>
      if di_rf (pdu_info tb) =? 0 then <[i := tb <| all_segments_received := true |>]> l
      else
        let sn := rx_sn tb in
        let first := first_segment sn l i in
        match drop first l with
        | c :: rest =>
            if negb (di_so (pdu_info c) =? 0) then l
            else if segments_complete sn (di_payload_size (pdu_info c)) rest
            then rlc_am_rx_mark_all_segments_received first sn l
            else l
        | [] => l
        end
  end.

(** ** [rlc_am_rx_list_reassemble_rlc_sdus] *)

(** The condition of the loop: the PDU released, the head. *)
Definition goes_on (old c : am_rx_pdu) : bool :=
  (rx_sn c =? sn_after (rx_sn old)) || ((rx_sn c =? rx_sn old) && all_segments_received c).

Fixpoint reassemble_buffer (l : list am_rx_pdu) (e : am_rx)
    : res (am_rx * list am_rx_pdu) :=
  match l with
  | [] => Ok (e, [])
  | c :: l' =>
      if all_segments_received c then
        e ← rlc_am_reassemble_pdu c e;
        match l' with
        | [] => Ok (e, [])
        | d :: _ => if goes_on c d then reassemble_buffer l' e else Ok (e, l')
        end
      else Ok (e, l)
  end.

Definition rlc_am_rx_list_reassemble_rlc_sdus (e : am_rx) : res am_rx :=
  '(e, l) ← reassemble_buffer (receiver_buffer e) e;
  Ok (e <| receiver_buffer := l |>).
