(* ===== verification/RlcAmReceiver.v ===== *)
(** RLC AM v9.3.0: the receiver ([rlc_am_receiver.c]) and its entry ([rlc_am_rx]
    of [rlc_am.c]). *)
From S2P Require Import Prelude.
From S2P Require Import RlcAmEntity.
From S2P Require Import RlcAmRetransmit.
From S2P Require Import RlcAmRx.
From S2P Require Import RlcAmReassembly.
From S2P Require Import RlcAmRxList.

Local Open Scope Z_scope.
Local Open Scope c_scope.

(** ** The state variables *)

(** The loop of [rlc_am_rx_update_vr_ms] from the cursor on; [last_sn] is that of
    the element before. *)
Fixpoint vr_ms_walk (last_sn : Z) (l : list am_rx_pdu) : Z :=
  match l with
  | [] => sn_after last_sn
  | c :: l => if all_segments_received c then vr_ms_walk (rx_sn c) l else rx_sn c
  end.

(** [tb_pP] is the element [i] of the buffer. *)
Definition rlc_am_rx_update_vr_ms (e : am_rx) (i : nat) : am_rx :=
  match drop i (receiver_buffer e) with
  | [] => e
  | c :: l => e <| vr_ms := vr_ms_walk (rx_sn c) (c :: l) |>
  end.

Fixpoint vr_r_walk (vr_r : Z) (l : list am_rx_pdu) : Z :=
  match l with
  | [] => vr_r
  | c :: l =>
      if negb (all_segments_received c) || negb (vr_r =? rx_sn c) then vr_r
      else
        let vr_r :=
          if di_rf (pdu_info c) =? 1 then
            if di_lsf (pdu_info c) =? 1 then sn_after vr_r else vr_r
          else sn_after vr_r in
        vr_r_walk vr_r l
  end.

Definition rlc_am_rx_update_vr_r (e : am_rx) (i : nat) : am_rx :=
  e <| vr_r := vr_r_walk (vr_r e) (drop i (receiver_buffer e)) |>.

(** ** [rlc_am_receive_process_data_pdu] *)

Definition count_dropped (size : Z) (e : am_rx) : am_rx :=
  e <| stat_rx_data_pdu_dropped := u32 (stat_rx_data_pdu_dropped e + 1) |>
    <| stat_rx_data_bytes_dropped := u32 (stat_rx_data_bytes_dropped e + size) |>.

Definition count_out_of_window (size : Z) (e : am_rx) : am_rx :=
  e <| stat_rx_data_pdu_out_of_window := u32 (stat_rx_data_pdu_out_of_window e + 1) |>
    <| stat_rx_data_bytes_out_of_window :=
         u32 (stat_rx_data_bytes_out_of_window e + size) |>.

(** The timer after a PDU of which [sn] is what is found in its block. *)
Definition update_reordering (e : am_rx) (frameP sn : Z) : am_rx :=
  let e :=
    if running (t_reordering e)
       && ((vr_x e =? vr_r e)
           || ((rlc_am_in_rx_window e sn =? 0) && negb (vr_x e =? vr_mr e)))
    then rlc_am_stop_and_reset_timer_reordering e else e in
  if negb (running (t_reordering e)) && negb (vr_h e =? vr_r e)
  then (rlc_am_start_timer_reordering e frameP) <| vr_x := vr_h e |>
  else e.

(** 5.1.3.2.3, for the PDU [p] placed at [i].  [stale] is the number read from its
    block after the reassembly has released it. *)
Definition pdu_placed (e : am_rx) (frameP stale : Z) (p : am_pdu_info) (i : nat)
    : res am_rx :=
  let e := if 0 <? rlc_am_sn_gte_vr_h e (di_sn p) then e <| vr_h := sn_after (di_sn p) |>
           else e in
  let e := e <| receiver_buffer := rlc_am_rx_check_all_byte_segments i (receiver_buffer e) |> in
  let complete := match receiver_buffer e !! i with
                  | Some c => all_segments_received c
                  | None => false
                  end in
  let e := if (di_sn p =? vr_ms e) && complete then rlc_am_rx_update_vr_ms e i else e in
  if di_sn p =? vr_r e then
    let e :=
      if complete then
        let e := rlc_am_rx_update_vr_r e i in
        e <| vr_mr := (vr_r e + RLC_AM_WINDOW_SIZE) .& RLC_AM_SN_MASK |>
      else e in
    e' ← rlc_am_rx_list_reassemble_rlc_sdus e;
    let released := (length (receiver_buffer e) - length (receiver_buffer e'))%nat in
    Ok (update_reordering e' frameP (if (i <? released)%nat then stale else di_sn p))
  else Ok (update_reordering e frameP (di_sn p)).

(** [l] is the memory from [first_byte_pP] on. *)
Definition rlc_am_receive_process_data_pdu (e : am_rx) (frameP : Z) (l : list Z)
    (tb_size_in_bytesP stale : Z) : res am_rx :=
  let size := u16 tb_size_in_bytesP in
  '(rc, p) ← rlc_am_get_data_pdu_infos l size;
  if 0 <=? rc then
    if truth (rlc_am_in_rx_window e (di_sn p)) then
      let e := if truth (di_p p) then e <| status_requested := true |> else e in
      match rlc_am_rx_list_insert_pdu e (AmRxPdu p false l) with
      | None => Ok ((count_dropped size e) <| status_requested := true |>)
      | Some (e, i) => pdu_placed e frameP stale p i
      end
    else Ok ((count_out_of_window size e) <| status_requested := true |>)
  else Ok e.

(** ** [rlc_am_receive_routing] *)

(** The two sides of [rlc_am_entity_t], and its state. *)
Inductive am_state := RLC_NULL_STATE | RLC_DATA_TRANSFER_READY_STATE | other_state.
Record am_entity := AmEntity {
  protocol_state : am_state;
  ent_tx : am_tx;
  ent_rx : am_rx
}.

(** A block of [mac_data_ind]: the memory from [data_ptr] on, [size], and the number
    found in the block once it is released. *)
Record am_tb_ind := AmTbInd {
  ind_data : list Z;
  ind_size : Z;
  ind_stale : Z
}.

Definition receive_block (frameP : Z) (tb : am_tb_ind) (e : am_entity) : res am_entity :=
  let '(AmEntity st tx rx) := e in
  let size := ind_size tb in
  if 0 <? size then
    b ← rd (ind_data tb) 0;
    if b .& 0x80 =? 0x80 then
      let rx := rx <| stat_rx_data_bytes := u32 (stat_rx_data_bytes rx + size) |>
                   <| stat_rx_data_pdu := u32 (stat_rx_data_pdu rx + 1) |> in
      rx ← rlc_am_receive_process_data_pdu rx frameP (ind_data tb) size (ind_stale tb);
      Ok (AmEntity st tx rx)
    else
      let rx := rx <| stat_rx_control_bytes := u32 (stat_rx_control_bytes rx + size) |>
                   <| stat_rx_control_pdu := u32 (stat_rx_control_pdu rx + 1) |> in
      '(tx, rest) ← rlc_am_receive_process_control_pdu tx frameP (ind_data tb) size;
      _ ← res_guard (rest =? 0) EAssert;
      Ok (AmEntity st tx rx)
  else Ok e.

Fixpoint rlc_am_receive_routing (frameP : Z) (tbs : list am_tb_ind) (e : am_entity)
    : res am_entity :=
  match tbs with
  | [] => Ok e
  | tb :: tbs => e ← receive_block frameP tb e; rlc_am_receive_routing frameP tbs e
  end.

Definition rlc_am_rx (e : am_entity) (frameP : Z) (tbs : list am_tb_ind) : res am_entity :=
  match protocol_state e with
  | RLC_DATA_TRANSFER_READY_STATE => rlc_am_receive_routing frameP tbs e
  | _ => Ok e
  end.
