(* ===== verification/RlcAmStatusReport.v ===== *)
(** RLC AM v9.3.0: the STATUS PDU a receiver sends ([rlc_am_send_status_pdu] of
    [rlc_am_status_report.c]). *)
From S2P Require Import Prelude.
From S2P Require Import RlcAmEntity.
From S2P Require Import RlcAmStatus.
From S2P Require Import RlcAmRx.

Local Open Scope Z_scope.
Local Open Scope c_scope.

(** The local variables: [nb_bits_to_transmit], [nack_list] up to [num_nack],
    [previous_sn_cursor]. *)
Record report := Report {
  nb_bits : Z;
  nacks : list nack_sn;
  previous_sn : Z
}.
#[export] Instance report_eta : Eta report := fun r =>
  Report (nb_bits r) (nacks r) (previous_sn r).

(** An entry at the end of [nack_list], of [bits] bits. *)
Definition push_nack (n : nack_sn) (bits : Z) (r : report) : res report :=
  _ ← res_guard (zlen (nacks r) <? RLC_AM_MAX_NACK_IN_STATUS_PDU) EBounds;
  Ok (r <| nacks := nacks r ++ [n] |> <| nb_bits := nb_bits r - bits |>).

(** What a part of the loop leads to: on with the loop, or [goto end_push_nack] with
    [ack_sn]. *)
Inductive outcome (A : Type) := GoOn (a : A) | Stop (ack : Z) (r : report).
Arguments GoOn {A} _.
Arguments Stop {A} _ _.

(** The PDUs missing before [sn_cursor]: a turn each.  1024 are enough. *)
Fixpoint nack_missing (fuel : nat) (sn_cursor : Z) (r : report) : res (outcome report) :=
  match fuel with
  | O => Err EFuel
  | S fuel =>
      if sn_after (previous_sn r) =? sn_cursor then Ok (GoOn r)
      else if 12 <? nb_bits r then
        let sn := sn_after (previous_sn r) in
        r ← push_nack (NackSn sn 1 0 0 0x7ff) 12 (r <| previous_sn := sn |>);
        nack_missing fuel sn_cursor r
      else Ok (Stop (sn_after (previous_sn r)) r)
  end.

(** [waited_so] after a segment. *)
Definition waited_after (i : am_pdu_info) : Z :=
  if di_lsf i =? 1 then 0x7FFF else di_so i + di_payload_size i.

(** The [do] loop over the segments of the number [sn_cursor], [c] the first of
    them and [l] what follows: where the list is afterwards and [waited_so]. *)
Fixpoint nack_segments (waited_so : Z) (c : am_rx_pdu) (l : list am_rx_pdu)
    (sn_cursor : Z) (r : report)
    : res (outcome (Z * am_rx_pdu * list am_rx_pdu * report)) :=
  let i := pdu_info c in
  r' ← (
    if waited_so <? di_so i then
      if 42 <=? nb_bits r then
        r ← push_nack (NackSn sn_cursor 1 1 (waited_so .& 0x7FFF) (di_so i - 1)) 42 r;
        Ok (GoOn r)
      else Ok (Stop sn_cursor r)
    else Ok (GoOn r));
  match r' with
  | Stop ack r => Ok (Stop ack r)
  | GoOn r =>
      match l with
      | [] => Ok (Stop (previous_sn r) r)
      | d :: l =>
          let r := r <| previous_sn := sn_cursor |> in
          if rx_sn d =? sn_cursor
          then nack_segments (waited_after i) d l (rx_sn d) r
          else Ok (GoOn (waited_after i, d, l, r))
      end
  end.

(** The last segment of the number [previous_sn] that may be missing. *)
Definition nack_last_segment (waited_so : Z) (r : report) : res (outcome report) :=
  if negb (waited_so =? 0x7FFF) then
    if 42 <=? nb_bits r then
      r ← push_nack (NackSn (previous_sn r) 1 1 (waited_so .& 0x7FFF) 0x7FFF) 42 r;
      Ok (GoOn r)
    else Ok (Stop (previous_sn r) r)
  else Ok (GoOn r).

(** The [do] loop over further segments of the number just reported; the element
    found behind them, or ACK_SN. *)
Fixpoint skip_segments (c : am_rx_pdu) (l : list am_rx_pdu) (r : report)
    : outcome (am_rx_pdu * list am_rx_pdu) :=
  match l with
  | [] =>
      Stop (sn_after (if all_segments_received c then rx_sn c else previous_sn r)) r
  | d :: l => if rx_sn d =? previous_sn r then skip_segments d l r else GoOn (d, l)
  end.

(** The loop over the buffer, at the element [c] followed by [l]; there is one turn
    per element at most.  The result is ACK_SN. *)
Fixpoint report_loop (fuel : nat) (cursor : list am_rx_pdu) (r : report)
    : res (Z * report) :=
  match fuel with
  | O => Err EFuel
  | S fuel =>
      match cursor with
      | [] => Ok (sn_after (previous_sn r), r)
      | c :: l =>
          if negb (12 <=? nb_bits r) then Ok (sn_after (previous_sn r), r)
          else
            match (if rx_sn c =? previous_sn r then skip_segments c l r else GoOn (c, l)) with
            | Stop ack r => Ok (ack, r)
            | GoOn (c, l) =>
                o ← nack_missing 1025 (rx_sn c) r;
                match o with
                | Stop ack r => Ok (ack, r)
                | GoOn r =>
                    if all_segments_received c
                    then report_loop fuel l (r <| previous_sn := rx_sn c |>)
                    else
                      o ← nack_segments 0 c l (rx_sn c) r;
                      match o with
                      | Stop ack r => Ok (ack, r)
                      | GoOn (waited_so, d, l, r) =>
                          o ← nack_last_segment waited_so r;
                          match o with
                          | Stop ack r => Ok (ack, r)
                          | GoOn r => report_loop fuel (d :: l) r
                          end
                      end
                end
            end
      end
  end.

(** The loop that looks for the receiving window; the end of the list is a null
    pointer. *)
Fixpoint find_window (e : am_rx) (previous_sn : Z) (l : list am_rx_pdu)
    : res (Z * list am_rx_pdu) :=
  match l with
  | [] => Err ENull
  | c :: l' =>
      if rlc_am_in_rx_window e (rx_sn c) =? 0 then find_window e (rx_sn c) l'
      else Ok (previous_sn, l)
  end.

(** ACK_SN and the local variables at [end_push_nack]. *)
Definition make_report (e : am_rx) : res (Z * report) :=
  let bits := s32 (nb_bytes_requested_by_mac e .<< 3) - 15 in
  let previous := (vr_r e - 1) .& RLC_AM_SN_MASK in
  match receiver_buffer e with
  | [] => Ok (vr_r e, Report bits [] previous)
  | l =>
      '(previous, l) ← find_window e previous l;
      report_loop (S (length l)) l (Report bits [] previous)
  end.

(** The extension bit of the last entry is cleared. *)
Fixpoint close_nacks (ns : list nack_sn) : list nack_sn :=
  match ns with
  | [] => []
  | [n] => [n <| nack_e1 := 0 |>]
  | n :: ns => n :: close_nacks ns
  end.

(** [alloc] tells whether [get_free_mem_block] gives a block. *)
Definition rlc_am_send_status_pdu (alloc : bool) (e : am_rx) : res am_rx :=
  '(ack, r) ← make_report e;
  let i := ControlPduInfo 0 0 ack 0 (close_nacks (nacks r)) in
  let pdu_size := nb_bytes_requested_by_mac e - ((nb_bits r - 7) .>> 3) in
  _ ← res_guard alloc ENull;
  _ ← res_guard (0 <=? pdu_size) EBounds;
  '(l, pdu_size) ← rlc_am_write_status_pdu i (replicate (Z.to_nat pdu_size) 0);
  _ ← res_guard (pdu_size =? nb_bytes_requested_by_mac e - (nb_bits r .>> 3)) EAssert;
  Ok (e <| nb_bytes_requested_by_mac := nb_bytes_requested_by_mac e - pdu_size |>
        <| control_pdu_list := take (Z.to_nat pdu_size) l :: control_pdu_list e |>
        <| stat_tx_control_pdu := u32 (stat_tx_control_pdu e + 1) |>
        <| stat_tx_control_bytes := u32 (stat_tx_control_bytes e + pdu_size) |>).
