(* ===== verification/RlcAmSender.v ===== *)
(** RLC AM v9.3.0: what a transmitter has beside the acknowledgement of PDUs
    ([rlc_am_entity.h]), the acceptance of SDUs ([rlc_am_data_req] of [rlc_am.c]),
    polling ([rlc_am_pdu_polling] of [rlc_am_segment.c]) and the copy of a PDU
    ([rlc_am_retransmit_get_copy] of [rlc_am_retransmit.c]). *)
From S2P Require Import Prelude.
From S2P Require Import RlcAmEntity.

Local Open Scope Z_scope.
Local Open Scope c_scope.

Definition RLC_AM_HEADER_MIN_SIZE : Z := 2.
Definition RLC_AM_MIN_SEGMENT_SIZE_REQUEST : Z := 8.
Definition RLC_AM_MAX_SDU_FRAGMENTS : Z := 32.

(** [struct mac_tb_req]: the memory from [data_ptr] on, and [tb_size]. *)
Record am_tb_req := AmTbReq { req_data : list Z; req_size : Z }.

(** [rlc_am_entity_t], the fields of the transmitting side: [snd_tx] has those
    acknowledgement is about. *)
Record am_send := AmSend {
  snd_tx : am_tx;
  sdu_buffer_occupancy : Z;
  retransmission_buffer_occupancy : Z;
  status_buffer_occupancy : Z;
  c_pdu_without_poll : Z;
  c_byte_without_poll : Z;
  poll_pdu : Z;
  poll_byte : Z;
  segmentation_pdu_list : list am_tb_req;
  pdus_to_mac_layer : list am_tb_req;
  stat_tx_pdcp_sdu : Z;
  stat_tx_pdcp_bytes : Z;
  stat_tx_data_pdu : Z;
  stat_tx_data_bytes : Z;
  stat_tx_retransmit_pdu : Z;
  stat_tx_retransmit_bytes : Z;
  stat_tx_retransmit_pdu_by_status : Z;
  stat_tx_retransmit_bytes_by_status : Z
}.
#[export] Instance am_send_eta : Eta am_send := fun s =>
  AmSend (snd_tx s) (sdu_buffer_occupancy s) (retransmission_buffer_occupancy s)
    (status_buffer_occupancy s) (c_pdu_without_poll s) (c_byte_without_poll s)
    (poll_pdu s) (poll_byte s) (segmentation_pdu_list s) (pdus_to_mac_layer s)
    (stat_tx_pdcp_sdu s) (stat_tx_pdcp_bytes s) (stat_tx_data_pdu s)
    (stat_tx_data_bytes s) (stat_tx_retransmit_pdu s) (stat_tx_retransmit_bytes s)
    (stat_tx_retransmit_pdu_by_status s) (stat_tx_retransmit_bytes_by_status s).

(** ** [rlc_am_data_req] *)

(** [struct rlc_am_data_req]; [dr_data] is the memory from [data_offset] on.  [conf]
    is read and not used. *)
Record am_data_req := AmDataReq { dr_mui : Z; dr_size : Z; dr_data : list Z }.

(** [flags.segmented] is never set. *)
Definition rlc_am_data_req (s : am_send) (frameP : Z) (sdu : am_data_req) : res am_send :=
  let e := snd_tx s in
  old ← sdu_read e (next_sdu_index e);
  let next := (next_sdu_index e + 1) %% RLC_AM_SDU_CONTROL_BUFFER_SIZE in
  let data_size := u16 (dr_size sdu) in
  if bool_decide (sdu_mem_block old = None) && negb (next =? current_sdu_index e) then
    e ← sdu_write e (next_sdu_index e)
          (AmTxSdu (Some (dr_data sdu)) frameP (dr_mui sdu) data_size 0 data_size 0 0 false);
    Ok (s <| snd_tx := e <| nb_sdu := s32 (nb_sdu e + 1) |>
                         <| nb_sdu_no_segmented := s32 (nb_sdu_no_segmented e + 1) |>
                         <| next_sdu_index := next |> |>
          <| sdu_buffer_occupancy := s32 (sdu_buffer_occupancy s + data_size) |>
          <| stat_tx_pdcp_sdu := u32 (stat_tx_pdcp_sdu s + 1) |>
          <| stat_tx_pdcp_bytes := u32 (stat_tx_pdcp_bytes s + data_size) |>)
  else
    Ok (s <| snd_tx :=
               e <| stat_tx_pdcp_sdu_discarded := u32 (stat_tx_pdcp_sdu_discarded e + 1) |>
                 <| stat_tx_pdcp_bytes_discarded :=
                      u32 (stat_tx_pdcp_bytes_discarded e + dr_size sdu) |> |>).

(** ** [rlc_am_pdu_polling] *)

Definition poll_needed (s : am_send) : bool :=
  (poll_pdu s <=? c_pdu_without_poll s) || (poll_byte s <=? c_byte_without_poll s)
  || ((sdu_buffer_occupancy s =? 0) && (retrans_num_bytes_to_retransmit (snd_tx s) =? 0))
  || (vt_s (snd_tx s) =? vt_ms (snd_tx s)).

(** The counters are reset. *)
Definition poll_sent (s : am_send) : am_send :=
  s <| c_pdu_without_poll := 0 |> <| c_byte_without_poll := 0 |>.

(** [pdu] is the memory from [pdu_pP] on. *)
Definition rlc_am_pdu_polling (s : am_send) (frameP : Z) (pdu : list Z) (payload_sizeP : Z)
    : res (am_send * list Z) :=
  let s := s <| c_pdu_without_poll := u32 (c_pdu_without_poll s + 1) |>
             <| c_byte_without_poll := u32 (c_byte_without_poll s + s16 payload_sizeP) |> in
  b1 ← rd pdu 0;
  if poll_needed s then
    pdu ← wr pdu 0 [b1 .| 0x20];
    let e := snd_tx s in
    let e := e <| poll_sn := (vt_s e - 1) .& RLC_AM_SN_MASK |> in
    Ok (poll_sent s <| snd_tx := rlc_am_start_timer_poll_retransmit e frameP |>, pdu)
  else
    pdu ← wr pdu 0 [b1 .& 0xDF];
    Ok (s, pdu).

(** ** [rlc_am_retransmit_get_copy] *)

(** [get_free_mem_block] gives the memory of the copy, from the PDU on.  The header of
    the block is copied as well: its [tb_size] is [header_and_payload_size] since
    the PDU was made. *)
Definition rlc_am_retransmit_get_copy (get_free_mem_block : Z -> option (list Z))
    (s : am_send) (frameP snP : Z) : res (am_send * option am_tb_req) :=
  p ← pdu_read (snd_tx s) snP;
  match pdu_mem_block p with
  | None => Ok (s, None)
  | Some original =>
      let size := header_and_payload_size p in
      match get_free_mem_block size with
      | None => Err ENull
      | Some m =>
          src ← rd_n original 0 size;
          m ← wr m 0 src;
          e ← pdu_write (snd_tx s) snP (p <| flag_retransmit := false |>);
          '(s, m) ← rlc_am_pdu_polling (s <| snd_tx := e |>) frameP m (payload_size p);
          Ok (s, Some (AmTbReq m size))
      end
  end.

(** [list_add_tail_eurecom (copy, &pdus)]. *)
Definition add_copy (copy : option am_tb_req) (l : list am_tb_req) : res (list am_tb_req) :=
  match copy with
  | None => Err ENull
  | Some tb => Ok (l ++ [tb])
  end.
