(* ===== verification/RlcAmSegment.v ===== *)
(** RLC AM v9.3.0: segmentation and concatenation of SDUs into an AMD PDU
    ([rlc_am_segment_10] of [rlc_am_segment.c]).  The local variables and the
    writing of a length indicator are those of [rlc_um_segment.c]. *)
From S2P Require Import Prelude.
From S2P Require Import RlcUmSegment.
From S2P Require Import RlcAmEntity.
From S2P Require Import RlcAmReassembly.
From S2P Require Import RlcAmSender.

Local Open Scope Z_scope.
Local Open Scope c_scope.

(** ** Size of the PDU *)

Definition am_data_pdu_size (s : am_send) (nb_bytes_to_transmit : Z) : Z :=
  let all := sdu_buffer_occupancy s + RLC_AM_HEADER_MIN_SIZE
             + max_li_overhead (nb_sdu_no_segmented (snd_tx s)) in
  if all <=? nb_bytes_to_transmit then all else nb_bytes_to_transmit.

(** ** How many SDUs fill the PDU *)

(** An SDU of [r] bytes, [nb_sdus] being in the PDU before: the variables, and
    [continue_fill_pdu_with_sdu]. *)
Definition am_plan_step (r nb_sdus : Z) (p : plan) : plan * bool :=
  let li := p_li p .^ 3 in
  if p_test p <? r then (plan_stop p, false)
  else if r =? p_test p then (plan_stop p, false)
  else if r + li =? p_test p then (plan_reduce false li (plan_stop p), false)
  else if r + li <? p_test p then
    if RLC_AM_MAX_SDU_IN_PDU - 1 <=? nb_sdus
    then (plan_reduce false 1 (plan_stop p), false)
    else
      (p <| p_num := u32 (p_num p + 1) |>
         <| p_test := s32 (p_test p - (r + li)) |>
         <| p_sub := li |> <| p_subn := 1 |> <| p_li := li |>, true)
  else (plan_reduce false 1 (plan_stop p), false).

(** The SDU [i] and the PDU refer to each other. *)
Definition link_sdu (i : Z) (p : am_tx_pdu) (e : am_tx) : res (am_tx_pdu * am_tx) :=
  index ← wr (sdus_index p) (nb_sdus p) [i];
  let p := p <| sdus_index := index |> <| nb_sdus := s8 (nb_sdus p + 1) |> in
  s ← sdu_read e i;
  _ ← res_guard (nb_pdus s <? RLC_AM_MAX_SDU_FRAGMENTS) EBounds;
  let s := s <| nb_pdus := u8 (nb_pdus s + 1) |> in
  _ ← res_guard (nb_pdus s <? RLC_AM_MAX_SDU_FRAGMENTS) EAssert;
  e ← sdu_write e i s;
  Ok (p, e).

(** There are 32 turns at most. *)
Fixpoint am_plan_loop (fuel : nat) (i : Z) (pl : plan) (p : am_tx_pdu) (e : am_tx)
    : res (plan * am_tx_pdu * am_tx) :=
  match fuel with
  | O => Err EFuel
  | S fuel =>
      s ← sdu_read e i;
      match sdu_mem_block s with
      | None => Ok (pl, p, e)
      | Some _ =>
          let '(pl, go) := am_plan_step (sdu_remaining_size s) (nb_sdus p) pl in
          '(p, e) ← link_sdu i p e;
          if (go : bool)
          then am_plan_loop fuel ((i + 1) %% RLC_AM_SDU_CONTROL_BUFFER_SIZE) pl p e
          else Ok (pl, p, e)
      end
  end.

(** ** Filling the PDU *)

(** [memcpy(data, data_sdu_p, n)], the SDU being [bytes]. *)
Definition am_copy_sdu (bytes : list Z) (s : am_tx_sdu) (n : Z) (f : fill) : res fill :=
  src ← rd_n bytes (sdu_segmented_size s) n;
  buf ← wr (f_buf f) (f_data f) src;
  Ok (f <| f_buf := buf |> <| f_bo := s32 (f_bo f - n) |>).

Definition add_payload (n : Z) (p : am_tx_pdu) : am_tx_pdu :=
  p <| payload_size := s32 (payload_size p + n) |>.

(** The current SDU is done. *)
Definition end_sdu (e : am_tx) : res am_tx :=
  e ← rlc_am_free_in_sdu_data (current_sdu_index e) e;
  Ok (e <| current_sdu_index :=
             (current_sdu_index e + 1) %% RLC_AM_SDU_CONTROL_BUFFER_SIZE |>).

(** The state of the [while] loop. *)
Record am_fill := AmFill { af_fill : fill; af_pdu : am_tx_pdu; af_tx : am_tx }.

Section fill.
Variable user_mode : bool.
Variable test_num_li : Z.

(** The body for the SDU [s] of [bytes]: the state and [continue_fill_pdu_with_sdu]. *)
Definition am_fill_step (bytes : list Z) (s : am_tx_sdu) (a : am_fill)
    : res (am_fill * bool) :=
  let '(AmFill f p e) := a in
  let r := sdu_remaining_size s in
  if f_rem f <? r then
    let n := f_rem f in
    f ← am_copy_sdu bytes s n f;
    e ← sdu_write e (current_sdu_index e)
          (s <| sdu_remaining_size := s32 (r - n) |>
             <| sdu_segmented_size := s32 (sdu_segmented_size s + n) |>);
    Ok (AmFill (f <| f_last := false |> <| f_rem := 0 |>) (add_payload n p) e, false)
  else if r =? f_rem f then
    f ← am_copy_sdu bytes s (f_rem f) f;
    e ← end_sdu e;
    Ok (AmFill (f <| f_last := true |> <| f_rem := 0 |>) (add_payload r p) e, false)
  else if r + (f_li f .^ 3) <? f_rem f then
    if f_num f =? RLC_AM_MAX_SDU_IN_PDU - 1 then
      f ← am_copy_sdu bytes s r f;
      e ← end_sdu e;
      Ok (AmFill (f <| f_last := true |> <| f_rem := 0 |>) (add_payload r p) e, false)
    else
      f ← am_copy_sdu bytes s r f;
      f ← write_li test_num_li r
            (f <| f_data := f_data f + r |> <| f_li := f_li f .^ 3 |>
               <| f_num := u32 (f_num f + 1) |>);
      e ← end_sdu e;
      Ok (AmFill (f <| f_rem := s32 (f_rem f - (r + f_li f)) |>) (add_payload r p) e, true)
  else if user_mode then Err EAssert
  else
    f ← am_copy_sdu bytes s r f;
    e ← end_sdu e;
    Ok (AmFill (f <| f_last := true |> <| f_rem := s32 (f_rem f - r) |>)
          (add_payload r p) e, false).

Fixpoint am_fill_loop (fuel : nat) (a : am_fill) : res am_fill :=
  match fuel with
  | O => Err EFuel
  | S fuel =>
      s ← sdu_read (af_tx a) (current_sdu_index (af_tx a));
      match sdu_mem_block s with
      | None => Ok a
      | Some bytes =>
          '(a, go) ← am_fill_step bytes s a;
          if (go : bool) then am_fill_loop fuel a else Ok a
      end
  end.
End fill.

(** ** The function *)

Section segment.
(** The memory [get_free_mem_block] gives for the PDU and for its copy, from the PDU
    on, and the build configuration. *)
Variables get_free_mem_block get_copy_mem_block : Z -> option (list Z).
Variable user_mode : bool.

(** The first two bytes; [b1] is 0 before. *)
Definition am_header (fi fill_num_li sn : Z) : list Z :=
  let b1 := u8 (fi .<< 3) in
  let b1 := if 0 <? fill_num_li then b1 .| 0x04 else b1 in
  [u8 ((b1 .| 0x80) .| (sn .>> 8)); sn .& 0xFF].

(** The PDU is made: [size] is [data_pdu_size], [m] its memory. *)
Definition am_make_pdu (size : Z) (m : list Z) (sdu : am_tx_sdu) (e : am_tx) (bo : Z)
    : res am_fill :=
  m ← wr m 0 [0; 0; 0; 0];
  let rem := s32 (size - RLC_AM_HEADER_MIN_SIZE) in
  '(pl, p, e) ← am_plan_loop 129 (current_sdu_index e) (Plan rem size rem 1 0 0 0) am_pdu0 e;
  let pl := plan_unused_li pl in
  let data := 2 + (u32 (p_num pl * 3 + 1) .>> 1) in
  let starts := sdu_remaining_size sdu =? sdu_size sdu in
  '(AmFill f p e) ← am_fill_loop user_mode (p_num pl) 129
     (AmFill (Fill m data 2 1 0 (p_rem pl) bo false) (p <| pdu_payload := data |>) e);
  buf ← wr (f_buf f) 0
          (am_header ((if starts then 0 else 2) + (if f_last f then 0 else 1)) (f_num f) (vt_s e));
  Ok (AmFill (f <| f_buf := buf |>) p e).

(** What follows: the PDU goes to the retransmission buffer, a copy to MAC. *)
Definition am_send_pdu (frameP size : Z) (a : am_fill) (s : am_send) : res am_send :=
  let '(AmFill f p e) := a in
  let sn := vt_s e %% RLC_AM_SN_MODULO in
  let tb := s32 (size - f_rem f) in
  let s := s <| snd_tx := e <| vt_s := sn_after (vt_s e) |> |>
             <| sdu_buffer_occupancy := f_bo f |>
             <| stat_tx_data_pdu := u32 (stat_tx_data_pdu s + 1) |>
             <| stat_tx_data_bytes := u32 (stat_tx_data_bytes s + tb) |> in
  _ ← res_guard (tb <? RLC_SDU_MAX_SIZE) EAssert;
  '(s, pdu) ← rlc_am_pdu_polling s frameP (f_buf f) (payload_size p);
  e ← pdu_write (snd_tx s) sn
        (p <| pdu_mem_block := Some pdu |> <| header_and_payload_size := tb |>
           <| retx_count := -1 |>);
  let e := e <| retrans_num_pdus := s32 (retrans_num_pdus e + 1) |>
             <| retrans_num_bytes := s32 (retrans_num_bytes e + tb) |> in
  '(s, copy) ← rlc_am_retransmit_get_copy get_copy_mem_block (s <| snd_tx := e |>) frameP
                 ((vt_s e - 1) .& RLC_AM_SN_MASK);
  l ← add_copy copy (segmentation_pdu_list s);
  Ok (s <| segmentation_pdu_list := l |>).

(** The [while] loop runs at most once: its end sets [nb_bytes_to_transmit] to 0. *)
Definition rlc_am_segment_10 (nb_bytes_requested_by_mac : Z) (s : am_send) (frameP : Z)
    : res am_send :=
  let e := snd_tx s in
  if sdu_buffer_occupancy s <=? 0 then Ok s
  else
    sdu ← sdu_read e (current_sdu_index e);
    match sdu_mem_block sdu with
    | None => Ok s
    | Some _ =>
        if 0 <? nb_bytes_requested_by_mac then
          let size := am_data_pdu_size s nb_bytes_requested_by_mac in
          match get_free_mem_block size with
          | None => Ok s
          | Some m =>
              a ← am_make_pdu size m sdu e (sdu_buffer_occupancy s);
              am_send_pdu frameP size a s
          end
        else Ok s
    end.
End segment.
