(* ===== verification/RlcAmResegment.v ===== *)
(** RLC AM v9.3.0: a segment of a PDU to retransmit ([rlc_am_retransmit_get_subsegment]
    of [rlc_am_retransmit.c]). *)
From S2P Require Import Prelude.
From S2P Require Import RlcAmEntity.
From S2P Require Import RlcAmRetransmit.
From S2P Require Import RlcAmRx.
From S2P Require Import RlcAmSender.

Local Open Scope Z_scope.
Local Open Scope c_scope.

(** ** What fits *)

(** The local variables; [test_num_li] is the length of [t_lis]. *)
Record resegment := Resegment {
  t_max : Z;        (** [max_copy_payload_size] *)
  t_rem : Z;        (** [test_pdu_remaining_size] *)
  t_sum : Z;        (** [test_li_sum] *)
  t_start : Z;      (** [test_start_offset] *)
  t_copy : Z;       (** [test_pdu_copy_size] *)
  t_len : Z;        (** [test_li_length_in_bytes] *)
  t_lis : list Z;   (** [test_li_list] *)
  t_nfi : Z         (** [not_test_fi] *)
}.
#[export] Instance resegment_eta : Eta resegment := fun t =>
  Resegment (t_max t) (t_rem t) (t_sum t) (t_start t) (t_copy t) (t_len t) (t_lis t) (t_nfi t).

Definition cut_max (t : resegment) : resegment :=
  if t_rem t <? t_max t then t <| t_max := t_rem t |> else t.

(** The body of the loop for the length indicator [li]: the variables, and
    [continue_fill_pdu_with_pdu]. *)
Definition reseg_step (li : Z) (t : resegment) : res (resegment * bool) :=
  let t := cut_max t in
  _ ← res_guard (0 <=? t_max t) EAssert;
  _ ← res_guard (0 <=? t_rem t) EAssert;
  let sum := s32 (t_sum t + li) in
  let t := t <| t_sum := sum |> in
  let start := t_start t in
  if start <? sum then
    let m := t_max t in
    if m + start <? sum then
      _ ← res_guard (0 <? m) EAssert;
      Ok (t <| t_copy := s32 (t_copy t + m) |> <| t_start := s32 (start + m) |>
            <| t_nfi := t_nfi t .& 0x02 |> <| t_max := 0 |>, false)
    else if m + start =? sum then
      _ ← res_guard (0 <? m) EAssert;
      Ok (t <| t_copy := s32 (t_copy t + m) |> <| t_start := s32 (start + m) |>
            <| t_nfi := t_nfi t .| 0x01 |> <| t_max := 0 |>, false)
    else if u32 sum <? u32 (m + start - (t_len t .^ 3)) then
      _ ← res_guard (0 <? sum - start) EAssert;
      _ ← res_guard (zlen (t_lis t) <? RLC_AM_MAX_SDU_IN_PDU) EBounds;
      let len := t_len t .^ 3 in
      Ok (t <| t_lis := t_lis t ++ [s16 (sum - start)] |>
            <| t_copy := s32 (t_copy t + sum - start) |> <| t_len := len |>
            <| t_rem := s32 (t_rem t - sum + start - len) |>
            <| t_max := s32 (m - sum + start - len) |> <| t_start := sum |>, true)
    else
      _ ← res_guard (0 <? sum - start) EAssert;
      Ok (t <| t_copy := s32 (t_copy t + sum - start) |>
            <| t_rem := s32 (t_rem t - sum + start) |>
            <| t_max := s32 (m - sum + start) |> <| t_start := sum |>
            <| t_nfi := t_nfi t .| 0x01 |>, false)
  else if start =? sum then
    Ok (if (zlen (t_lis t) =? 0) && (t_copy t =? 0)
        then t <| t_nfi := t_nfi t .| 0x02 |> else t, true)
  else Ok (t, true).

(** The loop over [li_list], and whether it ran to the end without being stopped. *)
Fixpoint reseg_loop (lis : list Z) (t : resegment) : res (resegment * bool) :=
  match lis with
  | [] => Ok (t, true)
  | li :: lis =>
      '(t, go) ← reseg_step li t;
      if (go : bool) then reseg_loop lis t else Ok (t, false)
  end.

(** The part behind the length indicators. *)
Definition reseg_hidden (hidden_size not_fi_original : Z) (t : resegment) : resegment :=
  if (0 <? hidden_size) && (0 <? t_rem t) && (0 <? t_max t) then
    let t := cut_max t in
    let all := hidden_size + t_sum t in
    if all <=? t_max t + t_start t then
      t <| t_copy := s32 (t_copy t + (all - t_start t)) |> <| t_start := all |>
        <| t_nfi := (t_nfi t .& 0x2) .| (not_fi_original .& 0x1) |>
    else
      t <| t_copy := s32 (t_copy t + t_max t) |>
        <| t_start := s32 (t_start t + t_max t) |> <| t_nfi := t_nfi t .& 0x2 |>
  else t.

(** A PDU without length indicators. *)
Definition reseg_plain (start stop payload_size not_fi_original : Z) (t : resegment)
    : resegment :=
  t <| t_copy := t_max t |>
    <| t_nfi := if (stop =? start + t_max t - 1) && (stop =? payload_size - 1)
                then (t_nfi t .& 0x2) .| (not_fi_original .& 0x1)
                else t_nfi t .& 0x2 |>.

(** All of it, for the part from [start] to [stop], in a segment of [size] bytes
    behind the fixed header. *)
Definition reseg_plan (i : am_pdu_info) (start stop size payload_size not_fi_original : Z)
    : res resegment :=
  let m := s32 (stop - start + 1) in
  _ ← res_guard (0 <? m) EAssert;
  _ ← res_guard (0 <? size) EAssert;
  let nfi := if start =? 0 then not_fi_original .& 0x02 else 0 in
  let t := cut_max (Resegment m size 0 start 0 1 [] nfi) in
  if 0 <? di_num_li i then
    '(t, go) ← reseg_loop (di_li_list i) t;
    Ok (if (go : bool) then reseg_hidden (di_hidden_size i) not_fi_original t else t)
  else Ok (reseg_plain start stop payload_size not_fi_original t).

(** ** Writing *)

(** The length indicators: the memory, [fill_payload_p] and [*sizeP]. *)
Fixpoint reseg_lis (lis : list Z) (buf : list Z) (e_li len payload size : Z)
    : res (list Z * Z * Z) :=
  match lis with
  | [] => Ok (buf, payload, size)
  | li :: lis =>
      let len := len .^ 3 in
      let last := bool_decide (lis = []) in
      if len =? 2 then
        let b1 := if last then 0 else 0x80 in
        buf ← wr buf e_li [u8 (b1 .| (li .>> 4)); u8 (li .<< 4)];
        reseg_lis lis buf e_li len (e_li + 2) (size - 2)
      else
        b2 ← rd buf (e_li + 1);
        let b2 := if last then b2 else u8 (b2 .| 0x08) in
        buf ← wr buf (e_li + 1) [u8 (b2 .| (li .>> 8)); li .& 0xFF];
        reseg_lis lis buf (e_li + 3) len (e_li + 3) (size - 1)
  end.

(** The segment described by [t] in the memory [m]: the memory, [tb_size] and [*sizeP].
    [b1], [b2] are the first bytes of the PDU, [so] is [start_offset] as it was when the
    header was written, [data] the bytes copied. *)
Definition reseg_write (m : list Z) (b1 b2 so size : Z) (t : resegment) (data : list Z)
    (lsf : bool) : res (list Z * Z * Z) :=
  m ← wr m 0 [(b1 .& 0x83) .| 0x40; b2; u8 (so .>> 8); u8 (so .& 0xFF)];
  h1 ← rd m 0;
  let h1 := u8 (h1 .| (((t_nfi t .<< 3) .^ 0x18) .& 0x18)) in
  let h1 := if 0 <? zlen (t_lis t) then h1 .| 0x04 else h1 in
  m ← wr m 0 [h1];
  '(m, payload, size) ← reseg_lis (t_lis t) m 4 1 4 size;
  m ← wr m payload data;
  let tb_size := u16 (payload + t_copy t) in
  d0 ← rd m 2;
  m ← wr m 2 [if lsf then d0 .| 0x80 else d0];
  Ok (m, tb_size, size - t_copy t).

(** ** The function *)

(** The offset 0x7FFF means the end of the PDU. *)
Definition reseg_stop (p : am_tx_pdu) : am_tx_pdu :=
  if nack_so_stop p =? 0x7FFF then p <| nack_so_stop := s32 (payload_size p - 1) |> else p.

(** The entity, the block, and [*sizeP]. *)
Definition rlc_am_retransmit_get_subsegment (get_free_mem_block : Z -> option (list Z))
    (s : am_send) (frameP snP sizeP : Z) : res (am_send * option am_tb_req * Z) :=
  p ← pdu_read (snd_tx s) snP;
  match pdu_mem_block p with
  | None => Err EAssert
  | Some original =>
      match get_free_mem_block sizeP with
      | None => Err ENull
      | Some m =>
          '(rc, i) ← rlc_am_get_data_pdu_infos original (header_and_payload_size p);
          if 0 <=? rc then
            let so := nack_so_start p in
            let p := reseg_stop p in
            b1 ← rd original 0;
            b2 ← rd original 1;
            let not_fi_original := ((b1 .& 0x18) .>> 3) .^ 3 in
            let size := s32 (sizeP - 4) in
            '(start, stop) ← rlc_am_get_next_hole p;
            t ← reseg_plan i start stop size (payload_size p) not_fi_original;
            data ← rd_n original (pdu_payload p + start) (t_copy t);
            let lsf := t_copy t + start =? payload_size p in
            '(m, tb_size, size) ← reseg_write m b1 b2 so size t data lsf;
            let p := if lsf then p <| flag_retransmit := false |> else p in
            p ← rlc_am_remove_hole p start (t_copy t + start - 1);
            e ← pdu_write (snd_tx s) snP p;
            '(s, m) ← rlc_am_pdu_polling (s <| snd_tx := e |>) frameP m (t_copy t);
            Ok (s, Some (AmTbReq m tb_size), size)
          else Ok (s, None, sizeP)
      end
  end.
