(* ===== verification/RlcAm.v ===== *)
(** RLC AM v9.3.0: the entity ([rlc_am_entity.h]), its life cycle ([rlc_am_init.c]) and
    what MAC and RRC call ([rlc_am.c], [rlc_am_retransmit_any_pdu] of
    [rlc_am_retransmit.c]). *)
From S2P Require Import Prelude.
From S2P Require Import RlcUmSegment.
From S2P Require Import RlcAmEntity.
From S2P Require Import RlcAmRetransmit.
From S2P Require Import RlcAmRx.
From S2P Require Import RlcAmReceiver.
From S2P Require Import RlcAmStatusReport.
From S2P Require Import RlcAmSender.
From S2P Require Import RlcAmSegment.
From S2P Require Import RlcAmResegment.

Local Open Scope Z_scope.
Local Open Scope c_scope.

(** [rlc_am_entity_t]: the state, the two sides, and what belongs to neither. *)
Record rlc_am_entity := RlcAmEntityT {
  en_state : am_state;
  en_send : am_send;
  en_rx : am_rx;
  last_frame_status_indication : Z;
  initialized : bool;
  configured : bool;
  enb_module_id : Z;
  ue_module_id : Z;
  rb_id : Z;
  is_data_plane : bool;
  is_enb : bool
}.
#[export] Instance rlc_am_entity_eta : Eta rlc_am_entity := fun e =>
  RlcAmEntityT (en_state e) (en_send e) (en_rx e) (last_frame_status_indication e)
    (initialized e) (configured e) (enb_module_id e) (ue_module_id e) (rb_id e)
    (is_data_plane e) (is_enb e).

(** ** [rlc_am_get_buffer_occupancy_in_bytes] *)

Definition rlc_am_get_buffer_occupancy_in_bytes (s : am_send) (r : am_rx) : Z :=
  if status_requested r && negb (running (t_status_prohibit r)) then
    u32 (15 + num_nack_sn (snd_tx s) * (10 + 1) + num_nack_so (snd_tx s) * (15 + 15 + 1) + 7)
      .>> 3
  else
    u32 (status_buffer_occupancy s + retransmission_buffer_occupancy s
         + sdu_buffer_occupancy s + max_li_overhead (nb_sdu_no_segmented (snd_tx s))
         + if sdu_buffer_occupancy s =? 0 then 0 else 2).

(** ** Retransmission *)

Definition count_retransmit (bytes : Z) (s : am_send) : am_send :=
  s <| stat_tx_data_pdu := u32 (stat_tx_data_pdu s + 1) |>
    <| stat_tx_retransmit_pdu := u32 (stat_tx_retransmit_pdu s + 1) |>
    <| stat_tx_data_bytes := u32 (stat_tx_data_bytes s + bytes) |>
    <| stat_tx_retransmit_bytes := u32 (stat_tx_retransmit_bytes s + bytes) |>.

Definition count_by_status (bytes : Z) (s : am_send) : am_send :=
  s <| stat_tx_retransmit_pdu_by_status := u32 (stat_tx_retransmit_pdu_by_status s + 1) |>
    <| stat_tx_retransmit_bytes_by_status :=
         u32 (stat_tx_retransmit_bytes_by_status s + bytes) |>.

(** [list_add_tail_eurecom (copy, &rlc_pP->pdus_to_mac_layer)]; the pointer has been
    followed before. *)
Definition to_mac (copy : option am_tb_req) (s : am_send) : res am_send :=
  l ← add_copy copy (pdus_to_mac_layer s);
  Ok (s <| pdus_to_mac_layer := l |>).

(** The end of [rlc_am_retransmit_any_pdu]: a poll goes with the PDU, whatever. *)
Definition force_poll (frameP payload_sizeP : Z) (s : am_send) (copy : option am_tb_req)
    : res am_send :=
  match copy with
  | None => Err ENull
  | Some tb =>
      '(s, m) ← rlc_am_pdu_polling s frameP (req_data tb) payload_sizeP;
      b1 ← rd m 0;
      m ← wr m 0 [b1 .| 0x20];
      let s := poll_sent s in
      let s := s <| snd_tx := rlc_am_start_timer_poll_retransmit (snd_tx s) frameP |> in
      to_mac (Some (AmTbReq m (req_size tb))) (count_retransmit (req_size tb) s)
  end.

Section mac.
(** The memory for a PDU and for a copy; whether there is memory for a STATUS PDU. *)
Variables get_free_mem_block get_copy_mem_block : Z -> option (list Z).
Variable status_block : bool.
Variable user_mode : bool.

(** The loop backwards from VT(S): the first PDU that fits, or the first found. *)
Fixpoint find_any_pdu (fuel : nat) (e : am_tx) (nb sn sn_end : Z) (found : option Z)
    : res (option (bool * Z)) :=
  match fuel with
  | O => Err EFuel
  | S fuel =>
      if sn =? sn_end then Ok (pair false <$> found)
      else
        p ← pdu_read e sn;
        let before := (sn - 1) .& RLC_AM_SN_MASK in
        match pdu_mem_block p with
        | Some _ =>
            if header_and_payload_size p <=? nb then Ok (Some (true, sn))
            else find_any_pdu fuel e nb before sn_end
                   (match found with None => Some sn | Some _ => found end)
        | None => find_any_pdu fuel e nb before sn_end found
        end
  end.

(** The sender and [nb_bytes_requested_by_mac]. *)
Definition rlc_am_retransmit_any_pdu (nb : Z) (s : am_send) (frameP : Z)
    : res (am_send * Z) :=
  let e := snd_tx s in
  found ← find_any_pdu 1025 e nb ((vt_s e - 1) .& RLC_AM_SN_MASK)
            ((vt_a e - 1) .& RLC_AM_SN_MASK) None;
  match found with
  | Some (true, sn) =>
      e ← rlc_am_nack_pdu e frameP sn 0 0x7FFF;
      '(s, copy) ← rlc_am_retransmit_get_copy get_copy_mem_block (s <| snd_tx := e |>) frameP sn;
      p ← pdu_read (snd_tx s) sn;
      s ← force_poll frameP (header_and_payload_size p) s copy;
      Ok (s, nb)
  | Some (false, sn) =>
      if 4 <? nb then
        e ← rlc_am_nack_pdu e frameP sn 0 0x7FFF;
        '(s, copy, nb) ←
          rlc_am_retransmit_get_subsegment get_copy_mem_block (s <| snd_tx := e |>) frameP sn nb;
        p ← pdu_read (snd_tx s) sn;
        s ← force_poll frameP (header_and_payload_size p) s copy;
        Ok (s, nb)
      else Ok (s, nb)
  | None => Ok (s, nb)
  end.

(** The loop that moves [first_retrans_pdu_sn] over what is not to be retransmitted,
    and the test behind it. *)
Fixpoint skip_retransmitted (fuel : nat) (e : am_tx) : res am_tx :=
  match fuel with
  | O => Err EFuel
  | S fuel =>
      if first_retrans_pdu_sn e =? vt_s e
      then Ok (e <| first_retrans_pdu_sn := -1 |>)
      else
        p ← pdu_read e (first_retrans_pdu_sn e);
        if flag_retransmit p then Ok e
        else skip_retransmitted fuel
               (e <| first_retrans_pdu_sn := sn_after (first_retrans_pdu_sn e) |>)
  end.

(** [retx_count += 1]. *)
Definition count_retx (e : am_tx) (sn : Z) : res am_tx :=
  p ← pdu_read e sn;
  pdu_write e sn (p <| retx_count := s8 (retx_count p + 1) |>).

(** The part of [rlc_am_get_pdus] for retransmissions: [None] when it does not
    return. *)
Definition get_retrans_pdu (nb : Z) (s : am_send) (frameP : Z) : res (option (am_send * Z)) :=
  let sn := first_retrans_pdu_sn (snd_tx s) in
  if (0 <=? sn) && (2 <? nb) && negb (sn =? vt_s (snd_tx s)) then
    p ← pdu_read (snd_tx s) sn;
    if (header_and_payload_size p <=? nb) && (0 <=? retx_count p)
       && (nack_so_start p =? 0) && (nack_so_stop p =? 0x7FFF) then
      '(s, copy) ← rlc_am_retransmit_get_copy get_copy_mem_block s frameP sn;
      let size := header_and_payload_size p in
      s ← to_mac copy (count_by_status size (count_retransmit size s));
      e ← count_retx (snd_tx s) sn;
      Ok (Some (s <| snd_tx := e |>, s32 (nb - size)))
    else if (0 <=? retx_count p) && (RLC_AM_MIN_SEGMENT_SIZE_REQUEST <=? nb) then
      '(s, copy, nb) ← rlc_am_retransmit_get_subsegment get_copy_mem_block s frameP sn nb;
      tb ← match copy with None => Err ENull | Some tb => Ok tb end;
      s ← to_mac copy (count_by_status (req_size tb) (count_retransmit (req_size tb) s));
      e ← skip_retransmitted 1025 (snd_tx s);
      Ok (Some (s <| snd_tx := e |>, nb))
    else Ok None
  else Ok None.

(** The part for a STATUS PDU; [rlc_am_send_status_pdu] has put one at the head of the
    list. *)
Definition get_status_pdu (s : am_send) (r : am_rx) (frameP : Z)
    : res (option (am_send * am_rx)) :=
  if (2 <? nb_bytes_requested_by_mac r) && status_requested r
     && negb (running (t_status_prohibit r)) then
    r ← rlc_am_send_status_pdu status_block r;
    match control_pdu_list r with
    | pdu :: l =>
        let r := r <| control_pdu_list := l |> <| status_requested := false |> in
        Ok (Some (s <| pdus_to_mac_layer := pdus_to_mac_layer s ++ [AmTbReq pdu (zlen pdu)] |>,
                  rlc_am_start_timer_status_prohibit r frameP))
    | [] => Ok None
    end
  else Ok None.

(** The part for a new PDU: the sender, and whether it returns. *)
Definition get_new_pdu (nb : Z) (s : am_send) (frameP : Z) : res (am_send * bool) :=
  if (2 <? nb) && negb (vt_s (snd_tx s) =? vt_ms (snd_tx s)) then
    s ← rlc_am_segment_10 get_free_mem_block get_copy_mem_block user_mode nb s frameP;
    let s := s <| pdus_to_mac_layer := pdus_to_mac_layer s ++ segmentation_pdu_list s |>
               <| segmentation_pdu_list := [] |> in
    match pdus_to_mac_layer s with
    | tb :: _ =>
        Ok (s <| stat_tx_data_pdu := u32 (stat_tx_data_pdu s + 1) |>
              <| stat_tx_data_bytes := u32 (stat_tx_data_bytes s + req_size tb) |>, true)
    | [] => Ok (s, false)
    end
  else Ok (s, false).

(** What follows the STATUS PDU. *)
Definition get_data_pdus (nb : Z) (s : am_send) (frameP : Z) : res (am_send * Z) :=
  o ← get_retrans_pdu nb s frameP;
  match o with
  | Some p => Ok p
  | None =>
      '(s, done) ← get_new_pdu nb s frameP;
      if (done : bool) then Ok (s, nb)
      else if bool_decide (pdus_to_mac_layer s = [])
              && truth (rlc_am_is_timer_poll_retransmit_timed_out (snd_tx s)) && (2 <? nb)
      then rlc_am_retransmit_any_pdu nb s frameP
      else Ok (s, nb)
  end.

Definition rlc_am_get_pdus (e : rlc_am_entity) (frameP : Z) : res rlc_am_entity :=
  match en_state e with
  | RLC_DATA_TRANSFER_READY_STATE =>
      o ← get_status_pdu (en_send e) (en_rx e) frameP;
      match o with
      | Some (s, r) => Ok (e <| en_send := s |> <| en_rx := r |>)
      | None =>
          '(s, nb) ← get_data_pdus (nb_bytes_requested_by_mac (en_rx e)) (en_send e) frameP;
          Ok (e <| en_send := s |>
                <| en_rx := (en_rx e) <| nb_bytes_requested_by_mac := nb |> |>)
      end
  | _ => Ok e
  end.

(** [struct mac_data_req]. *)
Record am_mac_data_req := AmMacDataReq {
  mdr_data : list am_tb_req;
  mdr_buffer_occupancy_in_bytes : Z;
  mdr_protocol_state : am_state
}.

Definition rlc_am_mac_data_request (e : rlc_am_entity) (frameP : Z)
    : res (rlc_am_entity * am_mac_data_req) :=
  e ← rlc_am_get_pdus e frameP;
  let s := (en_send e) <| pdus_to_mac_layer := [] |> in
  Ok (e <| en_send := s |>,
      AmMacDataReq (pdus_to_mac_layer (en_send e))
        (rlc_am_get_buffer_occupancy_in_bytes s (en_rx e)) (en_state e)).
End mac.

(** ** [rlc_am_mac_status_indication] *)

(** [struct mac_status_resp]. *)
Record am_status_resp := AmStatusResp {
  buffer_occupancy_in_bytes : Z;
  buffer_occupancy_in_pdus : Z;
  head_sdu_creation_time : Z;
  head_sdu_remaining_size_to_send : Z;
  head_sdu_is_segmented : bool;
  rlc_protocol_state : am_state
}.

(** The head of the queue is described by what is found in its block where an
    [rlc_am_tx_sdu_management_t] would have these fields. *)
Record head_sdu := HeadSdu { hs_creation_time : Z; hs_size : Z; hs_remaining_size : Z }.

Definition check_timers (e : rlc_am_entity) (frameP : Z) : rlc_am_entity :=
  if negb (last_frame_status_indication e =? frameP) then
    let s := en_send e in
    e <| en_send := s <| snd_tx := rlc_am_check_timer_poll_retransmit (snd_tx s) frameP |> |>
      <| en_rx := rlc_am_check_timer_status_prohibit
                    (rlc_am_check_timer_reordering (en_rx e) frameP) frameP |>
  else e.

Definition rlc_am_mac_status_indication (e : rlc_am_entity) (frameP tb_sizeP : Z)
    (head : head_sdu) : res (rlc_am_entity * am_status_resp) :=
  let e := (check_timers e frameP) <| last_frame_status_indication := frameP |> in
  let e := e <| en_rx := (en_rx e) <| nb_bytes_requested_by_mac := u16 tb_sizeP |> |> in
  let bo := rlc_am_get_buffer_occupancy_in_bytes (en_send e) (en_rx e) in
  let tx := snd_tx (en_send e) in
  sdu ← sdu_read tx (current_sdu_index tx);
  Ok (e,
      if bool_decide (is_Some (sdu_mem_block sdu)) && truth bo then
        let diff_time := s32 (frameP - hs_creation_time head) in
        AmStatusResp bo (u16 (nb_sdu tx))
          (if 0 <? diff_time then diff_time else u32 (0xffffffff - diff_time + frameP))
          (u16 (hs_remaining_size head))
          (negb (u16 (hs_size head) =? u16 (hs_remaining_size head))) (en_state e)
      else AmStatusResp bo 0 0 0 false (en_state e)).

(** ** [rlc_am_mac_data_indication] *)

Definition rlc_am_mac_data_indication (e : rlc_am_entity) (frameP : Z) (tbs : list am_tb_ind)
    : res rlc_am_entity :=
  '(AmEntity st tx rx) ←
    rlc_am_rx (AmEntity (en_state e) (snd_tx (en_send e)) (en_rx e)) frameP tbs;
  Ok (e <| en_state := st |> <| en_send := (en_send e) <| snd_tx := tx |> |>
        <| en_rx := rx |>).

(** ** Life cycle and configuration

    The arrays are allocated by [rlc_am_init] and released by [rlc_am_cleanup], after
    which no other function may be called before [rlc_am_init]. *)

Definition LAST_FRAME_INIT : Z := 123456.

Definition am_timer0 : am_timer := AmTimer 0 0 0 false false.

(** [memset]; what stands for the environment remains. *)
Definition am_tx_zero (e : am_tx) : am_tx :=
  AmTx ∅ 0 0 0 0 ∅ 0 0 0 0 0 0 0 0 0 am_timer0 0 0 0 0 0 (confirms e).
Definition am_send_zero (s : am_send) : am_send :=
  AmSend (am_tx_zero (snd_tx s)) 0 0 0 0 0 0 0 [] [] 0 0 0 0 0 0 0 0.
Definition am_rx_zero (r : am_rx) : am_rx :=
  AmRx [] None 0 0 0 0 0 0 am_timer0 am_timer0 false 0 [] 0 0 0 0 0 0 0 0 0 0 0 0 0
    (pool r) (delivered r).
Definition am_zero (e : rlc_am_entity) : rlc_am_entity :=
  RlcAmEntityT RLC_NULL_STATE (am_send_zero (en_send e)) (am_rx_zero (en_rx e)) 0
    false false 0 0 0 false false.

Definition rlc_am_init (e : rlc_am_entity) : rlc_am_entity :=
  if initialized e then e
  else
    let z := am_zero e in
    let s := en_send z in
    let tx := snd_tx s in
    let r := en_rx z in
    z <| en_send := s <| snd_tx := tx <| vt_ms := vt_a tx + RLC_AM_WINDOW_SIZE |>
                                      <| first_retrans_pdu_sn := -1 |> |> |>
      <| en_rx := r <| vr_mr := vr_r r + RLC_AM_WINDOW_SIZE |> |>
      <| last_frame_status_indication := LAST_FRAME_INIT |>
      <| initialized := true |>.

(** The SDUs, the retransmission buffer and the timers stay as they are. *)
Definition rlc_am_reestablish (e : rlc_am_entity) : rlc_am_entity :=
  let s := en_send e in
  let r := en_rx e in
  e <| en_send :=
         s <| pdus_to_mac_layer := [] |> <| segmentation_pdu_list := [] |>
           <| c_pdu_without_poll := 0 |> <| c_byte_without_poll := 0 |>
           <| snd_tx := (snd_tx s) <| vt_a := 0 |> <| vt_ms := RLC_AM_WINDOW_SIZE |>
                <| vt_s := 0 |> <| poll_sn := 0 |> <| first_retrans_pdu_sn := -1 |> |> |>
    <| en_rx :=
         r <| receiver_buffer := [] |> <| control_pdu_list := [] |>
           <| vr_r := 0 |> <| vr_mr := RLC_AM_WINDOW_SIZE |> <| vr_x := 0 |>
           <| vr_ms := 0 |> <| vr_h := 0 |> |>
    <| last_frame_status_indication := LAST_FRAME_INIT |>
    <| initialized := true |>.

Definition rlc_am_cleanup (e : rlc_am_entity) : rlc_am_entity := am_zero e.

Definition rlc_am_release (e : rlc_am_entity) : rlc_am_entity := e.

(** [rlc_am_info_t]. *)
Record rlc_am_info := RlcAmInfo {
  max_retx_threshold_ : Z;
  poll_pdu_ : Z;
  poll_byte_ : Z;
  t_poll_retransmit_ : Z;
  t_reordering_ : Z;
  t_status_prohibit_ : Z
}.

(** A timer of an entity configured before goes on. *)
Definition rlc_am_configure (e : rlc_am_entity) (c : rlc_am_info) : rlc_am_entity :=
  let s := en_send e in
  let s := s <| snd_tx := (snd_tx s) <| max_retx_threshold := u16 (max_retx_threshold_ c) |> |>
             <| poll_pdu := u16 (poll_pdu_ c) |> <| poll_byte := u16 (poll_byte_ c) |> in
  let e := e <| en_state := RLC_DATA_TRANSFER_READY_STATE |> in
  let tx := snd_tx s in
  let r := en_rx e in
  if configured e then
    e <| en_send :=
           s <| snd_tx := tx <| t_poll_retransmit :=
                  (t_poll_retransmit tx) <| time_out := u32 (t_poll_retransmit_ c) |> |> |> |>
      <| en_rx :=
           r <| t_reordering := (t_reordering r) <| time_out := u32 (t_reordering_ c) |> |>
             <| t_status_prohibit :=
                  (t_status_prohibit r) <| time_out := u32 (t_status_prohibit_ c) |> |> |>
  else
    e <| en_send :=
           s <| snd_tx := rlc_am_init_timer_poll_retransmit tx (t_poll_retransmit_ c) |> |>
      <| en_rx := rlc_am_init_timer_status_prohibit
                    (rlc_am_init_timer_reordering r (t_reordering_ c)) (t_status_prohibit_ c) |>
      <| configured := true |>.

Definition rlc_am_set_debug_infos (e : rlc_am_entity)
    (eNB_flagP srb_flagP enb_module_idP ue_module_idP rb_idP : Z) : rlc_am_entity :=
  e <| enb_module_id := enb_module_idP |> <| ue_module_id := ue_module_idP |>
    <| rb_id := rb_idP |> <| is_data_plane := negb (truth srb_flagP) |>
    <| is_enb := truth eNB_flagP |>.

(** [found] is the entity [hashtable_get] returns for the bearer's key.  The arguments of
    [rlc_am_set_debug_infos] are in the order of the call. *)
Definition config_req_rlc_am (found : option rlc_am_entity)
    (enb_module_idP ue_module_idP eNB_flagP srb_flagP : Z) (config_am_pP : rlc_am_info)
    (rb_idP : Z) : option rlc_am_entity :=
  e ← found;
  let e := rlc_am_init e in
  let e := rlc_am_set_debug_infos e eNB_flagP enb_module_idP ue_module_idP rb_idP srb_flagP in
  Some (rlc_am_configure e config_am_pP).

Definition pollPDU_tab : list Z := [4;8;16;32;64;128;256;1024].
Definition maxRetxThreshold_tab : list Z := [1;2;3;4;6;8;16;32].
Definition pollByte_tab : list Z :=
  [25;50;75;100;125;250;375;500;750;1000;1250;1500;2000;3000;10000].
Definition PollRetransmit_tab : list Z :=
  [5;10;15;20;25;30;35;40;45;50;55;60;65;70;75;80;85;90;95;100;105;110;115;120;125;130;135;
   140;145;150;155;160;165;170;175;180;185;190;195;200;205;210;215;220;225;230;235;240;245;
   250;300;350;400;450;500].
Definition am_t_Reordering_tab : list Z :=
  [0;5;10;15;20;25;30;35;40;45;50;55;60;65;70;75;80;85;90;95;100;110;120;130;140;150;160;
   170;180;190;200].
Definition t_StatusProhibit_tab : list Z :=
  [0;5;10;15;20;25;30;35;40;45;50;55;60;65;70;75;80;85;90;95;100;105;110;115;120;125;130;
   135;140;145;150;155;160;165;170;175;180;185;190;195;200;205;210;215;220;225;230;235;240;
   245;250;300;350;400;450;500].

Section asn1.
(** Values of the ASN.1 enumerations, which asn1c generates. *)
Variables maxRetxThreshold_t32 PollPDU_pInfinity PollByte_spare1 T_PollRetransmit_spare9
  T_Reordering_spare1 T_StatusProhibit_spare8 : Z.

(** [struct RLC_Config__am] has the fields of [rlc_am_info_t], as values of the
    enumerations. *)
Definition config_req_rlc_am_asn1 (found : option rlc_am_entity)
    (enb_module_idP ue_module_idP eNB_flagP srb_flagP : Z) (c : rlc_am_info) (rb_idP : Z)
    : res (option rlc_am_entity) :=
  match found with
  | None => Ok None
  | Some e =>
      if (max_retx_threshold_ c <=? maxRetxThreshold_t32)
         && (poll_pdu_ c <=? PollPDU_pInfinity) && (poll_byte_ c <? PollByte_spare1)
         && (t_poll_retransmit_ c <? T_PollRetransmit_spare9)
         && (t_reordering_ c <? T_Reordering_spare1)
         && (t_status_prohibit_ c <? T_StatusProhibit_spare8)
      then
        mrt ← rd maxRetxThreshold_tab (max_retx_threshold_ c);
        pp ← rd pollPDU_tab (poll_pdu_ c);
        pb ← rd pollByte_tab (poll_byte_ c);
        pr ← rd PollRetransmit_tab (t_poll_retransmit_ c);
        tr ← rd am_t_Reordering_tab (t_reordering_ c);
        sp ← rd t_StatusProhibit_tab (t_status_prohibit_ c);
        let e := rlc_am_init e in
        let e := rlc_am_set_debug_infos e eNB_flagP srb_flagP enb_module_idP ue_module_idP
                   rb_idP in
        Ok (Some (rlc_am_configure e (RlcAmInfo mrt pp pb pr tr sp)))
      else Ok (Some e)
  end.
End asn1.
