(* ===== verification/RlcAmRxListSpec.v ===== *)
(** RLC AM v9.3.0: the receiver buffer is sorted.  Where [rlc_am_rx_list_insert_pdu]
    puts a PDU or a segment, and when it refuses one. *)
From S2P Require Import Prelude.
From S2P Require Import RlcAmEntity.
From S2P Require Import RlcAmSn.
From S2P Require Import RlcAmRx.
From S2P Require Import RlcAmRxList.
From stdpp Require Import sorting.

Local Open Scope Z_scope.

(** ** The order of a buffer *)

(** Segments of one PDU do not overlap, and a PDU is there once. *)
Definition seg_before (c d : am_pdu_info) : Prop :=
  di_rf c = 1 /\ di_rf d = 1 /\ di_end c < di_so d.
Definition clash (c d : am_pdu_info) : Prop :=
  di_sn c = di_sn d /\ ~ seg_before c d /\ ~ seg_before d c.

(** [key] places the sequence numbers on a line. *)
Definition before (key : Z -> Z) (c d : am_rx_pdu) : Prop :=
  key (rx_sn c) < key (rx_sn d) \/
  rx_sn c = rx_sn d /\ seg_before (pdu_info c) (pdu_info d).

(** What the decoding of a PDU with a payload gives. *)
Record info_wf (i : am_pdu_info) : Prop := {
  wf_sn : sn_ok (di_sn i);
  wf_rf : di_rf i = 0 \/ di_rf i = 1;
  wf_size : 0 < di_payload_size i
}.

Abbreviation raw := (before (fun sn => sn)).
Abbreviation sorted key := (StronglySorted (before key)).
Abbreviation all_wf := (Forall (fun c => info_wf (pdu_info c))).

Lemma before_trans key c d x : info_wf (pdu_info d) ->
  before key c d -> before key d x -> before key c x.
Proof.
  unfold before, seg_before, di_end. intros [_ _ Hs].
  intros [H|(E & H1 & H2 & H3)] [H'|(E' & H1' & H2' & H3')].
  - left. lia.
  - left. by rewrite <- E'.
  - left. by rewrite E.
  - right. repeat split; try done; [congruence|lia].
Qed.

Lemma Forall_one {A} (P : A -> Prop) x : Forall P [x] -> P x.
Proof. by rewrite Forall_singleton. Qed.

Section StronglySorted.
Context {A : Type} (R : A -> A -> Prop).

Lemma sorted_app (a b : list A) :
  StronglySorted R (a ++ b) <->
  StronglySorted R a /\ StronglySorted R b /\ Forall (fun x => Forall (R x) b) a.
Proof.
  induction a as [|x a IH]; cbn [app].
  - split; [intros H; repeat split; [constructor|done|constructor]|by intros (_ & H & _)].
  - split.
    + intros [H1 H2]%StronglySorted_inv. apply IH in H1 as (Ha & Hb & Hab).
      apply Forall_app in H2 as [H2 H3].
      split; [by constructor|]. split; [done|by constructor].
    + intros ([Ha Hx]%StronglySorted_inv & Hb & [Hxb Hab]%Forall_cons).
      constructor; [apply IH; auto|]. by apply Forall_app.
Qed.

Lemma sorted_snoc (a : list A) x :
  StronglySorted R (a ++ [x]) <-> StronglySorted R a /\ Forall (fun y => R y x) a.
Proof.
  rewrite sorted_app. split.
  - intros (Ha & _ & H). split; [done|]. eapply Forall_impl; [exact H|].
    intros y Hy. by rewrite Forall_singleton in Hy.
  - intros [Ha H]. split; [done|]. split; [repeat constructor|].
    eapply Forall_impl; [exact H|]. intros y Hy. by rewrite Forall_singleton.
Qed.

Lemma strongly_sorted_insert (a b : list A) x :
  StronglySorted R (a ++ b) -> Forall (fun y => R y x) a -> Forall (R x) b ->
  StronglySorted R (a ++ x :: b).
Proof.
  intros (Ha & Hb & Hab)%sorted_app Hax Hxb. apply sorted_app. split; [done|].
  split; [by constructor|]. rewrite Forall_forall in Hab, Hax |- *. intros y Hy.
  constructor; auto.
Qed.
End StronglySorted.

(** What is before the last element of a sorted list is before what follows it. *)
Lemma before_all_last key a c x : all_wf (a ++ [c]) -> sorted key (a ++ [c]) ->
  before key c x -> Forall (fun y => before key y x) (a ++ [c]).
Proof.
  intros [_ Hc%Forall_one]%Forall_app [_ H]%sorted_snoc Hx. apply Forall_app.
  split; [|by rewrite Forall_singleton]. eapply Forall_impl; [exact H|].
  intros y Hy. by apply (before_trans _ _ c).
Qed.

Lemma before_all_head key c l x : all_wf (c :: l) -> sorted key (c :: l) ->
  before key x c -> Forall (before key x) (c :: l).
Proof.
  intros [Hc _]%Forall_cons [_ H]%StronglySorted_inv Hx. constructor; [done|].
  eapply Forall_impl; [exact H|]. intros y Hy. by apply (before_trans _ _ c).
Qed.

(** ** The loop from the head on *)

(** The cursor went past [c]. *)
Definition passed (p c : am_pdu_info) : Prop :=
  di_sn c < di_sn p \/
  di_sn c = di_sn p /\ di_rf c = 1 /\ di_rf p = 1 /\ di_so c < di_so p.

Lemma passed_before p c : passed p c -> ~ clash p c -> info_wf p ->
  di_sn c < di_sn p \/ di_sn c = di_sn p /\ seg_before c p.
Proof.
  intros [H|(E & Hc & Hp & H)] Hn [_ _ Hs]; [by left|]. right. split; [done|].
  unfold clash, seg_before, di_end in *. split; [done|]. split; [done|].
  destruct (Z.lt_ge_cases (di_so c + di_payload_size c - 1) (di_so p)); [done|].
  exfalso. apply Hn. split; [done|]. lia.
Qed.

Lemma turn_forward_spec p q c :
  info_wf p -> info_wf c -> (forall q', q = Some q' -> info_wf q' /\ passed p q') ->
  match turn_forward p q c with
  | Place => (di_sn p < di_sn c \/ di_sn p = di_sn c /\ seg_before p c) /\
             (forall q', q = Some q' -> ~ clash p q')
  | Drop => clash p c \/ exists q', q = Some q' /\ clash p q'
  | Next => passed p c
  end.
Proof.
  intros [_ Hp Hsz] [_ Hc Hsc] Hq. unfold turn_forward.
  assert (Hcl : forall q', q = Some q' -> di_sn q' <> di_sn p -> ~ clash p q')
    by (unfold clash; intuition congruence).
  destruct (Z.ltb_spec (di_sn p) (di_sn c)).
  { destruct q as [q|]; [|by split; [left|]]. destruct (Hq q eq_refl) as [[_ Hqr Hqs] Hpq].
    destruct (Z.eqb_spec (di_sn q) (di_sn p)) as [E|E].
    2: { split; [by left|]. intros ? [= <-]. by apply Hcl. }
    destruct Hpq as [|(_ & Hq1 & Hp1 & Hso)]; [lia|]. rewrite Hp1, Hq1. cbn.
    destruct (Z.leb_spec (di_so p) (di_end q)).
    - right. exists q. unfold clash, seg_before, di_end in *. split; [done|]. split; [done|]. lia.
    - split; [by left|]. intros ? [= <-] (_ & _ & Hn). by apply Hn. }
  destruct (Z.eqb_spec (di_sn p) (di_sn c)) as [E|E]; [|by left; lia].
  destruct (Z.eqb_spec (di_rf c) 0) as [Ec|Ec].
  { left. unfold clash, seg_before. split; [done|]. lia. }
  destruct (Z.eqb_spec (di_rf p) 1) as [Ep|Ep].
  2: { left. unfold clash, seg_before. split; [done|]. lia. }
  assert (Hsame : forall q', q = Some q' -> di_end q' < di_so p -> ~ clash p q').
  { intros q' Eq Hlt (Hs & _ & Hn). destruct (Hq q' Eq) as [_ [|(_ & ? & _)]]; [lia|]. by apply Hn. }
  destruct (Z.ltb_spec (di_end p) (di_so c)).
  - assert (seg_before p c) by (unfold seg_before; lia).
    destruct q as [q|]; [|by split; [right|]].
    destruct (Z.eqb_spec (di_sn q) (di_sn c)) as [E'|E'].
    2: { split; [by right|]. intros ? [= <-]. apply Hcl; [done|lia]. }
    destruct (Z.ltb_spec (di_end q) (di_so p)).
    { split; [by right|]. intros ? [= <-]. by apply Hsame. }
    right. exists q. split; [done|]. destruct (Hq q eq_refl) as [_ [|(_ & _ & _ & Hlt)]]; [lia|].
    unfold clash, seg_before, di_end in *. split; [lia|]. lia.
  - destruct (Z.leb_spec (di_so p) (di_so c)).
    + left. unfold clash, seg_before, di_end in *. split; [done|]. lia.
    + right. repeat split; lia.
Qed.

(** [a] has been passed, the cursor is at the head of [l]. *)
Definition forward_result (tb : am_rx_pdu) (l : list am_rx_pdu) (w : walk) : Prop :=
  match w with
  | WPlace i => exists a b, l = a ++ b /\ i = length a /\
      Forall (fun c => raw c tb) a /\ Forall (raw tb) b
  | WDrop => exists c, c ∈ l /\ clash (pdu_info tb) (pdu_info c)
  | WEnd i => i = length l /\ Forall (fun c => passed (pdu_info tb) (pdu_info c)) l
  end.

(** The last one passed does not clash: all of them are before the PDU. *)
Lemma passed_raw tb a : all_wf a -> sorted (fun sn => sn) a -> info_wf (pdu_info tb) ->
  Forall (fun c => passed (pdu_info tb) (pdu_info c)) a ->
  (forall c, last a = Some c -> ~ clash (pdu_info tb) (pdu_info c)) ->
  Forall (fun c => raw c tb) a.
Proof.
  intros Hw Hs Htb Hp Hl. destruct a as [|c a _] using rev_ind; [done|].
  apply before_all_last; [done..|]. apply Forall_app in Hp as [_ Hp%Forall_one].
  apply passed_before; [done| |done]. apply Hl. by rewrite last_snoc.
Qed.

Lemma walk_forward tb l : forall a,
  all_wf (a ++ l) -> sorted (fun sn => sn) (a ++ l) -> info_wf (pdu_info tb) ->
  Forall (fun c => passed (pdu_info tb) (pdu_info c)) a ->
  forward_result tb (a ++ l)
    (walk_list turn_forward (fun _ => true) (pdu_info tb) (pdu_info <$> last a) (length a) l).
Proof.
  induction l as [|c l IH]; intros a Hw Hs Htb Hp; cbn [walk_list].
  { rewrite app_nil_r. by split. }
  pose proof Hw as [Hwa [Hwc Hwl]%Forall_cons]%Forall_app.
  pose proof Hs as (Hsa & Hsl & _)%sorted_app.
  assert (Hlast : forall q, pdu_info <$> last a = Some q ->
      exists d, d ∈ a /\ last a = Some d /\ q = pdu_info d).
  { intros q (d & Hd & ->)%fmap_Some. exists d. split; [|done].
    by apply last_Some_elem_of. }
  assert (Hq : forall q, pdu_info <$> last a = Some q -> info_wf q /\ passed (pdu_info tb) q).
  { intros q (d & Hd & _ & ->)%Hlast. rewrite Forall_forall in Hwa, Hp. auto. }
  pose proof (turn_forward_spec (pdu_info tb) (pdu_info <$> last a) (pdu_info c) Htb Hwc Hq) as Ht.
  destruct (turn_forward _ _ _).
  - destruct Ht as [Hc Hn]. exists a, (c :: l). split; [done|]. split; [done|]. split.
    + apply passed_raw; try done. intros d Hd. apply Hn. by rewrite Hd.
    + by apply before_all_head; [by constructor|..].
  - destruct Ht as [Ht|(q & (d & Hd & _ & ->)%Hlast & Ht)].
    + exists c. split; [set_solver|done].
    + exists d. split; [set_solver|done].
  - replace (S (length a)) with (length (a ++ [c])) by (rewrite length_app; cbn; lia).
    replace (Some (pdu_info c)) with (pdu_info <$> last (a ++ [c])) by (by rewrite last_snoc).
    replace (a ++ c :: l) with ((a ++ [c]) ++ l) in * by (by rewrite <- app_assoc).
    apply IH; try done. apply Forall_app. split; [done|]. by rewrite Forall_singleton.
Qed.

(** ** The loop from the tail on

    It looks for overlaps less: the PDU is taken not to overlap a segment. *)

Definition no_overlap (tb : am_rx_pdu) (l : list am_rx_pdu) : Prop :=
  Forall (fun c => clash (pdu_info tb) (pdu_info c) ->
    di_rf (pdu_info c) = 0 \/ di_rf (pdu_info tb) = 0) l.

Lemma turn_backward_spec p q c :
  info_wf p -> info_wf c ->
  (forall q', q = Some q' -> info_wf q' /\ (di_sn p < di_sn q' \/ di_sn p = di_sn q' /\ seg_before p q')) ->
  match turn_backward p q c with
  | Place => di_sn c < di_sn p \/ di_sn c = di_sn p /\ seg_before c p
  | Drop => clash p c
  | Next => di_sn p < di_sn c \/
      di_sn p = di_sn c /\ di_rf c = 1 /\ di_rf p = 1 /\ di_so p < di_so c
  end.
Proof.
  intros [_ Hp Hsz] [_ Hc Hsc] Hq. unfold turn_backward.
  destruct (Z.ltb_spec (di_sn c) (di_sn p)).
  { destruct q as [q|]; [|by left]. destruct (Hq q eq_refl) as [_ Hpq].
    destruct (Z.eqb_spec (di_sn q) (di_sn c)); [|by left]. exfalso. lia. }
  destruct (Z.eqb_spec (di_sn p) (di_sn c)) as [E|E]; [|by left; lia].
  destruct (Z.eqb_spec (di_rf c) 0) as [Ec|Ec].
  { unfold clash, seg_before. split; [done|]. lia. }
  destruct (Z.eqb_spec (di_rf p) 1) as [Ep|Ep].
  2: { unfold clash, seg_before. split; [done|]. lia. }
  destruct (Z.ltb_spec (di_end c) (di_so p)).
  - assert (seg_before c p) by (unfold seg_before; lia).
    destruct q as [q|]; [|by right]. destruct (Z.eqb_spec (di_sn q) (di_sn c)) as [E'|E']; [|by right].
    destruct (Hq q eq_refl) as [_ [|(_ & _ & _ & Hlt)]]; [lia|].
    rewrite (proj2 (Z.ltb_lt _ _)) by done. by right.
  - destruct (Z.leb_spec (di_so c) (di_so p)).
    + unfold clash, seg_before, di_end in *. split; [done|]. lia.
    + right. repeat split; lia.
Qed.

Definition backward_result (tb : am_rx_pdu) (l : list am_rx_pdu) (w : walk) : Prop :=
  match w with
  | WPlace i => exists a b, l = a ++ b /\ i = length b /\
      Forall (fun c => raw c tb) a /\ Forall (raw tb) b
  | WDrop => exists c, c ∈ l /\ clash (pdu_info tb) (pdu_info c)
  | WEnd i => i = length l /\ Forall (raw tb) l
  end.

Lemma walk_backward tb l : forall a,
  all_wf (l ++ a) -> sorted (fun sn => sn) (l ++ a) -> info_wf (pdu_info tb) ->
  no_overlap tb (l ++ a) -> Forall (raw tb) a ->
  backward_result tb (l ++ a)
    (walk_list turn_backward (fun _ => true) (pdu_info tb) (pdu_info <$> head a) (length a) (rev l)).
Proof.
  induction l as [|c l IH] using rev_ind; intros a Hw Hs Htb Ho Hp.
  { by split. }
  rewrite rev_unit. cbn [walk_list]. rewrite <- app_assoc in *. cbn [app] in *.
  pose proof Hw as [Hwl [Hwc Hwa]%Forall_cons]%Forall_app.
  pose proof Hs as (Hsl & _ & Hlca)%sorted_app.
  assert (Hq : forall q, pdu_info <$> head a = Some q -> info_wf q /\
      (di_sn (pdu_info tb) < di_sn q \/ di_sn (pdu_info tb) = di_sn q /\ seg_before (pdu_info tb) q)).
  { intros q (d & Hd & ->)%fmap_Some. destruct a as [|d' a]; [done|]. injection Hd as ->.
    apply Forall_cons in Hwa as [Hwd _]. apply Forall_cons in Hp as [Hd _]. by split. }
  pose proof (turn_backward_spec (pdu_info tb) (pdu_info <$> head a) (pdu_info c) Htb Hwc Hq) as Ht.
  destruct (turn_backward _ _ _).
  - exists (l ++ [c]), a. rewrite <- app_assoc. split; [done|]. split; [done|]. split; [|done].
    assert (Hlc : sorted (fun sn => sn) (l ++ [c])).
    { apply sorted_snoc. split; [done|]. eapply Forall_impl; [exact Hlca|].
      intros x Hx. by apply Forall_cons in Hx as [Hx _]. }
    apply before_all_last; [|done..]. apply Forall_app. split; [done|]. by constructor.
  - exists c. split; [set_solver|done].
  - apply (IH (c :: a)); try done. constructor; [|done].
    destruct Ht as [Ht|(E & Hc & Htb' & Hso)]; [by left|]. right. split; [done|].
    unfold no_overlap in Ho. rewrite Forall_forall in Ho.
    assert (Hn : ~ clash (pdu_info tb) (pdu_info c)).
    { intros Hcl. destruct (Ho c ltac:(set_solver) Hcl); lia. }
    destruct Htb as [_ _ Hsz], Hwc as [_ _ Hsc].
    unfold clash, seg_before, di_end in *.
    destruct (Z.lt_ge_cases (di_so (pdu_info tb) + di_payload_size (pdu_info tb) - 1)
      (di_so (pdu_info c))); [done|].
    exfalso. apply Hn. split; [done|]. lia.
Qed.

(** The loop whose condition holds for [a] and stops it at [b]. *)
Lemma walk_cond turn cond p a b : Forall (fun c => cond (pdu_info c) = true) a ->
  match b with c :: _ => cond (pdu_info c) = false | [] => True end ->
  forall q i, walk_list turn cond p q i (a ++ b) = walk_list turn (fun _ => true) p q i a.
Proof.
  intros Ha Hb. induction Ha as [|c a Hc Ha IH]; intros q i; cbn [app walk_list].
  - destruct b as [|c b]; [done|]. cbn [walk_list]. by rewrite Hb.
  - rewrite Hc. destruct (turn _ _ _); [done|done|]. apply IH.
Qed.

(** ** The window *)

(** The numbers from VR(R) on, and those that have wrapped. *)
Definition upper (vr : Z) (c : am_rx_pdu) : Prop := vr <= rx_sn c < 1024.
Definition lower (vr : Z) (c : am_rx_pdu) : Prop := 0 <= rx_sn c < vr.

Record buffer_ok (vr : Z) (l : list am_rx_pdu) : Prop := BufferOk {
  buf_wf : all_wf l;
  buf_sorted : sorted (dist vr) l;
  buf_window : Forall (fun c => dist vr (rx_sn c) < 512) l
}.

Lemma dist_upper vr sn : 0 <= vr <= sn -> sn < 1024 -> dist vr sn = sn - vr.
Proof. intros. unfold dist. apply Z.mod_small. lia. Qed.

Lemma dist_lower vr sn : 0 <= sn < vr -> vr < 1024 -> dist vr sn = sn - vr + 1024.
Proof.
  intros. unfold dist. symmetry. apply (Z.mod_unique _ _ (-1)); lia.
Qed.

Lemma before_upper vr c d : 0 <= vr -> upper vr c -> upper vr d ->
  before (dist vr) c d <-> raw c d.
Proof. intros Hv Hc Hd. unfold before, upper in *. rewrite !dist_upper by lia.
  split; (intros [?|?]; [left; lia|by right]). Qed.

Lemma before_lower vr c d : vr < 1024 -> lower vr c -> lower vr d ->
  before (dist vr) c d <-> raw c d.
Proof. intros Hv Hc Hd. unfold before, lower in *. rewrite !dist_lower by lia.
  split; (intros [?|?]; [left; lia|by right]). Qed.

Lemma upper_lower vr c d : 0 <= vr < 1024 -> upper vr c -> lower vr d -> before (dist vr) c d.
Proof.
  intros Hv Hc Hd. unfold upper, lower in *. left. rewrite dist_upper, dist_lower by lia. lia.
Qed.

Lemma window_split vr l : sn_ok vr -> all_wf l -> sorted (dist vr) l ->
  exists lu ll, l = lu ++ ll /\ Forall (upper vr) lu /\ Forall (lower vr) ll.
Proof.
  intros Hv. induction l as [|c l IH]; intros Hw Hs; [by exists [], []|].
  apply Forall_cons in Hw as [Hc Hw]. apply StronglySorted_inv in Hs as [Hs Hb].
  destruct (IH Hw Hs) as (lu & ll & -> & Hu & Hl). destruct Hc as [Hc _ _]. fold (rx_sn c) in Hc.
  unfold sn_ok in Hv, Hc. destruct (Z.lt_ge_cases (rx_sn c) vr) as [Hlt|Hge].
  - exists [], (c :: lu ++ ll). split; [done|]. split; [constructor|].
    constructor; [unfold lower; lia|]. apply Forall_app. split; [|done]. apply Forall_forall. intros d Hd.
    rewrite Forall_forall in Hb, Hu. specialize (Hb d ltac:(set_solver)). specialize (Hu d Hd).
    exfalso. unfold upper in Hu. destruct Hb as [Hb|[E _]]; [|lia].
    rewrite dist_lower, dist_upper in Hb by lia. lia.
  - exists (c :: lu), ll. split; [done|]. split; [|done]. constructor; [|done]. unfold upper. lia.
Qed.

Lemma sorted_raw (P : am_rx_pdu -> Prop) key key' l : Forall P l ->
  (forall c d, P c -> P d -> before key c d -> before key' c d) ->
  sorted key l -> sorted key' l.
Proof.
  intros HP Hi. induction l as [|c l IH]; intros Hs; [constructor|].
  apply Forall_cons in HP as [Hc HP]. apply StronglySorted_inv in Hs as [Hs Hb].
  constructor; [by apply IH|]. rewrite Forall_forall in Hb, HP |- *. auto.
Qed.

(** ** Insertion *)

(** What the function does with a PDU in the window: in its place, or a clash. *)
Definition inserted (vr : Z) (tb : am_rx_pdu) (l : list am_rx_pdu)
    (r : option (list am_rx_pdu * nat)) : Prop :=
  match r with
  | Some (l', i) => exists a b, l = a ++ b /\ l' = a ++ tb :: b /\ i = length a /\
      Forall (fun c => before (dist vr) c tb) a /\ Forall (before (dist vr) tb) b
  | None => exists c, c ∈ l /\ clash (pdu_info tb) (pdu_info c)
  end.

Lemma insert_before_app (tb : am_rx_pdu) a b :
  insert_before (length a) tb (a ++ b) = (a ++ tb :: b, length a).
Proof. unfold insert_before. by rewrite take_app_length, drop_app_length. Qed.

Lemma insert_after_app (tb : am_rx_pdu) a b :
  insert_after_rev (length b) tb (a ++ b) = (a ++ tb :: b, length a).
Proof.
  unfold insert_after_rev. rewrite length_app.
  replace (length a + length b - length b)%nat with (length a) by lia. apply insert_before_app.
Qed.

Lemma inserted_at vr tb a b :
  Forall (fun c => before (dist vr) c tb) a -> Forall (before (dist vr) tb) b ->
  inserted vr tb (a ++ b) (Some (insert_before (length a) tb (a ++ b))).
Proof. intros. rewrite insert_before_app. exists a, b. done. Qed.

Lemma inserted_after vr tb a b :
  Forall (fun c => before (dist vr) c tb) a -> Forall (before (dist vr) tb) b ->
  inserted vr tb (a ++ b) (Some (insert_after_rev (length b) tb (a ++ b))).
Proof. intros. rewrite insert_after_app. exists a, b. done. Qed.

Lemma inserted_tail vr tb l : Forall (fun c => before (dist vr) c tb) l ->
  inserted vr tb l (Some (insert_before (length l) tb l)).
Proof. intros H. pose proof (inserted_at vr tb l [] H (Forall_nil_2 _)) as Hi. by rewrite app_nil_r in Hi. Qed.

Section upper.
Context (vr : Z) (tb : am_rx_pdu).
Hypothesis Hvr : sn_ok vr.
Hypothesis Htb : info_wf (pdu_info tb).
Hypothesis Hup : upper vr tb.

Lemma raw_below a : Forall (upper vr) a -> Forall (fun c => raw c tb) a ->
  Forall (fun c => before (dist vr) c tb) a.
Proof.
  unfold sn_ok in Hvr. rewrite !Forall_forall. intros Hu Ha c Hc.
  apply before_upper; auto. lia.
Qed.

Lemma raw_above a : Forall (upper vr) a -> Forall (raw tb) a -> Forall (before (dist vr) tb) a.
Proof.
  unfold sn_ok in Hvr. rewrite !Forall_forall. intros Hu Ha c Hc.
  apply before_upper; auto. lia.
Qed.

Lemma upper_raw_sorted l : Forall (upper vr) l -> sorted (dist vr) l -> sorted (fun sn => sn) l.
Proof.
  intros Hu. apply (sorted_raw (upper vr)); [done|]. intros c d Hc Hd. apply before_upper; try done.
  unfold sn_ok in Hvr. lia.
Qed.

(** The walk over the numbers that have not wrapped, [ll] behind them. *)
Lemma forward_inserted lu ll w :
  Forall (upper vr) lu -> Forall (lower vr) ll -> forward_result tb lu w ->
  match w with
  | WPlace i => inserted vr tb (lu ++ ll) (Some (insert_before i tb (lu ++ ll)))
  | WDrop => inserted vr tb (lu ++ ll) None
  | WEnd i => i = length lu /\ Forall (fun c => passed (pdu_info tb) (pdu_info c)) lu
  end.
Proof.
  intros Hu Hl. destruct w; cbn [forward_result]; [|intros (c & Hc & Hcl); exists c; set_solver|done].
  intros (a & b & -> & -> & Ha & Hb). apply Forall_app in Hu as [Hua Hub].
  rewrite <- app_assoc. apply inserted_at; [by apply raw_below|]. apply Forall_app.
  split; [by apply raw_above|]. eapply Forall_impl; [exact Hl|]. intros c. apply upper_lower; [|done].
  unfold sn_ok in Hvr. lia.
Qed.

Lemma insert_simple_ok l : l <> [] -> all_wf l -> sorted (dist vr) l -> Forall (upper vr) l ->
  inserted vr tb l (insert_simple tb l).
Proof.
  intros Hne Hw Hs Hu. unfold insert_simple.
  pose proof (walk_forward tb l [] Hw (upper_raw_sorted l Hu Hs) Htb (Forall_nil_2 _)) as H.
  apply (forward_inserted l []) in H; [|done..]. cbn [app last fmap option_fmap option_map length] in H.
  rewrite app_nil_r in H. destruct (walk_list _ _ _ _ _ _); [done..|]. destruct H as [-> Hp].
  destruct l as [|c l _] using rev_ind; [done|]. rewrite last_snoc.
  pose proof Hp as [_ Hpc%Forall_one]%Forall_app.
  assert (Htail : ~ clash (pdu_info tb) (pdu_info c) ->
    inserted vr tb (l ++ [c]) (Some (insert_before (length (l ++ [c])) tb (l ++ [c])))).
  { intros Hn. apply inserted_tail, raw_below; [done|].
    apply passed_raw; try done; [by apply upper_raw_sorted|].
    rewrite last_snoc. by intros ? [= <-]. }
  destruct (Z.eqb_spec (di_sn (pdu_info tb)) (di_sn (pdu_info c))) as [E|E].
  - destruct Hpc as [|(_ & Hc & Ht & Hso)]; [lia|].
    destruct (Z.ltb_spec (di_end (pdu_info c)) (di_so (pdu_info tb))).
    + apply Htail. intros (_ & _ & Hn). by apply Hn.
    + exists c. split; [set_solver|]. destruct Htb as [_ _ Hsz].
      unfold clash, seg_before, di_end in *. split; [done|]. lia.
  - apply Htail. by intros [? _].
Qed.

Lemma insert_upper_ok lu ll : lu ++ ll <> [] -> all_wf lu -> sorted (dist vr) lu ->
  Forall (upper vr) lu -> Forall (lower vr) ll -> no_overlap tb lu ->
  inserted vr tb (lu ++ ll) (insert_upper vr tb (lu ++ ll)).
Proof.
  intros Hne Hw Hs Hu Hl Ho. unfold insert_upper.
  rewrite walk_cond.
  2: { eapply Forall_impl; [exact Hu|]. unfold upper, rx_sn. cbn. intros. lia. }
  2: { destruct Hl as [|c ll Hc _]; [done|]. unfold lower, rx_sn in Hc. lia. }
  pose proof (walk_forward tb lu [] Hw (upper_raw_sorted lu Hu Hs) Htb (Forall_nil_2 _)) as H.
  apply (forward_inserted lu ll) in H; [|done..]. cbn [app last fmap option_fmap option_map length] in H.
  destruct (walk_list _ _ _ _ _ _); [done..|]. destruct H as [-> Hp].
  assert (Hall : Forall (fun c => before (dist vr) c tb) lu).
  { apply raw_below; [done|]. apply passed_raw; try done; [by apply upper_raw_sorted|].
    intros c Hc%last_Some_elem_of Hcl. unfold no_overlap in Ho. rewrite Forall_forall in Ho, Hp.
    destruct (Hp c Hc) as [|(_ & H1 & H2 & _)]; [destruct Hcl; lia|].
    destruct (Ho c Hc Hcl); lia. }
  rewrite length_app. destruct ll as [|d ll].
  - rewrite app_nil_r, Nat.add_0_r, Nat.ltb_irrefl in *. cbn [length].
    destruct lu as [|c lu _] using rev_ind; [done|]. rewrite last_snoc.
    assert (He : past_the_end (pdu_info tb) (pdu_info c) = true).
    { apply Forall_app in Hall as [_ Hc%Forall_one]. apply Forall_app in Hw as [_ [_ Hr _]%Forall_one].
      unfold past_the_end. destruct (Z.eqb_spec (di_rf (pdu_info c)) 0) as [|Hrf]; [done|].
      destruct Hc as [Hc|(E & H1 & H2 & H3)].
      - destruct (Z.eqb_spec (di_sn (pdu_info tb)) (di_sn (pdu_info c))) as [E|_].
        + exfalso. unfold rx_sn in Hc. rewrite E in Hc. lia.
        + by rewrite andb_false_r.
      - unfold rx_sn in E. rewrite H1, H2, E. cbn [andb Z.eqb]. change (1 =? 1) with true. cbn [andb].
        rewrite Z.eqb_refl. by apply Z.ltb_lt. }
    rewrite He. apply inserted_tail. done.
  - rewrite (proj2 (Nat.ltb_lt _ _)) by (cbn; lia). apply inserted_at; [done|].
    eapply Forall_impl; [exact Hl|]. intros x. apply upper_lower; [|done]. unfold sn_ok in Hvr. lia.
Qed.
End upper.

Lemma insert_lower_ok vr tb lu ll : sn_ok vr -> info_wf (pdu_info tb) -> lower vr tb ->
  all_wf ll -> sorted (dist vr) ll -> Forall (upper vr) lu -> Forall (lower vr) ll ->
  no_overlap tb ll -> ~ Forall (before (dist vr) tb) (lu ++ ll) ->
  inserted vr tb (lu ++ ll) (insert_lower vr tb (lu ++ ll)).
Proof.
  intros Hvr Htb Hlo Hw Hs Hu Hl Ho Hfront. unfold insert_lower. unfold sn_ok in Hvr.
  assert (Hraw : sorted (fun sn => sn) ll).
  { revert Hs. apply (sorted_raw (lower vr)); [done|]. intros c d Hc Hd. apply before_lower; [lia|done..]. }
  assert (Hlu : Forall (fun c => before (dist vr) c tb) lu).
  { eapply Forall_impl; [exact Hu|]. intros c Hc. by apply upper_lower. }
  assert (Hbelow : forall a, Forall (lower vr) a -> Forall (fun c => raw c tb) a ->
    Forall (fun c => before (dist vr) c tb) a).
  { intros a Ha Hr. rewrite Forall_forall in Ha, Hr |- *. intros c Hc. apply before_lower; auto; lia. }
  assert (Habove : forall a, Forall (lower vr) a -> Forall (raw tb) a -> Forall (before (dist vr) tb) a).
  { intros a Ha Hr. rewrite Forall_forall in Ha, Hr |- *. intros c Hc. apply before_lower; auto; lia. }
  rewrite rev_app_distr, walk_cond.
  2: { apply Forall_rev. eapply Forall_impl; [exact Hl|]. unfold lower, rx_sn. cbn. intros. lia. }
  2: { destruct lu as [|c lu _] using rev_ind; [done|]. rewrite rev_unit.
       apply Forall_app in Hu as [_ Hc%Forall_one]. unfold upper, rx_sn in Hc. lia. }
  pose proof (walk_backward tb ll []) as H. rewrite app_nil_r in H.
  specialize (H Hw Hraw Htb Ho (Forall_nil_2 _)). cbn [head fmap option_fmap option_map length] in H.
  destruct (walk_list _ _ _ _ _ _); cbn [backward_result] in H.
  - destruct H as (a & b & -> & -> & Ha & Hb). apply Forall_app in Hl as [Hla Hlb].
    rewrite app_assoc. apply inserted_after; [|by apply Habove]. apply Forall_app.
    split; [done|]. by apply Hbelow.
  - destruct H as (c & Hc & Hcl). exists c. set_solver.
  - destruct H as [-> Hp]. apply Habove in Hp; [|done]. destruct lu as [|c lu].
    + by exfalso.
    + rewrite (proj2 (Nat.ltb_lt _ _)) by (rewrite length_app; cbn; lia).
      by apply inserted_after.
Qed.

(** Where the code goes wrong: the numbers of the window wrap, all those in the buffer
    have, and the PDU is before them.  It is put at the tail. *)
Definition in_front (e : am_rx) (tb : am_rx_pdu) : Prop :=
  vr_mr e < vr_r e /\ rx_sn tb < vr_r e /\ receiver_buffer e <> [] /\
      Forall (before (dist (vr_r e)) tb) (receiver_buffer e).

(** Nothing is missed by the searches for overlaps that are left out when the numbers
    of the window wrap. *)
Definition insert_sound (e : am_rx) (tb : am_rx_pdu) : Prop :=
  ~ in_front e tb /\ (vr_mr e < vr_r e -> no_overlap tb (receiver_buffer e)).

Lemma insert_pdu_eq e tb l : receiver_buffer e = l -> l <> [] ->
  rlc_am_rx_list_insert_pdu e tb
  = (r ← (if vr_mr e <? vr_r e then
            if vr_r e <=? rx_sn tb then insert_upper (vr_r e) tb l
            else insert_lower (vr_r e) tb l
          else insert_simple tb l);
     Some (e <| receiver_buffer := r.1 |>, r.2)).
Proof. unfold rlc_am_rx_list_insert_pdu. intros -> H. by destruct l. Qed.

Lemma insert_pdu_inserted e tb :
  sn_ok (vr_r e) -> vr_mr e = (vr_r e + 512) mod 1024 ->
  buffer_ok (vr_r e) (receiver_buffer e) ->
  info_wf (pdu_info tb) -> dist (vr_r e) (rx_sn tb) < 512 -> insert_sound e tb ->
  exists r, inserted (vr_r e) tb (receiver_buffer e) r /\
    rlc_am_rx_list_insert_pdu e tb
    = (r' ← r; Some (e <| receiver_buffer := r'.1 |>, r'.2)).
Proof.
  intros Hvr Hmr [Hw Hs Hwin] Htb Hd [Hf Ho].
  pose proof (wf_sn _ Htb) as Hsn. fold (rx_sn tb) in Hsn.
  destruct (decide (receiver_buffer e = [])) as [El|Hne].
  { unfold rlc_am_rx_list_insert_pdu. rewrite El. exists (Some ([tb], O)). split; [|done].
    exists [], []. repeat split; constructor. }
  rewrite (insert_pdu_eq e tb _ eq_refl Hne). eexists. split; [|reflexivity].
  destruct (window_split _ _ Hvr Hw Hs) as (lu & ll & E & Hu & Hl).
  unfold in_front in Hf. rewrite E in *. apply Forall_app in Hw as [Hwu Hwl].
  pose proof Hs as (Hsu & Hsl & _)%sorted_app.
  unfold sn_ok in Hvr, Hsn. destruct (Z.ltb_spec (vr_mr e) (vr_r e)) as [Hwrap|Hno].
  - specialize (Ho Hwrap). apply Forall_app in Ho as [Hou Hol].
    destruct (Z.leb_spec (vr_r e) (rx_sn tb)).
    + apply insert_upper_ok; try done. unfold upper. lia.
    + apply insert_lower_ok; try done; [unfold lower; lia|]. intros Hfr. by apply Hf.
  - assert (Hup : forall x, sn_ok (rx_sn x) -> dist (vr_r e) (rx_sn x) < 512 -> upper (vr_r e) x).
    { intros x Hx Hdx. unfold sn_ok in Hx. unfold upper.
      destruct (Z.lt_ge_cases (rx_sn x) (vr_r e)); [|lia]. rewrite dist_lower in Hdx by lia.
      rewrite Hmr in Hno. exfalso. revert Hno Hdx. div_lia. }
    apply insert_simple_ok; try done; [by apply Hup|by apply Forall_app|].
    rewrite Forall_forall in Hwin |- *. intros x Hx. apply Hup; [|by apply Hwin].
    apply elem_of_app in Hx as [Hx|Hx]; [rewrite Forall_forall in Hwu|rewrite Forall_forall in Hwl];
      by apply wf_sn; auto.
Qed.

(** The buffer with the PDU in it. *)
Lemma inserted_buffer_ok vr tb a b :
  buffer_ok vr (a ++ b) -> info_wf (pdu_info tb) -> dist vr (rx_sn tb) < 512 ->
  Forall (fun c => before (dist vr) c tb) a -> Forall (before (dist vr) tb) b ->
  buffer_ok vr (a ++ tb :: b).
Proof.
  intros [[Hwa Hwb]%Forall_app Hs [Hda Hdb]%Forall_app] Htb Hd Ha Hb. split.
  - apply Forall_app. split; [done|]. by constructor.
  - by apply strongly_sorted_insert.
  - apply Forall_app. split; [done|]. by constructor.
Qed.

