(* ===== verification/RlcAmHeaderSpec.v ===== *)
(** RLC AM v9.3.0: a reference encoding of data PDUs, whole or segments, and what
    [rlc_am_get_data_pdu_infos] makes of it.  Length indicators and the framing are
    those of RLC UM, whose encoding and lemmas are used. *)
From S2P Require Import Prelude.
From S2P Require Import RlcUmHeader.
From S2P Require Import RlcUmReassemblySpec.
From S2P Require Import RlcUmHeaderSpec.
From S2P Require Import RlcAmEntity.
From S2P Require Import RlcAmSn.
From S2P Require Import RlcAmRx.

Local Open Scope Z_scope.
Local Open Scope c_scope.

(** ** The loop over the length indicators *)

(** The information after [lis] more indicators, whose header takes [n] bytes. *)
Definition am_read_lis (i : am_pdu_info) (lis : list Z) (n : Z) : am_pdu_info :=
  i <| di_li_list := di_li_list i ++ lis |> <| di_header_size := di_header_size i + n |>
    <| di_num_li := di_num_li i + zlen lis |>.

Lemma am_read_lis_app i a b n m :
  am_read_lis (am_read_lis i a n) b m = am_read_lis i (a ++ b) (n + m).
Proof.
  unfold am_read_lis, update. cbn. rewrite <- app_assoc, zlen_app. f_equal; lia.
Qed.

(** What a turn needs of the sums kept. *)
Definition li_room (sum li : Z) (i : am_pdu_info) : Prop :=
  0 <= di_num_li i < 32 /\ 0 <= sum /\ sum + li < 32768 /\ 0 <= di_header_size i < 1000.

Lemma am_li_store sum li n i :
  0 <= li -> 0 <= n < 10 -> li_room sum li i ->
  (i <| di_li_list := di_li_list i ++ [li] |>
     <| di_header_size := s16 (di_header_size i + n) |>
     <| di_num_li := u16 (di_num_li (i <| di_li_list := di_li_list i ++ [li] |>
          <| di_header_size := s16 (di_header_size i + n) |>) + 1) |>)
  = am_read_lis i [li] n.
Proof.
  intros Hl Hn (H1 & H2 & H3 & H4). unfold am_read_lis, update. cbn.
  by rewrite s16_small, u16_small by lia.
Qed.

Lemma am_li_first fuel pre b1 b2 rest sum i :
  byte b1 -> byte b2 ->
  let li := (b1 mod 128) * 2 ^ 4 + (b2 / 16) mod 16 in
  li_room sum li i ->
  am_li_loop (S fuel) (pre ++ b1 :: b2 :: rest) (zlen pre) 1 sum i
  = if (b1 / 128) mod 2 =? 1
    then am_li_loop fuel (pre ++ b1 :: b2 :: rest) (zlen pre) 2 (sum + li) (am_read_lis i [li] 2)
    else Ok (false, zlen pre, 2, sum + li, am_read_lis i [li] 2).
Proof.
  intros H1 H2 li Hr. cbn [am_li_loop]. change (1 .^ 3) with 2. change (2 =? 2) with true.
  cbv zeta iota. rewrite rd_app_here, res_ok_bind, (rd_app_next pre), !res_ok_bind.
  rewrite li_hi_byte, li_lo_byte, truth_b7 by done.
  rewrite lor_shiftl_add by (try div_lia). fold li.
  assert (Hli : 0 <= li < 2048) by (unfold li; div_lia).
  rewrite (am_li_store sum li) by (done || lia). pose proof Hr as (Hn & Hs & Hm & Hh).
  unfold RLC_AM_MAX_SDU_IN_PDU. rewrite (proj2 (Z.ltb_lt (di_num_li i) 32)) by lia.
  cbn [res_guard]. rewrite res_ok_bind, s16_small by lia.
  change (di_num_li (am_read_lis i [li] 2)) with (di_num_li i + 1).
  by rewrite (proj2 (Z.ltb_ge 32 (di_num_li i + 1))) by lia.
Qed.

Lemma am_li_second fuel pre b1 b2 b3 rest sum i :
  byte b2 -> byte b3 ->
  let li := (b2 mod 8) * 2 ^ 8 + b3 in
  li_room sum li i ->
  am_li_loop (S fuel) (pre ++ b1 :: b2 :: b3 :: rest) (zlen pre) 2 sum i
  = if (b2 / 8) mod 2 =? 1
    then am_li_loop fuel (pre ++ b1 :: b2 :: b3 :: rest) (zlen pre + 3) 1 (sum + li)
           (am_read_lis i [li] 1)
    else Ok (false, zlen pre + 3, 1, sum + li, am_read_lis i [li] 1).
Proof.
  intros H2 H3 li Hr. cbn [am_li_loop]. change (2 .^ 3) with 1. change (1 =? 2) with false.
  cbv zeta iota. rewrite (rd_app_next pre), res_ok_bind, (rd_app_next2 pre), !res_ok_bind.
  rewrite li_hi3_byte, truth_b3 by done.
  rewrite lor_shiftl_add by (try done; lia). fold li.
  assert (Hli : 0 <= li < 2048)
    by (unfold li; unfold in_u in H3; change (2 ^ 8) with 256 in *; div_lia).
  rewrite (am_li_store sum li) by (done || lia). pose proof Hr as (Hn & Hs & Hm & Hh).
  unfold RLC_AM_MAX_SDU_IN_PDU. rewrite (proj2 (Z.ltb_lt (di_num_li i) 32)) by lia.
  cbn [res_guard]. rewrite res_ok_bind, s16_small by lia.
  change (di_num_li (am_read_lis i [li] 1)) with (di_num_li i + 1).
  by rewrite (proj2 (Z.ltb_ge 32 (di_num_li i + 1))) by lia.
Qed.

(** The three bytes of a group of two indicators, more behind them or not. *)
Definition li_group (x y : Z) (more : bool) : list Z :=
  [128 + x / 16; (x mod 16) * 16 + (if more then 8 else 0) + y / 256; y mod 256].

Lemma li_encode_group x y l :
  li_encode (x :: y :: l) = li_group x y (negb (bool_decide (l = []))) ++ li_encode l.
Proof.
  unfold li_group. change (li_encode (x :: y :: l)) with
    ([128 + x / 16;
      (x mod 16) * 16 + (if decide (l = []) then 0 else 8) + y / 256;
      y mod 256] ++ li_encode l).
  by case_bool_decide; case_decide.
Qed.

(** Both turns over a group. *)
Lemma am_li_group fuel pre x y more rest sum i :
  li_ok x -> li_ok y -> li_room sum (x + y) i -> di_num_li i + 2 <= 32 -> di_header_size i < 500 ->
  am_li_loop (S (S fuel)) (pre ++ li_group x y more ++ rest) (zlen pre) 1 sum i
  = if more
    then am_li_loop fuel ((pre ++ li_group x y more) ++ rest) (zlen pre + 3) 1
           (sum + x + y) (am_read_lis i [x; y] 3)
    else Ok (false, zlen pre + 3, 1, sum + x + y, am_read_lis i [x; y] 3).
Proof.
  intros Hx Hy (Hn & Hs & Hm & Hh) Hn2 Hh2. rewrite <- app_assoc. unfold li_group. cbn [app].
  destruct (li_group_fields x y (if more then 8 else 0) Hx Hy) as (He1 & Hl1 & He2 & Hl2);
    [destruct more; auto|].
  cbn zeta in *. unfold li_ok in Hx, Hy. rewrite (Z.mod_small (y mod 256)) in Hl2 by div_lia.
  rewrite am_li_first;
    [|unfold in_u; change (2 ^ 8) with 256; destruct more; div_lia..|rewrite Hl1; unfold li_room; lia].
  rewrite He1, Hl1. change (1 =? 1) with true. cbv iota.
  rewrite am_li_second;
    [|unfold in_u; change (2 ^ 8) with 256; destruct more; div_lia..|].
  2: { rewrite Hl2. unfold li_room, am_read_lis, update. cbn. change (zlen [x]) with 1. lia. }
  rewrite He2, Hl2, am_read_lis_app. cbn [app]. change (2 + 1) with 3.
  by destruct more.
Qed.

Lemma am_li_loop_encode lis : forall fuel pre rest sum i,
  lis <> [] -> Forall li_ok lis -> (length lis <= fuel)%nat ->
  0 <= di_num_li i -> di_num_li i + zlen lis <= 32 ->
  0 <= sum -> sum + sumZ lis < 32768 -> 0 <= di_header_size i <= 4 + 2 * di_num_li i ->
  exists p len,
    am_li_loop fuel (pre ++ li_encode lis ++ rest) (zlen pre) 1 sum i
    = Ok (false, p, len, sum + sumZ lis, am_read_lis i lis (li_header_len (zlen lis))) /\
    (if len =? 2 then p + 2 else p) = zlen pre + li_header_len (zlen lis).
Proof.
  induction lis as [|x|x y l IH] using pair_list_ind;
    intros fuel pre rest sum i Hne Hok Hf Hn0 Hn Hs0 Hs Hh; [done|..].
  - apply Forall_cons in Hok as [Hok _].
    destruct (li_single_fields x Hok) as [He1 Hl1]. cbn zeta in He1, Hl1.
    unfold li_ok in Hok. destruct fuel as [|fuel]; [cbn in Hf; lia|].
    change (zlen [x]) with 1 in *. change (li_header_len 1) with 2 in *. cbn [sumZ] in *.
    exists (zlen pre), 2. split; [|done]. cbn [li_encode app].
    rewrite am_li_first;
      [|unfold in_u; change (2 ^ 8) with 256; div_lia..|rewrite Hl1; unfold li_room; lia].
    rewrite He1, Hl1. by rewrite Z.add_0_r.
  - apply Forall_cons in Hok as [Hx Hok]; apply Forall_cons in Hok as [Hy Hl].
    destruct fuel as [|[|fuel]]; [cbn in Hf; lia..|].
    rewrite !zlen_cons in *. replace (1 + (1 + zlen l)) with (2 + zlen l) in * by lia.
    rewrite li_header_len_pair, li_encode_group in *. pose proof (zlen_nonneg l) as Hzl.
    cbn [sumZ] in *. assert (Hsl : 0 <= sumZ l)
      by (apply sumZ_nonneg; eapply Forall_impl; [exact Hl|]; unfold li_ok; lia).
    unfold li_ok in Hx, Hy. rewrite <- app_assoc, am_li_group by (done || unfold li_room; lia).
    destruct (decide (l = [])) as [->|Hne'].
    + rewrite bool_decide_true by done. exists (zlen pre + 3), 1.
      split; [|done]. cbn. do 3 f_equal. lia.
    + rewrite bool_decide_false by done. cbn [negb].
      set (pre' := pre ++ li_group x y true).
      assert (Hp : zlen pre + 3 = zlen pre') by (unfold pre'; by rewrite zlen_app).
      rewrite Hp. destruct (IH fuel pre' rest (sum + x + y) (am_read_lis i [x; y] 3))
        as (p & len & H1 & H2); try done; try (cbn in Hf; lia);
        try (unfold am_read_lis, update; cbn; change (zlen [x; y]) with 2; lia).
      exists p, len. rewrite H1, am_read_lis_app. cbn [app]. split; [|lia].
      do 3 f_equal. lia.
Qed.

(** ** The encoding *)

(** [seg] is the segment offset and the last segment flag of a segment. *)
Definition seg_rf (seg : option (Z * bool)) : Z := if decide (seg = None) then 0 else 1.
Definition seg_so (seg : option (Z * bool)) : Z := default 0 (fst <$> seg).
Definition seg_lsf (seg : option (Z * bool)) : Z := Z.b2z (default false (snd <$> seg)).

Definition am_fixed (poll : bool) (fi e sn : Z) (seg : option (Z * bool)) : list Z :=
  [128 + seg_rf seg * 64 + Z.b2z poll * 32 + fi * 8 + e * 4 + sn / 256; sn mod 256] ++
  match seg with
  | None => []
  | Some _ => [seg_lsf seg * 128 + seg_so seg / 256; seg_so seg mod 256]
  end.

Definition am_fixed_len (seg : option (Z * bool)) : Z := 2 + 2 * seg_rf seg.

Definition am_encode (u : umd) (poll : bool) (sn : Z) (seg : option (Z * bool)) : list Z :=
  am_fixed poll (fi_of (umd_starts u) (umd_ends u))
    (if decide (umd_full u = []) then 0 else 1) sn seg
  ++ li_encode (umd_lis u) ++ concat (umd_full u) ++ umd_last u.

(** What the receiver makes of the fixed part, *)
Definition am_fixed_info (poll : bool) (fi e sn : Z) (seg : option (Z * bool)) : am_pdu_info :=
  AmPduInfo 1 (seg_rf seg) (Z.b2z poll) fi e sn (seg_lsf seg) (seg_so seg)
    0 [] 0 (am_fixed_len seg) 0 (am_fixed_len seg).

(** and of the PDU. *)
Definition am_info (u : umd) (poll : bool) (sn : Z) (seg : option (Z * bool)) : am_pdu_info :=
  let hsize := am_fixed_len seg + li_header_len (zlen (umd_full u)) in
  (am_fixed_info poll (fi_of (umd_starts u) (umd_ends u))
    (if decide (umd_full u = []) then 0 else 1) sn seg)
  <| di_num_li := zlen (umd_full u) |> <| di_li_list := umd_lis u |>
  <| di_hidden_size := zlen (umd_last u) |> <| di_payload := hsize |>
  <| di_payload_size := zlen (concat (umd_full u)) + zlen (umd_last u) |>
  <| di_header_size := hsize |>.

Definition seg_ok (seg : option (Z * bool)) : Prop := 0 <= seg_so seg < 32768.

Lemma am_fixed_zlen poll fi e sn seg : zlen (am_fixed poll fi e sn seg) = am_fixed_len seg.
Proof. by destruct seg as [[]|]. Qed.

Lemma am_first_byte rf poll fi e hi :
  0 <= rf < 2 -> 0 <= poll < 2 -> 0 <= fi < 4 -> 0 <= e < 2 -> 0 <= hi < 4 ->
  let b1 := 128 + rf * 64 + poll * 32 + fi * 8 + e * 4 + hi in
  b1 .>> 7 = 1 /\ (b1 .>> 6) .& 0x01 = rf /\ (b1 .>> 5) .& 0x01 = poll /\
  (b1 .>> 3) .& 0x03 = fi /\ (b1 .>> 2) .& 0x01 = e /\ u16 ((b1 .& 0x03) .<< 8) = hi * 256.
Proof.
  intros Hr Hpo Hfi He Hhi b.
  assert (H1 : (b .>> 6) .& 0x01 = (b / 64) mod 2)
    by (rewrite (land_ones_mod _ 1), Z.shiftr_div_pow2; done).
  rewrite H1, field_5_1, field_3_2, field_2_1, field_lo2, Z.shiftr_div_pow2, Z.shiftl_mul_pow2 by lia.
  clear H1. change (2 ^ 7) with 128. change (2 ^ 8) with 256.
  rewrite u16_small by div_lia. subst b. repeat split; div_lia.
Qed.

Lemma am_offset_bytes lsf so : 0 <= lsf < 2 -> 0 <= so < 32768 ->
  let d0 := lsf * 128 + so / 256 in
  (d0 .>> 7) .& 0x01 = lsf /\ so mod 256 + u16 ((d0 .& 0x7F) .<< 8) = so.
Proof.
  intros Hl Hso d.
  assert (H1 : (d .>> 7) .& 0x01 = (d / 128) mod 2)
    by (rewrite (land_ones_mod _ 1), Z.shiftr_div_pow2; done).
  rewrite H1, field_lo7, Z.shiftl_mul_pow2 by lia. clear H1. change (2 ^ 8) with 256.
  rewrite u16_small by div_lia. subst d. split; div_lia.
Qed.

Lemma am_fixed_decode poll fi e sn seg rest :
  0 <= fi < 4 -> 0 <= e < 2 -> sn_ok sn -> seg_ok seg ->
  am_fixed_header (am_fixed poll fi e sn seg ++ rest) = Ok (am_fixed_info poll fi e sn seg).
Proof.
  intros Hf He Hs Ho. unfold sn_ok in Hs.
  assert (Hrf : 0 <= seg_rf seg < 2) by (unfold seg_rf; case_decide; lia).
  assert (Hlsf : 0 <= seg_lsf seg < 2) by (unfold seg_lsf; destruct (default _ _); cbn; lia).
  assert (Hp : 0 <= Z.b2z poll < 2) by (destruct poll; cbn; lia).
  assert (Hh : 0 <= sn / 256 < 4) by div_lia.
  pose proof (am_first_byte _ _ fi e _ Hrf Hp Hf He Hh) as (E1 & E2 & E3 & E4 & E5 & E6).
  pose proof (am_offset_bytes _ _ Hlsf Ho) as [E7 E8].
  unfold am_fixed. set (b1 := 128 + _ + _ + _ + _ + _) in *. clearbody b1. cbv zeta in *.
  unfold am_fixed_header, am_fixed_info.
  rewrite <- app_assoc. cbn [app]. rewrite rd_cons_0, res_ok_bind, E1. cbv zeta.
  change (truth (di_d_c (am_pdu_info0 <| di_d_c := 1 |>))) with true. cbv iota.
  rewrite rd_cons_1, res_ok_bind, E2, E3, E4, E5, E6.
  replace (sn mod 256 + sn / 256 * 256) with sn by (clear -Hs; div_lia).
  destruct seg as [[so lsf]|].
  - cbn [app]. set (d0 := seg_lsf _ * 128 + _) in *. clearbody d0.
    change (rd (b1 :: sn mod 256 :: d0 :: seg_so (Some (so, lsf)) mod 256 :: rest) 2)
      with (Ok (A := Z) d0).
    change (rd (b1 :: sn mod 256 :: d0 :: seg_so (Some (so, lsf)) mod 256 :: rest) 3)
      with (Ok (A := Z) (seg_so (Some (so, lsf)) mod 256)).
    rewrite !res_ok_bind, E7, E8. reflexivity.
  - reflexivity.
Qed.

(** ** Decoding *)

(** Evaluates updates and fields of records of this type. *)
Ltac info_cbv :=
  cbv beta iota zeta delta [update am_info am_fixed_info am_read_lis am_fixed_len
    di_d_c di_rf di_p di_fi di_e di_sn di_lsf di_so di_num_li di_li_list di_hidden_size
    di_payload di_payload_size di_header_size].

Lemma umd_lis_zlen u : zlen (umd_lis u) = zlen (umd_full u).
Proof. unfold umd_lis, zlen. by rewrite length_fmap. Qed.

(** A PDU with at most 32 indicators, whose last segment is not empty. *)
Record am_umd_ok (u : umd) : Prop := {
  am_lis_ok : Forall li_ok (umd_lis u);
  am_lis_num : zlen (umd_full u) <= 32;
  am_last_pos : 0 < zlen (umd_last u);
  am_size_max : zlen (concat (umd_full u)) + zlen (umd_last u) < 32000
}.

Lemma am_encode_zlen u poll sn seg :
  zlen (am_encode u poll sn seg)
  = am_fixed_len seg + li_header_len (zlen (umd_full u)) +
    (zlen (concat (umd_full u)) + zlen (umd_last u)).
Proof.
  unfold am_encode. rewrite !zlen_app, am_fixed_zlen, li_encode_len, umd_lis_zlen. lia.
Qed.

Lemma am_fixed_len_range seg : 2 <= am_fixed_len seg <= 4.
Proof. unfold am_fixed_len, seg_rf. case_decide; lia. Qed.

(** The displacement of the length indicators. *)
Lemma am_fixed_len_rf seg poll fi e sn :
  (if truth (di_rf (am_fixed_info poll fi e sn seg)) then 4 else 2) = am_fixed_len seg.
Proof. by destruct seg as [[]|]. Qed.

Lemma am_info_encode u poll sn seg rest :
  am_umd_ok u -> sn_ok sn -> seg_ok seg ->
  rlc_am_get_data_pdu_infos (am_encode u poll sn seg ++ rest)
    (zlen (am_encode u poll sn seg)) = Ok (0, am_info u poll sn seg).
Proof.
  intros [Hl Hn Hp Hz] Hs Ho. pose proof (am_encode_zlen u poll sn seg) as Hlen.
  set (total := zlen (am_encode u poll sn seg)) in *. clearbody total.
  set (fi := fi_of (umd_starts u) (umd_ends u)).
  set (e := if decide (umd_full u = []) then 0 else 1).
  assert (He : 0 <= e < 2) by (unfold e; case_decide; lia).
  pose proof (fi_of_range (umd_starts u) (umd_ends u)) as Hfi. fold fi in Hfi.
  pose proof (zlen_nonneg (umd_full u)) as Hn0. pose proof (am_fixed_len_range seg) as Hfl.
  pose proof (li_header_len_bound _ Hn0) as Hlh. pose proof (zlen_nonneg (concat (umd_full u))).
  unfold rlc_am_get_data_pdu_infos, am_encode. fold fi e. rewrite <- !app_assoc.
  rewrite am_fixed_decode, res_ok_bind by done.
  change (truth (di_d_c (am_fixed_info poll fi e sn seg))) with true. cbv iota.
  rewrite am_fixed_len_rf. remember 34%nat as fuel eqn:Hfuel.
  change (di_e (am_fixed_info poll fi e sn seg)) with e.
  unfold am_info. fold fi e. unfold am_fixed_info. set (f := am_fixed_len seg) in *.
  set (h := li_header_len (zlen (umd_full u))) in *.
  assert (Hh : h = 0 \/ umd_full u <> []).
  { destruct (decide (umd_full u = [])) as [E|]; [left|by right]. subst h. by rewrite E. }
  subst e. destruct (decide (umd_full u = [])) as [E|E].
  - destruct Hh as [Hh|]; [|done]. clearbody h.
    change (truth 0) with false. cbv iota. rewrite res_ok_bind. cbv beta iota zeta.
    rewrite (umd_encode_nil_lis u E), E in *. cbn [concat] in *.
    change (zlen (@nil Z)) with 0 in *. change (zlen (@nil (list Z))) with 0 in *.
    rewrite (s16_small total) by lia. info_cbv. fold f. rewrite (s16_small (total - f)) by lia.
    rewrite (proj2 (Z.ltb_lt 0 (total - f))) by lia. rewrite s16_small by lia.
    do 2 f_equal. f_equal; lia.
  - change (truth 1) with true. cbv iota.
    destruct (am_li_loop_encode (umd_lis u) fuel (am_fixed poll fi 1 sn seg)
      (concat (umd_full u) ++ umd_last u ++ rest) 0 (am_fixed_info poll fi 1 sn seg))
      as (p & len & H1 & H2); rewrite ?umd_lis_zlen, ?umd_lis_sum; try done; try (cbn; lia).
    { unfold umd_lis. intros E'. by apply fmap_nil_inv in E'. }
    { unfold umd_lis. rewrite length_fmap. unfold zlen in Hn. lia. }
    rewrite umd_lis_zlen, am_fixed_zlen in H1. rewrite umd_lis_zlen, am_fixed_zlen in H2.
    rewrite umd_lis_sum, Z.add_0_l in H1.
    fold h f in H1, H2. unfold am_fixed_info in H1. fold f in H1. rewrite H1, res_ok_bind.
    cbv beta iota. rewrite res_ok_bind. cbv beta iota zeta. rewrite H2.
    rewrite (s16_small total) by lia. info_cbv. fold f. rewrite umd_lis_zlen.
    rewrite (s16_small (total - (f + h))) by lia.
    rewrite (proj2 (Z.ltb_lt (zlen (concat (umd_full u))) (total - (f + h)))) by lia.
    rewrite s16_small by lia. do 2 f_equal. f_equal; lia.
Qed.

(** C23.  Decoding of AM data PDUs.  Of an encoded PDU, whole or a segment, with at most
    32 length indicators [rlc_am_get_data_pdu_infos] finds every field: the poll bit,
    the framing, the sequence number, offset and last segment flag, the indicators,
    where the payload is and its size, and the size of the part of it that has no
    indicator. *)
Theorem am_get_data_pdu_infos_encode u poll sn seg rest :
  am_umd_ok u -> sn_ok sn -> seg_ok seg ->
  rlc_am_get_data_pdu_infos (am_encode u poll sn seg ++ rest)
    (zlen (am_encode u poll sn seg)) = Ok (0, am_info u poll sn seg).
Proof. apply am_info_encode. Qed.
