(* ===== verification/RlcAmReassemblySpec.v ===== *)
(** RLC AM v9.3.0: what the reassembly of PDUs in sequence promises: the SDUs that
    their segments make up. *)
From S2P Require Import Prelude.
From S2P Require Import RlcUmHeader.
From S2P Require Import RlcUmReassemblySpec.
From S2P Require Import RlcAmEntity.
From S2P Require Import RlcAmRx.
From S2P Require Import RlcAmReassembly.
From S2P Require Import RlcAmHeaderSpec.

Local Open Scope Z_scope.

(** ** Reference *)

(** Segments which each end an SDU, [partial] being the beginning of the first. *)
Fixpoint close_sdus (partial : list Z) (full : list (list Z)) : list Z * list (list Z) :=
  match full with
  | [] => (partial, [])
  | s :: full => let '(p, out) := close_sdus [] full in (p, (partial ++ s) :: out)
  end.

(** The SDU left open by a PDU, and the SDUs it completes. *)
Definition pdu_sdus (partial : list Z) (u : umd) : list Z * list (list Z) :=
  let '(p, out) := close_sdus partial (umd_full u) in
  if umd_ends u then ([], out ++ [p ++ umd_last u]) else (p ++ umd_last u, out).

(** The PDU that follows those which left [partial] open, with SDUs of a size RLC
    takes. *)
Record am_follows (partial : list Z) (u : umd) : Prop := {
  follows_starts : umd_starts u = bool_decide (partial = []);
  follows_full : Forall (fun s => 0 < zlen s < 2048) (umd_full u);
  follows_last : 0 < zlen (umd_last u);
  follows_size : match umd_full u with
                 | [] => zlen partial + zlen (umd_last u) <= 9000
                 | s :: _ => zlen partial + zlen s <= 9000 /\ zlen (umd_last u) <= 9000
                 end
}.

(** ** The state *)

Record am_open (e : am_rx) (partial : list Z) : Prop := AmOpen {
  open_block : match output_sdu_in_construction e with
               | None => partial = []
               | Some blk => partial <> [] /\ output_sdu_size_to_write e = zlen partial /\
                   take (length partial) blk = partial
               end;
  open_pool : Forall (eq true) (pool e)
}.

(** What reassembly leaves alone. *)
Definition am_core (e : am_rx) : am_rx :=
  e <| output_sdu_in_construction := None |> <| output_sdu_size_to_write := 0 |>
    <| stat_rx_pdcp_sdu := 0 |> <| stat_rx_pdcp_bytes := 0 |> <| pool := [] |>
    <| delivered := [] |>.

(** A step of reassembly: the SDU open before and after, and what it delivers. *)
Record reassembles (e e' : am_rx) (partial : list Z) (out : list (list Z)) : Prop := {
  reas_open : am_open e' partial;
  reas_out : delivered e' = delivered e ++ out;
  reas_core : am_core e' = am_core e
}.

Lemma reassembles_refl e p : am_open e p -> reassembles e e p [].
Proof. intros H. split; [done|by rewrite app_nil_r|done]. Qed.

Lemma reassembles_trans e e1 e2 p1 p2 o1 o2 :
  reassembles e e1 p1 o1 -> reassembles e1 e2 p2 o2 -> reassembles e e2 p2 (o1 ++ o2).
Proof.
  intros [_ H1 C1] [O2 H2 C2]. split; [done| |congruence]. by rewrite H2, H1, app_assoc.
Qed.

Lemma am_append_ok e p s rest :
  am_open e p -> 0 < zlen s -> zlen p + zlen s <= 9000 ->
  exists e', rlc_am_reassembly (s ++ rest) (zlen s) e = Ok e' /\ reassembles e e' (p ++ s) [].
Proof.
  intros [Hb Hp] Hs Hz. unfold rlc_am_reassembly, RLC_SDU_MAX_SIZE.
  assert (Hblk : exists e1 blk, am_output_block e = Ok e1 /\ am_core e1 = am_core e /\
      delivered e1 = delivered e /\ Forall (eq true) (pool e1) /\
      output_sdu_in_construction e1 = Some blk /\ output_sdu_size_to_write e1 = zlen p /\
      take (length p) blk = p).
  { unfold am_output_block. destruct (output_sdu_in_construction e) as [blk|] eqn:Eo.
    - destruct Hb as (_ & Hsz & Ht). exists e, blk. repeat split; try done.
    - subst p. destruct (pool e) as [|b pl] eqn:Ep.
      + eexists _, []. split; [reflexivity|]. by repeat split.
      + apply Forall_cons in Hp as [<- Hp]. eexists _, []. split; [reflexivity|].
        by repeat split. }
  destruct Hblk as (e1 & blk & -> & Hc & Hd & Hp1 & Eb & Esz & Et).
  rewrite res_ok_bind, Eb, Esz, (proj2 (Z.leb_le _ _)) by lia.
  pose proof (rd_n_app [] s rest) as Hrd. cbn [app] in Hrd.
  change (zlen (@nil Z)) with 0 in Hrd. rewrite Hrd, res_ok_bind.
  eexists. split; [reflexivity|]. pose proof (zlen_nonneg p). rewrite s32_small by lia.
  split; [split|by rewrite app_nil_r|exact Hc]; [|done]. cbn.
  split; [by destruct p, s|]. split; [by rewrite zlen_app|].
  rewrite to_nat_zlen, Et. by rewrite firstn_all.
Qed.

Lemma am_send_ok e p : am_open e p -> p <> [] ->
  exists e', rlc_am_send_sdu e = Ok e' /\ reassembles e e' [] [p].
Proof.
  intros [Hb Hp] Hne. unfold rlc_am_send_sdu.
  destruct (output_sdu_in_construction e) as [blk|]; [|done]. destruct Hb as (_ & Hs & Ht).
  assert (0 < zlen p) by (destruct p; [done|]; rewrite zlen_cons; pose proof (zlen_nonneg p); lia).
  rewrite Hs, (proj2 (Z.ltb_lt _ _)) by done. eexists. split; [reflexivity|].
  split; [split|..]; try done. cbn. by rewrite to_nat_zlen, Ht.
Qed.

Lemma am_send_none e : am_open e [] -> rlc_am_send_sdu e = Ok e.
Proof.
  intros [Hb _]. unfold rlc_am_send_sdu. by destruct (output_sdu_in_construction e); [destruct Hb|].
Qed.

Lemma am_append_send_ok e p s rest :
  am_open e p -> 0 < zlen s -> zlen p + zlen s <= 9000 ->
  exists e', am_append_send (s ++ rest) (zlen s) e = Ok e' /\ reassembles e e' [] [p ++ s].
Proof.
  intros Ho Hs Hz. unfold am_append_send.
  destruct (am_append_ok e p s rest Ho Hs Hz) as (e1 & -> & R1). rewrite res_ok_bind.
  destruct (am_send_ok e1 (p ++ s)) as (e2 & -> & R2); [apply R1|by destruct p, s|].
  exists e2. split; [done|]. by apply (reassembles_trans _ e1 _ (p ++ s) [] [] _).
Qed.

Lemma am_lis_ok_full full : forall e p rest,
  am_open e p -> Forall (fun s => 0 < zlen s < 2048) full ->
  match full with [] => True | s :: _ => zlen p + zlen s <= 9000 end ->
  exists e', am_reassemble_lis ((fun s => zlen s) <$> full) (concat full ++ rest) e = Ok (e', rest) /\
    reassembles e e' (close_sdus p full).1 (close_sdus p full).2.
Proof.
  induction full as [|s full IH]; intros e p rest Ho Hf Hz; cbn [fmap list_fmap am_reassemble_lis].
  { exists e. split; [done|]. by apply reassembles_refl. }
  apply Forall_cons in Hf as [Hs Hf]. cbn [concat]. rewrite <- app_assoc.
  destruct (am_append_send_ok e p s (concat full ++ rest)) as (e1 & -> & R1); [done|lia|done|].
  rewrite res_ok_bind, to_nat_zlen, drop_app_length.
  destruct (IH e1 [] rest) as (e2 & -> & R2); [apply R1|done| |].
  { destruct Hf as [|s' ? Hs' _]; [done|]. change (zlen (@nil Z)) with 0. lia. }
  exists e2. split; [done|]. cbn [close_sdus]. destruct (close_sdus [] full) as [p' out].
  exact (reassembles_trans _ _ _ _ _ _ _ R1 R2).
Qed.

(** The PDU of a block. *)
Lemma am_payload u poll sn seg rest :
  drop (Z.to_nat (di_payload (am_info u poll sn seg))) (am_encode u poll sn seg ++ rest)
  = concat (umd_full u) ++ umd_last u ++ rest.
Proof.
  unfold am_encode. rewrite <- !app_assoc, app_assoc.
  replace (di_payload (am_info u poll sn seg)) with
    (zlen (am_fixed poll (fi_of (umd_starts u) (umd_ends u))
       (if decide (umd_full u = []) then 0 else 1) sn seg ++ li_encode (umd_lis u))).
  - by rewrite to_nat_zlen, drop_app_length.
  - rewrite zlen_app, am_fixed_zlen, li_encode_len, umd_lis_zlen. by info_cbv.
Qed.

Lemma reassemble_pdu_ok e p u poll sn seg rest b :
  am_open e p -> am_follows p u ->
  exists e', rlc_am_reassemble_pdu (AmRxPdu (am_info u poll sn seg) b (am_encode u poll sn seg ++ rest)) e
    = Ok e' /\ reassembles e e' (pdu_sdus p u).1 (pdu_sdus p u).2.
Proof.
  intros Ho [Hst Hf Hl Hz]. unfold rlc_am_reassemble_pdu. cbn [pdu_info pdu_bytes].
  rewrite am_payload.
  change (di_fi (am_info u poll sn seg)) with (fi_of (umd_starts u) (umd_ends u)).
  change (di_li_list (am_info u poll sn seg)) with (umd_lis u).
  change (di_hidden_size (am_info u poll sn seg)) with (zlen (umd_last u)).
  change (di_payload_size (am_info u poll sn seg))
    with (zlen (concat (umd_full u)) + zlen (umd_last u)).
  change (di_e (am_info u poll sn seg)) with (if decide (umd_full u = []) then 0 else 1).
  assert (Hsend : umd_starts u = true -> rlc_am_send_sdu e = Ok e).
  { intros E. rewrite E in Hst. symmetry in Hst. apply bool_decide_eq_true in Hst as ->.
    by apply am_send_none. }
  unfold pdu_sdus. destruct (decide (umd_full u = [])) as [E|E].
  - rewrite E in *. change (0 =? 0) with true. cbn [concat close_sdus app].
    change (zlen (@nil Z)) with 0. rewrite Z.add_0_l. unfold am_reassemble_no_li.
    destruct (am_append_ok e p (umd_last u) rest Ho Hl Hz) as (e1 & E1 & R1).
    destruct (am_append_send_ok e p (umd_last u) rest Ho Hl Hz) as (e2 & E2 & R2).
    destruct (umd_starts u), (umd_ends u); cbn [fi_of Z.add Z.eqb Pos.eqb];
      rewrite ?Hsend, ?res_ok_bind by done; eauto.
  - change (1 =? 0) with false. cbv iota. unfold am_reassemble_li.
    assert (Hpre : (if (fi_of (umd_starts u) (umd_ends u) =? 0) || (fi_of (umd_starts u) (umd_ends u) =? 1)
      then rlc_am_send_sdu e else Ok e) = Ok e)
      by (destruct (umd_starts u), (umd_ends u); cbn; auto).
    rewrite Hpre, res_ok_bind.
    destruct (am_lis_ok_full (umd_full u) e p (umd_last u ++ rest)) as (e1 & E1 & R1);
      [done|done|destruct (umd_full u); [done|lia]|].
    unfold umd_lis. rewrite E1, res_ok_bind, (proj2 (Z.ltb_lt _ _)) by done.
    set (p1 := (close_sdus p (umd_full u)).1) in *.
    assert (Hp1 : p1 = []).
    { subst p1. destruct (umd_full u) as [|s full]; [done|]. clear. cbn [close_sdus].
      revert p s. induction full as [|s' full IH]; intros p s; [done|].
      cbn [close_sdus] in *. specialize (IH [] s'). by destruct (close_sdus [] full). }
    assert (Hz1 : zlen p1 + zlen (umd_last u) <= 9000)
      by (rewrite Hp1; change (zlen (@nil Z)) with 0; destruct (umd_full u); [done|lia]).
    destruct (am_append_ok e1 p1 (umd_last u) rest) as (e2 & E2 & R2); [apply R1|done|done|].
    destruct (am_append_send_ok e1 p1 (umd_last u) rest) as (e3 & E3 & R3); [apply R1|done|done|].
    pose proof (reassembles_trans _ _ _ _ _ _ _ R1 R2) as R12.
    pose proof (reassembles_trans _ _ _ _ _ _ _ R1 R3) as R13. rewrite app_nil_r in R12.
    destruct (close_sdus p (umd_full u)) as [q out]. cbn [fst snd] in *. subst p1.
    destruct (umd_starts u), (umd_ends u); cbn; eauto.
Qed.
