(* ===== verification/RlcAmReceiverSpec.v ===== *)
(** RLC AM v9.3.0: what the receiver promises of a stream of PDUs: those that arrive,
    in any order and more than once, are delivered in sequence, without loss and once. *)
From S2P Require Import Prelude.
From S2P Require Import RlcUmHeader.
From S2P Require Import RlcAmEntity.
From S2P Require Import RlcAmSn.
From S2P Require Import RlcAmRx.
From S2P Require Import RlcAmReassembly.
From S2P Require Import RlcAmRxList.
From S2P Require Import RlcAmReceiver.
From S2P Require Import RlcAmRxListSpec.
From S2P Require Import RlcAmHeaderSpec.
From S2P Require Import RlcAmReassemblySpec.
From stdpp Require Import sorting.

Local Open Scope Z_scope.

(** ** Numbers that count without wrapping *)

Lemma mod_sn_ok n : sn_ok (n mod 1024).
Proof. unfold sn_ok. div_lia. Qed.

Lemma dist_count r n : r <= n < r + 1024 -> dist (r mod 1024) (n mod 1024) = n - r.
Proof. unfold dist. intros. div_lia. Qed.

Lemma dist_behind r n : r - 512 <= n < r -> dist (r mod 1024) (n mod 1024) = n - r + 1024.
Proof. unfold dist. intros. div_lia. Qed.

Lemma mod_inj r m n : r <= m < r + 1024 -> r <= n < r + 1024 -> m mod 1024 = n mod 1024 -> m = n.
Proof. intros. div_lia. Qed.

Lemma sn_after_mod n : sn_after (n mod 1024) = (n + 1) mod 1024.
Proof. rewrite next_sn_mod. div_lia. Qed.

(** The tests of the code on numbers so counted. *)
Lemma rx_shift_dist e sn : sn_ok (vr_r e) -> sn_ok sn -> rx_shift e sn = dist (vr_r e) sn.
Proof.
  unfold rx_shift, dist, sn_ok, RLC_AM_SN_MODULO, wrapU. intros.
  rewrite Z.rem_mod_nonneg by div_lia. div_lia.
Qed.

Lemma in_rx_window_dist e sn : sn_ok (vr_r e) -> vr_mr e = (vr_r e + 512) mod 1024 -> sn_ok sn ->
  rlc_am_in_rx_window e sn = if dist (vr_r e) sn <? 512 then 1 else 0.
Proof.
  intros Hr Hm Hs. pose proof (mod_sn_ok (vr_r e + 512)) as Hmr. rewrite <- Hm in Hmr.
  unfold rlc_am_in_rx_window, RLC_AM_SN_MODULO.
  rewrite s16_small, (proj2 (Z.leb_gt _ _)) by (unfold sn_ok in *; lia).
  rewrite !rx_shift_dist by done. cbv zeta. rewrite Hm.
  replace (dist (vr_r e) ((vr_r e + 512) mod 1024)) with 512 by (unfold dist; div_lia).
  rewrite (proj2 (Z.leb_le _ _)) by apply dist_range. done.
Qed.

Lemma gte_vr_h_dist e sn : sn_ok (vr_r e) -> sn_ok (vr_h e) -> sn_ok sn ->
  rlc_am_sn_gte_vr_h e sn = if dist (vr_r e) (vr_h e) <=? dist (vr_r e) sn then 1 else 0.
Proof.
  intros Hr Hh Hs. unfold rlc_am_sn_gte_vr_h, RLC_AM_SN_MODULO.
  rewrite s16_small, (proj2 (Z.leb_gt _ _)) by (unfold sn_ok in *; lia).
  by rewrite !rx_shift_dist.
Qed.

(** ** The stream *)

Section stream.
(** The PDUs, and how many of them there are. *)
Context (us : Z -> umd) (sent : Z).

(** The SDU open after the first [k] PDUs, and those complete. *)
Fixpoint sdus_upto (k : nat) : list Z * list (list Z) :=
  match k with
  | O => ([], [])
  | S k => let '(p, out) := sdus_upto k in
           let '(p', o) := pdu_sdus p (us (Z.of_nat k)) in (p', out ++ o)
  end.

(** What a transmitter sends: PDU [n] continues where PDU [n - 1] has left. *)
Record am_stream : Prop := {
  stream_ok n : 0 <= n < sent -> am_umd_ok (us n);
  stream_follows k : Z.of_nat k < sent -> am_follows (sdus_upto k).1 (us (Z.of_nat k))
}.
Hypothesis Hstream : am_stream.

(** PDU [n], the poll bit set or not: it may differ when the PDU is sent again. *)
Definition pdu_of (poll : bool) (n : Z) : list Z := am_encode (us n) poll (n mod 1024) None.
Definition info_of (poll : bool) (n : Z) : am_pdu_info := am_info (us n) poll (n mod 1024) None.

Definition block_of (poll : bool) (n : Z) (rest : list Z) (flag : bool) : am_rx_pdu :=
  AmRxPdu (info_of poll n) flag (pdu_of poll n ++ rest).

(** The block [c] holds the PDU [n], whole. *)
Record holds (c : am_rx_pdu) (n : Z) : Prop := {
  holds_sent : 0 <= n < sent;
  holds_block : exists poll rest, c = block_of poll n rest true
}.

Lemma holds_sn c n : holds c n -> rx_sn c = n mod 1024.
Proof. by intros [_ (? & ? & ->)]. Qed.

Lemma holds_flag c n : holds c n -> all_segments_received c = true.
Proof. by intros [_ (? & ? & ->)]. Qed.

Lemma info_of_wf poll n : 0 <= n < sent -> info_wf (info_of poll n).
Proof.
  intros Hn. destruct (stream_ok Hstream n Hn) as [_ _ Hl _]. split.
  - apply mod_sn_ok.
  - by left.
  - change (0 < zlen (concat (umd_full (us n))) + zlen (umd_last (us n))).
    pose proof (zlen_nonneg (concat (umd_full (us n)))). lia.
Qed.

Lemma holds_rf c n : holds c n -> di_rf (pdu_info c) = 0.
Proof. by intros [_ (? & ? & ->)]. Qed.

Lemma no_seg_before (c d : am_pdu_info) : di_rf c = 0 -> ~ seg_before c d.
Proof. unfold seg_before. lia. Qed.

(** ** The buffer *)

(** The blocks of [l] hold the PDUs [ns], in the window from [r] on. *)
Record keeps (r : Z) (l : list am_rx_pdu) (ns : list Z) : Prop := {
  keeps_all : Forall2 holds l ns;
  keeps_sorted : StronglySorted Z.lt ns;
  keeps_window : Forall (fun n => r <= n < r + 512) ns
}.

Lemma keeps_buffer_ok r l ns : 0 <= r -> keeps r l ns -> buffer_ok (r mod 1024) l.
Proof.
  intros Hr [Ha Hs Hw]. induction Ha as [|c n l ns Hc Ha IH]; [by repeat constructor|].
  apply StronglySorted_inv in Hs as [Hs Hn]. apply Forall_cons in Hw as [Hwn Hw].
  destruct (IH Hs Hw) as [Hb1 Hb2 Hb3]. pose proof (holds_sn c n Hc) as Hsn.
  split; constructor; try done.
  - destruct Hc as [Hsent (? & ? & ->)]. by apply info_of_wf.
  - rewrite Forall_forall. intros d Hd. apply list_elem_of_lookup in Hd as [i Hi].
    destruct (Forall2_lookup_l _ _ _ _ _ Ha Hi) as (m & Hm & Hdm).
    left. rewrite Hsn, (holds_sn d m Hdm). rewrite Forall_forall in Hn, Hw.
    apply list_elem_of_lookup_2 in Hm. specialize (Hn m Hm). specialize (Hw m Hm).
    cbv beta in Hw. rewrite !dist_count by lia. lia.
  - rewrite Hsn, dist_count by lia. lia.
Qed.

Lemma keeps_elem r l ns c : keeps r l ns -> c ∈ l -> exists n, n ∈ ns /\ holds c n /\ r <= n < r + 512.
Proof.
  intros [Ha _ Hw] Hc. apply list_elem_of_lookup in Hc as [i Hi].
  destruct (Forall2_lookup_l _ _ _ _ _ Ha Hi) as (n & Hn & Hcn). exists n.
  apply list_elem_of_lookup_2 in Hn. rewrite Forall_forall in Hw. auto.
Qed.

Lemma keeps_split r a b ns : keeps r (a ++ b) ns ->
  exists na nb, ns = na ++ nb /\ keeps r a na /\ keeps r b nb.
Proof.
  intros [Ha Hs Hw]. apply Forall2_app_inv_l in Ha as (na & nb & H1 & H2 & ->).
  apply sorted_app in Hs as (Hs1 & Hs2 & _). apply Forall_app in Hw as [Hw1 Hw2].
  exists na, nb. by repeat split.
Qed.

Lemma keeps_before r c d m n : holds c m -> holds d n -> r <= m < r + 512 -> r <= n < r + 512 ->
  before (dist (r mod 1024)) c d -> m < n.
Proof.
  intros Hc Hd Hm Hn [H|[_ H]].
  - rewrite (holds_sn _ _ Hc), (holds_sn _ _ Hd), !dist_count in H by lia. lia.
  - exfalso. revert H. apply no_seg_before. by eapply holds_rf.
Qed.

(** The PDU [n] between the others. *)
Lemma keeps_insert r a b na nb tb n :
  keeps r (a ++ b) (na ++ nb) -> keeps r a na -> keeps r b nb -> holds tb n -> r <= n < r + 512 ->
  Forall (fun c => before (dist (r mod 1024)) c tb) a ->
  Forall (before (dist (r mod 1024)) tb) b -> keeps r (a ++ tb :: b) (na ++ n :: nb).
Proof.
  intros [_ Hs Hw] [Ha _ Hwa] [Hb _ Hwb] Htb Hn Hat Htb2. split.
  - apply Forall2_app; [done|]. by constructor.
  - apply strongly_sorted_insert; [done|..]; apply Forall_forall; intros m Hm;
      apply list_elem_of_lookup in Hm as [i Hi].
    + destruct (Forall2_lookup_r _ _ _ _ _ Ha Hi) as (c & Hc & Hcm).
      rewrite Forall_forall in Hat. rewrite Forall_forall in Hwa. apply list_elem_of_lookup_2 in Hi, Hc.
      apply (keeps_before r c tb); auto.
    + destruct (Forall2_lookup_r _ _ _ _ _ Hb Hi) as (c & Hc & Hcm).
      rewrite Forall_forall in Htb2. rewrite Forall_forall in Hwb. apply list_elem_of_lookup_2 in Hi, Hc.
      apply (keeps_before r tb c); auto.
  - apply Forall_app in Hw as [Hw1 Hw2]. apply Forall_app. split; [done|]. by constructor.
Qed.

(** ** Delivery *)

(** The numbers in sequence from [r] on: the first that is missing, and what remains. *)
Fixpoint advance (r : Z) (ns : list Z) : Z * list Z :=
  match ns with
  | n :: ns' => if n =? r then advance (r + 1) ns' else (r, ns)
  | [] => (r, [])
  end.

Lemma advance_spec r ns : Forall (Z.le r) ns -> StronglySorted Z.lt ns ->
  let '(r', ns') := advance r ns in
  r <= r' /\ ns = seqZ r (r' - r) ++ ns' /\ Forall (Z.lt r') ns' /\ StronglySorted Z.lt ns'.
Proof.
  revert r. induction ns as [|n ns IH]; intros r Hr Hs; cbn [advance].
  { by rewrite Z.sub_diag. }
  apply Forall_cons in Hr as [Hn Hr]. pose proof Hs as [Hs' Hlt]%StronglySorted_inv.
  destruct (Z.eqb_spec n r) as [->|Hne].
  - specialize (IH (r + 1)). destruct (advance (r + 1) ns) as [r' ns'].
    destruct IH as (H1 & H2 & H3 & H4); [|done|].
    + eapply Forall_impl; [exact Hlt|]. cbv beta. lia.
    + split; [lia|]. split; [|done].
      rewrite H2. rewrite (seqZ_cons r (r' - r)) by lia. cbn [app].
      replace (Z.succ r) with (r + 1) by lia. by replace (Z.pred (r' - r)) with (r' - (r + 1)) by lia.
  - rewrite Z.sub_diag. split; [lia|]. split; [done|]. split; [|done].
    constructor; [lia|]. eapply Forall_impl; [exact Hlt|]. cbv beta. lia.
Qed.

Lemma vr_r_walk_advance l ns : Forall2 holds l ns -> forall r,
  Forall (fun n => r <= n < r + 1000) ns -> StronglySorted Z.lt ns ->
  vr_r_walk (r mod 1024) l = (advance r ns).1 mod 1024.
Proof.
  induction 1 as [|c n l ns Hc Ha IH]; intros r Hw Hs; [done|].
  apply Forall_cons in Hw as [Hn Hw]. apply StronglySorted_inv in Hs as [Hs Hlt].
  cbn [vr_r_walk advance]. rewrite (holds_flag c n Hc), (holds_sn c n Hc), (holds_rf c n Hc).
  change (0 =? 1) with false. cbn [negb orb]. destruct (Z.eqb_spec n r) as [->|Hne].
  - rewrite Z.eqb_refl. cbn [negb]. rewrite sn_after_mod. apply IH; [|done].
    rewrite Forall_forall in Hlt, Hw |- *. intros m Hm. specialize (Hlt m Hm). specialize (Hw m Hm).
    cbv beta in Hw. lia.
  - destruct (Z.eqb_spec (r mod 1024) (n mod 1024)) as [E|_]; [|done].
    exfalso. apply Hne. symmetry. apply (mod_inj r); lia.
Qed.

(** All of the first [r] PDUs have been reassembled. *)
Definition delivers (e : am_rx) (r : Z) : Prop :=
  am_open e (sdus_upto (Z.to_nat r)).1 /\ delivered e = (sdus_upto (Z.to_nat r)).2.

Lemma deliver_one e c r : 0 <= r -> holds c r -> delivers e r ->
  exists e', rlc_am_reassemble_pdu c e = Ok e' /\ delivers e' (r + 1) /\ am_core e' = am_core e.
Proof.
  intros Hr [Hsent (poll & rest & ->)] [Ho Hd].
  pose proof (stream_follows Hstream (Z.to_nat r)) as Hfo. rewrite Z2Nat.id in Hfo by done.
  specialize (Hfo ltac:(lia)).
  destruct (reassemble_pdu_ok e _ (us r) poll (r mod 1024) None rest true Ho Hfo)
    as (e' & He & [Ho' Hd' Hc]).
  exists e'. split; [exact He|]. split; [|done]. unfold delivers.
  replace (Z.to_nat (r + 1)) with (Datatypes.S (Z.to_nat r)) by lia. cbn [sdus_upto].
  rewrite Z2Nat.id by done. rewrite Hd in Hd'.
  destruct (sdus_upto (Z.to_nat r)) as [p out]. cbn [fst snd] in *.
  by destruct (pdu_sdus p (us r)).
Qed.

Lemma goes_on_next c d n m : holds c n -> holds d m -> n < m < n + 1000 ->
  goes_on c d = (m =? n + 1).
Proof.
  intros Hc Hd Hm. unfold goes_on. rewrite (holds_sn c n Hc), (holds_sn d m Hd), sn_after_mod.
  assert (E : m mod 1024 =? n mod 1024 = false).
  { apply Z.eqb_neq. intros E. pose proof (mod_inj n m n). lia. }
  rewrite E. cbn [andb]. rewrite orb_false_r. apply Bool.eq_iff_eq_true. rewrite !Z.eqb_eq.
  split; [|by intros ->]. intros H. apply (mod_inj n); [lia..|done].
Qed.

Lemma reassemble_advance l ns : Forall2 holds l ns -> forall c r e, 0 <= r ->
  holds c r -> Forall (fun n => r < n < r + 1000) ns -> StronglySorted Z.lt ns -> delivers e r ->
  exists e' l', reassemble_buffer (c :: l) e = Ok (e', l') /\
    delivers e' (advance (r + 1) ns).1 /\ Forall2 holds l' (advance (r + 1) ns).2 /\
    am_core e' = am_core e.
Proof.
  induction 1 as [|d n l ns Hd Ha IH]; intros c r e Hr Hc Hw Hs He; cbn [reassemble_buffer advance];
    rewrite (holds_flag c r Hc); destruct (deliver_one e c r Hr Hc He) as (e1 & -> & He1 & Hc1);
    rewrite res_ok_bind.
  - exists e1, []. split; [done|]. split; [done|]. split; [constructor|done].
  - apply Forall_cons in Hw as [Hn Hw]. pose proof Hs as [Hs' Hlt]%StronglySorted_inv.
    rewrite (goes_on_next c d r n) by done. destruct (Z.eqb_spec n (r + 1)) as [->|Hne].
    + destruct (IH d (r + 1) e1) as (e' & l' & H1 & H2 & H3 & H4); try done; [lia|..].
      { rewrite Forall_forall in Hlt, Hw |- *. intros m Hm. specialize (Hlt m Hm). specialize (Hw m Hm).
        cbv beta in Hw. lia. }
      exists e', l'. split; [exact H1|]. split; [done|]. split; [done|congruence].
    + exists e1, (d :: l). split; [done|]. split; [done|]. split; [by constructor|done].
Qed.

(** ** The state after some arrivals *)

(** [r] is the first of the numbers that has not arrived. *)
Definition first_missing (got : list Z) (r : Z) : Prop :=
  0 <= r /\ r ∉ got /\ forall n, 0 <= n < r -> n ∈ got.

(** What the receiver knows when the PDUs [got] have arrived: VR(R) is the first one
    missing, VR(H) follows the highest, the buffer holds those from VR(R) on, and all
    before have been delivered. *)
Record rx_rel (got : list Z) (r h : Z) (e : am_rx) : Prop := RxRel {
  rel_missing : first_missing got r;
  rel_r : vr_r e = r mod 1024;
  rel_mr : vr_mr e = (r + 512) mod 1024;
  rel_h : vr_h e = h mod 1024;
  rel_range : r <= h <= r + 512;
  rel_below : Forall (fun n => n < h) got;
  rel_high : h = r \/ h - 1 ∈ got;
  rel_buffer : exists ns, keeps r (receiver_buffer e) ns /\
                 forall n, n ∈ ns <-> n ∈ got /\ r <= n;
  rel_delivers : delivers e r
}.

(** The fields that matter. *)
Record same_rx (e e' : am_rx) : Prop := SameRx {
  sr_buffer : receiver_buffer e' = receiver_buffer e;
  sr_r : vr_r e' = vr_r e;
  sr_mr : vr_mr e' = vr_mr e;
  sr_h : vr_h e' = vr_h e;
  sr_block : output_sdu_in_construction e' = output_sdu_in_construction e;
  sr_size : output_sdu_size_to_write e' = output_sdu_size_to_write e;
  sr_pool : pool e' = pool e;
  sr_delivered : delivered e' = delivered e
}.

Lemma rel_same got r h e e' : same_rx e e' -> rx_rel got r h e -> rx_rel got r h e'.
Proof.
  intros [E1 E2 E3 E4 E5 E6 E7 E8] [H1 H2 H3 H4 H5 H6 H7 H8 [[H9 H10] H11]].
  split; try congruence; [by rewrite E1|]. split; [|congruence]. split; by rewrite ?E5, ?E6, ?E7.
Qed.

Lemma same_trans e e1 e2 : same_rx e e1 -> same_rx e1 e2 -> same_rx e e2.
Proof. intros [] []. split; congruence. Qed.

Lemma same_reordering e frame sn : same_rx e (update_reordering e frame sn).
Proof.
  unfold update_reordering. cbv zeta. repeat case_match; by split.
Qed.

(** A PDU that has arrived before changes nothing. *)
Lemma rel_again got r h e n : rx_rel got r h e -> n ∈ got -> rx_rel (n :: got) r h e.
Proof.
  intros [[Hr0 [Hr Hall]] H2 H3 H4 H5 H6 H7 (ns & Hk & Hns) H9] Hn.
  rewrite Forall_forall in H6. split; try done.
  - split; [done|]. split; [set_solver|]. intros m Hm. apply list_elem_of_further. auto.
  - constructor; [auto|]. by apply Forall_forall.
  - destruct H7; [by left|right; set_solver].
  - exists ns. split; [done|]. set_solver.
Qed.

(** The one place where the code misplaces a PDU. *)
Definition front (got : list Z) (r n : Z) : Prop :=
  512 <= r mod 1024 /\ n mod 1024 < r mod 1024 /\
  (exists m, m ∈ got /\ r <= m) /\ forall m, m ∈ got -> r <= m -> n < m.

(** [n] arrives within half the numbers of the first one missing. *)
Definition timely (got : list Z) (n : Z) : Prop :=
  0 <= n < sent /\ forall r, first_missing got r -> r - 512 <= n < r + 512 /\ ~ front got r n.

Lemma block_holds poll n rest : 0 <= n < sent -> holds (block_of poll n rest true) n.
Proof. split; [done|]. by exists poll, rest. Qed.

Lemma no_clash_whole tb l : di_rf (pdu_info tb) = 0 -> no_overlap tb l.
Proof. intros H. apply Forall_forall. auto. Qed.

Lemma front_in_front got r h e poll n rest flag : 0 <= n < sent ->
  rx_rel got r h e -> r <= n < r + 512 -> in_front e (block_of poll n rest flag) -> front got r n.
Proof.
  intros Hsn [[Hr0 _] Hr Hmr _ _ _ _ (ns & Hk & Hns) _] Hn (H1 & H2 & Hne & Hall).
  change (rx_sn (block_of poll n rest flag)) with (n mod 1024) in H2. rewrite Hr in *. rewrite Hmr in H1.
  split; [revert H1; div_lia|]. split; [done|]. split.
  - destruct (receiver_buffer e) as [|c l]; [done|].
    destruct (keeps_elem r _ _ c Hk) as (m & Hm & _); [set_solver|]. exists m. by apply Hns.
  - intros m Hm Hrm. destruct Hk as [Ha Hs Hw].
    assert (Hmn : m ∈ ns) by by apply Hns. pose proof Hmn as [i Hi]%list_elem_of_lookup.
    destruct (Forall2_lookup_r _ _ _ _ _ Ha Hi) as (c & Hc & Hcm).
    apply list_elem_of_lookup_2 in Hc. rewrite Forall_forall in Hall. rewrite Forall_forall in Hw.
    apply (keeps_before r (block_of poll n rest true) c); auto; [by apply block_holds|].
    exact (Hall c Hc).
Qed.

(** Insertion of a PDU of the window: it is there, or it is placed. *)
Lemma insert_step got r h e poll n rest : n < sent ->
  rx_rel got r h e -> r <= n < r + 512 -> ~ front got r n ->
  let tb := block_of poll n rest false in
  rlc_am_rx_list_insert_pdu e tb = None /\ n ∈ got \/
  n ∉ got /\ exists a b na nb,
    rlc_am_rx_list_insert_pdu e tb = Some (e <| receiver_buffer := a ++ tb :: b |>, length a) /\
    keeps r (a ++ block_of poll n rest true :: b) (na ++ n :: nb) /\ length a = length na /\
    forall m, m ∈ na ++ nb <-> m ∈ got /\ r <= m.
Proof.
  intros Hsn Hrel Hn Hfr tb. pose proof Hrel as [[Hr0 _] Hr Hmr _ _ _ _ (ns & Hk & Hns) _].
  pose proof (keeps_buffer_ok r _ ns Hr0 Hk) as Hb.
  destruct (insert_pdu_inserted e tb) as (res & Hres & Hins).
  - rewrite Hr. apply mod_sn_ok.
  - rewrite Hmr, Hr. div_lia.
  - by rewrite Hr.
  - apply info_of_wf. lia.
  - change (rx_sn tb) with (n mod 1024). rewrite Hr, dist_count by lia. lia.
  - split; [|intros _; by apply no_clash_whole]. intros Hin. apply Hfr.
    eapply front_in_front; [|done..]. lia.
  - rewrite Hins, Hr in *. destruct res as [[l' i]|].
    + destruct Hres as (a & b & E & -> & -> & Ha & Hbb). right. rewrite E in Hk, Hb.
      destruct (keeps_split r a b ns Hk) as (na & nb & -> & Hka & Hkb). split.
      * intros Hg. assert (Hnn : n ∈ na ++ nb) by (apply Hns; split; [done|lia]).
        apply elem_of_app in Hnn as [Hnn|Hnn]; apply list_elem_of_lookup in Hnn as [j Hj].
        -- destruct (Forall2_lookup_r _ _ _ _ _ (keeps_all _ _ _ Hka) Hj) as (c & Hc & Hcn).
           apply list_elem_of_lookup_2 in Hc. rewrite Forall_forall in Ha. specialize (Ha c Hc).
           pose proof (keeps_before r c (block_of poll n rest true) n n Hcn (block_holds poll n rest ltac:(lia)) Hn Hn Ha). lia.
        -- destruct (Forall2_lookup_r _ _ _ _ _ (keeps_all _ _ _ Hkb) Hj) as (c & Hc & Hcn).
           apply list_elem_of_lookup_2 in Hc. rewrite Forall_forall in Hbb. specialize (Hbb c Hc).
           pose proof (keeps_before r (block_of poll n rest true) c n n (block_holds poll n rest ltac:(lia)) Hcn Hn Hn Hbb). lia.
      * exists a, b, na, nb. split; [done|]. split; [|split; [|done]].
        -- apply keeps_insert; try done. apply block_holds. lia.
        -- destruct Hka as [Hka _ _]. by apply Forall2_length in Hka.
    + left. split; [done|]. destruct Hres as (c & Hc & Hcl & _).
      destruct (keeps_elem r _ ns c Hk Hc) as (m & Hm & Hcm & Hmr').
      change (di_sn (pdu_info tb)) with (n mod 1024) in Hcl.
      pose proof (holds_sn c m Hcm) as Hs. unfold rx_sn in Hs. rewrite Hs in Hcl.
      rewrite (mod_inj r n m) by (done || lia). by apply Hns.
Qed.

Lemma check_whole a tb b : di_rf (pdu_info tb) = 0 ->
  rlc_am_rx_check_all_byte_segments (length a) (a ++ tb :: b)
  = a ++ (tb <| all_segments_received := true |>) :: b.
Proof.
  intros H. unfold rlc_am_rx_check_all_byte_segments. rewrite list_lookup_middle by done.
  rewrite H. change (0 =? 0) with true. cbv iota.
  by rewrite insert_app_r_alt, Nat.sub_diag by lia.
Qed.

(** VR(R), then VR(MR). *)
Definition advanced_rx (e : am_rx) : am_rx :=
  let e := rlc_am_rx_update_vr_r e 0 in
  e <| vr_mr := Z.land (vr_r e + RLC_AM_WINDOW_SIZE) RLC_AM_SN_MASK |>.

Lemma core_fields e e' : am_core e' = am_core e ->
  vr_r e' = vr_r e /\ vr_mr e' = vr_mr e /\ vr_h e' = vr_h e.
Proof.
  intros H. split; [exact (f_equal vr_r H)|]. split; [exact (f_equal vr_mr H)|exact (f_equal vr_h H)].
Qed.

(** The first PDU missing is in the buffer. *)
Lemma fill_step r e nb : 0 <= r -> vr_r e = r mod 1024 ->
  keeps r (receiver_buffer e) (r :: nb) -> delivers e r ->
  let r' := (advance (r + 1) nb).1 in
  exists e', rlc_am_rx_list_reassemble_rlc_sdus (advanced_rx e) = Ok e' /\
    vr_r e' = r' mod 1024 /\ vr_mr e' = (r' + 512) mod 1024 /\ vr_h e' = vr_h e /\
    Forall2 holds (receiver_buffer e') (advance (r + 1) nb).2 /\ delivers e' r'.
Proof.
  intros Hr0 Hr [Ha Hs Hw] Hdel r'.
  assert (Hw1 : Forall (fun m => r <= m < r + 1000) (r :: nb)).
  { eapply Forall_impl; [exact Hw|]. cbv beta. lia. }
  pose proof (vr_r_walk_advance _ _ Ha r Hw1 Hs) as Hwalk.
  cbn [advance] in Hwalk. rewrite Z.eqb_refl in Hwalk. fold r' in Hwalk.
  assert (Hv : vr_r (advanced_rx e) = r' mod 1024).
  { unfold advanced_rx, rlc_am_rx_update_vr_r, update. cbn [vr_r drop]. by rewrite Hr. }
  assert (Hm : vr_mr (advanced_rx e) = (r' + 512) mod 1024).
  { unfold advanced_rx. cbv zeta. unfold update at 1. cbn [vr_mr].
    change (vr_r (rlc_am_rx_update_vr_r e 0)) with (vr_r (advanced_rx e)). rewrite Hv.
    rewrite (land_ones_mod _ 10) by lia. change (2 ^ 10) with 1024. unfold RLC_AM_WINDOW_SIZE. div_lia. }
  unfold rlc_am_rx_list_reassemble_rlc_sdus.
  change (receiver_buffer (advanced_rx e)) with (receiver_buffer e).
  inversion Ha as [|c ? l ? Hc Hl El]. subst.
  pose proof Hs as [Hs' Hlt]%StronglySorted_inv. apply Forall_cons in Hw as [_ Hw].
  assert (Hw2 : Forall (fun m => r < m < r + 1000) nb).
  { rewrite Forall_forall in Hlt, Hw |- *. intros m Hmm. specialize (Hlt m Hmm).
    specialize (Hw m Hmm). cbv beta in Hw. lia. }
  assert (Hdel' : delivers (advanced_rx e) r) by (destruct Hdel as [[] ?]; by split).
  destruct (reassemble_advance l nb Hl c r (advanced_rx e) Hr0 Hc Hw2 Hs' Hdel')
    as (e' & l' & -> & H2 & H3 & H4).
  destruct (core_fields _ _ H4) as (F1 & F2 & F3).
  rewrite res_ok_bind. eexists. split; [reflexivity|].
  split; [by rewrite <- Hv|]. split; [by rewrite <- Hm|]. split; [exact F3|].
  split; [done|]. destruct H2 as [[] ?]; by split.
Qed.

(** What the relation says of the numbers, when [n] is new. *)
Lemma high_new got r h n r' : r <= n < r + 512 -> r <= h <= r + 512 ->
  Forall (fun n => n < h) got -> h = r \/ h - 1 ∈ got ->
  r <= r' -> (r' = r \/ r' - 1 ∈ n :: got) ->
  r' <= Z.max h (n + 1) <= r' + 512 /\ Forall (fun m => m < Z.max h (n + 1)) (n :: got) /\
  (Z.max h (n + 1) = r' \/ Z.max h (n + 1) - 1 ∈ n :: got).
Proof.
  intros Hn Hh Hb Hhi Hr' Hlast. rewrite Forall_forall in Hb.
  assert (Hr2 : r' <= Z.max h (n + 1)).
  { destruct Hlast as [->|Hl]; [lia|]. apply elem_of_cons in Hl as [Hl|Hl]; [lia|].
    specialize (Hb _ Hl). lia. }
  split; [lia|]. split.
  - constructor; [lia|]. apply Forall_forall. intros m Hm. specialize (Hb m Hm). lia.
  - right. destruct (Z.max_spec h (n + 1)) as [[? ->]|[? ->]].
    + replace (n + 1 - 1) with n by lia. set_solver.
    + destruct Hhi as [->|Hhi]; [lia|]. set_solver.
Qed.

(** VR(H). *)
Lemma raise_vr_h got r h e n : rx_rel got r h e -> r <= n < r + 512 ->
  (if 0 <? rlc_am_sn_gte_vr_h e (n mod 1024) then e <| vr_h := sn_after (n mod 1024) |> else e)
  = e <| vr_h := Z.max h (n + 1) mod 1024 |>.
Proof.
  intros [_ Hr _ Hh Hrange _ _ _ _] Hn.
  rewrite gte_vr_h_dist by (rewrite ?Hr, ?Hh; apply mod_sn_ok).
  rewrite Hr, Hh, !dist_count by lia. destruct (Z.leb_spec (h - r) (n - r)).
  - change (0 <? 1) with true. cbv iota. rewrite sn_after_mod. by rewrite Z.max_r by lia.
  - change (0 <? 0) with false. cbv iota. rewrite Z.max_l by lia. rewrite <- Hh. by destruct e.
Qed.

(** A PDU that was missing is in its place. *)
Lemma placed_step got r h e poll n rest frame stale a b na nb : n < sent ->
  rx_rel got r h e -> r <= n < r + 512 -> n ∉ got ->
  keeps r (a ++ block_of poll n rest true :: b) (na ++ n :: nb) -> length a = length na ->
  (forall m, m ∈ na ++ nb <-> m ∈ got /\ r <= m) ->
  exists e' r' h',
    pdu_placed (e <| receiver_buffer := a ++ block_of poll n rest false :: b |>) frame stale
      (info_of poll n) (length a) = Ok e' /\ rx_rel (n :: got) r' h' e' /\ r <= r'.
Proof.
  intros Hsent Hrel Hn Hng Hk Hlen Hmem. pose proof Hrel as [[Hr0 [Hrg Hall]] Hr Hmr Hh Hrange Hb Hhi _ Hdel].
  set (h' := Z.max h (n + 1)). unfold pdu_placed.
  change (di_sn (info_of poll n)) with (n mod 1024).
  set (e0 := e <| receiver_buffer := _ |>).
  assert (Hh1 : (if 0 <? rlc_am_sn_gte_vr_h e0 (n mod 1024)
                 then e0 <| vr_h := sn_after (n mod 1024) |> else e0)
                = e0 <| vr_h := h' mod 1024 |>).
  { pose proof (raise_vr_h got r h e n Hrel Hn) as H.
    change (rlc_am_sn_gte_vr_h e0 (n mod 1024)) with (rlc_am_sn_gte_vr_h e (n mod 1024)).
    destruct (0 <? rlc_am_sn_gte_vr_h e (n mod 1024)).
    - change (e0 <| vr_h := sn_after (n mod 1024) |>) with
        ((e <| vr_h := sn_after (n mod 1024) |>) <| receiver_buffer := receiver_buffer e0 |>).
      by rewrite H.
    - change e0 with (e <| receiver_buffer := receiver_buffer e0 |>) at 1. by rewrite H at 1. }
  rewrite Hh1. cbv zeta. clear Hh1.
  change (receiver_buffer (e0 <| vr_h := h' mod 1024 |>)) with (a ++ block_of poll n rest false :: b).
  rewrite (check_whole a (block_of poll n rest false) b) by done.
  change ((block_of poll n rest false) <| all_segments_received := true |>) with (block_of poll n rest true).
  set (l := a ++ block_of poll n rest true :: b) in *.
  set (e1 := (e0 <| vr_h := h' mod 1024 |>) <| receiver_buffer := l |>).
  assert (Hli : receiver_buffer e1 !! length a = Some (block_of poll n rest true))
    by (by apply list_lookup_middle).
  rewrite Hli. change (all_segments_received (block_of poll n rest true)) with true. cbv iota.
  set (e2 := if (_ =? _) && true then rlc_am_rx_update_vr_ms e1 (length a) else e1).
  assert (H2 : receiver_buffer e2 = l /\ vr_r e2 = r mod 1024 /\ vr_mr e2 = (r + 512) mod 1024 /\
    vr_h e2 = h' mod 1024 /\ delivers e2 r).
  { assert (H1 : receiver_buffer e1 = l /\ vr_r e1 = r mod 1024 /\ vr_mr e1 = (r + 512) mod 1024 /\
      vr_h e1 = h' mod 1024 /\ delivers e1 r).
    { repeat split; try done; try exact Hr; try exact Hmr; by destruct Hdel as [[] ?]. }
    destruct H1 as (A1 & A2 & A3 & A4 & [[A5 A6] A7]). subst e2. unfold rlc_am_rx_update_vr_ms.
    destruct (_ =? _); cbn [andb]; [destruct (drop _ _)|];
      do 4 (split; [done|]); (split; [by split|done]). }
  clearbody e2. clear Hli. clearbody e1. destruct H2 as (El & Er & Emr & Eh & Ed).
  rewrite Er. destruct (Z.eqb_spec (n mod 1024) (r mod 1024)) as [E|E].
  - assert (n = r) by (apply (mod_inj r); [lia|lia|done]). subst n.
    assert (na = []) as ->.
    { destruct na as [|m na]; [done|]. exfalso. destruct Hk as [_ Hs Hw].
      apply Forall_cons in Hw as [Hw _]. apply StronglySorted_inv in Hs as [_ Hs].
      rewrite Forall_forall in Hs. specialize (Hs r ltac:(set_solver)). lia. }
    destruct a; [|done]. cbn [app length] in *.
    assert (Hk' : keeps r (receiver_buffer e2) (r :: nb)) by (by rewrite El).
    destruct (fill_step r e2 nb Hr0 Er Hk' Ed) as (e3 & H3 & B1 & B2 & B3 & B4 & B5).
    change (?x <| vr_mr := _ |>) with (advanced_rx e2) in H3.
    unfold advanced_rx in H3. cbv zeta in H3. rewrite H3, res_ok_bind. clear H3.
    destruct Hk as [_ Hs Hw]. apply StronglySorted_inv in Hs as [Hs Hlt].
    apply Forall_cons in Hw as [_ Hw].
    assert (Hge : Forall (Z.le (r + 1)) nb) by (eapply Forall_impl; [exact Hlt|]; cbv beta; lia).
    pose proof (advance_spec (r + 1) nb Hge Hs) as Hadv.
    destruct (advance (r + 1) nb) as [r' ns']. cbn [fst snd] in *.
    destruct Hadv as (D1 & D2 & D3 & D4).
    assert (Hlast : r' = r \/ r' - 1 ∈ r :: got).
    { right. destruct (decide (r' = r + 1)) as [->|]; [replace (r + 1 - 1) with r by lia; set_solver|].
      apply list_elem_of_further. apply Hmem. rewrite D2. apply elem_of_app. left. apply elem_of_seqZ. lia. }
    destruct (high_new got r h r r' Hn Hrange Hb Hhi ltac:(lia) Hlast) as (C1 & C2 & C3).
    eexists _, r', h'. split; [reflexivity|]. split; [|lia].
    eapply rel_same; [apply same_reordering|]. split; try done; [|by rewrite B3|].
    + split; [lia|]. split.
      * intros [?|Hg]%elem_of_cons; [lia|]. assert (Hnb : r' ∈ nb) by (apply Hmem; split; [done|lia]).
        rewrite D2 in Hnb. apply elem_of_app in Hnb as [Hnb|Hnb]; [apply elem_of_seqZ in Hnb; lia|].
        rewrite Forall_forall in D3. specialize (D3 r' Hnb). lia.
      * intros m Hm. destruct (Z.lt_ge_cases m r); [apply list_elem_of_further, Hall; lia|].
        destruct (decide (m = r)) as [->|]; [set_solver|]. apply list_elem_of_further, Hmem.
        rewrite D2. apply elem_of_app. left. apply elem_of_seqZ. lia.
    + exists ns'. split.
      * split; try done. rewrite D2 in Hw. apply Forall_app in Hw as [_ Hw].
        rewrite Forall_forall in D3, Hw |- *. intros m Hm. specialize (D3 m Hm).
        specialize (Hw m Hm). cbv beta in Hw. lia.
      * intros m. split.
        -- intros Hm. assert (Hmn : m ∈ nb) by (rewrite D2; set_solver).
           apply Hmem in Hmn as [Hg _]. rewrite Forall_forall in D3. specialize (D3 m Hm).
           split; [set_solver|lia].
        -- intros [[->|Hg]%elem_of_cons Hm]; [lia|].
           assert (Hmn : m ∈ nb) by (apply Hmem; split; [done|lia]).
           rewrite D2 in Hmn. apply elem_of_app in Hmn as [Hmn|Hmn]; [apply elem_of_seqZ in Hmn; lia|done].
  - assert (Hne : n <> r) by congruence.
    destruct (high_new got r h n r Hn Hrange Hb Hhi ltac:(lia) ltac:(by left)) as (C1 & C2 & C3).
    eexists _, r, h'. split; [reflexivity|]. split; [|lia].
    eapply rel_same; [apply same_reordering|]. split; try done.
    + split; [done|]. split; [set_solver|]. intros m Hm. apply list_elem_of_further. auto.
    + exists (na ++ n :: nb). split; [by rewrite El|]. intros m.
      rewrite elem_of_app, elem_of_cons. specialize (Hmem m). rewrite elem_of_app in Hmem.
      rewrite elem_of_cons. split; [intros [?|[->|?]]|intros [[->|?] ?]]; tauto.
Qed.

(** The decoding of a PDU of the stream. *)
Lemma decode_pdu poll n rest : 0 <= n < sent ->
  rlc_am_get_data_pdu_infos (pdu_of poll n ++ rest) (u16 (zlen (pdu_of poll n))) = Ok (0, info_of poll n).
Proof.
  intros Hn. pose proof (stream_ok Hstream n Hn) as Hu.
  assert (Hz : 0 <= zlen (pdu_of poll n) < 65536).
  { unfold pdu_of. rewrite am_encode_zlen. destruct Hu as [_ Hnum _ Hsz].
    pose proof (zlen_nonneg (umd_full (us n))) as H0. pose proof (li_header_len_bound _ H0).
    pose proof (am_fixed_len_range None). pose proof (zlen_nonneg (concat (umd_full (us n)))).
    pose proof (zlen_nonneg (umd_last (us n))). lia. }
  rewrite u16_small by done. apply am_info_encode; [done|apply mod_sn_ok|].
  unfold seg_ok, seg_so. cbn. lia.
Qed.

(** An arrival. *)
Lemma receive_step got r h e poll n rest frame stale :
  rx_rel got r h e -> timely got n ->
  exists e' r' h',
    rlc_am_receive_process_data_pdu e frame (pdu_of poll n ++ rest) (zlen (pdu_of poll n)) stale = Ok e' /\
    rx_rel (n :: got) r' h' e' /\ r <= r'.
Proof.
  intros Hrel [Hn0 Ht]. pose proof Hrel as [Hmiss Hr Hmr Hh _ _ _ _ _].
  destruct (Ht r Hmiss) as [Hn Hfr]. pose proof Hmiss as (Hr0 & Hrg & Hall).
  unfold rlc_am_receive_process_data_pdu. rewrite decode_pdu, res_ok_bind by done.
  change (0 <=? 0) with true. cbv beta iota zeta. change (di_sn (info_of poll n)) with (n mod 1024).
  rewrite in_rx_window_dist by (rewrite ?Hr, ?Hmr; first [apply mod_sn_ok | div_lia]).
  rewrite Hr. destruct (Z.lt_ge_cases n r) as [Hlt|Hge].
  - rewrite dist_behind, (proj2 (Z.ltb_ge _ _)) by lia. change (truth 0) with false. cbv iota.
    eexists _, r, h. split; [reflexivity|]. split; [|lia].
    eapply rel_same; [|apply rel_again; [exact Hrel|apply Hall; lia]]. by split.
  - rewrite dist_count, (proj2 (Z.ltb_lt _ _)) by lia. change (truth 1) with true. cbv iota.
    set (e1 := if truth (di_p (info_of poll n)) then e <| status_requested := true |> else e).
    assert (Hs1 : same_rx e e1) by (subst e1; by case_match).
    pose proof (rel_same _ _ _ _ _ Hs1 Hrel) as Hrel1. clearbody e1.
    change (AmRxPdu (info_of poll n) false (pdu_of poll n ++ rest)) with (block_of poll n rest false).
    destruct (insert_step got r h e1 poll n rest ltac:(lia) Hrel1 ltac:(lia) Hfr)
      as [[-> Hg]|(Hg & a & b & na & nb & -> & Hk & Hlen & Hmem)].
    + eexists _, r, h. split; [reflexivity|]. split; [|lia].
      eapply rel_same; [|apply rel_again; [exact Hrel1|done]]. by split.
    + apply (placed_step got r h e1 poll n rest frame stale a b na nb); done || lia.
Qed.

(** ** Runs *)

(** An arrival: the number of the PDU, its poll bit, the frame, what lies behind the PDU in memory,
    and what is read from its block after its release. *)
Record arrival := Arrival { arr_sn : Z; arr_poll : bool; arr_frame : Z; arr_rest : list Z; arr_stale : Z }.

Definition receive_arrival (a : arrival) (e : am_rx) : res am_rx :=
  rlc_am_receive_process_data_pdu e (arr_frame a) (pdu_of (arr_poll a) (arr_sn a) ++ arr_rest a)
    (zlen (pdu_of (arr_poll a) (arr_sn a))) (arr_stale a).

Fixpoint receive_all (arrs : list arrival) (e : am_rx) : res am_rx :=
  match arrs with
  | [] => Ok e
  | a :: arrs => e ← receive_arrival a e; receive_all arrs e
  end.

(** Every PDU arrives in time, [got] having arrived before. *)
Fixpoint timely_all (got : list Z) (arrs : list arrival) : Prop :=
  match arrs with
  | [] => True
  | a :: arrs => timely got (arr_sn a) /\ timely_all (arr_sn a :: got) arrs
  end.

(** An entity as [rlc_am_reset_state_variables] leaves it. *)
Record am_fresh (e : am_rx) : Prop := {
  fresh_buffer : receiver_buffer e = [];
  fresh_block : output_sdu_in_construction e = None;
  fresh_pool : Forall (eq true) (pool e);
  fresh_r : vr_r e = 0;
  fresh_mr : vr_mr e = 512;
  fresh_h : vr_h e = 0;
  fresh_delivered : delivered e = []
}.

Lemma fresh_rel e : am_fresh e -> rx_rel [] 0 0 e.
Proof.
  intros [H1 H2 H3 H4 H5 H6 H7]. split; try done; [|by left|..].
  - split; [done|]. split; [set_solver|]. lia.
  - exists []. rewrite H1. split; [by repeat constructor|]. set_solver.
  - split; [|done]. split; [by rewrite H2|done].
Qed.

Lemma receive_all_rel arrs : forall got r h e, rx_rel got r h e -> timely_all got arrs ->
  exists e' r' h', receive_all arrs e = Ok e' /\ rx_rel (rev (arr_sn <$> arrs) ++ got) r' h' e'.
Proof.
  induction arrs as [|a arrs IH]; intros got r h e Hrel; cbn [receive_all timely_all].
  { intros _. by exists e, r, h. }
  intros [Ht Hts].
  destruct (receive_step got r h e (arr_poll a) (arr_sn a) (arr_rest a) (arr_frame a) (arr_stale a) Hrel Ht)
    as (e1 & r1 & h1 & E1 & Hrel1 & _).
  unfold receive_arrival. rewrite E1, res_ok_bind.
  destruct (IH _ r1 h1 e1 Hrel1 Hts) as (e2 & r2 & h2 & E2 & Hrel2).
  exists e2, r2, h2. split; [done|]. cbn [fmap list_fmap rev]. by rewrite <- app_assoc.
Qed.

End stream.
