(* ===== verification/RlcAmStatusReportSpec.v ===== *)
(** RLC AM v9.3.0: what the STATUS PDU of a receiver says of a stream of PDUs, and
    what it does to the transmitter. *)
From S2P Require Import Prelude.
From S2P Require Import RlcUmHeader.
From S2P Require Import RlcAmEntity.
From S2P Require Import RlcAmSn.
From S2P Require Import RlcAmStatus.
From S2P Require Import RlcAmStatusSpec.
From S2P Require Import RlcAmRetransmit.
From S2P Require Import RlcAmHolesSpec.
From S2P Require Import RlcAmArqSpec.
From S2P Require Import RlcAmStatusRefine.
From S2P Require Import RlcAmRx.
From S2P Require Import RlcAmRxListSpec.
From S2P Require Import RlcAmHeaderSpec.
From S2P Require Import RlcAmReceiverSpec.
From S2P Require Import RlcAmStatusReport.
From stdpp Require Import sorting.

Local Open Scope Z_scope.

(** ** The numbers missing *)

Definition missing (got : list Z) (r a : Z) : list Z := filter (fun n => n ∉ got) (seqZ r (a - r)).

Lemma missing_next got r a : r <= a ->
  missing got r (a + 1) = missing got r a ++ if decide (a ∈ got) then [] else [a].
Proof.
  intros H. unfold missing. replace (a + 1 - r) with (a - r + 1) by lia.
  rewrite seqZ_app, filter_app by lia. f_equal. replace (r + (a - r)) with a by lia.
  rewrite (seqZ_cons a 1) by lia. change (seqZ (Z.succ a) (Z.pred 1)) with (@nil Z). rewrite filter_cons, filter_nil.
  destruct (decide (a ∈ got)); [by rewrite decide_False by tauto|by rewrite decide_True].
Qed.

Lemma missing_elem got r a n : n ∈ missing got r a <-> r <= n < a /\ n ∉ got.
Proof. unfold missing. rewrite list_elem_of_filter, elem_of_seqZ. naive_solver lia. Qed.

Lemma missing_nil got r : missing got r r = [].
Proof. unfold missing. by rewrite Z.sub_diag. Qed.

Lemma missing_zlen got r a : r <= a -> zlen (missing got r a) <= a - r.
Proof.
  intros H. unfold missing, zlen. pose proof (length_filter (fun n => n ∉ got) (seqZ r (a - r))) as Hl.
  rewrite length_seqZ in Hl. lia.
Qed.

(** The entry for a PDU that is missing. *)
Definition entry_of (n : Z) : nack_sn := NackSn (n mod 1024) 1 0 0 0x7ff.

(** ** The loops of the report *)

(** The variables of the report when it has got to the number [a]; [bits] is
    [nb_bits_to_transmit] at the start. *)
Record so_far (got : list Z) (r bits a : Z) (s : report) : Prop := SoFar {
  sf_nacks : nacks s = entry_of <$> missing got r a;
  sf_bits : nb_bits s = bits - 12 * zlen (nacks s);
  sf_left : 0 <= nb_bits s;
  sf_previous : previous_sn s = (a - 1) mod 1024;
  sf_range : r <= a <= r + 512
}.

Lemma so_far_zlen got r bits a s : so_far got r bits a s -> zlen (nacks s) <= a - r.
Proof.
  intros [-> _ _ _ H]. unfold zlen at 1. rewrite length_fmap. apply missing_zlen. lia.
Qed.

Lemma sn_after_previous a : sn_after ((a - 1) mod 1024) = a mod 1024.
Proof. rewrite sn_after_mod. do 2 f_equal. lia. Qed.

(** A PDU that is there. *)
Lemma so_far_got got r bits a s : so_far got r bits a s -> a ∈ got -> a < r + 512 ->
  so_far got r bits (a + 1) (s <| previous_sn := a mod 1024 |>).
Proof.
  intros [H1 H2 H3 H4 H5] Ha Hlt. split; try done; [|change (a mod 1024 = (a + 1 - 1) mod 1024); f_equal; lia|lia].
  change (nacks s = entry_of <$> missing got r (a + 1)). rewrite missing_next, decide_True, app_nil_r by (done || lia). done.
Qed.

(** A PDU that is not. *)
Lemma so_far_missing got r bits a s : so_far got r bits a s -> a ∉ got -> a < r + 512 ->
  12 < nb_bits s ->
  exists s', push_nack (NackSn (a mod 1024) 1 0 0 0x7ff) 12 (s <| previous_sn := a mod 1024 |>) = Ok s' /\
    so_far got r bits (a + 1) s'.
Proof.
  intros H Ha Hlt Hb. pose proof (so_far_zlen _ _ _ _ _ H) as Hz. destruct H as [H1 H2 H3 H4 H5].
  unfold push_nack. change (nacks (s <| previous_sn := a mod 1024 |>)) with (nacks s).
  unfold RLC_AM_MAX_NACK_IN_STATUS_PDU. rewrite (proj2 (Z.ltb_lt _ _)) by lia.
  eexists. split; [reflexivity|].
  set (n := NackSn _ _ _ _ _). split.
  - change (nacks s ++ [n] = entry_of <$> missing got r (a + 1)).
    by rewrite H1, missing_next, decide_False, fmap_app by (done || lia).
  - change (nb_bits s - 12 = bits - 12 * zlen (nacks s ++ [n])).
    rewrite zlen_app, H2. change (zlen [n]) with 1. lia.
  - change (0 <= nb_bits s - 12). lia.
  - change (a mod 1024 = (a + 1 - 1) mod 1024). f_equal. lia.
  - lia.
Qed.

(** Where the report ends with ACK_SN [a]: all is said, or there is no room. *)
Definition report_ends (got : list Z) (r h bits a : Z) (s : report) : Prop :=
  so_far got r bits a s /\ a <= h /\ (a = h \/ nb_bits s <= 12).

Lemma nack_missing_ok got r bits n : n < r + 512 -> forall fuel a s,
  so_far got r bits a s -> a <= n -> n - a < Z.of_nat fuel ->
  (forall m, a <= m < n -> m ∉ got) ->
  exists o, nack_missing fuel (n mod 1024) s = Ok o /\
    match o with
    | GoOn s' => so_far got r bits n s'
    | Stop ack s' => exists a', ack = a' mod 1024 /\ a' < n /\ so_far got r bits a' s' /\
                       nb_bits s' <= 12
    end.
Proof.
  intros Hn. induction fuel as [|fuel IH]; intros a s Hs Ha Hf Hm; [lia|]. cbn [nack_missing].
  pose proof Hs as [_ _ _ Hp Hr]. rewrite Hp, sn_after_previous.
  destruct (Z.eqb_spec (a mod 1024) (n mod 1024)) as [E|E].
  - apply (mod_inj a) in E; [|lia..]. subst a. by eexists.
  - assert (Hne : a <> n) by congruence. destruct (Z.ltb_spec 12 (nb_bits s)).
    + destruct (so_far_missing got r bits a s Hs) as (s' & -> & Hs'); [apply Hm; lia|lia|done|].
      rewrite res_ok_bind. apply (IH (a + 1)); [done|lia..|]. intros m Hmm. apply Hm. lia.
    + eexists. split; [reflexivity|]. exists a. split; [done|]. split; [lia|]. by split.
Qed.

Section stream.
Context (us : Z -> umd) (sent : Z).

Lemma report_loop_ok got r h bits : h <= r + 512 -> Forall (fun n => n < h) got ->
  h = r \/ h - 1 ∈ got ->
  forall l ns, Forall2 (holds us sent) l ns -> forall fuel a s,
  (length l < fuel)%nat -> so_far got r bits a s -> a <= h ->
  StronglySorted Z.lt ns -> Forall (fun n => a <= n < r + 512) ns ->
  (forall n, n ∈ got /\ a <= n <-> n ∈ ns) ->
  exists ack s' a', report_loop fuel l s = Ok (ack, s') /\ ack = a' mod 1024 /\
    report_ends got r h bits a' s'.
Proof.
  intros Hh Hbelow Hhigh. induction 1 as [|c n l ns Hc Hl IH]; intros fuel a s Hf Hs Ha Hsort Hw Hmem;
    (destruct fuel as [|fuel]; [cbn [length] in Hf; lia|]); cbn [report_loop].
  - pose proof Hs as [_ _ _ Hp Hr]. rewrite Hp, sn_after_previous.
    eexists _, s, a. split; [reflexivity|]. split; [done|]. split; [done|]. split; [done|]. left.
    destruct Hhigh as [->|Hhi]; [lia|]. destruct (Z.lt_ge_cases a h); [|lia].
    exfalso. eapply not_elem_of_nil, Hmem. split; [exact Hhi|lia].
  - pose proof Hs as [_ _ _ Hp Hr]. pose proof Hsort as [Hsort' Hlt]%StronglySorted_inv.
    pose proof Hw as [Hn Hw']%Forall_cons. cbn [length] in Hf.
    destruct (Z.leb_spec 12 (nb_bits s)) as [Hb|Hb]; cbn [negb].
    2: { rewrite Hp, sn_after_previous. eexists _, s, a. split; [reflexivity|]. split; [done|].
         split; [done|]. split; [done|]. right. lia. }
    rewrite (holds_sn us sent c n Hc), Hp.
    destruct (Z.eqb_spec (n mod 1024) ((a - 1) mod 1024)) as [E|_].
    { exfalso. apply (mod_inj (a - 1)) in E; lia. }
    rewrite (holds_sn us sent c n Hc).
    assert (Hng : n ∈ got) by (apply Hmem; set_solver).
    destruct (nack_missing_ok got r bits n ltac:(lia) 1025 a s Hs) as (o & -> & Ho); [lia|lia|..].
    { intros m Hm Hg. assert (Hmn : m ∈ n :: ns) by (apply Hmem; split; [done|lia]).
      apply elem_of_cons in Hmn as [->|Hmn]; [lia|]. rewrite Forall_forall in Hlt.
      specialize (Hlt m Hmn). lia. }
    rewrite res_ok_bind. destruct o as [s1|ack s1].
    + rewrite (holds_flag us sent c n Hc). pose proof (so_far_got _ _ _ _ _ Ho Hng ltac:(lia)) as Hs1.
      rewrite Forall_forall in Hbelow. specialize (Hbelow n Hng).
      apply (IH fuel (n + 1)); try done; [lia|lia|..].
      * rewrite Forall_forall in Hlt, Hw' |- *. intros m Hm. specialize (Hlt m Hm).
        specialize (Hw' m Hm). cbv beta in Hw'. lia.
      * intros m. specialize (Hmem m). rewrite elem_of_cons in Hmem. split.
        -- intros [Hg Hm]. destruct (proj1 Hmem) as [->|]; [split; [done|lia]|lia|done].
        -- intros Hm. rewrite Forall_forall in Hlt. specialize (Hlt m Hm).
           destruct (proj2 Hmem); [by right|]. split; [done|lia].
    + destruct Ho as (a' & -> & Hlt' & Hs' & Hb'). rewrite Forall_forall in Hbelow.
      specialize (Hbelow n Hng). eexists _, s1, a'. split; [reflexivity|]. split; [done|].
      split; [done|]. split; [lia|by right].
Qed.

Lemma find_window_head e p c l : rlc_am_in_rx_window e (rx_sn c) = 1 ->
  find_window e p (c :: l) = Ok (p, c :: l).
Proof. intros H. cbn [find_window]. by rewrite H. Qed.

(** The report of a receiver; [bits] is the room for entries. *)
Lemma make_report_ok got r h e :
  rx_rel us sent got r h e -> 2 <= nb_bytes_requested_by_mac e < 2 ^ 28 ->
  exists s a, make_report e = Ok (a mod 1024, s) /\
    report_ends got r h (8 * nb_bytes_requested_by_mac e - 15) a s.
Proof.
  intros [Hm Hr Hmr Hh Hrange Hbelow Hhigh (ns & Hk & Hns) _] Hnb. unfold make_report.
  rewrite (s32_small (Z.shiftl _ 3)) by (rewrite Z.shiftl_mul_pow2 by lia; lia).
  rewrite Z.shiftl_mul_pow2 by lia. change (2 ^ 3) with 8.
  rewrite Z.mul_comm. set (bits := 8 * nb_bytes_requested_by_mac e - 15).
  set (p := Z.land _ _). assert (Hp : p = (r - 1) mod 1024).
  { subst p. unfold RLC_AM_SN_MASK. rewrite (land_ones_mod _ 10), Hr by lia.
    change (2 ^ 10) with 1024. div_lia. }
  assert (Hs : so_far got r bits r (Report bits [] p)).
  { split; [by rewrite missing_nil| |subst bits; cbn; lia|done|lia].
    change (bits = bits - 12 * 0). lia. }
  destruct Hk as [Ha Hsort Hw]. destruct Ha as [|c n l ns Hc Hl].
  - exists (Report bits [] p), r. rewrite Hr. split; [done|]. split; [done|]. split; [lia|]. left.
    destruct Hhigh as [->|Hhi]; [lia|]. destruct (Z.lt_ge_cases r h); [|lia].
    exfalso. eapply not_elem_of_nil, Hns. split; [exact Hhi|lia].
  - rewrite find_window_head.
    2: { rewrite (holds_sn us sent c n Hc), in_rx_window_dist by (rewrite ?Hr, ?Hmr; first [apply mod_sn_ok|div_lia]).
         apply Forall_cons in Hw as [Hn _]. rewrite Hr, dist_count by lia.
         by rewrite (proj2 (Z.ltb_lt _ _)) by lia. }
    rewrite res_ok_bind.
    destruct (report_loop_ok got r h bits ltac:(lia) Hbelow Hhigh (c :: l) (n :: ns)
      ltac:(by constructor) (S (length (c :: l))) r (Report bits [] p))
      as (ack & s' & a' & -> & -> & He); [lia|done|lia|done|done|by symmetry|].
    by exists s', a'.
Qed.
End stream.

(** ** The PDU *)

(** What the parser makes of an entry for a PDU that is missing. *)
Definition asked_for (n : Z) : nack_sn := NackSn (n mod 1024) 1 0 0 0x7FFF.

(** A STATUS PDU: ACK_SN is [a], and from [r] on all is there but what is named. *)
Definition status_of (got : list Z) (r a : Z) : control_pdu_info :=
  ControlPduInfo 0 0 (a mod 1024) (if 0 <? zlen (missing got r a) then 1 else 0)
    (close_nacks (asked_for <$> missing got r a)).

(** Entries that are written alike: without offsets. *)
Definition alike (n m : nack_sn) : Prop :=
  nack_sn_ n = nack_sn_ m /\ nack_e1 n = nack_e1 m /\ nack_e2 n = 0 /\ nack_e2 m = 0.

Lemma close_alike ns ms : Forall2 alike ns ms -> Forall2 alike (close_nacks ns) (close_nacks ms).
Proof.
  induction 1 as [|n m ns ms H Hs IH]; [constructor|]. destruct Hs.
  - constructor; [|constructor]. by destruct H as (? & ? & ? & ?).
  - by constructor.
Qed.

Lemma write_nacks_alike ns ms : Forall2 alike ns ms -> forall l pos bit,
  write_nacks ns l pos bit = write_nacks ms l pos bit.
Proof.
  induction 1 as [|n m ns ms (H1 & H2 & H3 & H4) _ IH]; intros l pos bit; [done|].
  cbn [write_nacks]. unfold write_nack. rewrite H1, H2, H3, H4. change (0 <? 0) with false. cbv iota.
  repeat (match goal with |- mbind ?f ?x = _ => destruct x as [[[? ?] ?]|]; [|done] end;
          cbn [mbind res_bind]; try by apply IH).
Qed.

Lemma close_length ns : length (close_nacks ns) = length ns.
Proof. induction ns as [|n [|m ns] IH]; [done..|]. cbn [close_nacks length] in *. by rewrite IH. Qed.

Lemma close_chain ns : Forall (fun n => nack_e1 n = 1) ns -> e1_chain (close_nacks ns).
Proof.
  induction 1 as [|n ns H Hs IH]; [done|]. destruct ns as [|m ns]; [done|].
  change (close_nacks (n :: m :: ns)) with (n :: close_nacks (m :: ns)).
  destruct (close_nacks (m :: ns)) eqn:E; [|by split].
  apply (f_equal length) in E. by rewrite close_length in E.
Qed.

Lemma close_sns ns : nack_sn_ <$> close_nacks ns = nack_sn_ <$> ns.
Proof.
  induction ns as [|n [|m ns] IH]; [done..|].
  change (close_nacks (n :: m :: ns)) with (n :: close_nacks (m :: ns)).
  rewrite !fmap_cons, IH. by rewrite !fmap_cons.
Qed.

Lemma close_ok ns : Forall nack_ok ns -> Forall nack_ok (close_nacks ns).
Proof.
  induction 1 as [|n ns H Hs IH]; [done|]. destruct ns as [|m ns]; [|by constructor].
  constructor; [|done]. destruct H as (? & ? & H). split; [done|]. by split; [change (0 <= 0 < 2)|].
Qed.

Lemma close_whole ns : Forall (fun n => whole_pdu n = true) ns ->
  Forall (fun n => whole_pdu n = true) (close_nacks ns).
Proof.
  induction 1 as [|n ns H Hs IH]; [done|]. destruct ns as [|m ns]; by repeat constructor.
Qed.

Lemma status_of_ok got r a : r <= a <= r + 512 -> info_ok (status_of got r a).
Proof.
  intros Ha. pose proof (missing_zlen got r a) as Hz. split; try done.
  - change (0 <= a mod 1024 < 1024). div_lia.
  - unfold num_nack, zlen. cbn [status_of nack_list info_e1]. by rewrite close_length, length_fmap.
  - apply close_ok. rewrite Forall_fmap. apply Forall_forall. intros n _.
    split; [cbn; div_lia|]. split; [by cbn|]. by right.
  - apply close_chain. rewrite Forall_fmap. by apply Forall_forall.
  - unfold num_nack, zlen in *. cbn [status_of nack_list]. rewrite close_length, length_fmap. lia.
Qed.

Lemma status_of_bits got r a : zlen (status_bits (status_of got r a)) = 15 + 12 * zlen (missing got r a).
Proof.
  rewrite status_bits_split. rewrite !zlen_app, !zlen_to_bits.
  cut (zlen (nacks_bits (nack_list (status_of got r a))) = 12 * zlen (missing got r a)); [lia|].
  cbn [status_of nack_list]. induction (missing got r a) as [|n ns IH]; [done|].
  rewrite fmap_cons, zlen_cons. destruct ns as [|m ns]; [done|].
  rewrite fmap_cons in *. change (close_nacks (?x :: ?y :: ?z)) with (x :: close_nacks (y :: z)).
  unfold nacks_bits in *. rewrite fmap_cons. cbn [concat]. rewrite zlen_app, IH.
  change (zlen (nack_bits (asked_for n))) with 12. lia.
Qed.

(** How far ACK_SN [a] gets: to VR(H) [h], or until [nb] bytes hold no more entries. *)
Definition tells_all (got : list Z) (r h nb a : Z) : Prop :=
  r <= a <= h /\ (a = h \/ 8 * nb <= 27 + 12 * zlen (missing got r a)).

Lemma close_entries ns : Forall2 alike (close_nacks (entry_of <$> ns)) (close_nacks (asked_for <$> ns)).
Proof.
  apply close_alike. induction ns as [|n ns IH]; [constructor|]. rewrite !fmap_cons. by constructor.
Qed.

Lemma mem_bits_take l n : mem_bits (take n l) = take (8 * n) (mem_bits l).
Proof.
  revert n. induction l as [|x l IH]; intros [|n]; [done..|].
  replace (8 * S n)%nat with (8 + 8 * n)%nat by lia. cbn [take]. rewrite !mem_bits_cons, IH.
  change 8%nat with (length (byte_bits x)) at 2. by rewrite take_app_add.
Qed.

Section send.
Context (us : Z -> umd) (sent : Z).

(** The STATUS PDU of a receiver. *)
Lemma send_status_ok got r h e :
  rx_rel us sent got r h e -> 2 <= nb_bytes_requested_by_mac e < 2 ^ 28 ->
  exists a pdu pad e', rlc_am_send_status_pdu true e = Ok e' /\
    tells_all got r h (nb_bytes_requested_by_mac e) a /\ a <= r + 512 /\
    control_pdu_list e' = pdu :: control_pdu_list e /\
    zlen pdu <= nb_bytes_requested_by_mac e /\
    nb_bytes_requested_by_mac e' = nb_bytes_requested_by_mac e - zlen pdu /\
    same_rx e e' /\ zlen pdu = status_len (status_of got r a) /\
    all_bytes pdu /\ mem_bits pdu = status_bits (status_of got r a) ++ pad.
Proof.
  intros He Hnb. destruct (make_report_ok us sent got r h e He Hnb) as (s & a & Em & Hs & Hah & Hfull).
  destruct Hs as [Hn Hb Hl Hp Hr]. unfold rlc_am_send_status_pdu. rewrite Em, res_ok_bind. cbv zeta.
  set (nb := nb_bytes_requested_by_mac e) in *. set (i := status_of got r a).
  set (k := zlen (missing got r a)).
  assert (Hk : zlen (nacks s) = k) by (rewrite Hn; unfold zlen; by rewrite length_fmap).
  assert (Hk0 : 0 <= k) by apply zlen_nonneg. rewrite Hk in Hb.
  pose proof (status_of_bits got r a) as Hbits. fold i k in Hbits.
  rewrite !Z.shiftr_div_pow2 by lia. change (2 ^ 3) with 8.
  set (n := nb - (nb_bits s - 7) / 8). cbn [res_guard].
  rewrite res_ok_bind, (proj2 (Z.leb_le 0 n)) by (subst n; div_lia). cbn [res_guard]. rewrite res_ok_bind.
  destruct (write_status_ok i (Z.to_nat n)) as (l & Ew & Hbl & Hll & Hml).
  { by apply status_of_ok. }
  { rewrite Hbits, Z2Nat.id by (subst n; div_lia). subst n. div_lia. }
  assert (Ew' : rlc_am_write_status_pdu (ControlPduInfo 0 0 (a mod 1024) 0 (close_nacks (nacks s)))
    (replicate (Z.to_nat n) 0) = Ok (l, status_len i)).
  { rewrite <- Ew. unfold rlc_am_write_status_pdu. cbn [ack_sn nack_list i status_of].
    pose proof (close_entries (missing got r a)) as Ha. rewrite <- Hn in Ha.
    unfold num_nack. cbn [nack_list]. unfold zlen. rewrite (Forall2_length _ _ _ Ha).
    destruct (rlc_am_write16_bit_field _ 0 4 10 _) as [[[l1 p1] q1]|]; [|done].
    cbn [mbind res_bind]. destruct (rlc_am_write8_bit_field l1 p1 q1 1 _) as [[[l2 p2] q2]|]; [|done].
    cbn [mbind res_bind]. by rewrite (write_nacks_alike _ _ Ha). }
  rewrite Ew', res_ok_bind.
  assert (Hsl : status_len i = nb - nb_bits s / 8).
  { unfold status_len. rewrite Hbits, Hb. div_lia. }
  rewrite (proj2 (Z.eqb_eq _ _) Hsl). cbn [res_guard]. rewrite res_ok_bind.
  assert (Hlen : zlen (take (Z.to_nat (status_len i)) l) = status_len i).
  { unfold zlen. rewrite length_take, Hll. subst n. div_lia. }
  exists a, (take (Z.to_nat (status_len i)) l). eexists _, _. split; [reflexivity|].
  split. { split; [lia|]. destruct Hfull; [by left|right]. fold k. lia. }
  split; [lia|]. split; [done|]. split; [rewrite Hlen, Hsl; div_lia|].
  split; [by rewrite Hlen|]. split; [by split|]. split; [done|].
  split; [by apply Forall_take|].
  rewrite mem_bits_take, Hml, take_app_ge; [reflexivity|].
  unfold zlen in Hbits, Hsl. unfold status_len, zlen. div_lia.
Qed.

End send.

(** ** The exchange of a STATUS PDU *)

(** A walk through entries in increasing order meets them all. *)
Lemma reached_all a ack ms : forall lo ns,
  nack_sn_ <$> ns = (fun n => n mod 1024) <$> ms -> StronglySorted Z.lt ms ->
  Forall (fun n => a + lo <= n < ack) ms -> 0 <= lo -> ack < a + 1024 ->
  reached (a mod 1024) (ack mod 1024) lo ns = ns.
Proof.
  induction ms as [|m ms IH]; intros lo [|n ns] E Hs Hw Hlo Hlt; [done..|].
  rewrite !fmap_cons in E. injection E as En E. apply StronglySorted_inv in Hs as [Hs Hm].
  apply Forall_cons in Hw as [Hwm Hw]. cbn [reached]. rewrite En, !dist_count by lia.
  rewrite (proj2 (Z.leb_le _ _)), (proj2 (Z.ltb_lt _ _)) by lia. cbn [andb]. f_equal.
  apply IH; try done; [|lia]. rewrite Forall_forall in Hm, Hw |- *. intros x Hx.
  specialize (Hm x Hx). specialize (Hw x Hx). cbv beta in Hw. lia.
Qed.

Lemma missing_sorted got r a : StronglySorted Z.lt (missing got r a).
Proof.
  unfold missing. generalize (a - r). intros k.
  assert (H : forall l, StronglySorted Z.lt l -> StronglySorted Z.lt (filter (fun n => n ∉ got) l)).
  { induction 1 as [|x l Hl IH Hx]; [constructor|]. rewrite filter_cons. case_decide; [|done].
    constructor; [done|]. apply Forall_forall. intros y [_ Hy]%list_elem_of_filter.
    rewrite Forall_forall in Hx. auto. }
  apply H. destruct (Z.le_gt_cases k 0) as [Hk|Hk].
  - unfold seqZ. replace (Z.to_nat k) with 0%nat by lia. constructor.
  - revert r. pattern k. apply natlike_rec2; [constructor| |lia]. clear.
    intros k Hk IH r. rewrite seqZ_cons by lia. replace (Z.pred (Z.succ k)) with k by lia.
    constructor; [apply IH|]. apply Forall_forall. intros x Hx%elem_of_seqZ. lia.
Qed.

Section exchange.
Context (us : Z -> umd) (sent : Z).

(** The two ends of a bearer, when the PDUs up to [s] have been sent, [got] have arrived
    and [a] is the first the transmitter still waits for: whatever has not arrived it
    keeps.  The window is not full. *)
Record arq (got : list Z) (a s r h : Z) (tx : am_tx) (rx : am_rx) : Prop := Arq {
  arq_rx : rx_rel us sent got r h rx;
  arq_tx : am_ok tx;
  arq_a : vt_a tx = a mod 1024;
  arq_s : vt_s tx = s mod 1024;
  arq_order : 0 <= a <= r /\ h <= s < a + 512;
  arq_keeps n : a <= n < s -> n ∉ got -> outstanding tx (n mod 1024) = true
}.

(** What the STATUS PDU acknowledges. *)
Lemma status_acks_count got a s r h tx rx ack n :
  arq got a s r h tx rx -> r <= ack <= h -> a <= n < s ->
  status_named tx (status_of got r ack) = nack_list (status_of got r ack) /\
  named (status_named tx (status_of got r ack)) (n mod 1024) =
    bool_decide (n ∉ got /\ n < ack) /\
  status_acks tx (status_of got r ack) (n mod 1024) = bool_decide (n ∈ got /\ n < ack).
Proof.
  intros [Hrx _ Ha _ Ho _] Hack Hn. set (i := status_of got r ack).
  assert (Ei : status_named tx i = nack_list i).
  { unfold status_named. rewrite Ha. unfold i; cbn [status_of ack_sn]. rewrite dist_count by lia.
    rewrite (proj2 (Z.ltb_lt _ _)) by lia. apply (reached_all a ack (missing got r ack)).
    - unfold i; cbn [status_of nack_list]. rewrite close_sns. by rewrite <- list_fmap_compose.
    - apply missing_sorted.
    - apply Forall_forall. intros m [Hm _]%missing_elem. lia.
    - done.
    - lia. }
  assert (En : named (nack_list i) (n mod 1024) = bool_decide (n ∉ got /\ n < ack)).
  { unfold named. unfold i; cbn [status_of nack_list]. rewrite close_sns, <- list_fmap_compose.
    apply bool_decide_ext. rewrite list_elem_of_fmap. split.
    - intros (m & E & [Hm Hg]%missing_elem). cbn in E. apply (mod_inj a) in E; [|lia..]. subst m. split; [done|lia].
    - intros [Hg Hlt]. exists n. split; [done|]. apply missing_elem. split; [|done].
      destruct (rel_missing _ _ _ _ _ _ Hrx) as (Hr0 & _ & Hall).
      destruct (Z.lt_ge_cases n r); [|lia]. destruct Hg. apply Hall. lia. }
  rewrite Ei. split; [done|]. split; [done|]. unfold status_acks. rewrite Ei. unfold walked.
  rewrite En, Ha. unfold i; cbn [status_of ack_sn]. rewrite !dist_count by lia.
  rewrite (proj2 (Z.ltb_lt (ack - a) _)), (proj2 (Z.leb_le _ _)) by lia. cbn [andb].
  apply Bool.eq_iff_eq_true. rewrite andb_true_iff, Z.ltb_lt, negb_true_iff, bool_decide_eq_false,
    bool_decide_eq_true. split.
  - intros [Hlt Hne]. split; [|lia]. destruct (decide (n ∈ got)) as [|Hg]; [done|]. exfalso. apply Hne. split; [done|lia].
  - intros [Hg Hlt]. split; [lia|]. tauto.
Qed.

(** The transmitter takes the whole of it. *)
Lemma process_ok got r ack tx frame : am_ok tx -> r <= ack <= r + 512 ->
  exists tx', process_status tx frame (status_of got r ack) = Ok tx' /\ am_ok tx' /\
    effect (status_acks tx (status_of got r ack))
      (named (status_named tx (status_of got r ack))) tx tx'.
Proof.
  intros Htx Hack. set (i := status_of got r ack).
  assert (Hnum : num_nack i < 1023).
  { unfold num_nack, zlen, i. cbn [status_of nack_list]. rewrite close_length, length_fmap.
    pose proof (missing_zlen got r ack). unfold zlen in *. lia. }
  pose proof (process_status_ok tx frame i Htx (status_of_ok got r ack Hack) Hnum) as Hp.
  unfold status_result in Hp. destruct (process_status tx frame i) as [tx'|x]; [by exists tx'|].
  destruct Hp as (n & Hn & Hw). exfalso.
  assert (Hall : Forall (fun n => whole_pdu n = true) (nack_list i)).
  { unfold i. cbn [status_of nack_list]. apply close_whole. rewrite Forall_fmap. by apply Forall_forall. }
  rewrite Forall_forall in Hall. by rewrite (Hall n Hn) in Hw.
Qed.

(** VT(A) after it: up to the first PDU kept, which is not behind the first missing. *)
Lemma moved got a s r h tx tx' rx ack :
  arq got a s r h tx rx -> r <= ack <= h -> am_ok tx' ->
  effect (status_acks tx (status_of got r ack)) (named (status_named tx (status_of got r ack))) tx tx' ->
  (forall n, a <= n < s -> outstanding tx' (n mod 1024) =
    outstanding tx (n mod 1024) && negb (bool_decide (n ∈ got /\ n < ack)) /\
    (n ∉ got -> n < ack -> flag_retransmit (pdu_at tx' (n mod 1024)) = true)) ->
  exists a', vt_a tx' = a' mod 1024 /\ a <= a' <= s /\ a' <= r /\
    (a' <> s -> outstanding tx' (a' mod 1024) = true).
Proof.
  intros [Hrx Htx Ha Hs Ho Hk] Hack Htx' [Es Eb Eo _] Hacks.
  pose proof (ok_a _ (ok_inv _ Htx)) as Hsa. pose proof (ok_a _ (ok_inv _ Htx')) as Hsa'.
  pose proof (dist_range (vt_a tx) (vt_a tx')) as Hd.
  pose proof (dist_range (vt_a tx') (vt_s tx)) as Hd'.
  set (a' := a + dist (vt_a tx) (vt_a tx')).
  assert (Ha' : vt_a tx' = a' mod 1024).
  { subst a'. unfold dist, sn_ok in *. rewrite Ha in *. div_lia. }
  assert (Has : a <= a' <= s).
  { assert (E : dist (vt_a tx) (vt_s tx) = s - a) by (rewrite Ha, Hs, dist_count; lia).
    unfold RlcAmSn.between in Eb. lia. }
  exists a'. split; [done|]. split; [done|]. split.
  - destruct (Z.lt_ge_cases r s) as [Hlt|]; [|lia].
    destruct (rel_missing _ _ _ _ _ _ Hrx) as (_ & Hrg & _).
    assert (Hor : outstanding tx' (r mod 1024) = true).
    { destruct (Hacks r) as [-> _]; [lia|]. rewrite Hk by (done || lia).
      by rewrite bool_decide_false by tauto. }
    destruct (outstanding_inside tx' _ (ok_inv _ Htx') (mod_sn_ok r) Hor) as [Hin _].
    rewrite Es, Ha', Hs, (dist_count a' s) in Hin by lia.
    destruct (Z.lt_ge_cases r a'); [|done]. rewrite dist_behind in Hin by lia. lia.
  - intros Hne. rewrite <- Ha'. apply (ok_first _ Htx'). rewrite Es, Hs, Ha'. intros E.
    apply Hne. apply (mod_inj a); [lia..|done].
Qed.

End exchange.
