(* ===== verification/RlcAmSegmentsSpec.v ===== *)
(** RLC AM v9.3.0: when the segments of a PDU are taken to be all there
    ([rlc_am_rx_check_all_byte_segments]). *)
From S2P Require Import Prelude.
From S2P Require Import RlcAmEntity.
From S2P Require Import RlcAmRx.
From S2P Require Import RlcAmRxList.
From S2P Require Import RlcAmRxListSpec.
From stdpp Require Import sorting.

Local Open Scope Z_scope.

Abbreviation start c := (di_so (pdu_info c)).
Abbreviation finish c := (di_end (pdu_info c)).
Abbreviation is_last c := (0 <? di_lsf (pdu_info c)).

(** The elements of a buffer with one number, segments in order; no other follows
    the one with the last byte. *)
Record group (sn : Z) (b : list am_rx_pdu) : Prop := {
  gr_sn : Forall (fun c => rx_sn c = sn) b;
  gr_wf : Forall (fun c => 0 < di_payload_size (pdu_info c)) b;
  gr_rf : Forall (fun c => di_rf (pdu_info c) = 1) b;
  gr_sorted : StronglySorted (fun c d => finish c < start d) b;
  gr_last x c y : b = x ++ c :: y -> is_last c = true -> y = []
}.

(** The byte [n] of the PDU is in one of the segments. *)
Definition has_byte (b : list am_rx_pdu) (n : Z) : Prop :=
  exists c, c ∈ b /\ start c <= n <= finish c.

(** From the byte [k] on up to the last one all are there. *)
Definition has_all (k : Z) (b : list am_rx_pdu) : Prop :=
  exists z, last b = Some z /\ is_last z = true /\ forall n, k <= n <= finish z -> has_byte b n.

(** [t] does not go on with the number. *)
Definition other (sn : Z) (t : list am_rx_pdu) : Prop := forall c t', t = c :: t' -> rx_sn c <> sn.

Lemma group_tail sn c b : group sn (c :: b) -> group sn b /\ Forall (fun d => finish c < start d) b.
Proof.
  intros [H1 H2 H3 H4 H5]. apply Forall_cons in H1 as [_ H1], H2 as [_ H2], H3 as [_ H3].
  apply StronglySorted_inv in H4 as [H4 H6]. split; [|done]. split; try done.
  intros x d y -> Hd. apply (H5 (c :: x) d y); [done|exact Hd].
Qed.

Lemma has_all_nil k : ~ has_all k [].
Proof. by intros (z & H & _). Qed.

(** A first segment that begins at [k]. *)
Lemma has_all_cons sn c b : group sn (c :: b) ->
  has_all (start c) (c :: b) <-> (b = [] /\ is_last c = true) \/ has_all (finish c + 1) b.
Proof.
  intros H. destruct (group_tail sn c b H) as [Hb Hlt]. pose proof H as [_ [Hsz _]%Forall_cons _ _ Hl].
  assert (Ef : finish c = start c + di_payload_size (pdu_info c) - 1) by done. split.
  - intros (z & Hz & Hzl & Hall). destruct b as [|d b]; [left; by injection Hz as ->|right].
    exists z. split; [done|]. split; [done|]. intros n Hn.
    destruct (Hall n ltac:(lia)) as (x & [->|Hx]%elem_of_cons & Hxn); [lia|by exists x].
  - intros [[-> Hc]|(z & Hz & Hzl & Hall)].
    + exists c. split; [done|]. split; [done|]. intros n Hn. exists c. split; [set_solver|done].
    + exists z. destruct b as [|d b]; [done|]. split; [done|]. split; [done|]. intros n Hn.
      destruct (Z.le_gt_cases n (finish c)).
      * exists c. split; [set_solver|lia].
      * destruct (Hall n ltac:(lia)) as (x & Hx & Hxn). exists x. split; [set_solver|done].
Qed.

(** A gap before the first segment. *)
Lemma has_all_gap sn k c b : group sn (c :: b) -> k < start c -> ~ has_all k (c :: b).
Proof.
  intros H Hk (z & Hz & _ & Hall). destruct (group_tail sn c b H) as [Hb Hlt].
  pose proof H as [_ [Hsz Hwf]%Forall_cons _ _ _].
  assert (Hin : z = c \/ z ∈ b).
  { apply elem_of_cons. by apply last_Some_elem_of. }
  assert (Hzk : k <= finish z).
  { rewrite Forall_forall in Hlt, Hwf. unfold di_end in *. destruct Hin as [->|Hin]; [lia|].
    specialize (Hlt z Hin). specialize (Hwf z Hin). cbv beta in *. lia. }
  destruct (Hall k ltac:(lia)) as (x & [->|Hx]%elem_of_cons & Hxk); [lia|].
  rewrite Forall_forall in Hlt. specialize (Hlt x Hx). unfold di_end in *. lia.
Qed.

Lemma segments_complete_ok sn t : other sn t -> forall b k, group sn b ->
  Forall (fun c => k <= start c) b ->
  segments_complete sn k (b ++ t) = true <-> has_all k b.
Proof.
  intros Ht. induction b as [|c b IH]; intros k Hg Hk.
  - cbn [app]. split; [|by intros ?%has_all_nil]. destruct t as [|c t]; [done|].
    cbn [segments_complete]. rewrite (proj2 (Z.eqb_neq (di_sn (pdu_info c)) sn)); [done|].
    by apply (Ht c t).
  - cbn [app segments_complete]. pose proof Hg as [[Hsn _]%Forall_cons [Hsz _]%Forall_cons [Hrf _]%Forall_cons _ Hl].
    unfold rx_sn in Hsn. rewrite Hsn, Hrf, Z.eqb_refl. change (negb (1 =? 1)) with false. cbn [orb].
    destruct (group_tail _ _ _ Hg) as [Hg' Hlt]. apply Forall_cons in Hk as [Hk Hk'].
    destruct (Z.leb_spec (start c) k) as [Hle|Hgt]; cbn [negb].
    + assert (k = start c) as -> by lia. rewrite (has_all_cons sn) by done.
      destruct (is_last c) eqn:Ec; cbn [orb].
      * split; [|done]. intros _. left. split; [|done]. by apply (Hl [] c b).
      * rewrite IH; [| done |].
        -- unfold di_end. replace (start c + di_payload_size (pdu_info c) - 1 + 1)
             with (start c + di_payload_size (pdu_info c)) by lia. split; [auto|].
           by intros [[_ ?]|?].
        -- eapply Forall_impl; [exact Hlt|]. unfold di_end. cbv beta. lia.
    + split; [done|]. intros H. exfalso. by apply (has_all_gap sn k c b).
Qed.

(** ** The place of the group *)

Lemma first_segment_ok sn a b t : (forall c, last a = Some c -> rx_sn c <> sn) ->
  Forall (fun c => rx_sn c = sn) b -> forall j, (j <= length b)%nat ->
  first_segment sn (a ++ b ++ t) (length a + j) = length a.
Proof.
  intros Ha Hb. induction j as [|j IH]; intros Hj.
  - rewrite Nat.add_0_r. destruct a as [|c a _] using rev_ind; [done|].
    rewrite length_app. cbn [length]. rewrite Nat.add_1_r. cbn [first_segment].
    rewrite <- app_assoc. cbn [app]. rewrite list_lookup_middle by done.
    rewrite (proj2 (Z.eqb_neq _ _)); [done|]. apply Ha. by rewrite last_snoc.
  - rewrite Nat.add_succ_r. cbn [first_segment]. rewrite lookup_app_r by lia.
    replace (length a + j - length a)%nat with j by lia. rewrite lookup_app_l by lia.
    destruct (lookup_lt_is_Some_2 b j) as [c Hc]; [lia|]. rewrite Hc.
    rewrite Forall_lookup in Hb. rewrite (Hb j c Hc), Z.eqb_refl. apply IH. lia.
Qed.

Lemma mark_all_group sn b t : Forall (fun c => rx_sn c = sn) b -> other sn t ->
  mark_all sn (b ++ t) = ((fun c => c <| all_segments_received := true |>) <$> b) ++ t.
Proof.
  intros Hb Ht. induction Hb as [|c b Hc _ IH]; cbn [app fmap list_fmap mark_all].
  - destruct t as [|c t]; [done|]. cbn [mark_all].
    rewrite (proj2 (Z.eqb_neq _ _)); [done|]. by apply (Ht c t).
  - by rewrite Hc, Z.eqb_refl, IH.
Qed.

Lemma has_all_start sn c b : group sn (c :: b) -> 0 < start c -> ~ has_all 0 (c :: b).
Proof. intros Hg H. by apply (has_all_gap sn). Qed.

(** C12.  The segments of a PDU that has been resegmented are taken to be all there exactly
    when they are.  For a group of segments of one number that lies somewhere in the
    buffer, in order and without overlap, whichever of them has just been inserted,
    [rlc_am_rx_check_all_byte_segments] marks all of them, and nothing else in the
    buffer, if every byte of the PDU from the first up to the end of the last segment
    is in one of them and there are two segments at least; otherwise it marks none. *)
Theorem am_rx_segments_complete sn a b t i :
  group sn b -> Forall (fun c => 0 <= start c) b ->
  (forall c, last a = Some c -> rx_sn c <> sn) -> other sn t ->
  (length a <= i < length a + length b)%nat ->
  exists f : bool, rlc_am_rx_check_all_byte_segments i (a ++ b ++ t) =
      a ++ (if f then (fun c => c <| all_segments_received := true |>) <$> b else b) ++ t /\
    (f = true <-> has_all 0 b /\ (1 < length b)%nat).
Proof.
  intros Hg H0 Ha Ht Hi. pose proof Hg as [Hsn _ Hrf _ _].
  assert (Hj : exists j, i = (length a + j)%nat /\ (j < length b)%nat)
    by (exists (i - length a)%nat; lia).
  destruct Hj as (j & -> & Hj). destruct (lookup_lt_is_Some_2 b j Hj) as [tb Htb].
  unfold rlc_am_rx_check_all_byte_segments.
  rewrite lookup_app_r by lia. replace (length a + j - length a)%nat with j by lia.
  rewrite lookup_app_l, Htb by lia.
  pose proof (Forall_lookup_1 _ _ _ _ Hrf Htb) as Htf. cbv beta in Htf. rewrite Htf.
  rewrite (Forall_lookup_1 _ _ _ _ Hsn Htb). change (1 =? 0) with false. cbv iota zeta.
  rewrite (first_segment_ok sn a b t Ha Hsn) by lia. rewrite drop_app_length.
  unfold rlc_am_rx_mark_all_segments_received. rewrite take_app_length, drop_app_length.
  destruct b as [|c b]; [done|]. cbn [app]. apply Forall_cons in H0 as [H0 _].
  destruct (Z.eqb_spec (start c) 0) as [E|E]; cbn [negb].
  2: { exists false. split; [done|]. split; [done|]. intros [H _].
       exfalso. apply (has_all_start sn c b); [done|lia|done]. }
  destruct (group_tail sn c b Hg) as [Hg' Hlt].
  assert (Hcond : segments_complete sn (di_payload_size (pdu_info c)) (b ++ t) = true
    <-> has_all 0 (c :: b) /\ (1 < length (c :: b))%nat).
  { rewrite segments_complete_ok; [|done..|].
    - rewrite <- E, (has_all_cons sn) by done. unfold di_end. rewrite E.
      replace (0 + di_payload_size (pdu_info c) - 1 + 1) with (di_payload_size (pdu_info c)) by lia.
      destruct b as [|d b]; [|cbn [length]; split; [split; [by right|lia]|]].
      + cbn [length]. split; [by intros ?%has_all_nil|lia].
      + intros [[[? _]|?] _]; done.
    - eapply Forall_impl; [exact Hlt|]. unfold di_end. rewrite E. cbv beta. lia. }
  destruct (segments_complete sn _ (b ++ t)).
  - exists true. split; [|exact Hcond]. change (c :: b ++ t) with ((c :: b) ++ t).
    by rewrite mark_all_group.
  - exists false. split; [done|exact Hcond].
Qed.
