(* ===== verification/RlcAmReportTotal.v ===== *)
(** RLC AM v9.3.0: the loops that make up a STATUS PDU come to an end, whatever the
    buffer. *)
From S2P Require Import Prelude.
From S2P Require Import RlcAmEntity.
From S2P Require Import RlcAmSn.
From S2P Require Import RlcAmStatus.
From S2P Require Import RlcAmRx.
From S2P Require Import RlcAmStatusReport.

Local Open Scope Z_scope.

(** [r] is not out of fuel, and what it gives satisfies [P]. *)
Definition ends {A} (r : res A) (P : A -> Prop) : Prop :=
  match r with Ok x => P x | Err e => e <> EFuel end.

Lemma ends_bind {A B} (r : res A) (f : A -> res B) P Q :
  ends r P -> (forall x, P x -> ends (f x) Q) -> ends (x ← r; f x) Q.
Proof. destruct r; cbn; auto. Qed.

Lemma ends_mono {A} (r : res A) (P Q : A -> Prop) : ends r P -> (forall x, P x -> Q x) -> ends r Q.
Proof. destruct r; cbn; auto. Qed.

Lemma ends_guard b e : e <> EFuel -> ends (res_guard b e) (fun _ => True).
Proof. by destruct b. Qed.

Lemma ends_rd (l : list Z) i : ends (rd l i) (fun _ => True).
Proof. unfold rd. by repeat case_match. Qed.

Lemma ends_wr (l : list Z) i x : ends (wr l i x) (fun _ => True).
Proof. unfold wr. by repeat case_match. Qed.

(** ** The report *)

Section report.
Abbreviation sns := (Forall (fun c => sn_ok (rx_sn c))).

Lemma push_nack_ends n bits s : ends (push_nack n bits s) (fun s' => previous_sn s' = previous_sn s).
Proof. unfold push_nack. by destruct (_ <? _). Qed.

(** The result of a part of the loop: [previous_sn] stays a sequence number. *)
Definition goes {A} (P : A -> Prop) (o : outcome A) : Prop :=
  match o with GoOn x => P x | Stop _ _ => True end.

Lemma nack_missing_ends sn : sn_ok sn -> forall fuel s, sn_ok (previous_sn s) ->
  dist (sn_after (previous_sn s)) sn < Z.of_nat fuel ->
  ends (nack_missing fuel sn s) (goes (fun s' => sn_ok (previous_sn s'))).
Proof.
  intros Hsn. induction fuel as [|fuel IH]; intros s Hs Hf.
  { pose proof (dist_range (sn_after (previous_sn s)) sn). lia. }
  cbn [nack_missing]. destruct (Z.eqb_spec (sn_after (previous_sn s)) sn) as [|Hne]; [done|].
  destruct (12 <? nb_bits s); [|done]. cbv zeta.
  eapply ends_bind; [apply push_nack_ends|]. intros s' Hs'.
  change (previous_sn s' = sn_after (previous_sn s)) in Hs'.
  pose proof (next_sn_ok (previous_sn s)) as Hok. apply IH; rewrite Hs'; [done|].
  rewrite dist_next; [lia|done|done|congruence].
Qed.

Lemma nack_segments_ends sn : sn_ok sn -> forall l w c s, sns l -> sn_ok (previous_sn s) ->
  rx_sn c = sn ->
  ends (nack_segments w c l sn s) (goes (fun '(_, d, l', s') =>
    sns (d :: l') /\ (length (d :: l') <= length l)%nat /\ sn_ok (previous_sn s'))).
Proof.
  intros Hsn. induction l as [|d l IH]; intros w c s Hl Hs Hc; cbn [nack_segments].
  all: eapply ends_bind with (P := goes (fun s' => previous_sn s' = previous_sn s));
    [destruct (w <? _); [destruct (42 <=? _); [|done]|done]; eapply ends_bind;
       [apply push_nack_ends|by intros]|].
  all: intros [s'|ack s'] Hs'; [|done]. { done. }
  apply Forall_cons in Hl as [Hd Hl]. destruct (Z.eqb_spec (rx_sn d) sn) as [E|E].
  - rewrite E. eapply ends_mono; [by apply IH|]. intros [[[[? d'] l'] s2]|]; [|done].
    cbn [goes length]. intros (? & ? & ?). split; [done|]. split; [lia|done].
  - split; [by constructor|]. cbn [length]. by split; [lia|].
Qed.

Lemma nack_last_ends w s : ends (nack_last_segment w s)
  (goes (fun s' => previous_sn s' = previous_sn s)).
Proof.
  unfold nack_last_segment. destruct (negb _); [|done]. destruct (42 <=? _); [|done].
  eapply ends_bind; [apply push_nack_ends|by intros].
Qed.

Lemma skip_segments_goes s l : forall c, sns (c :: l) ->
  goes (fun '(d, l') => sns (d :: l') /\ (length l' <= length l)%nat) (skip_segments c l s).
Proof.
  induction l as [|d l IH]; intros c Hl; cbn [skip_segments]; [done|].
  apply Forall_cons in Hl as [_ Hl]. destruct (_ =? _).
  - specialize (IH d Hl). destruct (skip_segments d l s) as [[d' l']|]; [|done].
    cbn [goes length] in *. destruct IH. split; [done|lia].
  - cbn [goes length]. split; [done|lia].
Qed.

Lemma report_loop_ends : forall fuel l s, sns l -> sn_ok (previous_sn s) -> (length l < fuel)%nat ->
  ends (report_loop fuel l s) (fun _ => True).
Proof.
  induction fuel as [|fuel IH]; intros l s Hl Hs Hf; [lia|]. cbn [report_loop].
  destruct l as [|c l]; [done|]. destruct (negb _); [done|]. cbn [length] in Hf.
  set (o := if _ =? _ then skip_segments c l s else GoOn (c, l)).
  assert (Ho : goes (fun '(d, l') => sns (d :: l') /\ (length l' <= length l)%nat) o).
  { subst o. destruct (_ =? _); [by apply skip_segments_goes|]. by split. }
  destruct o as [[d l']|]; [|done]. destruct Ho as [Hl' Hlen].
  pose proof Hl' as [Hd Hl'']%Forall_cons.
  eapply ends_bind.
  { apply nack_missing_ends; [exact Hd|exact Hs|].
    pose proof (dist_range (sn_after (previous_sn s)) (rx_sn d)). lia. }
  intros [s1|] Hs1; [|done]. destruct (all_segments_received d).
  { apply IH; [done|exact Hd|lia]. }
  eapply ends_bind; [by apply nack_segments_ends|].
  intros [[[[w d2] l2] s2]|]; [|done]. intros (Hl2 & Hlen2 & Hs2).
  eapply ends_bind; [apply nack_last_ends|]. intros [s3|]; [|done]. intros E.
  cbn [goes] in E. apply IH; [done|by rewrite E|lia].
Qed.

Lemma find_window_ends e l : forall p, sns l -> sn_ok p ->
  ends (find_window e p l) (fun '(p', l') => sns l' /\ sn_ok p').
Proof.
  induction l as [|c l IH]; intros p Hl Hp; cbn [find_window]; [done|].
  destruct (_ =? 0); [|done]. apply Forall_cons in Hl as [Hc Hl]. by apply IH.
Qed.

Lemma make_report_ends e : sns (receiver_buffer e) -> ends (make_report e) (fun _ => True).
Proof.
  intros Hl. unfold make_report. cbv zeta. destruct (receiver_buffer e) as [|c l]; [done|].
  assert (Hp : sn_ok (Z.land (vr_r e - 1) RLC_AM_SN_MASK)).
  { unfold RLC_AM_SN_MASK. rewrite (land_ones_mod _ 10) by lia. unfold sn_ok. div_lia. }
  eapply ends_bind; [by apply find_window_ends|]. intros [p l'] [Hl' Hp'].
  apply report_loop_ends; [done|exact Hp'|lia].
Qed.
End report.

(** ** The writer *)

Abbreviation bit_in := (fun '(_, _, bit) => 0 <= bit < 8).

Lemma write_bits_ends fuel : forall l pos bit n v, 0 <= bit < 8 -> n <= 8 * Z.of_nat fuel - bit ->
  0 <= n -> (0 < fuel)%nat ->
  ends (write_bits fuel l pos bit n v) bit_in.
Proof.
  induction fuel as [|fuel IH]; intros l pos bit n v Hb Hn Hn0 Hf; [lia|]. cbn [write_bits]. cbv zeta.
  eapply ends_bind; [apply ends_rd|]. intros b _.
  destruct (Z.ltb_spec n (8 - bit)).
  { eapply ends_bind; [apply ends_wr|]. intros l' _. cbn. lia. }
  destruct (Z.eqb_spec (8 - bit) n).
  { eapply ends_bind; [apply ends_wr|]. intros l' _. cbn. lia. }
  eapply ends_bind; [apply ends_wr|]. intros l' _.
  destruct (Z.ltb_spec 0 (n - (8 - bit))); [|cbn; lia]. apply IH; lia.
Qed.

Lemma write8_ends l pos bit n v : 0 <= bit < 8 -> 0 <= n <= 8 ->
  ends (rlc_am_write8_bit_field l pos bit n v) bit_in.
Proof. intros. apply write_bits_ends; lia. Qed.

Lemma write16_ends l pos bit n v : 0 <= bit < 8 -> 0 <= n <= 16 ->
  ends (rlc_am_write16_bit_field l pos bit n v) bit_in.
Proof.
  intros Hb Hn. unfold rlc_am_write16_bit_field.
  eapply ends_bind; [by apply ends_guard|]. intros _ _. cbv zeta.
  destruct (Z.ltb_spec 8 n); [|apply write8_ends; lia].
  eapply ends_bind; [apply write8_ends; lia|]. intros [[l1 p1] b1] H1. apply write8_ends; lia.
Qed.

Lemma write_nacks_ends ns : forall l pos bit, 0 <= bit < 8 -> ends (write_nacks ns l pos bit) bit_in.
Proof.
  induction ns as [|n ns IH]; intros l pos bit Hb; [done|]. cbn [write_nacks].
  apply ends_bind with (P := bit_in); [|intros [[l1 p1] b1] H1; by apply IH]. unfold write_nack.
  eapply ends_bind; [apply write16_ends; lia|]. intros [[l1 p1] b1] H1.
  eapply ends_bind; [apply write8_ends; lia|]. intros [[l2 p2] b2] H2.
  eapply ends_bind; [apply write8_ends; lia|]. intros [[l3 p3] b3] H3.
  destruct (0 <? _); [|done].
  eapply ends_bind; [apply write16_ends; lia|]. intros [[l4 p4] b4] H4. apply write16_ends; lia.
Qed.

Lemma write_status_ends i l : ends (rlc_am_write_status_pdu i l) (fun _ => True).
Proof.
  unfold rlc_am_write_status_pdu.
  eapply ends_bind; [apply write16_ends; lia|]. intros [[l1 p1] b1] H1.
  eapply ends_bind; [apply write8_ends; lia|]. intros [[l2 p2] b2] H2.
  eapply ends_bind; [by apply write_nacks_ends|]. by intros [[l3 p3] b3].
Qed.

(** C24.  The making of a STATUS PDU comes to an end, whatever lies in the receiver
    buffer: PDUs and segments in any order, repeated, inside or outside of the window,
    marked complete or not, and whatever grant.  The search for the window, the loop
    over the buffer, the three loops in it (one of them counts sequence numbers up
    to the one found) and the writer's loops all stop, after a number of turns that
    depends on the length of the buffer only; the fuel of the model is never used up. *)
Theorem am_status_report_terminates alloc e :
  Forall (fun c => sn_ok (rx_sn c)) (receiver_buffer e) ->
  rlc_am_send_status_pdu alloc e <> Err EFuel.
Proof.
  intros Hl. assert (H : ends (rlc_am_send_status_pdu alloc e) (fun _ => True)).
  2: { intros E. by rewrite E in H. }
  unfold rlc_am_send_status_pdu. eapply ends_bind; [by apply make_report_ends|].
  intros [ack s] _. cbv zeta. do 2 (eapply ends_bind; [by apply ends_guard|]; intros _ _).
  eapply ends_bind; [apply write_status_ends|]. intros [l n] _.
  eapply ends_bind; [by apply ends_guard|]. done.
Qed.
