(* ===== verification/RlcAmRxExamples.v ===== *)
(** RLC AM v9.3.0, the receiving side: the theorems at concrete inputs, and what the
    model showed of the code. *)
From S2P Require Import Prelude.
From S2P Require Import RlcUmHeader.
From S2P Require Import RlcAmEntity.
From S2P Require Import RlcAmSn.
From S2P Require Import RlcAmStatus.
From S2P Require Import RlcAmStatusSpec.
From S2P Require Import RlcAmRetransmit.
From S2P Require Import RlcAmHolesSpec.
From S2P Require Import RlcAmArqSpec.
From S2P Require Import RlcAmStatusRefine.
From S2P Require Import RlcAmExamples.
From S2P Require Import RlcAmRx.
From S2P Require Import RlcAmReassembly.
From S2P Require Import RlcAmRxList.
From S2P Require Import RlcAmReceiver.
From S2P Require Import RlcAmStatusReport.
From S2P Require Import RlcAmRxListSpec.
From S2P Require Import RlcAmHeaderSpec.
From S2P Require Import RlcAmReassemblySpec.
From S2P Require Import RlcAmReceiverSpec.
From S2P Require Import RlcAmStatusReportSpec.
From S2P Require Import RlcAmSegmentsSpec.
From S2P Require Import RlcAmReportTotal.
From stdpp Require Import sorting.

Local Open Scope Z_scope.

(** ** A receiver and a stream *)

(** As [rlc_am_reset_state_variables] leaves it, with a grant of five bytes. *)
Definition am_rx0 : am_rx :=
  AmRx [] None 0 0 512 0 0 0 no_timer no_timer false 5 [] 0 0 0 0 0 0 0 0 0 0 0 0 0 [] [].

Lemma am_rx0_fresh : am_fresh am_rx0.
Proof. by split. Qed.

(** Of two PDUs, the first has an SDU of two bytes and the first half of another, the
    second the other half. *)
Definition two_by_two (n : Z) : umd :=
  if Z.even n then Umd true false [[1; 2]] [3; 4] else Umd false true [] [5].

Lemma two_by_two_upto k : (sdus_upto two_by_two k).1 = if Nat.even k then [] else [3; 4].
Proof.
  induction k as [|k IH]; [done|]. cbn [sdus_upto]. destruct (sdus_upto two_by_two k) as [p out].
  cbn [fst] in IH. subst p. rewrite Nat.even_succ, <- Nat.negb_even. unfold two_by_two.
  replace (Z.even (Z.of_nat k)) with (Nat.even k); [by destruct (Nat.even k)|].
  apply Bool.eq_iff_eq_true. rewrite Nat.even_spec, Z.even_spec. split.
  - intros [m ->]. exists (Z.of_nat m). lia.
  - intros [m E]. exists (Z.to_nat m). lia.
Qed.

Lemma two_by_two_stream : am_stream two_by_two 500.
Proof.
  split.
  - intros n _. unfold two_by_two. destruct (Z.even n); (split; [|vm_compute; congruence|done|done]).
    + constructor; [split; [by vm_compute|done]|constructor].
    + constructor.
  - intros k _. rewrite two_by_two_upto. unfold two_by_two.
    replace (Z.even (Z.of_nat k)) with (Nat.even k).
    2: { apply Bool.eq_iff_eq_true. rewrite Nat.even_spec, Z.even_spec. split.
         - intros [m ->]. exists (Z.of_nat m). lia.
         - intros [m E]. exists (Z.to_nat m). lia. }
    destruct (Nat.even k); (split; [done| |done|]).
    + constructor; [done|constructor].
    + by vm_compute.
    + constructor.
    + by vm_compute.
Qed.

(** Before the numbers wrap all is timely. *)
Lemma timely_small got n : Forall (fun m => 0 <= m < 500) got -> 0 <= n < 500 -> timely 500 got n.
Proof.
  intros Hg Hn. split; [lia|]. intros r (Hr0 & _ & Hall).
  assert (Hr5 : r <= 500).
  { destruct (Z.le_gt_cases r 500) as [|Hr]; [done|]. specialize (Hall 500 ltac:(lia)).
    rewrite Forall_forall in Hg. specialize (Hg 500 Hall). lia. }
  split; [lia|]. intros (Hf & _ & _). rewrite Z.mod_small in Hf by lia. lia.
Qed.

Lemma first_missing_unique got r r' : first_missing got r -> first_missing got r' -> r = r'.
Proof.
  intros (H0 & H1 & H2) (H0' & H1' & H2'). destruct (Z.lt_trichotomy r r') as [?|[?|?]]; [|done|].
  - destruct H1. apply H2'. lia.
  - destruct H1'. apply H2. lia.
Qed.

Lemma timely_all_small arrs : forall got, Forall (fun m => 0 <= m < 500) got ->
  Forall (fun a => 0 <= arr_sn a < 500) arrs -> timely_all 500 got arrs.
Proof.
  induction arrs as [|a arrs IH]; intros got Hg Ha; [done|]. apply Forall_cons in Ha as [Ha Has].
  split; [by apply timely_small|]. apply IH; [by constructor|done].
Qed.

Definition arrive (n : Z) : arrival := Arrival n (Z.even n) 7 [0xAA] 0.

(** PDUs 0 to 3 out of order, one of them twice. *)
Definition some_arrivals : list arrival := arrive <$> [1; 0; 3; 1; 2].


Lemma am_get_data_pdu_infos_encode_witness :
  rlc_am_get_data_pdu_infos
    (am_encode (Umd true false [[1; 2]; [3]; [4; 5; 6]] [7; 8]) true 1001 (Some (300, true)) ++ [9; 9]) 17
  = Ok (0, am_info (Umd true false [[1; 2]; [3]; [4; 5; 6]] [7; 8]) true 1001 (Some (300, true))).
Proof.
  apply (am_get_data_pdu_infos_encode (Umd true false [[1; 2]; [3]; [4; 5; 6]] [7; 8]) true 1001
    (Some (300, true)) [9; 9]); [split|split|split]; try done; try (vm_compute; congruence).
  repeat constructor; vm_compute; congruence.
Defined.

(** ** The buffer *)

(** The block of a PDU without length indicators; of a segment of one. *)
Definition a_block (sn size : Z) (seg : option (Z * bool)) : am_rx_pdu :=
  AmRxPdu (am_info (Umd true true [] (replicate (Z.to_nat size) 7)) false sn seg) false [].

Definition wrapped_buffer : list am_rx_pdu :=
  [a_block 1021 5 None; a_block 1023 4 (Some (0, false)); a_block 1023 4 (Some (8, true));
   a_block 2 5 None].

Definition wrapped_rx : am_rx :=
  am_rx0 <| receiver_buffer := wrapped_buffer |> <| vr_r := 1020 |> <| vr_mr := 508 |> <| vr_h := 3 |>.

Lemma a_block_wf sn size seg : sn_ok sn -> 0 < size -> info_wf (pdu_info (a_block sn size seg)).
Proof.
  intros Hsn Hs. split; [done|destruct seg as [[]|]; cbn; auto|].
  change (0 < zlen (concat (A := Z) []) + zlen (replicate (Z.to_nat size) 7)).
  unfold zlen. rewrite length_replicate. cbn. lia.
Qed.

Lemma wrapped_buffer_ok : buffer_ok 1020 wrapped_buffer.
Proof.
  split.
  - repeat (constructor; [apply a_block_wf; [by vm_compute|lia]|]). constructor.
  - repeat constructor; first [left; vm_compute; congruence | right; split; [done|]; by vm_compute].
  - repeat (constructor; [vm_compute; congruence|]). constructor.
Qed.

Definition between_them : am_rx_pdu := a_block 1023 4 (Some (4, false)).
Definition wrapped_result : am_rx * nat :=
  default (wrapped_rx, O) (rlc_am_rx_list_insert_pdu wrapped_rx between_them).

Lemma between_them_sound : insert_sound wrapped_rx between_them.
Proof.
  split.
  - intros (_ & H1 & _). revert H1. by vm_compute.
  - intros _. apply Forall_forall. intros c Hc (H1 & H2 & H3). exfalso. revert c Hc H1 H2 H3.
    unfold wrapped_rx. change (receiver_buffer _) with wrapped_buffer. unfold wrapped_buffer.
    intros c Hc. repeat (apply elem_of_cons in Hc as [->|Hc]); [..|by apply elem_of_nil in Hc];
      intros H1 H2 H3; first [by vm_compute in H1 | apply H2; by vm_compute | apply H3; by vm_compute].
Qed.


(** Three segments of SN 5 between two PDUs, the middle one just inserted. *)
Definition three_segments : list am_rx_pdu :=
  [a_block 5 4 (Some (0, false)); a_block 5 4 (Some (4, false)); a_block 5 2 (Some (8, true))].

Lemma three_segments_group : group 5 three_segments.
Proof.
  split; try (by repeat constructor).
  intros x c y E Hc. destruct x as [|c1 [|c2 [|c3 [|c4 x]]]]; try discriminate E.
  - injection E as <- _. by vm_compute in Hc.
  - injection E as _ <- _. by vm_compute in Hc.
  - by injection E as _ _ _ <-.
Qed.

Lemma am_rx_segments_complete_witness :
  rlc_am_rx_check_all_byte_segments 2 ([a_block 4 5 None] ++ three_segments ++ [a_block 6 5 None])
  = [a_block 4 5 None] ++ ((fun c => c <| all_segments_received := true |>) <$> three_segments)
    ++ [a_block 6 5 None].
Proof.
  destruct (am_rx_segments_complete 5 [a_block 4 5 None] three_segments [a_block 6 5 None] 2
    three_segments_group) as (f & -> & Hf).
  - by repeat constructor.
  - by intros c [= <-].
  - by intros c t' [= <- _].
  - cbn [length three_segments]. lia.
  - rewrite (proj2 Hf); [reflexivity|]. split; [|cbn [length three_segments]; lia].
    exists (a_block 5 2 (Some (8, true))). split; [reflexivity|]. split; [reflexivity|].
    intros n Hn. change (0 <= n <= 9) in Hn.
    destruct (Z.le_gt_cases n 3); [|destruct (Z.le_gt_cases n 7)].
    + exists (a_block 5 4 (Some (0, false))). split; [apply list_elem_of_here|].
      change (0 <= n <= 3). lia.
    + exists (a_block 5 4 (Some (4, false))). split; [apply list_elem_of_further, list_elem_of_here|].
      change (4 <= n <= 7). lia.
    + exists (a_block 5 2 (Some (8, true))).
      split; [do 2 apply list_elem_of_further; apply list_elem_of_here|]. change (8 <= n <= 9). lia.
Defined.

(** ** STATUS PDUs *)

(** A receiver that has got the PDUs 2 and 0. *)
Definition got_2_0 : res am_rx := receive_all two_by_two (arrive <$> [0; 2]) am_rx0.
Definition rx_2_0 : am_rx := match got_2_0 with Ok e => e | Err _ => am_rx0 end.

Lemma rx_2_0_rel : rx_rel two_by_two 500 [2; 0] 1 3 rx_2_0.
Proof.
  destruct (receive_all_rel two_by_two 500 two_by_two_stream (arrive <$> [0; 2]) [] 0 0 am_rx0
    (fresh_rel two_by_two 500 two_by_two_stream am_rx0 am_rx0_fresh)) as (e & r & h & E & Hrel).
  { apply timely_all_small; [constructor|]. repeat constructor; vm_compute; congruence. }
  change (rev (arr_sn <$> (arrive <$> [0; 2])) ++ []) with [2; 0] in Hrel.
  assert (Ee : rx_2_0 = e) by (unfold rx_2_0, got_2_0; by rewrite E). rewrite <- Ee in Hrel.
  pose proof Hrel as [Hm _ _ _ Hr Hb Hh _ _].
  assert (Hm1 : first_missing [2; 0] 1).
  { split; [lia|]. split; [rewrite !elem_of_cons, elem_of_nil; lia|]. intros n Hn.
    rewrite !elem_of_cons. lia. }
  rewrite (first_missing_unique _ _ _ Hm Hm1) in *.
  rewrite Forall_forall in Hb. pose proof (Hb 2 (list_elem_of_here _ _)).
  assert (h = 3) as ->; [|done]. destruct Hh as [->|Hh]; [lia|].
  rewrite !elem_of_cons, elem_of_nil in Hh. lia.
Qed.


(** The transmitter has sent four PDUs. *)
Definition sent_four : am_tx :=
  four_pdus <| pdu_retrans_buffer := {[ 0 := a_pdu 0; 1 := a_pdu 1; 2 := a_pdu 2; 3 := a_pdu 3 ]} |>
            <| vt_a := 0 |> <| vt_ms := 512 |> <| vt_s := 4 |>.

Lemma sent_four_arq : arq two_by_two 500 [2; 0] 0 4 1 3 sent_four rx_2_0.
Proof.
  split; [exact rx_2_0_rel|apply tx_check_ok; vm_compute; reflexivity|done|done|lia|].
  intros n Hn Hg. rewrite !elem_of_cons, elem_of_nil in Hg. assert (n = 1 \/ n = 3) as [->| ->] by lia;
    vm_compute; reflexivity.
Qed.


(** A buffer no receiver leaves: numbers repeated, out of order, a part of a PDU. *)
Definition disorder : am_rx :=
  am_rx0 <| receiver_buffer := [a_block 7 5 None; a_block 3 4 (Some (2, true)); a_block 7 5 None] |>
         <| vr_r := 5 |> <| vr_mr := 517 |>.

Lemma am_status_report_terminates_witness : rlc_am_send_status_pdu true disorder <> Err EFuel.
Proof.
  apply (am_status_report_terminates true disorder).
  repeat (constructor; [vm_compute; split; congruence|]). constructor.
Defined.

(** ** What the model showed *)

Fixpoint receive_bytes (pdus : list (list Z)) (e : am_rx) : res am_rx :=
  match pdus with
  | [] => Ok e
  | p :: pdus => e ← rlc_am_receive_process_data_pdu e 0 p (zlen p) 0; receive_bytes pdus e
  end.

(** A PDU with an SDU of one byte, and the segment of a PDU. *)
Definition small_pdu (sn : Z) : list Z := am_encode (Umd true true [] [7]) false sn None.
Definition small_segment (sn so : Z) (n : nat) (lsf : bool) : list Z :=
  am_encode (Umd (bool_decide (so = 0)) lsf [] (replicate n 7)) false sn (Some (so, lsf)).

Definition buffered (r : res am_rx) : option (list Z * Z * Z) :=
  match r with Ok e => Some (rx_sn <$> receiver_buffer e, vr_r e, vr_ms e) | Err _ => None end.

(** ACK_SN and the NACK_SNs of the STATUS PDU a receiver sends. *)
Definition reported (r : res am_rx) : option (Z * list Z) :=
  match e ← r; rlc_am_send_status_pdu true (e <| nb_bytes_requested_by_mac := 20 |>) with
  | Ok e =>
      match control_pdu_list e with
      | p :: _ => match rlc_am_get_control_pdu_infos (p ++ [0; 0; 0]) (zlen p) with
                  | Ok (_, i, _) => Some (ack_sn i, nack_sn_ <$> nack_list i)
                  | Err _ => None
                  end
      | [] => None
      end
  | Err _ => None
  end.

(** VR(R) is 1020 and the buffer begins behind the end of the numbers: a PDU before it,
    also behind the end, is put at its end. *)
Definition at_1020 : am_rx := am_rx0 <| vr_r := 1020 |> <| vr_mr := 508 |> <| vr_h := 1020 |>.
Example front_goes_to_the_tail :
  buffered (receive_bytes (small_pdu <$> [2; 1]) at_1020) = Some ([2; 1], 1020, 0).
Proof. vm_compute. reflexivity. Qed.

(** Once all the others have come VR(R) is 1, which is in the buffer, and 1 is asked for
    again.  When it comes again the first copy remains; with the next PDU, 3, that
    copy is delivered once more, and 3 is not. *)
Definition front_run : list Z := [2; 1; 1020; 1021; 1022; 1023; 0; 1; 3].
Definition numbered_pdu (sn : Z) : list Z := am_encode (Umd true true [] [sn]) false sn None.
Example front_delivers_twice :
  match receive_bytes (numbered_pdu <$> front_run) at_1020 with
  | Ok e => Some (concat (delivered e), rx_sn <$> receiver_buffer e, vr_r e)
  | Err _ => None
  end = Some ([1020; 1021; 1022; 1023; 0; 1; 2; 1], [3], 4).
Proof. vm_compute. reflexivity. Qed.

(** And the STATUS PDU asks for PDUs that were never sent, up to the end of the grant. *)
Example front_misreported :
  reported (receive_bytes (small_pdu <$> [2; 1]) at_1020)
  = Some (9, [1020; 1021; 1022; 1023; 0; 1; 3; 4; 5; 6; 7; 8]).
Proof. vm_compute. reflexivity. Qed.

(** A PDU resegmented into one segment, with offset 0 and the last segment flag, has all
    its bytes and is never complete; the STATUS PDU acknowledges it, so that nobody
    sends it again: VR(R) stays. *)
Definition one_segment : res am_rx :=
  receive_bytes [small_segment 0 0 5 true; small_pdu 1; small_pdu 2] am_rx0.
Example one_segment_stalls : buffered one_segment = Some ([0; 1; 2], 0, 0).
Proof. vm_compute. reflexivity. Qed.
Example one_segment_acknowledged : reported one_segment = Some (3, []).
Proof. vm_compute. reflexivity. Qed.

(** With a part of a PDU at the end of the buffer ACK_SN is the number before it: with
    nothing else, that is VR(R) - 1. *)
Example part_at_the_end : reported (receive_bytes [small_segment 0 0 5 false] am_rx0) = Some (1023, []).
Proof. vm_compute. reflexivity. Qed.

(** VR(MS) goes past PDUs that are missing: 3 has not arrived. *)
Example vr_ms_skips :
  buffered (receive_bytes (small_pdu <$> [0; 2; 4; 1]) am_rx0) = Some ([4], 3, 5).
Proof. vm_compute. reflexivity. Qed.

(** The 33rd length indicator is written behind the end of [li_list] before the test. *)
Example too_many_indicators :
  rlc_am_get_data_pdu_infos (am_encode (Umd true true (replicate 33 [7]) [7]) false 0 None) 86
  = Err EBounds.
Proof. vm_compute. reflexivity. Qed.

(** A length indicator of 0, and an SDU whose last part makes it longer than 9000
    bytes, fail an assertion of [rlc_am_send_sdu]. *)
Example empty_sdu_stops :
  receive_bytes [am_encode (Umd true true [[]] [7]) false 0 None] am_rx0 = Err EAssert.
Proof. vm_compute. reflexivity. Qed.
Definition long_part (sn : Z) : list Z :=
  am_encode (Umd (bool_decide (sn = 0)) (bool_decide (sn = 4)) [] (replicate 2000 7)) false sn None.
Example long_sdu_stops : receive_bytes (long_part <$> [0; 1; 2; 3; 4]) am_rx0 = Err EAssert.
Proof. vm_compute. reflexivity. Qed.

(** [rlc_am_check_timer_reordering] returns at once: t-Reordering never expires. *)
Example reordering_never_expires e frame :
  timed_out (t_reordering (rlc_am_check_timer_reordering e frame)) = timed_out (t_reordering e).
Proof. done. Qed.
