(* ===== verification/RlcAmPlanSpec.v ===== *)
(** RLC AM v9.3.0: the SDUs of the transmitter are a queue in a ring, and the first
    loop of [rlc_am_segment_10], which counts the SDUs of the next PDU, is the one of
    RLC UM over that queue. *)
From S2P Require Import Prelude.
From S2P Require Import RlcUmEntity.
From S2P Require Import RlcUmHeader.
From S2P Require Import RlcUmReassemblySpec.
From S2P Require Import RlcUmHeaderSpec.
From S2P Require Import RlcUmSegment.
From S2P Require Import RlcUmSegmentSpec.
From S2P Require Import RlcAmEntity.
From S2P Require Import RlcAmSn.
From S2P Require Import RlcAmRx.
From S2P Require Import RlcAmSender.
From S2P Require Import RlcAmSegment.
From S2P Require Import RlcAmHeaderSpec.

Local Open Scope Z_scope.
Local Open Scope c_scope.

Local Abbreviation um_rem := RlcUmEntity.sdu_remaining_size.
Local Abbreviation um_seg := RlcUmEntity.sdu_segmented_size.
Local Abbreviation um_size := RlcUmEntity.sdu_size.

(** ** The ring *)

(** A slot holds the SDU [u], or an SDU without data. *)
Record slot_is (s : am_tx_sdu) (u : um_tx_sdu) : Prop := SlotIs {
  sl_block : exists rest, sdu_mem_block s = Some (sdu_payload u ++ rest);
  sl_rem : sdu_remaining_size s = um_rem u;
  sl_seg : sdu_segmented_size s = um_seg u;
  sl_size : sdu_size s = um_size u;
  sl_flag : transmitted_successfully s = false
}.

Definition slot_holds (s : am_tx_sdu) (o : option um_tx_sdu) : Prop :=
  match o with Some u => slot_is s u | None => sdu_mem_block s = None end.

(** The slot [k] behind the current one. *)
Definition slot_of (cur k : Z) : Z := (cur + k) mod 128.

(** The SDUs to be sent are [q]. *)
Record queued (e : am_tx) (q : list um_tx_sdu) : Prop := Queued {
  qd_cur : 0 <= current_sdu_index e < 128;
  qd_len : zlen q < 128;
  qd_next : next_sdu_index e = slot_of (current_sdu_index e) (zlen q);
  qd_slots : forall k, 0 <= k < 128 ->
    slot_holds (sdu_at e (slot_of (current_sdu_index e) k)) (q !! Z.to_nat k)
}.

Lemma slot_of_range c k : 0 <= slot_of c k < 128.
Proof. unfold slot_of. div_lia. Qed.

Lemma slot_of_0 c : 0 <= c < 128 -> slot_of c 0 = c.
Proof. unfold slot_of. intros. div_lia. Qed.

Lemma slot_of_inj c j k : 0 <= j < 128 -> 0 <= k < 128 -> slot_of c j = slot_of c k -> j = k.
Proof. unfold slot_of. intros. div_lia. Qed.

(** [(i + 1) % RLC_AM_SDU_CONTROL_BUFFER_SIZE]. *)
Lemma slot_next c k :
  (slot_of c k + 1) %% RLC_AM_SDU_CONTROL_BUFFER_SIZE = slot_of c (k + 1).
Proof.
  unfold RLC_AM_SDU_CONTROL_BUFFER_SIZE. pose proof (slot_of_range c k).
  rewrite Z.rem_mod_nonneg by lia. unfold slot_of. div_lia.
Qed.

Lemma slot_shift c k : slot_of (slot_of c 1) k = slot_of c (k + 1).
Proof. unfold slot_of. div_lia. Qed.

(** Every slot is one of the 128. *)
Lemma slot_of_all c i : 0 <= i < 128 -> exists k, 0 <= k < 128 /\ i = slot_of c k.
Proof. intros Hi. exists ((i - c) mod 128). unfold slot_of. split; div_lia. Qed.

(** Writing a slot. *)
Definition write_sdu (e : am_tx) (i : Z) (s : am_tx_sdu) : am_tx :=
  e <| input_sdus := <[i := s]> (input_sdus e) |>.

Lemma slot_read e i : 0 <= i < 128 -> sdu_read e i = Ok (sdu_at e i).
Proof.
  intros Hi. unfold sdu_read, sdu_in_bounds, RLC_AM_SDU_CONTROL_BUFFER_SIZE.
  by rewrite (proj2 (Z.leb_le _ _)), (proj2 (Z.ltb_lt _ _)) by lia.
Qed.

Lemma slot_write e i s : 0 <= i < 128 -> sdu_write e i s = Ok (write_sdu e i s).
Proof.
  intros Hi. unfold sdu_write, sdu_in_bounds, RLC_AM_SDU_CONTROL_BUFFER_SIZE.
  by rewrite (proj2 (Z.leb_le _ _)), (proj2 (Z.ltb_lt _ _)) by lia.
Qed.

Lemma sdu_at_write e i s j : sdu_at (write_sdu e i s) j = if decide (i = j) then s else sdu_at e j.
Proof.
  unfold sdu_at, write_sdu, update. cbn [input_sdus].
  case_decide as H; [subst; by rewrite lookup_insert_eq|by rewrite lookup_insert_ne].
Qed.

(** The slot of an SDU of the queue. *)
Lemma queued_slot e q k u : queued e q -> q !! k = Some u ->
  slot_is (sdu_at e (slot_of (current_sdu_index e) (Z.of_nat k))) u.
Proof.
  intros [_ Hl _ Hs] Hk. pose proof (lookup_lt_Some _ _ _ Hk) as Hlt. unfold zlen in Hl.
  specialize (Hs (Z.of_nat k) ltac:(lia)). by rewrite Nat2Z.id, Hk in Hs.
Qed.

Lemma queued_head e u q : queued e (u :: q) -> slot_is (sdu_at e (current_sdu_index e)) u.
Proof.
  intros H. pose proof (queued_slot e _ 0 u H eq_refl) as Hs.
  change (Z.of_nat 0) with 0 in Hs. by rewrite slot_of_0 in Hs by apply H.
Qed.

Lemma queued_nil e : queued e [] -> sdu_mem_block (sdu_at e (current_sdu_index e)) = None.
Proof.
  intros [Hc _ _ Hs]. specialize (Hs 0 ltac:(lia)). by rewrite slot_of_0 in Hs.
Qed.

(** Slots with the same data hold the same queue. *)
Lemma queued_same e e' q : queued e q ->
  current_sdu_index e' = current_sdu_index e -> next_sdu_index e' = next_sdu_index e ->
  (forall i o, 0 <= i < 128 -> slot_holds (sdu_at e i) o -> slot_holds (sdu_at e' i) o) ->
  queued e' q.
Proof.
  intros [Hc Hl Hn Hs] Ec En H. split; rewrite ?Ec, ?En; try done.
  intros k Hk. apply H; [apply slot_of_range|by apply Hs].
Qed.

(** ** How many SDUs fill the PDU *)

(** [e'] is [e] with other counts of PDUs in its SDUs. *)
Record recounted (e e' : am_tx) : Prop := Recounted {
  rc_rest : e' = e <| input_sdus := input_sdus e' |>;
  rc_slot i : exists n, sdu_at e' i = (sdu_at e i) <| nb_pdus := n |>
}.

Lemma recounted_refl e : recounted e e.
Proof. split; [by destruct e|]. intros i. exists (nb_pdus (sdu_at e i)). by destruct (sdu_at e i). Qed.

Lemma recounted_queued e e' q : recounted e e' -> queued e q -> queued e' q.
Proof.
  intros [Hr Hs] Hq. apply (queued_same e); [done|by rewrite Hr|by rewrite Hr|].
  intros i o _ Ho. destruct (Hs i) as [n ->]. destruct o as [u|]; [|done].
  by destruct Ho as [? ? ? ? ?].
Qed.

Lemma recounted_write e0 e i n : recounted e0 e ->
  recounted e0 (write_sdu e i ((sdu_at e i) <| nb_pdus := n |>)).
Proof.
  intros [Hr Hs]. split.
  - rewrite Hr at 1. by destruct e0.
  - intros j. rewrite sdu_at_write. destruct (Hs j) as [m Hm].
    case_decide as H; [subst; exists n|by exists m]. rewrite Hm. by destruct (sdu_at e0 j).
Qed.

(** The SDUs a PDU refers to: [n] of them, in the slots of the queue [q]. *)
Record refers (c : Z) (q : list um_tx_sdu) (p : am_tx_pdu) : Prop := Refers {
  rf_len : length (sdus_index p) = 32%nat;
  rf_num : 0 <= nb_sdus p <= 32;
  rf_all : Forall (fun i => 0 <= i < 128) (sdus_index p);
  rf_slots i : 0 <= i < nb_sdus p ->
    exists k, 0 <= k < zlen q /\ sdus_index p !! Z.to_nat i = Some (slot_of c k)
}.

Lemma link_sdu_ok c q p e k :
  refers c q p -> nb_sdus p < 32 -> 0 <= k < zlen q ->
  0 <= nb_pdus (sdu_at e (slot_of c k)) < 31 ->
  exists p', link_sdu (slot_of c k) p e
    = Ok (p', write_sdu e (slot_of c k)
                ((sdu_at e (slot_of c k)) <| nb_pdus := nb_pdus (sdu_at e (slot_of c k)) + 1 |>)) /\
    refers c q p' /\ p' = p <| sdus_index := sdus_index p' |> <| nb_sdus := nb_sdus p + 1 |>.
Proof.
  intros [Hl Hn Ha Hs] Hn32 Hk Hb. pose proof (slot_of_range c k) as Hr. unfold link_sdu.
  destruct (list_split (sdus_index p) (nb_sdus p)) as (a & b & E & Hla); [unfold zlen; lia|].
  assert (Hlb : zlen b = 32 - nb_sdus p)
    by (pose proof (f_equal zlen E) as E'; rewrite zlen_app in E'; unfold zlen in *; lia).
  destruct b as [|x b]; [change (zlen (@nil Z)) with 0 in Hlb; lia|].
  rewrite E. replace (nb_sdus p) with (zlen a) by done.
  change (a ++ x :: b) with (a ++ [x] ++ b). rewrite (wr_app a [x]) by done. rewrite res_ok_bind.
  cbv zeta. rewrite slot_read, res_ok_bind by done. unfold RLC_AM_MAX_SDU_FRAGMENTS.
  set (s := sdu_at e (slot_of c k)) in *.
  rewrite (proj2 (Z.ltb_lt (nb_pdus s) 32)) by lia. cbn [res_guard]. rewrite res_ok_bind.
  rewrite (u8_small (nb_pdus s + 1)) by lia.
  change (nb_pdus (s <| nb_pdus := nb_pdus s + 1 |>)) with (nb_pdus s + 1).
  rewrite (proj2 (Z.ltb_lt (nb_pdus s + 1) 32)) by lia. cbn [res_guard].
  rewrite res_ok_bind, slot_write, res_ok_bind by done.
  rewrite (wrapS_small 8) by (change (2 ^ (8 - 1)) with 128; lia).
  eexists. split; [reflexivity|]. split.
  - rewrite E in Ha, Hl. rewrite length_app in Hl. cbn [length] in Hl.
    apply Forall_app in Ha as [Ha1 Ha2]. apply Forall_cons in Ha2 as [_ Ha2].
    split; unfold update; cbn [sdus_index nb_sdus].
    + rewrite !length_app. cbn [length]. lia.
    + lia.
    + apply Forall_app. split; [done|]. by constructor.
    + intros i Hi. destruct (decide (i = zlen a)) as [->|Hne].
      * exists k. split; [done|]. unfold zlen. rewrite Nat2Z.id. by apply list_lookup_middle.
      * destruct (Hs i) as (k' & Hk' & Hl'); [lia|]. exists k'. split; [done|].
        rewrite E in Hl'. unfold zlen in *. rewrite lookup_app_l in Hl' |- * by lia. done.
  - unfold update. cbn. by destruct p.
Qed.

(** A step of the plan is one of RLC UM. *)
Lemma plan_step_um u q n p :
  sdu_wf u -> li_state (p_li p) -> 0 < p_test p < 2147483648 ->
  (um_rem u + (3 - p_li p) < p_test p -> n < 31) ->
  let '(p', go) := am_plan_step (um_rem u) n p in
  plan_loop false (u :: q) p = (if go then plan_loop false q p' else p') /\
  (go = true -> um_rem u + (3 - p_li p) < p_test p /\ p_test p' = p_test p - um_rem u - (3 - p_li p) /\
                p_li p' = 3 - p_li p).
Proof.
  intros Hu Hli Ht Hn. pose proof (sdu_wf_bounds u Hu) as [Hb _].
  assert (Hlir : 1 <= 3 - p_li p <= 2) by (unfold li_state in Hli; lia).
  unfold am_plan_step. cbv zeta. cbn [plan_loop]. rewrite (li_xor _ Hli).
  rewrite (u32_small (um_rem u + (3 - p_li p))), (u32_small (p_test p)) by lia.
  unfold RLC_AM_MAX_SDU_IN_PDU.
  destruct (p_test p <? um_rem u); [done|]. destruct (um_rem u =? p_test p); [done|].
  destruct (_ =? p_test p); [done|].
  destruct (Z.ltb_spec (um_rem u + (3 - p_li p)) (p_test p)) as [Hlt|]; [|done].
  rewrite (proj2 (Z.leb_gt (32 - 1) n)) by (specialize (Hn Hlt); lia).
  split; [done|]. intros _. split; [done|]. split; [|done].
  unfold update. cbn [p_test]. rewrite s32_small by lia. lia.
Qed.

(** The SDUs of the queue from [j] on. *)
Lemma plan_sim c e0 q l : forall fuel j pl p e,
  queued e0 q -> c = current_sdu_index e0 -> 0 <= j -> drop (Z.to_nat j) q = l ->
  recounted e0 e -> (forall k, j <= k < zlen q -> sdu_at e (slot_of c k) = sdu_at e0 (slot_of c k)) ->
  (forall k, 0 <= k < zlen q -> 0 <= nb_pdus (sdu_at e0 (slot_of c k)) < 31) ->
  refers c q p -> nb_sdus p = j -> Forall sdu_wf l -> li_state (p_li pl) ->
  0 < p_test pl < 2147483648 -> (length l < fuel)%nat ->
  zlen (c_full (cut (p_test pl) (p_li pl) (sdu_rest <$> l))) + j <= 31 ->
  exists p' e', am_plan_loop fuel (slot_of c j) pl p e = Ok (plan_loop false l pl, p', e') /\
    recounted e0 e' /\ refers c q p' /\
    p' = p <| sdus_index := sdus_index p' |> <| nb_sdus := nb_sdus p' |>.
Proof.
  induction l as [|u l IH]; intros fuel j pl p e Hq Hc Hj Hdrop Hrc Hsame Hnb Hrf Hnj Hwf Hli Ht Hf Hcut;
    (destruct fuel as [|fuel]; [cbn in Hf; lia|]); cbn [am_plan_loop];
    rewrite slot_read, res_ok_bind by apply slot_of_range.
  - pose proof (recounted_queued e0 e q Hrc Hq) as [_ Hl _ Hs].
    assert (Hjl : zlen q <= j).
    { pose proof (f_equal length Hdrop) as E. rewrite length_drop in E. cbn in E. unfold zlen. lia. }
    destruct (sdu_mem_block (sdu_at e (slot_of c j))) eqn:Em.
    + exfalso. destruct Hrf as [_ Hn32 _ _]. rewrite Hnj in Hn32.
      specialize (Hs j ltac:(lia)). rewrite lookup_ge_None_2 in Hs by (unfold zlen in *; lia).
      assert (Ec : current_sdu_index e = c) by (by rewrite (rc_rest _ _ Hrc)).
      rewrite Ec in Hs. cbn in Hs. congruence.
    + exists p, e. split; [done|]. split; [done|]. split; [done|]. by destruct p.
  - assert (Hjq : q !! Z.to_nat j = Some u) by (rewrite <- (Nat.add_0_r (Z.to_nat j)), <- lookup_drop, Hdrop; done).
    pose proof (lookup_lt_Some _ _ _ Hjq) as Hlt.
    assert (Hjz : 0 <= j < zlen q) by (unfold zlen; lia).
    pose proof (queued_slot e0 q (Z.to_nat j) u Hq Hjq) as Hslot.
    rewrite Z2Nat.id, <- Hc in Hslot by done. rewrite (Hsame j) by lia.
    destruct Hslot as [[rest Hb] Hr _ _ _]. rewrite Hb, Hr.
    apply Forall_cons in Hwf as [Hu Hwf]. pose proof (sdu_rest_len u Hu) as Hlen.
    pose proof (sdu_wf_bounds u Hu) as [Hub _].
    assert (Hlir : 1 <= 3 - p_li pl <= 2) by (unfold li_state in Hli; lia).
    rewrite fmap_cons in Hcut. cbn [cut] in Hcut. rewrite Hlen in Hcut.
    assert (Hnf : um_rem u + (3 - p_li pl) < p_test pl ->
      zlen (c_full (cut (p_test pl - um_rem u - (3 - p_li pl)) (3 - p_li pl) (sdu_rest <$> l))) + (j + 1) <= 31).
    { intros Hlt2. rewrite (proj2 (Z.ltb_ge (p_test pl) (um_rem u))),
        (proj2 (Z.leb_gt (p_test pl) (um_rem u + (3 - p_li pl)))) in Hcut by lia.
      cbn [c_full] in Hcut. rewrite zlen_cons in Hcut. lia. }
    pose proof (plan_step_um u l (nb_sdus p) pl Hu Hli Ht) as Hstep.
    destruct (am_plan_step (um_rem u) (nb_sdus p) pl) as [pl' go].
    destruct Hstep as [-> Hgo].
    { intros H. specialize (Hnf H). pose proof (zlen_nonneg (c_full (cut (p_test pl - um_rem u - (3 - p_li pl)) (3 - p_li pl) (sdu_rest <$> l)))). lia. }
    assert (Hj32 : j < 32).
    { repeat case_match; cbn [c_full] in Hcut; rewrite ?zlen_cons in Hcut;
        try change (zlen (@nil (list Z))) with 0 in Hcut; try lia.
      pose proof (zlen_nonneg (c_full (cut (p_test pl - um_rem u - (3 - p_li pl)) (3 - p_li pl)
        (sdu_rest <$> l)))). lia. }
    destruct (link_sdu_ok c q p e j Hrf) as (p1 & -> & Hrf1 & Hp1); [lia|lia| |].
    { rewrite Hsame by lia. apply Hnb. lia. }
    rewrite res_ok_bind, slot_next.
    set (e1 := write_sdu e (slot_of c j) _).
    assert (Hrc1 : recounted e0 e1) by (by apply recounted_write).
    assert (Hp1b : p1 = p <| sdus_index := sdus_index p1 |> <| nb_sdus := nb_sdus p1 |>)
      by (rewrite Hp1 at 1; rewrite Hp1; by destruct p).
    destruct go.
    + destruct (Hgo eq_refl) as (H1 & H2 & H3).
      destruct (IH fuel (j + 1) pl' p1 e1) as (p' & e' & -> & R1 & R2 & R3); try done.
      * lia.
      * replace (Z.to_nat (j + 1)) with (S (Z.to_nat j)) by lia.
        rewrite <- (drop_drop q (Z.to_nat j) 1) || rewrite <- Nat.add_1_r, <- drop_drop.
        by rewrite Hdrop.
      * intros k Hk. unfold e1. rewrite sdu_at_write, decide_False.
        -- apply Hsame. lia.
        -- intros E. apply slot_of_inj in E; destruct Hq; lia.
      * rewrite Hp1. unfold update. cbn [nb_sdus]. lia.
      * rewrite H3. by apply li_next.
      * lia.
      * cbn in Hf. lia.
      * rewrite H2, H3. by apply Hnf.
      * exists p', e'. split; [done|]. split; [done|]. split; [done|].
        rewrite R3. rewrite Hp1b. by destruct p.
    + exists p1, e1. done.
Qed.
