(* ===== verification/RlcAmSegmentSpec.v ===== *)
(** RLC AM v9.3.0: what segmentation promises.  [rlc_am_segment_10] takes its SDUs from
    a ring; over the queue of them it does what RLC UM does, so that the reference
    which cuts a queue ([cut]) and its lemmas are those of RLC UM. *)
From S2P Require Import Prelude.
From S2P Require Import RlcUmEntity.
From S2P Require Import RlcUmHeader.
From S2P Require Import RlcUmReassemblySpec.
From S2P Require Import RlcUmHeaderSpec.
From S2P Require Import RlcUmSegment.
From S2P Require Import RlcUmSegmentSpec.
From S2P Require Import RlcAmEntity.
From S2P Require Import RlcAmSn.
From S2P Require Import RlcAmRx.
From S2P Require Import RlcAmSender.
From S2P Require Import RlcAmSegment.
From S2P Require Import RlcAmHeaderSpec.
From S2P Require Import RlcAmPlanSpec.

Local Open Scope Z_scope.
Local Open Scope c_scope.

Local Abbreviation um_rem := RlcUmEntity.sdu_remaining_size.
Local Abbreviation um_seg := RlcUmEntity.sdu_segmented_size.
Local Abbreviation um_size := RlcUmEntity.sdu_size.

(** ** Filling the PDU *)

(** The writing of an indicator does not look at the occupancy. *)
Lemma write_li_bo tn r b f :
  write_li tn r (f <| f_bo := b |>) = (f' ← write_li tn r f; Ok (f' <| f_bo := b |>)).
Proof.
  unfold write_li. change (f_li (f <| f_bo := b |>)) with (f_li f).
  change (f_num (f <| f_bo := b |>)) with (f_num f).
  change (f_buf (f <| f_bo := b |>)) with (f_buf f).
  change (f_eli (f <| f_bo := b |>)) with (f_eli f).
  destruct (f_li f =? 2); [by destruct (wr _ _ _)|].
  destruct (rd _ _) as [b2|]; [|done]. rewrite !res_ok_bind. cbv zeta.
  by destruct (wr _ _ _).
Qed.

(** The bytes of an SDU in its slot. *)
Lemma am_copy_um s u bytes n f :
  sdu_wf u -> slot_is s u -> sdu_mem_block s = Some bytes -> 0 <= n <= um_rem u ->
  am_copy_sdu bytes s n f = (f' ← copy_sdu u n f; Ok (f' <| f_bo := s32 (f_bo f - n) |>)).
Proof.
  intros Hu [[rest Hb] _ Hg _ _] Hm Hn. rewrite Hm in Hb. injection Hb as ->.
  destruct Hu as [W1 W2 W3 W4 W5]. unfold am_copy_sdu, copy_sdu. rewrite Hg.
  assert (E : rd_n (sdu_payload u ++ rest) (um_seg u) n = rd_n (sdu_payload u) (um_seg u) n).
  { unfold rd_n. pose proof (zlen_nonneg rest).
    rewrite !bool_decide_true by (rewrite ?zlen_app; lia).
    rewrite drop_app_le by (unfold zlen in *; lia).
    rewrite take_app_le by (rewrite length_drop; unfold zlen in *; lia). done. }
  rewrite E. clear E. destruct (rd_n _ _ _); [|done]. rewrite !res_ok_bind. by destruct (wr _ _ _).
Qed.

(** What the filling leaves alone. *)
Record filled (e e' : am_tx) : Prop := Filled {
  fl_rest : e' = e <| input_sdus := input_sdus e' |> <| nb_sdu_no_segmented := nb_sdu_no_segmented e' |>
                   <| current_sdu_index := current_sdu_index e' |>;
  fl_nb i : nb_pdus (sdu_at e' i) = nb_pdus (sdu_at e i)
}.

Lemma filled_refl e : filled e e.
Proof. split; [by destruct e|done]. Qed.

Lemma filled_trans e1 e2 e3 : filled e1 e2 -> filled e2 e3 -> filled e1 e3.
Proof.
  intros [H1 N1] [H2 N2]. split; [|intros; by rewrite N2, N1].
  rewrite H2. rewrite H1. by destruct e1.
Qed.

Lemma filled_write e i s n c : filled e (write_sdu e i s) ->
  filled e ((write_sdu e i s) <| nb_sdu_no_segmented := n |> <| current_sdu_index := c |>).
Proof. intros [_ H]. split; [by destruct e|done]. Qed.

Lemma filled_slot e i s : nb_pdus s = nb_pdus (sdu_at e i) -> filled e (write_sdu e i s).
Proof.
  intros H. split; [by destruct e|]. intros j. rewrite sdu_at_write.
  case_decide as E; [by subst|done].
Qed.

(** The current SDU leaves the queue. *)
Lemma end_sdu_ok e u q :
  queued e (u :: q) -> -2147483648 < nb_sdu_no_segmented e < 2147483648 ->
  exists e', end_sdu e = Ok e' /\ queued e' q /\ filled e e' /\
    nb_sdu_no_segmented e' = nb_sdu_no_segmented e - 1.
Proof.
  intros Hq Hn. pose proof (queued_head e u q Hq) as [[rest Hb] _ _ _ _].
  pose proof Hq as [Hc Hl Hnx Hs]. unfold end_sdu, rlc_am_free_in_sdu_data.
  set (cur := current_sdu_index e) in *. rewrite u32_small by lia.
  rewrite (proj2 (Z.leb_le _ _)) by (unfold RLC_AM_SDU_CONTROL_BUFFER_SIZE; lia).
  rewrite slot_read, res_ok_bind by done. rewrite Hb, slot_write, !res_ok_bind by done.
  set (s0 := _ <| sdu_remaining_size := 0 |>). set (e1 := write_sdu e cur s0).
  change (nb_sdu_no_segmented e1) with (nb_sdu_no_segmented e).
  change (current_sdu_index (e1 <| nb_sdu_no_segmented := _ |>)) with cur.
  assert (Ecur : (cur + 1) %% RLC_AM_SDU_CONTROL_BUFFER_SIZE = slot_of cur 1).
  { rewrite <- (slot_of_0 cur Hc) at 1. by rewrite slot_next. }
  rewrite Ecur, s32_small by lia. eexists. split; [reflexivity|].
  rewrite zlen_cons in Hl, Hnx. pose proof (zlen_nonneg q) as Hzq. split; [|split; [|done]].
  - split; unfold update; cbn [current_sdu_index next_sdu_index].
    + apply slot_of_range.
    + lia.
    + rewrite slot_shift. etrans; [exact Hnx|]. f_equal. lia.
    + intros k Hk. rewrite slot_shift.
      change (sdu_at (AmTx _ _ _ _ _ _ _ _ _ _ _ _ _ _ _ _ _ _ _ _ _ _) (slot_of cur (k + 1)))
        with (sdu_at e1 (slot_of cur (k + 1))).
      unfold e1. rewrite sdu_at_write. destruct (decide (k = 127)) as [->|Hk7].
      * rewrite decide_True by (unfold slot_of; div_lia).
        rewrite lookup_ge_None_2 by (unfold zlen in *; lia). done.
      * rewrite decide_False.
        -- specialize (Hs (k + 1) ltac:(lia)).
           by replace (Z.to_nat (k + 1)) with (S (Z.to_nat k)) in Hs by lia.
        -- intros E. rewrite <- (slot_of_0 cur Hc) in E at 1. apply slot_of_inj in E; lia.
  - apply (filled_write e cur s0). by apply filled_slot.
Qed.

(** The current SDU is sent in part. *)
Lemma cut_sdu_ok e u q n s :
  queued e (u :: q) -> sdu_wf u -> 0 <= n < um_rem u -> s = sdu_at e (current_sdu_index e) ->
  exists e',
    sdu_write e (current_sdu_index e)
      (s <| sdu_remaining_size := s32 (um_rem u - n) |>
         <| sdu_segmented_size := s32 (sdu_segmented_size s + n) |>) = Ok e' /\
    queued e' (u <| RlcUmEntity.sdu_remaining_size := um_rem u - n |>
                 <| RlcUmEntity.sdu_segmented_size := um_seg u + n |> :: q) /\
    filled e e' /\ nb_sdu_no_segmented e' = nb_sdu_no_segmented e.
Proof.
  intros Hq Hu Hn ->. pose proof (queued_head e u q Hq) as [[rest Hb] Hr Hg Hz Hf].
  pose proof Hq as [Hc Hl Hnx Hs]. destruct Hu as [W1 W2 W3 W4 W5].
  rewrite slot_write by done. eexists. split; [reflexivity|].
  rewrite Hg, !s32_small by lia. rewrite zlen_cons in Hl, Hnx. split; [|split; [|done]].
  - split; rewrite ?zlen_cons; try done. intros k Hk.
    change (current_sdu_index (write_sdu _ _ _)) with (current_sdu_index e).
    rewrite sdu_at_write. case_decide as H.
    + assert (k = 0) as ->.
      { rewrite <- (slot_of_0 (current_sdu_index e) Hc) in H at 1. apply slot_of_inj in H; lia. }
      split; first [done | by exists rest].
    + specialize (Hs k Hk). destruct (Z.to_nat k) as [|k'] eqn:Ek; [|done].
      exfalso. apply H. replace k with 0 by lia. by rewrite slot_of_0.
  - by apply filled_slot.
Qed.

Lemma write_li_fields tn r f f' : write_li tn r f = Ok f' ->
  f_num f' = f_num f /\ f_bo f' = f_bo f /\ f_li f' = f_li f /\ f_rem f' = f_rem f.
Proof.
  unfold write_li. destruct (f_li f =? 2); intros H; res_inv; by simplify_eq.
Qed.

Lemma copy_sdu_fields u n f f' : copy_sdu u n f = Ok f' ->
  f' = f <| f_buf := f_buf f' |>.
Proof. unfold copy_sdu. intros H. res_inv. by simplify_eq. Qed.

Ltac copy_inv :=
  match goal with H : copy_sdu _ _ _ = Ok _ |- _ => apply copy_sdu_fields in H; rewrite H end.

(** Indicators are only added. *)
Lemma fill_num_grows um tn q : forall f q' f',
  fill_loop um tn q f = Ok (q', f') -> 0 <= f_num f -> f_num f + zlen q < 4294967296 ->
  f_num f <= f_num f'.
Proof.
  induction q as [|u q IH]; intros f q' f' H Hn Hz; cbn [fill_loop] in H; [by simplify_eq|].
  rewrite zlen_cons in Hz. pose proof (zlen_nonneg q).
  destruct (f_rem f <? um_rem u).
  { res_inv. copy_inv. done. }
  destruct (um_rem u =? f_rem f).
  { res_inv. copy_inv. done. }
  destruct (_ <? u32 (f_rem f)).
  - apply res_bind_ok in H as (f1 & H1 & H). unfold fill_li in H1.
    apply res_bind_ok in H1 as (f2 & H2 & H1). apply res_bind_ok in H1 as (f3 & H3 & H1).
    apply copy_sdu_fields in H2. apply write_li_fields in H3 as (Hm & _).
    rewrite H2 in Hm. unfold update in Hm. cbn in Hm. rewrite u32_small in Hm by lia.
    injection H1 as <-.
    etrans; [|apply (IH _ _ _ H)]; unfold update; cbn [f_num]; lia.
  - destruct um; [done|]. res_inv. copy_inv. done.
Qed.

(** A turn, against the loop of RLC UM over the queue. *)
Definition step_fits (um : bool) (tn : Z) (fuel : nat) (f : fill) (p : am_tx_pdu) (e : am_tx)
    (q q' : list um_tx_sdu) (f' : fill) : Prop :=
  exists p' e', am_fill_loop um tn fuel (AmFill f p e) = Ok (AmFill f' p' e') /\
    queued e' q' /\ filled e e' /\
    nb_sdu_no_segmented e' = nb_sdu_no_segmented e - (zlen q - zlen q') /\
    p' = p <| payload_size := payload_size p + (f_bo f - f_bo f') |>.

(** What the loop needs of the numbers. *)
Record fill_room (f f' : fill) (p : am_tx_pdu) (e : am_tx) (q : list um_tx_sdu) : Prop := FillRoom {
  fr_li : li_state (f_li f);
  fr_rem : 0 <= f_rem f < 2147483648;
  fr_num : 0 <= f_num f /\ f_num f + zlen q < 4294967296;
  fr_max : f_num f' <= 31;
  fr_nb : zlen q <= nb_sdu_no_segmented e < 2147483648;
  fr_bo : sumZ (um_rem <$> q) <= f_bo f < 2147483648;
  fr_pay : 0 <= payload_size p /\ payload_size p + f_bo f < 2147483648
}.

Lemma add_payload_eq n p : -2147483648 <= payload_size p + n < 2147483648 ->
  add_payload n p = p <| payload_size := payload_size p + n |>.
Proof. intros H. unfold add_payload. by rewrite s32_small by lia. Qed.

Lemma payload_fold p n m : p <| payload_size := payload_size p + n |> <| payload_size := m |>
  = p <| payload_size := m |>.
Proof. by destruct p. Qed.

(** The last SDU taken whole. *)
Lemma take_whole e u q p bo :
  queued e (u :: q) -> sdu_wf u -> zlen (u :: q) <= nb_sdu_no_segmented e < 2147483648 ->
  um_rem u <= bo -> 0 <= payload_size p /\ payload_size p + bo < 2147483648 ->
  exists e', end_sdu e = Ok e' /\ queued e' q /\ filled e e' /\
    nb_sdu_no_segmented e' = nb_sdu_no_segmented e - (zlen (u :: q) - zlen q) /\
    add_payload (um_rem u) p = p <| payload_size := payload_size p + um_rem u |>.
Proof.
  intros Hq Hu Hn Hb Hp. rewrite zlen_cons in *. pose proof (zlen_nonneg q).
  destruct (end_sdu_ok e u q Hq) as (e' & H1 & H2 & H3 & H4); [lia|].
  pose proof (sdu_wf_bounds u Hu) as [Hub _].
  exists e'. do 3 (split; [done|]). split; [lia|]. apply add_payload_eq. lia.
Qed.

Lemma fill_sim um tn q : forall fuel f p e q' f',
  fill_loop um tn q f = Ok (q', f') -> queued e q -> Forall sdu_wf q ->
  fill_room f f' p e q -> (length q < fuel)%nat -> step_fits um tn fuel f p e q q' f'.
Proof.
  induction q as [|u q IH]; intros fuel f p e q' f' Hfill Hq Hwf [Hli Hrem Hnum Hmax Hnb Hbo Hpay] Hf;
    (destruct fuel as [|fuel]; [cbn in Hf; lia|]); unfold step_fits; cbn [am_fill_loop af_tx];
    rewrite slot_read, res_ok_bind by apply Hq.
  - cbn [fill_loop] in Hfill. injection Hfill as <- <-. rewrite (queued_nil e Hq).
    exists p, e. split; [done|]. split; [done|]. split; [apply filled_refl|].
    split; [lia|]. rewrite Z.sub_diag, Z.add_0_r. by destruct p.
  - pose proof (queued_head e u q Hq) as Hslot. pose proof Hslot as [[rest Hb] Hr Hg _ _]. rewrite Hb.
    set (s := sdu_at e (current_sdu_index e)) in *. set (bytes := sdu_payload u ++ rest) in *.
    apply Forall_cons in Hwf as [Hu Hwf]. pose proof (sdu_wf_bounds u Hu) as [Hub _].
    pose proof (sum_remaining_nonneg q Hwf) as Hsq. rewrite fmap_cons in Hbo. cbn [sumZ] in Hbo.
    assert (Hlir : 1 <= 3 - f_li f <= 2) by (unfold li_state in Hli; lia).
    destruct (take_whole e u q p (f_bo f) Hq Hu) as (e1 & He1 & Hq1 & Hfl & Hn1 & Hp1); [lia|lia|lia|].
    unfold am_fill_step. cbv zeta. rewrite Hr. cbn [fill_loop] in Hfill.
    destruct (Z.ltb_spec (f_rem f) (um_rem u)) as [H1|H1].
    { destruct (copy_sdu u (f_rem f) f) as [f1|] eqn:Ec; [|done]. rewrite res_ok_bind in Hfill.
      injection Hfill as <- <-.
      rewrite (am_copy_um s u bytes) by (done || lia). rewrite Ec, !res_ok_bind.
      destruct (cut_sdu_ok e u q (f_rem f) s Hq Hu) as (e2 & -> & Hq2 & Hf2 & Hn2); [lia|done|].
      rewrite res_ok_bind. pose proof (copy_sdu_fields _ _ _ _ Ec) as E1.
      destruct Hu as [W1 W2 W3 W4 W5].
      rewrite (u16_small (um_rem u - f_rem f)), (u16_small (um_seg u + f_rem f)) by lia.
      rewrite add_payload_eq by lia.
      eexists _, e2. split; [rewrite E1; reflexivity|]. split; [done|]. split; [done|].
      rewrite !zlen_cons. split; [lia|]. rewrite E1. unfold update. cbn. f_equal.
      rewrite s32_small by lia. lia. }
    destruct (Z.eqb_spec (um_rem u) (f_rem f)) as [H2|H2].
    { destruct (copy_sdu u (f_rem f) f) as [f1|] eqn:Ec; [|done]. rewrite res_ok_bind in Hfill.
      injection Hfill as <- <-.
      rewrite (am_copy_um s u bytes) by (done || lia). rewrite Ec, !res_ok_bind, He1, res_ok_bind.
      pose proof (copy_sdu_fields _ _ _ _ Ec) as E1. rewrite Hp1.
      eexists _, e1. split; [rewrite E1, <- H2; reflexivity|]. split; [done|]. split; [done|].
      split; [done|]. rewrite E1. unfold update. cbn. f_equal.
      rewrite s32_small by lia. lia. }
    rewrite (li_xor _ Hli), !u32_small in Hfill by lia. rewrite (li_xor _ Hli).
    destruct (Z.ltb_spec (um_rem u + (3 - f_li f)) (f_rem f)) as [H3|H3].
    + apply res_bind_ok in Hfill as (f1 & Hfl1 & Hrest).
      rewrite zlen_cons in Hnum, Hnb. pose proof (zlen_nonneg q) as Hzq.
      assert (Hnf : f_num f1 = f_num f + 1 /\ f_bo f1 = f_bo f - um_rem u /\ f_li f1 = 3 - f_li f /\
        f_rem f1 = f_rem f - (um_rem u + (3 - f_li f)) /\
        (f2 ← am_copy_sdu bytes s (um_rem u) f;
         f3 ← write_li tn (um_rem u) (f2 <| f_data := f_data f2 + um_rem u |> <| f_li := f_li f2 .^ 3 |>
               <| f_num := u32 (f_num f2 + 1) |>);
         Ok (f3 <| f_rem := s32 (f_rem f3 - (um_rem u + f_li f3)) |>)) = Ok f1).
      { rewrite (am_copy_um s u bytes) by (done || lia). unfold fill_li in Hfl1.
        destruct (copy_sdu u (um_rem u) f) as [g|] eqn:Ec; [|done]. rewrite !res_ok_bind in *.
        pose proof (copy_sdu_fields _ _ _ _ Ec) as E1.
        change (write_li tn (um_rem u) (_ <| f_num := _ |>)) with
          (write_li tn (um_rem u) ((g <| f_data := f_data g + um_rem u |> <| f_li := f_li g .^ 3 |>
               <| f_num := u32 (f_num g + 1) |>) <| f_bo := s32 (f_bo f - um_rem u) |>)).
        rewrite write_li_bo. destruct (write_li _ _ _) as [h|] eqn:Ew; [|done].
        rewrite !res_ok_bind in *. apply write_li_fields in Ew as (K1 & K2 & K3 & K4).
        injection Hfl1 as <-. rewrite E1 in K1, K2, K3, K4. unfold update in K1, K2, K3, K4 |- *. cbn in K1, K2, K3, K4 |- *.
        rewrite K1, K2, K3, K4, (li_xor _ Hli).
        rewrite (u32_small (f_num f + 1)), (s32_small (f_bo f - um_rem u)),
          (s32_small (f_rem f - (um_rem u + (3 - f_li f)))) by lia. done. }
      destruct Hnf as (K1 & K2 & K3 & K4 & Hcomp).
      pose proof (fill_num_grows _ _ _ _ _ _ Hrest ltac:(lia) ltac:(lia)) as Hgrow.
      unfold RLC_AM_MAX_SDU_IN_PDU. rewrite (proj2 (Z.eqb_neq (f_num f) (32 - 1))) by lia.
      apply res_bind_ok in Hcomp as (f2 & -> & Hcomp). rewrite res_ok_bind.
      apply res_bind_ok in Hcomp as (f3 & -> & Hcomp). rewrite res_ok_bind.
      injection Hcomp as Hcomp. rewrite Hcomp. rewrite He1, res_ok_bind, Hp1.
      destruct (IH fuel f1 (p <| payload_size := payload_size p + um_rem u |>) e1 q' f')
        as (p' & e' & E & Hq' & Hfl' & Hn' & Hp'); [exact Hrest|exact Hq1|exact Hwf| | |].
      { split; unfold update; cbn [payload_size]; try lia.
        - rewrite K3. by apply li_next.
        - rewrite zlen_cons in Hn1. lia. }
      { cbn in Hf. lia. }
      rewrite res_ok_bind. cbn match. rewrite E. exists p', e'. split; [done|]. split; [done|].
      split; [by eapply filled_trans|]. split; [rewrite !zlen_cons in *; lia|].
      rewrite Hp', payload_fold. unfold update. cbn. f_equal. lia.
    + destruct um; [done|].
      destruct (copy_sdu u (um_rem u) f) as [f1|] eqn:Ec; [|done]. rewrite res_ok_bind in Hfill.
      injection Hfill as <- <-.
      rewrite (am_copy_um s u bytes) by (done || lia). rewrite Ec, !res_ok_bind, He1, res_ok_bind.
      pose proof (copy_sdu_fields _ _ _ _ Ec) as E1. rewrite Hp1.
      eexists _, e1. split; [rewrite E1; reflexivity|]. split; [done|]. split; [done|].
      split; [done|]. rewrite E1. unfold update. cbn. f_equal.
      rewrite s32_small by lia. lia.
Qed.

(** ** The PDU *)

Lemma am_header_ok fi n sn : 0 <= fi < 4 -> 0 <= n -> sn_ok sn ->
  am_header fi n sn = am_fixed false fi (if n =? 0 then 0 else 1) sn None.
Proof.
  intros Hfi Hn Hsn. unfold am_header, am_fixed, sn_ok in *. cbn [app].
  rewrite field_lo8, Z.shiftr_div_pow2 by lia. change (2 ^ 8) with 256.
  change (seg_rf None) with 0. change (Z.b2z false) with 0. f_equal.
  set (q := sn / 256). assert (Hq : 0 <= q < 4) by (subst q; div_lia). clearbody q.
  assert (Hcheck : forallb (fun fi => forallb (fun e => forallb (fun q =>
      u8 (((if (e : Z) =? 1 then u8 (fi .<< 3) .| 0x04 else u8 (fi .<< 3)) .| 0x80) .| q)
      =? 128 + 0 * 64 + 0 * 32 + fi * 8 + e * 4 + q) [0; 1; 2; 3]) [0; 1]) [0; 1; 2; 3] = true)
    by (vm_compute; reflexivity).
  rewrite forallb_forall in Hcheck. specialize (Hcheck fi ltac:(cbn; lia)).
  rewrite forallb_forall in Hcheck. specialize (Hcheck (if n =? 0 then 0 else 1) ltac:(cbn; case_match; lia)).
  rewrite forallb_forall in Hcheck. specialize (Hcheck q ltac:(cbn; lia)).
  apply Z.eqb_eq in Hcheck. rewrite <- Hcheck. do 3 f_equal.
  destruct (Z.eqb_spec n 0) as [->|]; [done|]. by rewrite (proj2 (Z.ltb_lt 0 n)) by lia.
Qed.

(** The poll bit of a PDU. *)
Lemma am_poll_bits b fi e sn seg : 0 <= fi < 4 -> 0 <= e < 2 -> sn_ok sn ->
  let b1 := 128 + seg_rf seg * 64 + Z.b2z b * 32 + fi * 8 + e * 4 + sn / 256 in
  b1 .| 0x20 = 128 + seg_rf seg * 64 + Z.b2z true * 32 + fi * 8 + e * 4 + sn / 256 /\
  b1 .& 0xDF = 128 + seg_rf seg * 64 + Z.b2z false * 32 + fi * 8 + e * 4 + sn / 256.
Proof.
  intros Hf He Hsn. unfold sn_ok in Hsn. cbv zeta.
  assert (Hrf : 0 <= seg_rf seg < 2) by (unfold seg_rf; case_decide; lia).
  assert (Hq : 0 <= sn / 256 < 4) by div_lia. cbn [Z.b2z].
  set (x := fi * 8 + e * 4 + sn / 256). assert (Hx : 0 <= x < 32) by lia.
  assert (Hcheck : forallb (fun rf => forallb (fun b : bool => forallb (fun x =>
      ((128 + rf * 64 + Z.b2z b * 32 + x) .| 0x20 =? 128 + rf * 64 + 1 * 32 + x) &&
      ((128 + rf * 64 + Z.b2z b * 32 + x) .& 0xDF =? 128 + rf * 64 + 0 * 32 + x))
      (seqZ 0 32)) [false; true]) [0; 1] = true) by (vm_compute; reflexivity).
  rewrite forallb_forall in Hcheck. specialize (Hcheck (seg_rf seg) ltac:(cbn; lia)).
  rewrite forallb_forall in Hcheck. specialize (Hcheck b ltac:(destruct b; cbn; auto)).
  rewrite forallb_forall in Hcheck.
  specialize (Hcheck x ltac:(apply list_elem_of_In, elem_of_seqZ; lia)).
  apply andb_true_iff in Hcheck as [H1 H2]. apply Z.eqb_eq in H1, H2. subst x.
  rewrite !Z.add_assoc in H1, H2. by split.
Qed.

(** The PDU is the first one with the other poll bit. *)
Lemma set_poll u b b' sn seg rest :
  sn_ok sn -> exists b1,
    rd (am_encode u b sn seg ++ rest) 0 = Ok b1 /\
    wr (am_encode u b sn seg ++ rest) 0 [if b' : bool then b1 .| 0x20 else b1 .& 0xDF]
      = Ok (am_encode u b' sn seg ++ rest).
Proof.
  intros Hsn. unfold am_encode.
  set (fi := fi_of _ _). set (e := if decide (umd_full u = []) then 0 else 1).
  assert (He : 0 <= e < 2) by (subst e; case_decide; lia).
  pose proof (am_poll_bits b fi e sn seg (fi_of_range _ _) He Hsn) as [H1 H2].
  unfold am_fixed. rewrite <- !app_assoc. cbn [app].
  set (b1 := 128 + seg_rf seg * 64 + Z.b2z b * 32 + _ + _ + _) in *. exists b1. split; [done|].
  match goal with |- wr (b1 :: ?l) 0 _ = _ => change (b1 :: l) with ([] ++ [b1] ++ l) end.
  change 0 with (zlen (@nil Z)). rewrite (wr_app [] [b1]) by done.
  destruct b'; by rewrite ?H1, ?H2.
Qed.

(** The queue of a transmitter, and what it keeps of it. *)
Record tx_queue (e : am_tx) (bo : Z) (q : list um_tx_sdu) : Prop := TxQueue {
  tq_queued : queued e q;
  tq_wf : Forall sdu_wf q;
  tq_fresh : Forall (fun u => um_seg u = 0) (tail q);
  tq_num : nb_sdu_no_segmented e = zlen q;
  tq_bo : bo = sumZ (um_rem <$> q)
}.

Lemma sum_remaining_max q : Forall sdu_wf q -> sumZ (um_rem <$> q) <= zlen q * 65536.
Proof.
  induction 1 as [|u q Hu Hq IH]; [done|]. pose proof (sdu_wf_bounds u Hu) as [H _].
  rewrite fmap_cons, zlen_cons. cbn [sumZ]. lia.
Qed.

Lemma tx_queue_bo e bo q : tx_queue e bo q -> 0 <= bo < 2 ^ 24 /\ (0 < bo <-> q <> []).
Proof.
  intros [Hq Hwf _ _ ->]. pose proof (sum_remaining_max q Hwf). pose proof (qd_len _ _ Hq).
  pose proof (sum_remaining_nonneg q Hwf). pose proof (zlen_nonneg q). split; [lia|].
  split; [by intros H3 ->|]. by apply sum_remaining_pos.
Qed.

(** The size of the PDU, for which the queue is long enough. *)
Lemma am_size_ok s q nb :
  tx_queue (snd_tx s) (sdu_buffer_occupancy s) q -> q <> [] -> 2 < nb < 2147483648 ->
  2 < am_data_pdu_size s nb <= nb /\
  enough (am_data_pdu_size s nb - 2) 1 (sdu_rest <$> q).
Proof.
  intros Hq Hne Hnb. pose proof (tx_queue_bo _ _ _ Hq) as [_ Hpos]. apply Hpos in Hne as Hbo.
  destruct Hq as [_ Hwf _ Hn Hsum]. unfold am_data_pdu_size, RLC_AM_HEADER_MIN_SIZE.
  set (n := zlen q) in *. assert (Hn0 : 0 < n).
  { subst n. destruct q; [done|]. rewrite zlen_cons. pose proof (zlen_nonneg q). lia. }
  rewrite Hn, max_li_overhead_eq by done. pose proof (li_header_len_bound (n - 1) ltac:(lia)) as Hli.
  set (all := sdu_buffer_occupancy s + 2 + li_header_len (n - 1)).
  replace (if all <=? nb then all else nb) with (Z.min all nb) by (destruct (Z.leb_spec all nb); lia).
  split; [lia|]. apply enough_sum; [done|by left|done|].
  rewrite <- Hsum. change (li_bytes 1 (zlen q - 1)) with (li_header_len (n - 1)). lia.
Qed.

(** The PDU cut from the queue; [pad] are bytes of the grant behind it. *)
Definition cut_pdu (q : list um_tx_sdu) (c : cut_res) (pad : list Z) : umd :=
  Umd (match q with [] => true | u :: _ => um_seg u =? 0 end) (c_ends c) (c_full c) (c_last c ++ pad).

(** What making a PDU of [size] bytes changes. *)
Record pdu_made (q : list um_tx_sdu) (e : am_tx) (bo size : Z) (f : fill) (p : am_tx_pdu) (e' : am_tx)
    (ss : list um_tx_sdu) (s : um_tx_sdu) (tl : list um_tx_sdu) (t' : Z) (pad : list Z) : Prop := PduMade {
  pm_cut : cut_split (size - 2) 1 q (cut (size - 2) 1 (sdu_rest <$> q)) ss s tl t';
  pm_pad : zlen pad = c_pad (cut (size - 2) 1 (sdu_rest <$> q));
  pm_pdu : let u := cut_pdu q (cut (size - 2) 1 (sdu_rest <$> q)) pad in
    zlen (am_encode u false (vt_s e) None) = size /\
    exists junk, f_buf f = am_encode u false (vt_s e) None ++ junk;
  pm_rem : f_rem f = 0;
  pm_queue : tx_queue e' (f_bo f) (queue_after (c_ends (cut (size - 2) 1 (sdu_rest <$> q))) t' s tl);
  pm_payload : 0 < payload_size p < size /\ f_bo f = bo - payload_size p;
  pm_refers : refers (current_sdu_index e) q p;
  pm_fields : p = am_pdu0 <| sdus_index := sdus_index p |> <| nb_sdus := nb_sdus p |>
    <| pdu_payload := pdu_payload p |> <| payload_size := payload_size p |>;
  pm_rest : e' = e <| input_sdus := input_sdus e' |> <| nb_sdu_no_segmented := nb_sdu_no_segmented e' |>
    <| current_sdu_index := current_sdu_index e' |>
}.

(** The queue that is left. *)
Lemma queue_left q c ss s tl t t' :
  Forall sdu_wf q -> Forall (fun u => um_seg u = 0) (tail q) -> cut_split t 1 q c ss s tl t' ->
  let q' := queue_after (c_ends c) t' s tl in
  Forall sdu_wf q' /\ Forall (fun u => um_seg u = 0) (tail q') /\
  sumZ (um_rem <$> q') = sumZ (um_rem <$> q) - sumZ (um_rem <$> ss) - t'.
Proof.
  intros Hwf Hfr [Hq _ _ Hpos Hcase _]. rewrite Hq in *.
  apply Forall_app in Hwf as [Hwf1 Hwf]. apply Forall_cons in Hwf as [Hs Hwf].
  assert (Htl : Forall (fun s => um_seg s = 0) tl).
  { destruct ss; cbn [app tail] in Hfr; [done|].
    apply Forall_app in Hfr as [_ Hfr]. by apply Forall_cons in Hfr as [_ Hfr]. }
  rewrite fmap_app, fmap_cons, sumZ_app. cbn [sumZ].
  unfold queue_after. cbv zeta. destruct (c_ends c).
  - destruct Hcase as [-> _]. split; [done|]. split; [by apply Forall_tail|]. lia.
  - destruct Hcase as (Hlt & _ & _). rewrite fmap_cons. cbn [tail sumZ]. split; [|split; [done|]].
    + apply Forall_cons. split; [|done]. destruct Hs as [H1 H2 H3 H4 H5].
      split; unfold update; cbn; lia.
    + unfold update. cbn. lia.
Qed.

Lemma recounted_filled e0 e1 e2 : recounted e0 e1 -> filled e1 e2 ->
  e2 = e0 <| input_sdus := input_sdus e2 |> <| nb_sdu_no_segmented := nb_sdu_no_segmented e2 |>
    <| current_sdu_index := current_sdu_index e2 |>.
Proof.
  intros [H1 _] [H2 _]. destruct e2. unfold update in H1, H2. cbn in H1, H2.
  rewrite H1 in H2. unfold update. cbn in *. by rewrite H2.
Qed.

(** The numbers of the plan. *)
Lemma plan_numbers q size :
  Forall sdu_wf q -> 2 < size < 2147483648 -> zlen q < 2147483648 ->
  enough (size - 2) 1 (sdu_rest <$> q) ->
  let pl := plan_unused_li (plan_loop false q (Plan (size - 2) size (size - 2) 1 0 0 0)) in
  let c := cut (size - 2) 1 (sdu_rest <$> q) in
  p_num pl = zlen (c_full c) /\ p_rem pl = size - 2 - c_pad c.
Proof.
  intros Hwf Hsz Hq He. cbv zeta.
  destruct (plan_loop_cut false q (Plan (size - 2) size (size - 2) 1 0 0 0) (size - 2) Hwf)
    as (P1 & P2 & P3 & _); try done; try (cbn; lia); [by left|].
  unfold plan_unused_li. rewrite P1. change (0 <? 0) with false. cbv iota.
  rewrite P2, P3. cbn [p_num p_rem p_li]. split; [lia|done].
Qed.

(** The bytes of the PDU when its header has been written. *)
Lemma pdu_bytes q size ss s tl t' pad sn hd :
  Forall sdu_wf q -> sn_ok sn ->
  let c := cut (size - 2) 1 (sdu_rest <$> q) in
  cut_split (size - 2) 1 q c ss s tl t' -> zlen (c_last c) = t' -> zlen pad = c_pad c ->
  hd = am_header ((if match q with [] => true | u :: _ => um_rem u =? um_size u end then 0 else 2)
                   + (if c_ends c then 0 else 1)) (zlen ss) sn ->
  am_encode (cut_pdu q c pad) false sn None
    = hd ++ li_encode (um_rem <$> ss) ++ concat (sdu_rest <$> ss) ++ c_last c ++ pad /\
  zlen (am_encode (cut_pdu q c pad) false sn None) = size /\ zlen hd = 2.
Proof.
  intros Hwf Hsn c Hc Hlast Hpad Hhd. pose proof Hc as [Hq Hfull Hrem Hpos Hcase Hp].
  change (li_bytes 1 (zlen ss)) with (li_header_len (zlen ss)) in Hrem.
  assert (Hwss : Forall sdu_wf ss) by (rewrite Hq in Hwf; by apply Forall_app in Hwf as [? _]).
  assert (Hst : match q with [] => true | u :: _ => um_rem u =? um_size u end
                = umd_starts (cut_pdu q c pad)).
  { cbn [umd_starts cut_pdu]. destruct q as [|u q']; [done|].
    apply Forall_cons in Hwf as [[W1 W2 W3 W4 W5] _]. lia. }
  assert (Hh : hd = am_fixed false (fi_of (umd_starts (cut_pdu q c pad)) (c_ends c))
    (if decide (c_full c = []) then 0 else 1) sn None).
  { rewrite Hhd, Hst.
    match goal with |- am_header ?fi _ _ = _ =>
      change fi with (fi_of (umd_starts (cut_pdu q c pad)) (c_ends c)) end.
    rewrite am_header_ok by (apply fi_of_range || apply zlen_nonneg || done).
    f_equal. rewrite Hfull. destruct ss as [|x ss]; [done|].
    rewrite fmap_cons, zlen_cons. pose proof (zlen_nonneg ss).
    by rewrite (proj2 (Z.eqb_neq _ _)) by lia. }
  assert (Hl : (fun x => zlen x) <$> (sdu_rest <$> ss) = um_rem <$> ss) by (by apply remaining_rests).
  split; [|split].
  - unfold am_encode, umd_lis. cbn [cut_pdu umd_full umd_last umd_ends].
    rewrite Hh, Hfull, Hl. done.
  - rewrite am_encode_zlen. cbn [cut_pdu umd_full umd_last]. rewrite Hfull, zlen_app, Hlast, Hpad.
    rewrite concat_rests_len by done. unfold zlen at 1. rewrite length_fmap. fold (zlen ss).
    change (am_fixed_len None) with 2. lia.
  - by rewrite Hh, am_fixed_zlen.
Qed.

(** The SDUs waiting are in few PDUs. *)
Definition few_pdus (e : am_tx) (q : list um_tx_sdu) : Prop :=
  forall k, 0 <= k < zlen q -> 0 <= nb_pdus (sdu_at e (slot_of (current_sdu_index e) k)) < 31.

Lemma filling um m size q e1 c ss s tl t' bo (p : am_tx_pdu) :
  cut_split (size - 2) 1 q c ss s tl t' -> Forall sdu_wf q -> queued e1 q ->
  Forall (fun u => um_rem u < 2048) q -> 2 < size < 2147483648 -> size <= zlen m -> zlen ss <= 31 ->
  nb_sdu_no_segmented e1 = zlen q -> bo = sumZ (um_rem <$> q) -> bo < 2 ^ 24 -> payload_size p = 0 ->
  exists f p' e', let data := 2 + (u32 (zlen ss * 3 + 1) .>> 1) in
    am_fill_loop um (zlen ss) 129 (AmFill (Fill m data 2 1 0 (size - 2 - c_pad c) bo false) p e1)
      = Ok (AmFill f p' e') /\
    (exists h junk, zlen h = 2 /\ c_pad c <= zlen junk /\
      f_buf f = h ++ li_encode (um_rem <$> ss) ++ concat (sdu_rest <$> ss) ++ c_last c ++ junk) /\
    zlen (c_last c) = t' /\ f_rem f = 0 /\ f_bo f = bo - sumZ (um_rem <$> ss) - t' /\
    f_last f = c_ends c /\ f_num f = zlen ss /\
    queued e' (queue_after (c_ends c) t' s tl) /\ filled e1 e' /\
    nb_sdu_no_segmented e' = zlen (queue_after (c_ends c) t' s tl) /\
    p' = p <| payload_size := sumZ (um_rem <$> ss) + t' |>.
Proof.
  intros Hc Hwf Hq1 Hmax Hsz Hm Hn31 Hnb Hbo Hbm Hp0.
  pose proof Hc as [Hq _ Hrem Hpos Hcase Hpad].
  change (li_bytes 1 (zlen ss)) with (li_header_len (zlen ss)) in Hrem.
  assert (Hwfs : Forall sdu_wf ss /\ sdu_wf s /\ Forall sdu_wf tl).
  { rewrite Hq in Hwf. apply Forall_app in Hwf as [? Hw]. by apply Forall_cons in Hw as [? ?]. }
  destruct Hwfs as (Hwss & Hws & Hwtl).
  assert (Hmss : Forall (fun r => r < 2048) (um_rem <$> ss)).
  { apply Forall_fmap. rewrite Hq in Hmax. by apply Forall_app in Hmax as [? _]. }
  pose proof (zlen_nonneg ss) as Hz. pose proof (li_header_len_bound _ Hz) as Hlb.
  pose proof (sum_remaining_nonneg ss Hwss) as Hss. pose proof (sum_remaining_nonneg tl Hwtl) as Hst.
  assert (Hbo2 : sumZ (um_rem <$> ss) + t' <= bo).
  { rewrite Hbo, Hq, fmap_app, fmap_cons, sumZ_app. cbn [sumZ].
    destruct (c_ends c); lia. }
  destruct (list_split m 2) as (h & m1 & -> & Hh); [lia|]. rewrite zlen_app in Hm.
  destruct (list_split m1 (li_header_len (zlen ss))) as (l & room & -> & Hl); [lia|].
  rewrite zlen_app in Hm.
  rewrite u32_small by lia. fold (li_header_len (zlen ss)).
  destruct (fill_queue um (size - 2) q c ss s tl t' h l room bo Hc Hwss Hws Hmss Hl)
    as (f & Hf & G1 & G2 & G3 & G4 & G5 & G6); [lia..|]. rewrite Hh in Hf.
  destruct (fill_sim um (zlen ss) q 129 _ p e1 _ _ Hf Hq1 Hwf)
    as (p' & e' & E & Hq' & Hfl & Hn & Hp').
  { pose proof (qd_len _ _ Hq1). pose proof (zlen_nonneg q). pose proof (sum_remaining_nonneg q Hwf).
    split; cbn [f_li f_rem f_num f_bo]; try lia. by left. }
  { pose proof (qd_len _ _ Hq1) as Hlq. unfold zlen in Hlq. lia. }
  exists f, p', e'. cbv zeta. split; [exact E|].
  assert (Hdl : li_header_len (zlen ss) = zlen l) by done.
  split.
  { exists h. eexists. split; [done|]. split; [|rewrite G1, <- !app_assoc; reflexivity].
    rewrite !zlen_drop. lia. }
  do 5 (split; [done|]). split; [done|]. split; [done|]. split; [lia|].
  rewrite Hp'. f_equal. cbn [f_bo]. lia.
Qed.

Lemma am_make_pdu_ok um size m q e bo :
  tx_queue e bo q -> q <> [] -> enough (size - 2) 1 (sdu_rest <$> q) ->
  Forall (fun u => um_rem u < 2048) q -> 2 < size < 2147483648 -> size <= zlen m -> 4 <= zlen m ->
  few_pdus e q -> zlen (c_full (cut (size - 2) 1 (sdu_rest <$> q))) <= 31 -> sn_ok (vt_s e) ->
  exists f p e' ss s tl t' pad,
    am_make_pdu um size m (sdu_at e (current_sdu_index e)) e bo = Ok (AmFill f p e') /\
    pdu_made q e bo size f p e' ss s tl t' pad.
Proof.
  intros Htq Hne Hen Hmax Hsz Hm Hm4 Hfew Hn31 Hsn.
  pose proof (tx_queue_bo _ _ _ Htq) as [Hbm _]. pose proof Htq as [Hq Hwf Hfr Hnum Hbo].
  destruct (cut_splits q (size - 2) 1 Hwf ltac:(by left) ltac:(lia) Hen) as (ss & s & tl & t' & Hc).
  set (c := cut (size - 2) 1 (sdu_rest <$> q)) in *.
  assert (Hnss : zlen (c_full c) = zlen ss)
    by (rewrite (cs_full _ _ _ _ _ _ _ _ Hc); unfold zlen; by rewrite length_fmap).
  unfold am_make_pdu.
  destruct (wr_ok m 0 [0; 0; 0; 0]) as (m' & -> & Hml); [lia|change (0 + 4 <= zlen m); lia|].
  rewrite res_ok_bind. unfold RLC_AM_HEADER_MIN_SIZE. rewrite (s32_small (size - 2)) by lia. cbv zeta.
  pose proof (qd_cur _ _ Hq) as Hcur. pose proof (qd_len _ _ Hq) as Hlq.
  destruct (plan_sim (current_sdu_index e) e q q 129 0 (Plan (size - 2) size (size - 2) 1 0 0 0)
    am_pdu0 e) as (p1 & e1 & Epl & Hrc & Hrf & Hp1); try done.
  { apply recounted_refl. }
  { split; [done|cbn; lia| |]. - by apply Forall_replicate. - intros i Hi. cbn in Hi. lia. }
  { by left. } { cbn. lia. } { unfold zlen in Hlq. lia. } { cbn. fold c. lia. }
  rewrite slot_of_0 in Epl by done. rewrite Epl, res_ok_bind. cbv beta iota.
  destruct (plan_numbers q size Hwf ltac:(lia) ltac:(lia) Hen) as [-> ->]. fold c. rewrite Hnss.
  set (p2 := p1 <| pdu_payload := _ |>).
  destruct (filling um m' size q e1 c ss s tl t' bo p2 Hc Hwf)
    as (f & p & e' & E & (h & junk & Hh & Hj & Hb) & G1 & G2 & G3 & G4 & G5 & Hq' & Hfl & Hn' & Hp');
    try done; try lia.
  { by eapply recounted_queued. }
  { by rewrite (rc_rest _ _ Hrc). }
  { unfold p2. rewrite Hp1. done. }
  cbv zeta in E. rewrite E, res_ok_bind. cbv beta iota. clear E.
  assert (Hvs : vt_s e' = vt_s e) by (by rewrite (recounted_filled e e1 e' Hrc Hfl)).
  set (hd := am_header _ _ _).
  set (pad := take (Z.to_nat (c_pad c)) junk).
  pose proof (cs_pad _ _ _ _ _ _ _ _ Hc) as Hpad.
  assert (Hpl : zlen pad = c_pad c) by (subst pad; rewrite zlen_take; lia).
  destruct (pdu_bytes q size ss s tl t' pad (vt_s e) hd Hwf Hsn Hc G1 Hpl) as (E1 & E2 & E3).
  { subst hd. rewrite G4, G5, Hvs. do 2 f_equal. destruct q as [|u q0]; [done|].
    pose proof (queued_head e u q0 Hq) as [_ -> _ -> _]. done. }
  fold c in E1, E2.
  assert (Hwr : wr (f_buf f) 0 hd
    = Ok (am_encode (cut_pdu q c pad) false (vt_s e) None ++ drop (Z.to_nat (c_pad c)) junk)).
  { rewrite Hb, E1. change 0 with (zlen (@nil Z)).
    change (h ++ ?r) with ([] ++ h ++ r) at 1.
    rewrite (wr_app [] h) by (unfold zlen in E3, Hh; lia). cbn [app]. f_equal.
    rewrite <- !app_assoc. do 4 f_equal. subst pad. by rewrite take_drop. }
  rewrite Hwr, res_ok_bind. eexists _, p, e', ss, s, tl, t', pad. split; [reflexivity|].
  destruct (queue_left q c ss s tl (size - 2) t' Hwf Hfr Hc) as (W1 & W2 & W3).
  pose proof Hc as [Hsplit _ Hrem Hpos _ _].
  change (li_bytes 1 (zlen ss)) with (li_header_len (zlen ss)) in Hrem.
  pose proof (zlen_nonneg ss) as Hz. pose proof (li_header_len_bound _ Hz) as Hlb.
  assert (Hss : 0 <= sumZ (um_rem <$> ss)).
  { apply sum_remaining_nonneg. rewrite Hsplit in Hwf. by apply Forall_app in Hwf as [? _]. }
  assert (Hpp : payload_size p = sumZ (um_rem <$> ss) + t') by (by rewrite Hp').
  split; fold c; try done.
  - split; [done|]. by eexists.
  - split; try done. change (f_bo f = sumZ (um_rem <$> queue_after (c_ends c) t' s tl)). lia.
  - rewrite Hpp. split; [lia|]. change (f_bo f = bo - (sumZ (um_rem <$> ss) + t')). lia.
  - destruct Hrf. rewrite Hp'. by split.
  - rewrite Hp'. unfold p2. rewrite Hp1 at 1. done.
  - by apply (recounted_filled e e1 e').
Qed.
