(* ===== verification/RlcAmSendSpec.v ===== *)
(** RLC AM v9.3.0: what making and sending a PDU does: the PDU that [rlc_am_segment_10]
    cuts from the queue goes to the retransmission buffer, a copy of it to MAC. *)
From S2P Require Import Prelude.
From S2P Require Import RlcUmEntity.
From S2P Require Import RlcUmHeader.
From S2P Require Import RlcUmSegment.
From S2P Require Import RlcUmSegmentSpec.
From S2P Require Import RlcAmEntity.
From S2P Require Import RlcAmSn.
From S2P Require Import RlcAmArqSpec.
From S2P Require Import RlcAmReassembly.
From S2P Require Import RlcAmSender.
From S2P Require Import RlcAmSegment.
From S2P Require Import RlcAmHeaderSpec.
From S2P Require Import RlcAmPlanSpec.
From S2P Require Import RlcAmSegmentSpec.

Local Open Scope Z_scope.
Local Open Scope c_scope.

Local Abbreviation um_rem := RlcUmEntity.sdu_remaining_size.

(** ** Polling *)

(** Only the counters of polling and its timer differ. *)
Record polled (s s' : am_send) : Prop := Polled {
  pd_send : s' = s <| snd_tx := snd_tx s' |> <| c_pdu_without_poll := c_pdu_without_poll s' |>
                   <| c_byte_without_poll := c_byte_without_poll s' |>;
  pd_tx : snd_tx s' = (snd_tx s) <| poll_sn := poll_sn (snd_tx s') |>
                        <| t_poll_retransmit := t_poll_retransmit (snd_tx s') |>
}.

Lemma polling_ok s frame u b sn seg rest n : sn_ok sn ->
  exists s' b', rlc_am_pdu_polling s frame (am_encode u b sn seg ++ rest) n
      = Ok (s', am_encode u b' sn seg ++ rest) /\ polled s s'.
Proof.
  intros Hsn. unfold rlc_am_pdu_polling.
  set (s1 := s <| c_pdu_without_poll := _ |> <| c_byte_without_poll := _ |>).
  destruct (set_poll u b (poll_needed s1) sn seg rest Hsn) as (b1 & -> & Hw). rewrite res_ok_bind.
  destruct (poll_needed s1); rewrite Hw, res_ok_bind; eexists _, _; (split; [reflexivity|]).
  - split; [|by destruct s as [[] ? ? ? ? ? ? ? ? ? ? ? ? ? ? ? ? ?]]. by destruct s.
  - split; [|by destruct s as [[] ? ? ? ? ? ? ? ? ? ? ? ? ? ? ? ? ?]]. by destruct s.
Qed.

(** ** The copy *)

(** The entry [p] of the retransmission buffer holds the PDU [u] numbered [sn]. *)
Definition stores (p : am_tx_pdu) (u : umd) (sn : Z) : Prop :=
  exists b junk, pdu_mem_block p = Some (am_encode u b sn None ++ junk) /\
    header_and_payload_size p = zlen (am_encode u b sn None).

(** The block [tb] is this PDU. *)
Definition conveys (tb : am_tb_req) (u : umd) (sn : Z) : Prop :=
  exists b junk, tb = AmTbReq (am_encode u b sn None ++ junk) (zlen (am_encode u b sn None)).

(** Memory is given, as large as asked for. *)
Definition gives (mem : Z -> option (list Z)) : Prop :=
  forall size, exists m, mem size = Some m /\ size <= zlen m /\ 4 <= zlen m.

Lemma am_encode_poll_zlen u b b' sn seg : zlen (am_encode u b sn seg) = zlen (am_encode u b' sn seg).
Proof. by rewrite !am_encode_zlen. Qed.

Lemma get_copy_ok mem s frame sn u :
  gives mem -> sn_ok sn -> stores (pdu_at (snd_tx s) sn) u sn ->
  exists s' tb, rlc_am_retransmit_get_copy mem s frame sn = Ok (s', Some tb) /\
    conveys tb u sn /\ req_size tb = header_and_payload_size (pdu_at (snd_tx s) sn) /\
    polled (s <| snd_tx := write_pdu (snd_tx s) sn
                  ((pdu_at (snd_tx s) sn) <| flag_retransmit := false |>) |>) s'.
Proof.
  intros Hmem Hsn (b & junk & Hb & Hsz). unfold rlc_am_retransmit_get_copy.
  rewrite pdu_read_eq, res_ok_bind by done. rewrite Hb. cbv zeta.
  destruct (Hmem (header_and_payload_size (pdu_at (snd_tx s) sn))) as (m & -> & Hm & _).
  rewrite Hsz. pose proof (rd_n_app [] (am_encode u b sn None) junk) as Hrd. cbn [app] in Hrd.
  change (zlen (@nil Z)) with 0 in Hrd. rewrite Hrd, res_ok_bind. clear Hrd.
  rewrite Hsz in Hm. pose proof (zlen_nonneg (am_encode u b sn None)) as Hz.
  destruct (list_split m (zlen (am_encode u b sn None))) as (m1 & m2 & -> & Hm1); [lia|].
  change 0 with (zlen (@nil Z)). change (m1 ++ m2) with ([] ++ m1 ++ m2).
  rewrite (wr_app [] m1) by (unfold zlen in Hm1; lia). cbn [app]. rewrite res_ok_bind.
  rewrite pdu_write_eq, res_ok_bind by done.
  set (s1 := s <| snd_tx := _ |>).
  destruct (polling_ok s1 frame u b sn None m2 (payload_size (pdu_at (snd_tx s) sn)) Hsn)
    as (s' & b' & -> & Hp).
  rewrite res_ok_bind. eexists _, _. split; [reflexivity|].
  split; [exists b', m2; f_equal; apply am_encode_poll_zlen|]. by split.
Qed.

(** ** Sending *)

(** The PDU [p] numbered VT(S) goes to the retransmission buffer. *)
Record tx_sent (e e' : am_tx) (p : am_tx_pdu) (size : Z) : Prop := TxSent {
  ts_buffer : pdu_retrans_buffer e' = <[vt_s e := p]> (pdu_retrans_buffer e);
  ts_a : vt_a e' = vt_a e;
  ts_s : vt_s e' = sn_after (vt_s e);
  ts_ms : vt_ms e' = vt_ms e;
  ts_num : retrans_num_pdus e' = s32 (retrans_num_pdus e + 1);
  ts_bytes : retrans_num_bytes e' = s32 (retrans_num_bytes e + size);
  ts_first : first_retrans_pdu_sn e' = first_retrans_pdu_sn e;
  ts_max : max_retx_threshold e' = max_retx_threshold e;
  ts_next : next_sdu_index e' = next_sdu_index e
}.

(** What is in the buffer then. *)
Record pdu_stored (c : Z) (q : list um_tx_sdu) (u : umd) (sn size : Z) (p : am_tx_pdu) : Prop := PduStored {
  st_stores : stores p u sn;
  st_size : header_and_payload_size p = size;
  st_payload : 0 < payload_size p < size;
  st_refers : refers c q p;
  st_retx : retx_count p = -1;
  st_ack : flag_ack p = false;
  st_holes : holes p = replicate 32 (0, 0) /\ num_holes p = 0
}.

Lemma vt_s_before sn : sn_ok sn -> (sn_after sn - 1) .& RLC_AM_SN_MASK = sn.
Proof.
  intros H. rewrite (land_ones_mod _ 10) by done. rewrite next_sn_mod. unfold sn_ok in H.
  change (2 ^ 10) with 1024. div_lia.
Qed.

(** The queue does not depend on what polling changes. *)
Lemma tx_queue_same e e' bo q : tx_queue e bo q -> input_sdus e' = input_sdus e ->
  nb_sdu_no_segmented e' = nb_sdu_no_segmented e -> next_sdu_index e' = next_sdu_index e ->
  current_sdu_index e' = current_sdu_index e -> tx_queue e' bo q.
Proof.
  intros [[H1 H2 H3 H4] H5 H6 H7 H8] Ei En Ex Ec. split; try congruence.
  split; rewrite ?Ec, ?Ex; try done. intros k Hk. unfold sdu_at. rewrite Ei. by apply H4.
Qed.

Lemma polled_queue s s' bo q : polled s s' -> tx_queue (snd_tx s) bo q -> tx_queue (snd_tx s') bo q.
Proof. intros [_ H] Hq. by eapply tx_queue_same; [exact Hq|rewrite H..]. Qed.

Lemma send_pdu_ok mem frame size q e bo f p e' ss s tl t' pad S :
  gives mem -> sn_ok (vt_s e) -> snd_tx S = e -> size < 9000 ->
  pdu_made q e bo size f p e' ss s tl t' pad ->
  let c := cut (size - 2) 1 (sdu_rest <$> q) in
  exists S' tb p', am_send_pdu mem frame size (AmFill f p e') S = Ok S' /\
    segmentation_pdu_list S' = segmentation_pdu_list S ++ [tb] /\
    pdus_to_mac_layer S' = pdus_to_mac_layer S /\
    conveys tb (cut_pdu q c pad) (vt_s e) /\ req_size tb = size /\
    tx_queue (snd_tx S') (sdu_buffer_occupancy S') (queue_after (c_ends c) t' s tl) /\
    tx_sent e (snd_tx S') p' size /\
    pdu_stored (current_sdu_index e) q (cut_pdu q c pad) (vt_s e) size p'.
Proof.
  intros Hmem Hsn HS Hsz [Hc Hpl [Hlen (junk & Hbuf)] Hrem Hq [Hpay Hbo] Hrf Hp He'] c. fold c in Hlen, Hbuf, Hq.
  set (u := cut_pdu q c pad) in *. unfold am_send_pdu.
  assert (Hvs : vt_s e' = vt_s e) by (by rewrite He'). rewrite Hvs.
  assert (Emod : vt_s e %% RLC_AM_SN_MODULO = vt_s e).
  { unfold sn_ok, RLC_AM_SN_MODULO in *. rewrite Z.rem_mod_nonneg by lia. apply Z.mod_small. lia. }
  rewrite Emod, Hrem, Z.sub_0_r, (s32_small size) by lia. cbv zeta.
  unfold RLC_SDU_MAX_SIZE. rewrite (proj2 (Z.ltb_lt size 9000)) by lia. cbn [res_guard]. rewrite res_ok_bind.
  set (S1 := S <| snd_tx := _ |> <| sdu_buffer_occupancy := _ |> <| stat_tx_data_pdu := _ |>
               <| stat_tx_data_bytes := _ |>).
  rewrite Hbuf.
  destruct (polling_ok S1 frame u false (vt_s e) None junk (payload_size p) Hsn) as (S2 & b & -> & HP2).
  rewrite res_ok_bind. cbv beta iota.
  rewrite pdu_write_eq, res_ok_bind by done.
  set (p' := p <| pdu_mem_block := _ |> <| header_and_payload_size := _ |> <| retx_count := _ |>).
  set (S3 := S2 <| snd_tx := _ |>).
  assert (E2 : snd_tx S2 = (e' <| vt_s := sn_after (vt_s e) |>) <| poll_sn := poll_sn (snd_tx S2) |>
                             <| t_poll_retransmit := t_poll_retransmit (snd_tx S2) |>) by apply HP2.
  assert (Hvs3 : vt_s (write_pdu (snd_tx S2) (vt_s e) p') = sn_after (vt_s e))
    by (change (vt_s (write_pdu ?x _ _)) with (vt_s x); by rewrite E2).
  change (vt_s (_ <| retrans_num_bytes := _ |>)) with (vt_s (write_pdu (snd_tx S2) (vt_s e) p')).
  rewrite Hvs3, (vt_s_before _ Hsn).
  assert (Hat : pdu_at (snd_tx S3) (vt_s e) = p').
  { change (pdu_at (write_pdu (snd_tx S2) (vt_s e) p') (vt_s e) = p').
    by rewrite pdu_at_write, decide_True. }
  assert (Hst : stores p' u (vt_s e)).
  { exists b, junk. split; [done|]. change (size = zlen (am_encode u b (vt_s e) None)).
    rewrite <- Hlen. apply am_encode_poll_zlen. }
  destruct (get_copy_ok mem S3 frame (vt_s e) u Hmem Hsn) as (S4 & tb & -> & Htb & Hts & HP4).
  { by rewrite Hat. }
  rewrite res_ok_bind. cbv beta iota. unfold add_copy. rewrite res_ok_bind. rewrite Hat in Hts, HP4.
  set (p4 := p' <| flag_retransmit := false |>) in *.
  eexists _, tb, p4. split; [reflexivity|].
  pose proof (pd_send _ _ HP2) as F2. pose proof (pd_send _ _ HP4) as F4.
  pose proof (pd_tx _ _ HP4) as E4.
  change (snd_tx (S4 <| segmentation_pdu_list := _ |>)) with (snd_tx S4).
  change (sdu_buffer_occupancy (S4 <| segmentation_pdu_list := _ |>)) with (sdu_buffer_occupancy S4).
  change (pdus_to_mac_layer (S4 <| segmentation_pdu_list := _ |>)) with (pdus_to_mac_layer S4).
  change (segmentation_pdu_list (S4 <| segmentation_pdu_list := segmentation_pdu_list S4 ++ [tb] |>))
    with (segmentation_pdu_list S4 ++ [tb]).
  split; [rewrite F4; change (segmentation_pdu_list S2 ++ [tb] = segmentation_pdu_list S ++ [tb]); by rewrite F2|].
  split; [rewrite F4; change (pdus_to_mac_layer S2 = pdus_to_mac_layer S); by rewrite F2|].
  split; [done|]. split; [rewrite Hts; done|]. split; [|split].
  - assert (Ebo : sdu_buffer_occupancy S4 = f_bo f).
    { rewrite F4. change (sdu_buffer_occupancy S2 = f_bo f). by rewrite F2. }
    rewrite Ebo. apply (tx_queue_same e'); [exact Hq|..]; rewrite E4; unfold S3; by rewrite E2.
  - subst e. split; rewrite E4; unfold S3; rewrite E2, He'; try reflexivity.
    by rewrite <- (insert_insert_eq (pdu_retrans_buffer (snd_tx S)) (vt_s (snd_tx S)) p4 p').
  - split; try done.
    + by destruct Hrf; split.
    + change (flag_ack p = false). by rewrite Hp.
    + change (holes p = replicate 32 (0, 0) /\ num_holes p = 0). by rewrite Hp.
Qed.

(** A grant for a new PDU: what is asked of it. *)
Record grant_ok (q : list um_tx_sdu) (nb : Z) (s : am_send) : Prop := GrantOk {
  gr_nb : 2 < nb < 9000;
  gr_sdus : Forall (fun u => um_rem u < 2048) q;
  gr_few : few_pdus (snd_tx s) q;
  gr_cut : zlen (c_full (cut (am_data_pdu_size s nb - 2) 1 (sdu_rest <$> q))) <= 31
}.

(** The PDU made, and the state left. *)
Definition pdu_sent (q : list um_tx_sdu) (nb : Z) (s s' : am_send) (tb : am_tb_req) : Prop :=
  let size := am_data_pdu_size s nb in
  let c := cut (size - 2) 1 (sdu_rest <$> q) in
  exists ss u tl t' pad p,
    cut_split (size - 2) 1 q c ss u tl t' /\ zlen pad = c_pad c /\ 2 < size <= nb /\
    conveys tb (cut_pdu q c pad) (vt_s (snd_tx s)) /\ req_size tb = size /\
    tx_queue (snd_tx s') (sdu_buffer_occupancy s') (queue_after (c_ends c) t' u tl) /\
    tx_sent (snd_tx s) (snd_tx s') p size /\
    pdu_stored (current_sdu_index (snd_tx s)) q (cut_pdu q c pad) (vt_s (snd_tx s)) size p.

Lemma segment_ok mem cmem um q nb s frame :
  gives mem -> gives cmem -> tx_queue (snd_tx s) (sdu_buffer_occupancy s) q -> q <> [] ->
  grant_ok q nb s -> sn_ok (vt_s (snd_tx s)) ->
  exists s' tb, rlc_am_segment_10 mem cmem um nb s frame = Ok s' /\
    segmentation_pdu_list s' = segmentation_pdu_list s ++ [tb] /\
    pdus_to_mac_layer s' = pdus_to_mac_layer s /\ pdu_sent q nb s s' tb.
Proof.
  intros Hmem Hcmem Hq Hne [Hnb Hmax Hfew Hcut] Hsn.
  pose proof (tx_queue_bo _ _ _ Hq) as [_ Hpos]. apply Hpos in Hne as Hbo.
  destruct (am_size_ok s q nb Hq Hne ltac:(lia)) as [Hsz Hen].
  unfold rlc_am_segment_10. rewrite (proj2 (Z.leb_gt (sdu_buffer_occupancy s) 0)) by lia. cbv zeta.
  pose proof (tq_queued _ _ _ Hq) as Hqd. rewrite slot_read, res_ok_bind by apply Hqd.
  destruct q as [|u q]; [done|].
  destruct (queued_head _ _ _ Hqd) as [[rest Hb] _ _ _ _]. rewrite Hb.
  rewrite (proj2 (Z.ltb_lt 0 nb)) by lia.
  set (size := am_data_pdu_size s nb) in *.
  destruct (Hmem size) as (m & -> & Hm & Hm4).
  destruct (am_make_pdu_ok um size m (u :: q) (snd_tx s) (sdu_buffer_occupancy s))
    as (f & p & e' & ss & w & tl & t' & pad & -> & Hmade); try done; [lia|].
  rewrite res_ok_bind.
  destruct (send_pdu_ok cmem frame size (u :: q) (snd_tx s) _ f p e' ss w tl t' pad s Hcmem Hsn eq_refl
    ltac:(lia) Hmade) as (s' & tb & p' & E & E1 & E2 & E3 & E4 & E5 & E6 & E7).
  exists s', tb. split; [exact E|]. split; [done|]. split; [done|].
  exists ss, w, tl, t', pad, p'. fold size.
  split; [apply Hmade|]. split; [apply Hmade|]. by do 5 (split; [done|]).
Qed.

