(* ===== verification/RlcAmWalkSpec.v ===== *)
(** RLC AM v9.3.0: what the processing of a STATUS PDU keeps of the transmitter, besides the
    PDUs outstanding: the queue of SDUs, what the retransmission buffer holds, and that
    [first_retrans_pdu_sn] is a PDU still held. *)
From S2P Require Import Prelude.
From S2P Require Import RlcUmEntity.
From S2P Require Import RlcUmHeader.
From S2P Require Import RlcUmSegmentSpec.
From S2P Require Import RlcAmEntity.
From S2P Require Import RlcAmSn.
From S2P Require Import RlcAmStatus.
From S2P Require Import RlcAmRetransmit.
From S2P Require Import RlcAmHolesSpec.
From S2P Require Import RlcAmArqSpec.
From S2P Require Import RlcAmStatusRefine.
From S2P Require Import RlcAmReceiverSpec.
From S2P Require Import RlcAmPlanSpec.
From S2P Require Import RlcAmSegmentSpec.
From S2P Require Import RlcAmSendSpec.

Local Open Scope Z_scope.
Local Open Scope c_scope.

(** ** The SDUs of an acknowledged PDU *)

(** The PDU does not refer to the slot [i]. *)
Definition unnamed (i : Z) (p : am_tx_pdu) : Prop :=
  forall j, 0 <= j < nb_sdus p -> sdus_index p !! Z.to_nat j <> Some i.

Lemma queued_write e q k s :
  queued e q -> 0 <= k < 128 ->
  (forall o, slot_holds (sdu_at e k) o -> slot_holds s o) -> queued (write_sdu e k s) q.
Proof.
  intros Hq Hk Hs. apply (queued_same e); try done.
  intros i o Hi Ho. rewrite sdu_at_write. case_decide as H; [subst i; by apply Hs|done].
Qed.

(** A slot which is not waiting holds no data. *)
Lemma slot_done e bo q k : tx_queue e bo q -> 0 <= k < 128 -> sdu_remaining_size (sdu_at e k) = 0 ->
  sdu_mem_block (sdu_at e k) = None /\ (k = current_sdu_index e -> k = next_sdu_index e).
Proof.
  intros [Hq Hwf _ _ _] Hk Hr. destruct Hq as [Hc Hl Hn Hs].
  destruct (slot_of_all (current_sdu_index e) k Hk) as (j & Hj & ->).
  specialize (Hs j Hj). destruct (q !! Z.to_nat j) as [u|] eqn:Eu.
  - destruct Hs as [_ Er _ _ _]. rewrite Forall_lookup in Hwf. specialize (Hwf _ _ Eu).
    pose proof (sdu_wf_bounds u Hwf). lia.
  - split; [done|]. intros E. rewrite <- (slot_of_0 (current_sdu_index e) Hc) in E at 2.
    apply slot_of_inj in E; [|lia..]. subst j. rewrite Hn. f_equal.
    apply lookup_ge_None in Eu. unfold zlen. lia.
Qed.

(** The current SDU has not been acknowledged. *)
Lemma skip_queue fuel e bo q : tx_queue e bo q -> skip_transmitted (S fuel) e = Ok e.
Proof.
  intros [Hq _ _ _ _]. cbn [skip_transmitted]. destruct q as [|u q].
  - rewrite (qd_next _ _ Hq). change (zlen (@nil um_tx_sdu)) with 0.
    rewrite slot_of_0 by apply Hq. by rewrite Z.eqb_refl.
  - destruct (_ =? _); [done|]. rewrite slot_read, res_ok_bind by apply Hq.
    pose proof (queued_head e u q Hq) as [_ _ _ _ ->]. done.
Qed.

Lemma tx_queue_write e bo q k s :
  tx_queue e bo q -> 0 <= k < 128 -> (forall o, slot_holds (sdu_at e k) o -> slot_holds s o) ->
  tx_queue (write_sdu e k s) bo q.
Proof. intros [Hq H1 H2 H3 H4] Hk Hs. split; try done. by apply queued_write. Qed.

Lemma free_queue e bo q k e' :
  tx_queue e bo q -> 0 <= k < 128 -> sdu_remaining_size (sdu_at e k) = 0 -> k <> next_sdu_index e ->
  rlc_am_free_in_sdu k e = Ok e' ->
  tx_queue e' bo q /\ next_sdu_index e' = next_sdu_index e /\ max_retx_threshold e' = max_retx_threshold e.
Proof.
  intros Hq Hk Hr Hne H. destruct (slot_done e bo q k Hq Hk Hr) as [Hm Hcur].
  unfold rlc_am_free_in_sdu in H. rewrite u32_small in H by lia.
  rewrite (proj2 (Z.leb_le _ _)) in H by (unfold RLC_AM_SDU_CONTROL_BUFFER_SIZE; lia).
  rewrite slot_read, res_ok_bind, Hm in H by done. cbv zeta in H.
  set (e1 := e <| nb_sdu := _ |>) in H.
  assert (Hq1 : tx_queue e1 bo q) by (by eapply tx_queue_same).
  rewrite slot_write, res_ok_bind in H by done.
  set (e2 := write_sdu e1 k _) in H.
  assert (Hq2 : tx_queue e2 bo q).
  { apply tx_queue_write; [done|done|]. intros [u|] Ho; [|done].
    change (sdu_at e1 k) with (sdu_at e k) in Ho. destruct Ho as [[rest Hb] _ _ _ _]. congruence. }
  change (current_sdu_index e2) with (current_sdu_index e) in H.
  destruct (Z.eqb_spec (current_sdu_index e) k) as [Ec|_]; [exfalso; auto|].
  rewrite (skip_queue 128 e2 bo q Hq2) in H. injection H as <-. done.
Qed.

Lemma ack_sdus_queue p bo q : forall fuel i e e',
  tx_queue e bo q -> 0 <= i -> unnamed (next_sdu_index e) p -> Forall (fun k => 0 <= k < 128) (sdus_index p) ->
  ack_sdus fuel i p e = Ok e' ->
  tx_queue e' bo q /\ next_sdu_index e' = next_sdu_index e /\ max_retx_threshold e' = max_retx_threshold e.
Proof.
  induction fuel as [|fuel IH]; intros i e e' Hq Hi Hun Hall H; [done|]. cbn [ack_sdus] in H.
  destruct (Z.ltb_spec i (nb_sdus p)) as [Hlt|]; [|by injection H as <-].
  apply res_bind_ok in H as (k & Hk & H).
  unfold rd in Hk. rewrite bool_decide_true in Hk by done.
  destruct (sdus_index p !! Z.to_nat i) as [k'|] eqn:Ek; [|done]. injection Hk as ->.
  rewrite Forall_lookup in Hall. pose proof (Hall _ _ Ek) as Hkr. cbv beta in Hkr.
  assert (Hkn : k <> next_sdu_index e) by (intros ->; by apply (Hun i)).
  rewrite (proj2 (Z.leb_le 0 k)), (proj2 (Z.ltb_lt k _)) in H by (unfold RLC_AM_SDU_CONTROL_BUFFER_SIZE; lia).
  cbn [res_guard] in H. rewrite !res_ok_bind, slot_read, res_ok_bind in H by done. cbv zeta in H.
  rewrite slot_write, res_ok_bind in H by done.
  set (s1 := (sdu_at e k) <| nb_pdus_ack := _ |>) in H. set (e1 := write_sdu e k s1) in H.
  assert (Hq1 : tx_queue e1 bo q).
  { apply tx_queue_write; [done|done|]. intros [u|] Ho; [|done]. by destruct Ho; split. }
  apply res_bind_ok in H as (e2 & H2 & H).
  assert (Hq2 : tx_queue e2 bo q /\ next_sdu_index e2 = next_sdu_index e /\
    max_retx_threshold e2 = max_retx_threshold e).
  { destruct (_ && _) eqn:Eb; [|by injection H2 as <-]. apply andb_true_iff in Eb as [_ Er%Z.eqb_eq].
    eapply free_queue in H2; [exact H2| |done| |done].
    - by eapply tx_queue_same.
    - change (sdu_at (e1 <| confirms := _ |>) k) with (sdu_at e1 k). unfold e1.
      by rewrite sdu_at_write, decide_True. }
  destruct Hq2 as (Hq2 & En & Em).
  apply IH in H as (H3 & H4 & H5); [|done|lia|by rewrite En|by rewrite Forall_lookup].
  split; [done|]. split; congruence.
Qed.

(** ** What the loops over the window leave alone *)

Record same_sdus (e e' : am_tx) : Prop := SameSdus {
  ss_sdus : input_sdus e' = input_sdus e;
  ss_num : nb_sdu_no_segmented e' = nb_sdu_no_segmented e;
  ss_next : next_sdu_index e' = next_sdu_index e;
  ss_cur : current_sdu_index e' = current_sdu_index e;
  ss_max : max_retx_threshold e' = max_retx_threshold e
}.

#[export] Instance same_sdus_preorder : PreOrder same_sdus.
Proof. split; [by intros e|]. intros e1 e2 e3 [] []. split; congruence. Qed.

Lemma same_sdus_queue e e' bo q : same_sdus e e' -> tx_queue e bo q -> tx_queue e' bo q.
Proof. intros [] Hq. by eapply tx_queue_same. Qed.

Lemma cleared_sdus e : same_sdus e (cleared e).
Proof. unfold cleared. cbv zeta. by case_match. Qed.

Lemma advance_sdus fuel : forall e e', sn_ok (vt_a e) -> advance_vt_a fuel e = Ok e' -> same_sdus e e'.
Proof.
  induction fuel as [|fuel IH]; intros e e' Ha H; [done|]. rewrite advance_step in H by done.
  pose proof (cleared_sdus e) as Hc. destruct (cleared_fields e) as [Ea _].
  destruct (_ && _); [|by injection H as <-]. etrans; [exact Hc|]. apply IH; [|done].
  rewrite Ea. apply next_sn_ok.
Qed.

(** [first_retrans_pdu_sn] follows VT(A) once it is reached. *)
Lemma cleared_first e :
  first_retrans_pdu_sn (cleared e) = if vt_a e =? first_retrans_pdu_sn e then vt_a (cleared e)
                                     else first_retrans_pdu_sn e.
Proof.
  unfold cleared. cbv zeta. change (vt_a (write_pdu e (vt_a e) am_pdu0)) with (vt_a e).
  change (first_retrans_pdu_sn (write_pdu e (vt_a e) am_pdu0)) with (first_retrans_pdu_sn e).
  by destruct (vt_a e =? first_retrans_pdu_sn e).
Qed.

Lemma advance_first fuel : forall e e', sn_ok (vt_a e) -> advance_vt_a fuel e = Ok e' ->
  first_retrans_pdu_sn e' = vt_a e' \/
  (first_retrans_pdu_sn e' = first_retrans_pdu_sn e /\ first_retrans_pdu_sn e <> vt_a e).
Proof.
  induction fuel as [|fuel IH]; intros e e' Ha H; [done|]. rewrite advance_step in H by done.
  pose proof (cleared_first e) as Hf. destruct (cleared_fields e) as [Ea _].
  destruct (_ && _).
  - destruct (IH (cleared e) e') as [?|[E Hne]]; [rewrite Ea; apply next_sn_ok|done|by left|].
    destruct (Z.eqb_spec (vt_a e) (first_retrans_pdu_sn e)); [congruence|right]. split; congruence.
  - injection H as <-. destruct (Z.eqb_spec (vt_a e) (first_retrans_pdu_sn e)); [by left|right].
    split; congruence.
Qed.

Lemma next_retrans_sdus fuel : forall e e', next_retrans fuel e = Ok e' ->
  same_sdus e e' /\ vt_a e' = vt_a e.
Proof.
  induction fuel as [|fuel IH]; intros e e' H; [done|]. cbn [next_retrans] in H.
  apply res_bind_ok in H as (p & _ & H). destruct (0 <=? _); [by injection H as <-|].
  destruct (_ =? _); [by injection H as <-|]. by apply IH in H as [[] ?].
Qed.

Lemma move_window_sdus e e' : sn_ok (vt_a e) -> move_window e = Ok e' ->
  same_sdus e e' /\
  (first_retrans_pdu_sn e' = vt_a e' \/
   (first_retrans_pdu_sn e' = first_retrans_pdu_sn e /\ first_retrans_pdu_sn e <> vt_a e)).
Proof.
  intros Ha H. unfold move_window in H. apply res_bind_ok in H as (e1 & H1 & H).
  injection H as <-. pose proof (advance_first _ _ _ Ha H1) as Hf.
  apply advance_sdus in H1 as []; [|done]. by split.
Qed.

Lemma release_sdus e sn p : same_sdus e (release e sn p).
Proof. unfold release. cbv zeta. by destruct (0 <=? retx_count p). Qed.

(** The parts of the acknowledgement of a PDU that is held. *)
Lemma ack_pdu_parts e c e' : sn_ok c -> outstanding e c = true -> flag_ack (pdu_at e c) = false ->
  sn_ok (vt_a e) -> rlc_am_ack_pdu e c = Ok e' ->
  let p1 := (pdu_at e c) <| flag_retransmit := false |> <| pdu_mem_block := None |> in
  exists e2 e4, ack_sdus 129 0 p1 (release e c p1) = Ok e2 /\
    (if c =? vt_a e2 then move_window (write_pdu e2 c ((pdu_at e2 c) <| flag_ack := true |>))
     else Ok (write_pdu e2 c ((pdu_at e2 c) <| flag_ack := true |>))) = Ok e4 /\
    same_sdus e4 e' /\ vt_a e' = vt_a e4 /\
    (c <> first_retrans_pdu_sn e4 -> e' = e4).
Proof.
  intros Hc Ho Hack Ha H. unfold rlc_am_ack_pdu in H. rewrite pdu_read_eq, res_ok_bind in H by done.
  cbv zeta in H.
  change (bool_decide (is_Some (pdu_mem_block ((pdu_at e c) <| flag_retransmit := false |>))))
    with (outstanding e c) in H.
  change (flag_ack ((pdu_at e c) <| flag_retransmit := false |>)) with (flag_ack (pdu_at e c)) in H.
  rewrite Hack, Ho in H. cbn [negb andb] in H. rewrite pdu_write_eq, res_ok_bind in H by done.
  intros p1. fold p1 in H. fold (release e c p1) in H.
  apply res_bind_ok in H as (e2 & H2 & H). exists e2.
  rewrite pdu_read_eq, res_ok_bind, pdu_write_eq, res_ok_bind in H by done.
  apply res_bind_ok in H as (e4 & H4 & H). exists e4. split; [done|]. split; [exact H4|].
  destruct (Z.eqb_spec c (first_retrans_pdu_sn e4)) as [E|E].
  - apply res_bind_ok in H as (e5 & H5 & H). apply next_retrans_sdus in H5 as [H5 H6].
    injection H as <-. split; [destruct H5|split; [|by intros []]]; destruct (_ =? first_retrans_pdu_sn e5);
      by try split.
  - by injection H as <-.
Qed.

(** ** The transmitter between two operations *)

Section walk.
(** The PDUs sent, and how many; the SDUs waiting and their bytes; the next slot and the limit
    of retransmissions. *)
Context (us : Z -> umd) (sent bo : Z) (q : list um_tx_sdu) (next mx : Z).

(** An entry of the retransmission buffer that holds the PDU [u]. *)
Record entry_ok (p : am_tx_pdu) (u : umd) (sn : Z) : Prop := EntryOk {
  en_stores : stores p u sn;
  en_size : header_and_payload_size p < 9000;
  en_unnamed : unnamed next p;
  en_nack : 0 <= retx_count p -> nack_so_start p = 0 /\ nack_so_stop p = 0x7FFF;
  en_retx : -1 <= retx_count p < mx
}.

(** VT(A) is [a]. *)
Record sound (a : Z) (e : am_tx) : Prop := Sound {
  so_ok : am_ok e;
  so_a : vt_a e = a mod 1024;
  so_s : vt_s e = sent mod 1024;
  so_order : 0 <= a <= sent /\ sent < a + 512;
  so_queue : tx_queue e bo q;
  so_nxt : next_sdu_index e = next;
  so_max : max_retx_threshold e = mx;
  so_entries : forall n, a <= n < sent -> outstanding e (n mod 1024) = true ->
    entry_ok (pdu_at e (n mod 1024)) (us n) (n mod 1024);
  so_first : first_retrans_pdu_sn e = -1 \/ first_retrans_pdu_sn e = sent mod 1024 \/
    exists n, a <= n < sent /\ first_retrans_pdu_sn e = n mod 1024 /\ outstanding e (n mod 1024) = true
}.

(** The walk over a STATUS PDU has passed the PDUs before [c]. *)
Record walking (a c : Z) (e : am_tx) : Prop := Walking {
  wk_retx : forall n, c <= n < sent -> outstanding e (n mod 1024) = true ->
    retx_count (pdu_at e (n mod 1024)) + 1 < mx;
  wk_first : a < c -> a < sent -> first_retrans_pdu_sn e = a mod 1024
}.

Lemma sound_outstanding a e c : sound a e -> a - 512 <= c < sent -> outstanding e (c mod 1024) = true ->
  a <= c.
Proof.
  intros [Hok Ha Hs Ho _ _ _ _ _] Hc Hout.
  destruct (outstanding_inside e _ (ok_inv _ Hok) (mod_sn_ok c) Hout) as [Hin _].
  rewrite Ha, Hs, (dist_count a sent) in Hin by lia.
  destruct (Z.lt_ge_cases c a); [|done]. rewrite dist_behind in Hin by lia. lia.
Qed.

(** VT(A) is the first PDU that is held. *)
Lemma sound_first_held a e : sound a e -> a < sent -> outstanding e (a mod 1024) = true.
Proof.
  intros [Hok Ha Hs Ho _ _ _ _ _] Hlt. rewrite <- Ha. apply (ok_first _ Hok). rewrite Ha, Hs.
  intros E. apply (mod_inj a) in E; lia.
Qed.

(** VT(A) of a later state, counted. *)
Lemma later_a a e e' ak nk : sound a e -> am_ok e' -> effect ak nk e e' ->
  exists a', vt_a e' = a' mod 1024 /\ a <= a' <= sent /\
    (a' < sent -> outstanding e' (a' mod 1024) = true).
Proof.
  intros [Hok Ha Hs Ho _ _ _ _ _] Hok' [Es Eb _ _].
  pose proof (ok_a _ (ok_inv _ Hok')) as Hsa'. pose proof (dist_range (vt_a e) (vt_a e')) as Hd.
  pose proof (dist_range (vt_a e') (vt_s e)) as Hd'.
  set (a' := a + dist (vt_a e) (vt_a e')).
  assert (Ha' : vt_a e' = a' mod 1024).
  { subst a'. unfold dist, sn_ok in *. rewrite Ha in *. div_lia. }
  assert (E : dist (vt_a e) (vt_s e) = sent - a) by (rewrite Ha, Hs, dist_count; lia).
  exists a'. split; [done|]. unfold RlcAmSn.between in Eb. split; [lia|].
  intros Hlt. rewrite <- Ha'. apply (ok_first _ Hok'). rewrite Es, Ha', Hs. intros E'.
  apply (mod_inj a') in E'; lia.
Qed.

(** What an acknowledgement keeps of the rest. *)
Lemma sound_acked a a' e e' c :
  sound a e -> am_ok e' -> effect (only (c mod 1024)) none e e' -> vt_a e' = a' mod 1024 -> a <= a' <= sent ->
  tx_queue e' bo q -> next_sdu_index e' = next -> max_retx_threshold e' = mx ->
  first_retrans_pdu_sn e' = -1 \/ first_retrans_pdu_sn e' = sent mod 1024 \/
    (exists n, a' <= n < sent /\ first_retrans_pdu_sn e' = n mod 1024 /\ outstanding e' (n mod 1024) = true) ->
  sound a' e'.
Proof.
  intros [Hok Ha Hs Ho Hq Hn Hm He Hf] Hok' [Es _ Eo Ek] Ha' Hle Hq' Hn' Hm' Hf'.
  split; try done; [by rewrite Es|lia|]. intros n Hr Hout.
  destruct (Ek _ (mod_sn_ok n) Hout) as [_ E]. unfold none in E. rewrite E.
  apply He; [lia|]. rewrite Eo in Hout by apply mod_sn_ok. by apply andb_true_iff in Hout as [? _].
Qed.

Lemma walking_acked a a' e e' c :
  sound a e -> effect (only (c mod 1024)) none e e' -> walking a c e -> a <= a' ->
  (a' < c + 1 -> a' < sent -> first_retrans_pdu_sn e' = a' mod 1024) -> walking a' (c + 1) e'.
Proof.
  intros Hs [Es _ Eo Ek] [Hr _] Hle Hf. split; [|done]. intros n Hn Hout.
  destruct (Ek _ (mod_sn_ok n) Hout) as [_ E]. unfold none in E. rewrite E.
  apply Hr; [lia|]. rewrite Eo in Hout by apply mod_sn_ok. by apply andb_true_iff in Hout as [? _].
Qed.

(** An acknowledgement of what is not held. *)
Lemma ack_not_held_same e c : am_ok e -> sn_ok c -> outstanding e c = false ->
  exists p, rlc_am_ack_pdu e c = Ok (write_pdu e c p).
Proof.
  intros Hok Hsn Ho. pose proof (ok_inv _ Hok) as Hinv.
  unfold rlc_am_ack_pdu. rewrite pdu_read_eq, res_ok_bind by done. cbv zeta.
  change (bool_decide (is_Some (pdu_mem_block ((pdu_at e c) <| flag_retransmit := false |>))))
    with (outstanding e c).
  rewrite Ho, andb_false_r. rewrite pdu_write_eq, res_ok_bind by done.
  set (p1 := (pdu_at e c) <| flag_retransmit := false |> <| pdu_mem_block := None |>).
  exists p1. change (vt_a (write_pdu e c p1)) with (vt_a e).
  change (flag_ack ((pdu_at e c) <| flag_retransmit := false |>)) with (flag_ack (pdu_at e c)).
  destruct (flag_ack (pdu_at e c)) eqn:Ef; [|done]. destruct (Z.eqb_spec c (vt_a e)) as [->|]; [|done].
  exfalso. destruct (decide (vt_a e = vt_s e)) as [Heq|Hne].
  - destruct (ok_outside _ Hinv (vt_a e)) as [Hf _]; [done|rewrite Heq; lia|congruence].
  - rewrite (ok_first _ Hok Hne) in Ho. done.
Qed.

(** An acknowledgement of a PDU that is held: the SDUs, and [first_retrans_pdu_sn]. *)
Lemma ack_held_rest a e c e' : sound a e -> a <= c < sent -> outstanding e (c mod 1024) = true ->
  (a < c -> first_retrans_pdu_sn e = a mod 1024) -> rlc_am_ack_pdu e (c mod 1024) = Ok e' ->
  vt_a e' <> c mod 1024 -> (a < c -> vt_a e' = vt_a e) ->
  tx_queue e' bo q /\ next_sdu_index e' = next /\ max_retx_threshold e' = mx /\
  (a < c -> first_retrans_pdu_sn e' = first_retrans_pdu_sn e) /\
  (a = c -> first_retrans_pdu_sn e' = vt_a e' \/
    (first_retrans_pdu_sn e' = first_retrans_pdu_sn e /\ first_retrans_pdu_sn e <> c mod 1024)).
Proof.
  intros Hs Hc Hout Hwalk H Hva Hstay. pose proof Hs as [Hok Ha _ Hord Hq Hn Hm He _].
  pose proof (ok_inv _ Hok) as Hinv. pose proof (mod_sn_ok c) as Hsn.
  destruct (outstanding_inside e _ Hinv Hsn Hout) as [_ Hack].
  destruct (ack_pdu_parts e _ e' Hsn Hout Hack (ok_a _ Hinv) H) as (e2 & e4 & H2 & H4 & Hss & Hva4 & Heq).
  set (p1 := (pdu_at e (c mod 1024)) <| flag_retransmit := false |> <| pdu_mem_block := None |>) in *.
  destruct (release_fields e (c mod 1024) p1) as (_ & Fa & _ & _ & _ & _ & Ff & Fsd).
  assert (Hpo : pdu_ok p1) by (apply (pdu_ok_same (pdu_at e (c mod 1024))); by try apply (ok_pdus _ Hinv)).
  destruct (ack_sdus_arq p1 Hpo 129 0 (release e (c mod 1024) p1)) as (e2' & H2' & Harq & _).
  { by apply Fsd, (ok_sdus _ Hinv). } { destruct Hpo; lia. } { destruct Hpo; lia. }
  rewrite H2 in H2'. injection H2' as <-.
  pose proof (release_sdus e (c mod 1024) p1) as Hrel.
  pose proof (same_sdus_queue _ _ _ _ Hrel Hq) as Hqr.
  destruct Hrel as [_ _ Hrn _ Hrm].
  apply (ack_sdus_queue p1 bo q) in H2 as (Hq2 & Hn2 & Hm2); [|done|done| |apply Hpo].
  2: { rewrite Hrn, Hn. apply (en_unnamed _ _ _ (He c Hc Hout)). }
  set (e3 := write_pdu e2 (c mod 1024) _) in *.
  assert (Hss3 : same_sdus e2 e3) by (by split).
  assert (Hf3 : first_retrans_pdu_sn e3 = first_retrans_pdu_sn e)
    by (change (first_retrans_pdu_sn e2 = first_retrans_pdu_sn e); by rewrite (sa_retrans _ _ Harq), Ff).
  assert (Hv3 : vt_a e3 = vt_a e) by (change (vt_a e2 = vt_a e); by rewrite (sa_a _ _ Harq), Fa).
  change (vt_a e2) with (vt_a e3) in H4. rewrite Hv3, Ha in H4.
  assert (H5 : same_sdus e3 e4 /\ (a < c -> first_retrans_pdu_sn e4 = first_retrans_pdu_sn e) /\
    (a = c -> first_retrans_pdu_sn e4 = vt_a e4 \/
      (first_retrans_pdu_sn e4 = first_retrans_pdu_sn e /\ first_retrans_pdu_sn e <> c mod 1024))).
  { destruct (Z.eqb_spec (c mod 1024) (a mod 1024)) as [E|E].
    - apply (mod_inj a) in E; [|lia..]. subst c.
      apply move_window_sdus in H4 as [Hs4 Hf4]; [|rewrite Hv3, Ha; apply mod_sn_ok].
      split; [done|]. split; [lia|]. intros _. by rewrite Hf3, Hv3, Ha in Hf4.
    - injection H4 as <-. split; [done|]. split; [done|]. by intros ->. }
  destruct H5 as (Hss4 & Hf4 & Hf4').
  assert (E : e' = e4).
  { apply Heq. destruct (decide (a = c)) as [Eac|Eac].
    - destruct (Hf4' Eac) as [->|[-> Hne]]; [by rewrite <- Hva4; apply not_eq_sym|by apply not_eq_sym].
    - rewrite Hf4, Hwalk by lia. intros Em. apply (mod_inj a) in Em; lia. }
  subst e4. assert (Hall : same_sdus e2 e') by (by etrans).
  split; [by eapply same_sdus_queue|]. destruct Hall as [_ _ -> _ ->].
  split; [congruence|]. split; [congruence|]. by split.
Qed.

Lemma ack_step a c e e' : sound a e -> walking a c e -> 0 <= a -> a - 512 <= c < sent ->
  rlc_am_ack_pdu e (c mod 1024) = Ok e' ->
  exists a', a <= a' <= sent /\ sound a' e' /\ walking a' (c + 1) e'.
Proof.
  intros Hs Hw Ha0 Hc H. pose proof Hs as [Hok Ha Hvs Hord Hq Hn Hm He Hf].
  destruct (ack_pdu_ok e _ Hok (mod_sn_ok c)) as (x & Hx & Hok' & Heff). rewrite H in Hx. injection Hx as <-.
  destruct (later_a a e e' _ _ Hs Hok' Heff) as (a' & Ha' & Hle & Hfirst).
  exists a'. split; [done|].
  destruct (outstanding e (c mod 1024)) eqn:Hout.
  - pose proof (sound_outstanding a e c Hs Hc Hout) as Hac.
    assert (Hgone : outstanding e' (c mod 1024) = false).
    { rewrite (ef_out _ _ _ _ Heff) by apply mod_sn_ok. unfold only. by rewrite bool_decide_true, andb_false_r. }
    assert (Ha'c : a' <> c) by (intros ->; rewrite Hfirst in Hgone by lia; done).
    assert (Hne : vt_a e' <> c mod 1024).
    { rewrite Ha'. intros E. apply (mod_inj a) in E; lia. }
    assert (Hstay : a < c -> a' = a).
    { intros Hlt. pose proof (sound_first_held a e Hs ltac:(lia)) as Hah.
      destruct (decide (a' = a)) as [|Hd]; [done|]. exfalso.
      assert (Ho' : outstanding e' (a mod 1024) = true).
      { rewrite (ef_out _ _ _ _ Heff), Hah by apply mod_sn_ok. unfold only.
        rewrite bool_decide_false; [done|]. intros E. apply (mod_inj a) in E; lia. }
      destruct (outstanding_inside e' _ (ok_inv _ Hok') (mod_sn_ok a) Ho') as [Hin _].
      rewrite Ha', (ef_s _ _ _ _ Heff), Hvs, (dist_count a' sent), dist_behind in Hin by lia. lia. }
    destruct (ack_held_rest a e c e' Hs ltac:(lia) Hout) as (Q1 & Q2 & Q3 & Q4 & Q5); try done.
    { intros Hlt. apply (wk_first _ _ _ Hw); lia. }
    { intros Hlt. rewrite Ha', Ha. by rewrite Hstay. }
    assert (Hf' : first_retrans_pdu_sn e' = a' mod 1024 \/
      (a = c /\ first_retrans_pdu_sn e' = first_retrans_pdu_sn e /\ first_retrans_pdu_sn e <> c mod 1024)).
    { destruct (decide (a = c)) as [E|E].
      - destruct (Q5 E) as [->|[-> Hd]]; [by left|by right].
      - left. rewrite Q4, Hstay by lia. apply (wk_first _ _ _ Hw); lia. }
    split.
    + apply (sound_acked a a' e e' c); try done. destruct Hf' as [->|(-> & -> & Hd)].
      * destruct (decide (a' = sent)) as [->|]; [by right; left|]. right; right. exists a'.
        split; [lia|]. split; [done|]. apply Hfirst. lia.
      * destruct Hf as [->|[->|(n & Hr & En & Hn2)]]; [by left|by right; left|]. right; right.
        assert (n <> c) by congruence.
        assert (Ho' : outstanding e' (n mod 1024) = true).
        { rewrite (ef_out _ _ _ _ Heff), Hn2 by apply mod_sn_ok. unfold only.
          rewrite bool_decide_false; [done|]. intros E. apply (mod_inj c) in E; lia. }
        exists n. split; [|done]. split; [|lia].
        destruct (outstanding_inside e' _ (ok_inv _ Hok') (mod_sn_ok n) Ho') as [Hin _].
        destruct (Z.lt_ge_cases n a') as [Hlt|]; [|done].
        rewrite Ha', (ef_s _ _ _ _ Heff), Hvs, (dist_count a' sent), dist_behind in Hin by lia. lia.
    + apply (walking_acked a a' e e' c Hs Heff Hw); [lia|]. intros Hlt _.
      destruct Hf' as [->|(-> & _)]; [done|lia].
  - destruct (ack_not_held_same e _ Hok (mod_sn_ok c) Hout) as (p & Hp). rewrite H in Hp. injection Hp as ->.
    assert (a' = a) as ->.
    { change (vt_a (write_pdu e (c mod 1024) p)) with (vt_a e) in Ha'. rewrite Ha in Ha'.
      symmetry in Ha'. apply (mod_inj a) in Ha'; lia. }
    assert (Hkeep : forall n, outstanding e (n mod 1024) = true -> outstanding (write_pdu e (c mod 1024) p) (n mod 1024) = true).
    { intros n Hn2. rewrite (ef_out _ _ _ _ Heff), Hn2 by apply mod_sn_ok. unfold only.
      rewrite bool_decide_false; [done|]. congruence. }
    split.
    + apply (sound_acked a a e _ c); try done; [by apply (tx_queue_same e)|].
      change (first_retrans_pdu_sn (write_pdu e (c mod 1024) p)) with (first_retrans_pdu_sn e).
      destruct Hf as [->|[->|(n & Hr & En & Hn2)]]; [by left|by right; left|]. right; right.
      exists n. split; [done|]. split; [done|]. by apply Hkeep.
    + apply (walking_acked a a e _ c Hs Heff Hw); [lia|]. intros Hlt Has.
      change (first_retrans_pdu_sn (write_pdu e (c mod 1024) p)) with (first_retrans_pdu_sn e).
      apply (wk_first _ _ _ Hw); [|done]. destruct (decide (a = c)) as [->|]; [|lia].
      by rewrite (sound_first_held c e Hs Has) in Hout.
Qed.

(** ** A negative acknowledgement *)

(** [first_retrans_pdu_sn] after it. *)
Definition first_after (e : am_tx) (sn : Z) : Z :=
  if (first_retrans_pdu_sn e <? 0) || truth (rlc_am_tx_sn1_gt_sn2 e (first_retrans_pdu_sn e) sn)
  then sn else first_retrans_pdu_sn e.

Hypothesis Hmx : 1 <= mx <= 127.

(** The entry after it. *)
Record nacked_entry (p p' : am_tx_pdu) : Prop := NackedEntry {
  ne_block : pdu_mem_block p' = pdu_mem_block p;
  ne_size : header_and_payload_size p' = header_and_payload_size p;
  ne_index : sdus_index p' = sdus_index p /\ nb_sdus p' = nb_sdus p;
  ne_nack : nack_so_start p' = 0 /\ nack_so_stop p' = 0x7FFF;
  ne_retx : retx_count p' = retx_count p + 1
}.

Lemma nacked_entry_ok p p' u sn : entry_ok p u sn -> retx_count p + 1 < mx -> nacked_entry p p' ->
  entry_ok p' u sn.
Proof.
  intros [(b & junk & H1 & H2) H3 H4 H5 H6] Hr [E1 E2 [E3 E4] E5 E6]. split; try done.
  - exists b, junk. by rewrite E1, E2.
  - by rewrite E2.
  - intros j. rewrite E3, E4. apply H4.
  - rewrite E6. lia.
Qed.

(** It marks the PDU, and no SDU is discarded. *)
Lemma nack_held e frame sn : am_ok e -> sn_ok sn -> outstanding e sn = true ->
  -1 <= retx_count (pdu_at e sn) -> retx_count (pdu_at e sn) + 1 < mx -> max_retx_threshold e = mx ->
  exists e' p, rlc_am_nack_pdu e frame sn 0 0x7FFF = Ok e' /\
    nacked_entry (pdu_at e sn) p /\ pdu_retrans_buffer e' = <[sn := p]> (pdu_retrans_buffer e) /\
    same_sdus e e' /\ vt_a e' = vt_a e /\ vt_s e' = vt_s e /\ vt_ms e' = vt_ms e /\
    first_retrans_pdu_sn e' = first_after e sn.
Proof.
  intros Hok Hsn Hout Hr1 Hr2 Hm. rewrite nack_pdu_eq by done. cbv zeta.
  set (p0 := if last_nack_time _ =? frame then _ else _).
  pose proof (ok_pdus _ (ok_inv _ Hok) sn Hsn) as Hpo.
  assert (Hp0 : payload_size p0 = payload_size (pdu_at e sn) /\ retx_count p0 = retx_count (pdu_at e sn) /\
    pdu_mem_block p0 = pdu_mem_block (pdu_at e sn) /\ sdus_index p0 = sdus_index (pdu_at e sn) /\
    nb_sdus p0 = nb_sdus (pdu_at e sn) /\
    header_and_payload_size p0 = header_and_payload_size (pdu_at e sn))
    by (subst p0; by destruct (_ =? frame)).
  destruct Hp0 as (F1 & F2 & F3 & F4 & F5 & F6).
  change (0 <=? 0x7FFF) with true. cbn [res_guard]. rewrite res_ok_bind.
  destruct (add_hole_whole p0) as (p1 & Ep & _ & G1 & G2); [rewrite F1; by apply Hpo|].
  rewrite Ep, res_ok_bind. change ((0 =? 0) && (0x7FFF =? 0x7FFF)) with true. cbv iota.
  apply add_hole_only in Ep as [Eh _ _].
  unfold nack_mark. cbv zeta.
  set (e0 := e <| num_nack_sn := _ |>).
  set (e1 := if _ || _ then e0 <| first_retrans_pdu_sn := sn |> else e0).
  set (p2 := p1 <| flag_retransmit := true |>).
  set (e2 := if retx_count p2 =? -1 then e1 <| retrans_num_bytes_to_retransmit := _ |> else e1).
  set (p3 := p2 <| retx_count := _ |>).
  rewrite pdu_write_eq, res_ok_bind by done.
  assert (Hretx : retx_count p3 = retx_count (pdu_at e sn) + 1).
  { change (retx_count p3) with (if retx_count p2 =? -1 then 0 else s8 (retx_count p2 + 1)).
    assert (E : retx_count p2 = retx_count (pdu_at e sn))
      by (change (retx_count p2) with (retx_count p1); rewrite Eh; exact F2).
    rewrite E. destruct (Z.eqb_spec (retx_count (pdu_at e sn)) (-1)) as [E1|]; [lia|].
    rewrite (wrapS_small 8) by (change (2 ^ (8 - 1)) with 128; lia). done. }
  assert (He2 : pdu_retrans_buffer e2 = pdu_retrans_buffer e /\ same_sdus e e2 /\ vt_a e2 = vt_a e /\
    vt_s e2 = vt_s e /\ vt_ms e2 = vt_ms e /\ first_retrans_pdu_sn e2 = first_after e sn).
  { subst e2 e1. unfold first_after. change (first_retrans_pdu_sn e0) with (first_retrans_pdu_sn e).
    change (rlc_am_tx_sn1_gt_sn2 e0) with (rlc_am_tx_sn1_gt_sn2 e).
    destruct (_ || _), (retx_count p2 =? -1); split_and!; try done; by split. }
  clearbody e2. destruct He2 as (B1 & B2 & B3 & B4 & B5 & B6).
  change (max_retx_threshold (write_pdu e2 sn p3)) with (max_retx_threshold e2).
  rewrite (ss_max _ _ B2), Hm, Hretx, (proj2 (Z.leb_gt mx _)) by lia.
  exists (write_pdu e2 sn p3), p3. split; [done|]. split.
  { split; try done.
    - change (pdu_mem_block p1 = pdu_mem_block (pdu_at e sn)). rewrite Eh. exact F3.
    - change (header_and_payload_size p1 = header_and_payload_size (pdu_at e sn)). rewrite Eh. exact F6.
    - change (sdus_index p1 = sdus_index (pdu_at e sn) /\ nb_sdus p1 = nb_sdus (pdu_at e sn)).
      rewrite Eh. by split. }
  split; [change (<[sn := p3]> (pdu_retrans_buffer e2) = <[sn := p3]> (pdu_retrans_buffer e)); by rewrite B1|].
  split; [destruct B2; by split|]. by split_and!.
Qed.

Lemma nacked_at e e' sn p : pdu_retrans_buffer e' = <[sn := p]> (pdu_retrans_buffer e) ->
  forall x, pdu_at e' x = if decide (sn = x) then p else pdu_at e x.
Proof.
  intros H x. unfold pdu_at. rewrite H. case_decide as E.
  - subst. by rewrite lookup_insert_eq.
  - by rewrite lookup_insert_ne.
Qed.

(** The test for the earlier of two PDUs. *)
Lemma gt_count e x y a : vt_a e = a mod 1024 -> a <= x < a + 1024 -> a <= y < a + 1024 ->
  truth (rlc_am_tx_sn1_gt_sn2 e (x mod 1024) (y mod 1024)) = (y <? x).
Proof.
  intros Ha Hx Hy. unfold rlc_am_tx_sn1_gt_sn2, RLC_AM_SN_MODULO.
  rewrite !s16_small by div_lia. rewrite !(proj2 (Z.leb_gt 1024 _)) by div_lia. cbn [orb].
  rewrite Ha. unfold wrapU. rewrite !Z.rem_mod_nonneg by div_lia.
  replace ((x mod 1024 - a mod 1024) mod 2 ^ 16 mod 1024) with (x - a) by div_lia.
  replace ((y mod 1024 - a mod 1024) mod 2 ^ 16 mod 1024) with (y - a) by div_lia.
  destruct (Z.ltb_spec (y - a) (x - a)), (Z.ltb_spec y x); try lia; done.
Qed.

(** A PDU that is held is asked for again. *)
Lemma nack_sound a e frame n : sound a e -> a <= n < sent -> outstanding e (n mod 1024) = true ->
  retx_count (pdu_at e (n mod 1024)) + 1 < mx ->
  exists e' p, rlc_am_nack_pdu e frame (n mod 1024) 0 0x7FFF = Ok e' /\ sound a e' /\
    nacked_entry (pdu_at e (n mod 1024)) p /\
    pdu_retrans_buffer e' = <[n mod 1024 := p]> (pdu_retrans_buffer e) /\
    (forall x, outstanding e' x = outstanding e x) /\
    (first_retrans_pdu_sn e = a mod 1024 \/ n = a -> first_retrans_pdu_sn e' = a mod 1024).
Proof.
  intros Hs Hn Hout Hr. pose proof Hs as [Hok Ha Hvs Hord Hq Hnx Hm He Hf].
  pose proof (He n Hn Hout) as Hen.
  destruct (nack_held e frame (n mod 1024) Hok (mod_sn_ok n) Hout ltac:(apply Hen) Hr Hm)
    as (e' & p & H & Hp & Hb & Hss & Ea & Es & Ems & Ef).
  exists e', p. split; [done|]. pose proof (nacked_at _ _ _ _ Hb) as Hat.
  pose proof (nack_pdu_ok e frame _ 0 0x7FFF Hok (mod_sn_ok n)) as Hok'. rewrite H in Hok'.
  destruct Hok' as [Hok' Heff].
  assert (Ho : forall x, outstanding e' x = outstanding e x).
  { intros x. unfold outstanding. rewrite Hat. case_decide as E; [|done]. subst x.
    unfold held. by rewrite (ne_block _ _ Hp). }
  assert (Hfirst : first_after e (n mod 1024) = n mod 1024 \/
    (first_after e (n mod 1024) = first_retrans_pdu_sn e /\
     exists m, a <= m <= n /\ first_retrans_pdu_sn e = m mod 1024 /\ outstanding e (m mod 1024) = true)).
  { unfold first_after. destruct Hf as [E|[E|(m & Hm2 & E & Hom)]]; rewrite E.
    - by left.
    - rewrite (gt_count e sent n a) by (done || lia). rewrite (proj2 (Z.ltb_lt n sent)), orb_true_r by lia.
      by left.
    - rewrite (gt_count e m n a) by (done || lia).
      rewrite (proj2 (Z.ltb_ge (m mod 1024) 0)) by div_lia. cbn [orb].
      destruct (Z.ltb_spec n m); [by left|right]. split; [done|]. exists m. split; [lia|done]. }
  split; [|split; [done|split; [done|split; [done|]]]].
  - split; try congruence; try done.
    + by eapply same_sdus_queue.
    + by rewrite (ss_next _ _ Hss).
    + by rewrite (ss_max _ _ Hss).
    + intros m Hm2 Hom. rewrite Ho in Hom. rewrite Hat. case_decide as E; [|by apply He].
      apply (mod_inj a) in E; [|lia..]. subst m. by eapply nacked_entry_ok.
    + right; right. rewrite Ef. destruct Hfirst as [->|[-> (m & Hm2 & -> & Hom)]].
      * exists n. by rewrite Ho.
      * exists m. rewrite Ho. split; [lia|done].
  - intros Hfa. rewrite Ef. destruct Hfirst as [E|[-> (m & Hm2 & E & Hom)]].
    + destruct Hfa as [Hfa| ->]; [|done]. unfold first_after in E |- *. rewrite Hfa in E |- *.
      rewrite (gt_count e a n a) by (done || lia). rewrite (proj2 (Z.ltb_ge n a)) by lia.
      by rewrite (proj2 (Z.ltb_ge (a mod 1024) 0)) by div_lia.
    + destruct Hfa as [Hfa|Hfa]; [congruence|]. assert (m = a) by lia. subst. congruence.
Qed.

Lemma nack_step a c e frame e' : sound a e -> walking a c e -> 0 <= a -> a - 512 <= c < sent ->
  rlc_am_nack_pdu e frame (c mod 1024) 0 0x7FFF = Ok e' -> sound a e' /\ walking a (c + 1) e'.
Proof.
  intros Hs [Hr Hw] Ha0 Hc H. destruct (outstanding e (c mod 1024)) eqn:Hout.
  - pose proof (sound_outstanding a e c Hs Hc Hout) as Hac.
    destruct (nack_sound a e frame c Hs ltac:(lia) Hout) as (x & p & Hx & Hs' & Hp & Hb & Ho & Hf);
      [apply Hr; [lia|done]|]. rewrite H in Hx. injection Hx as <-. split; [done|]. split.
    + intros n Hn Hon. rewrite Ho in Hon. rewrite (nacked_at _ _ _ _ Hb), decide_False.
      * apply Hr; [lia|done].
      * pose proof (so_order _ _ Hs). intros E. apply (mod_inj c) in E; lia.
    + intros _ Has. apply Hf. destruct (decide (c = a)) as [->|]; [by right|left]. apply Hw; lia.
  - unfold rlc_am_nack_pdu in H. rewrite pdu_read_eq, res_ok_bind in H by apply mod_sn_ok.
    rewrite (not_held _ Hout) in H. injection H as <-. split; [done|]. split.
    + intros n Hn. apply Hr. lia.
    + intros Hlt Has. apply Hw; [|done]. destruct (decide (a = c)) as [->|]; [|lia].
      by rewrite (sound_first_held c e Hs Has) in Hout.
Qed.

Lemma stop_poll_step a c e x : sound a e -> walking a c e ->
  sound a (stop_poll e x) /\ walking a c (stop_poll e x).
Proof.
  intros [Hok Ha Hvs Hord Hq Hnx Hm He Hf] [Hr Hw]. destruct (stop_poll_ok e x Hok) as [Hok' _].
  unfold stop_poll in *. destruct (x =? poll_sn e); [|by split].
  split; split; try done. by eapply tx_queue_same.
Qed.

(** ** The loops *)

Lemma ack_all_sound fuel ack : forall a c e e', sound a e -> walking a c e -> 0 <= a ->
  sent - 512 < c <= ack -> ack <= sent -> ack_all fuel (ack mod 1024) (c mod 1024) e = Ok e' ->
  exists a', a <= a' <= sent /\ sound a' e' /\ walking a' ack e'.
Proof.
  induction fuel as [|fuel IH]; intros a c e e' Hs Hw Ha Hc Hack H; [done|].
  pose proof (so_order _ _ Hs) as Hord.
  cbn [ack_all] in H. destruct (Z.eqb_spec (c mod 1024) (ack mod 1024)) as [E|E].
  { apply (mod_inj c) in E; [|lia..]. subst ack. injection H as <-. exists a. split; [lia|]. by split. }
  assert (c <> ack) by congruence.
  destruct (stop_poll_step a c e (c mod 1024) Hs Hw) as [Hs1 Hw1].
  apply res_bind_ok in H as (e1 & H1 & H). rewrite sn_after_mod in H.
  destruct (ack_step a c _ e1 Hs1 Hw1 Ha ltac:(lia) H1) as (a1 & Ha1 & Hs2 & Hw2).
  destruct (IH a1 (c + 1) e1 e' Hs2 Hw2) as (a' & Ha' & Hs' & Hw'); [lia|lia|done|done|].
  exists a'. split; [lia|]. by split.
Qed.

(** The entries name PDUs one after the other. *)
Definition distinct_next (ns : list nack_sn) : Prop :=
  forall l m n l', ns = l ++ m :: n :: l' -> nack_sn_ n <> nack_sn_ m.

Lemma ack_nack_sound frame nacks ack : Forall (fun n => so_start n = 0 /\ so_end n = 0x7FFF) nacks ->
  distinct_next nacks -> forall fuel pre ns a c e e', nacks = pre ++ ns ->
  sound a e -> walking a c e -> 0 <= a -> sent - 512 < c <= ack -> ack <= sent ->
  ack_nack fuel frame (ack mod 1024) nacks (zlen pre) (next_named ns) (c mod 1024) e = Ok e' ->
  exists a', a <= a' <= sent /\ sound a' e' /\ walking a' ack e'.
Proof.
  intros Hall Hdist. induction fuel as [|fuel IH]; intros pre ns a c e e' E Hs Hw Ha Hc Hack H; [done|].
  pose proof (so_order _ _ Hs) as Hord. cbn [ack_nack] in H.
  destruct (Z.eqb_spec (c mod 1024) (ack mod 1024)) as [Ec|Ec].
  { apply (mod_inj c) in Ec; [|lia..]. subst ack. injection H as <-. exists a. split; [lia|]. by split. }
  assert (c <> ack) by congruence. cbv zeta in H.
  destruct (stop_poll_step a c e (c mod 1024) Hs Hw) as [Hs1 Hw1].
  assert (Hnext : forall pre ns, nacks = pre ++ ns -> move_cursor nacks (zlen pre) (c mod 1024) = Ok ((c + 1) mod 1024)).
  { intros pre0 ns0 E0. rewrite E0, move_cursor_next, sn_after_mod; [done|].
    intros p m n ns' -> ->. rewrite <- app_assoc in E0. by eapply (Hdist p m n ns'). }
  destruct (Z.eqb_spec (c mod 1024) (next_named ns)) as [Heq|Hnn]; cbn [negb] in H.
  - destruct ns as [|n ns]; [cbn in Heq; div_lia|]. cbn [next_named] in Heq.
    assert (Hn : so_start n = 0 /\ so_end n = 0x7FFF).
    { rewrite E in Hall. apply Forall_app in Hall as [_ Hall]. by apply Forall_cons in Hall as [? _]. }
    destruct Hn as [Hn1 Hn2].
    assert (Hrd : rd nacks (zlen pre) = Ok n) by (rewrite E; apply rd_app_here).
    rewrite Hrd, res_ok_bind, Hn1, Hn2 in H.
    apply res_bind_ok in H as ([[e1 ni] snn] & H1 & H). apply res_bind_ok in H1 as (e2 & H2 & H1).
    destruct (nack_step a c _ frame e2 Hs1 Hw1 Ha ltac:(lia) H2) as [Hs2 Hw2].
    replace (zlen pre + 1) with (zlen (pre ++ [n])) in H1 by (rewrite zlen_app; done).
    assert (E' : nacks = (pre ++ [n]) ++ ns) by (by rewrite E, <- app_assoc).
    assert (Ex : Ok (e2, zlen (pre ++ [n]), next_named ns) = Ok (e1, ni, snn)).
    { rewrite <- H1. rewrite E'. destruct ns as [|m ns]; [by rewrite app_nil_r, Z.eqb_refl|].
      rewrite (zlen_app (pre ++ [n])), (proj2 (Z.eqb_neq _ _)), rd_app_here; [done|].
      rewrite zlen_cons. pose proof (zlen_nonneg ns). lia. }
    injection Ex as <- <- <-. rewrite (Hnext _ _ E'), res_ok_bind in H.
    by apply (IH (pre ++ [n]) ns a (c + 1) e2 e' E' Hs2 Hw2 Ha ltac:(lia) Hack).
  - apply res_bind_ok in H as ([[e1 ni] snn] & H1 & H). apply res_bind_ok in H1 as (e2 & H2 & H1).
    injection H1 as <- <- <-.
    destruct (ack_step a c _ e2 Hs1 Hw1 Ha ltac:(lia) H2) as (a1 & Ha1 & Hs2 & Hw2).
    rewrite (Hnext _ _ E), res_ok_bind in H.
    destruct (IH pre ns a1 (c + 1) e2 e' E Hs2 Hw2) as (a' & Ha' & Hs' & Hw'); [lia|lia|done|done|].
    exists a'. split; [lia|]. by split.
Qed.

(** A STATUS PDU. *)
Lemma process_sound frame i a ack e e' :
  sound a e -> 0 <= a -> a <= ack <= sent -> ack_sn i = ack mod 1024 ->
  Forall (fun n => so_start n = 0 /\ so_end n = 0x7FFF) (nack_list i) -> distinct_next (nack_list i) ->
  (forall n, a <= n < sent -> outstanding e (n mod 1024) = true ->
    retx_count (pdu_at e (n mod 1024)) + 1 < mx) ->
  process_status e frame i = Ok e' -> exists a', a <= a' <= sent /\ sound a' e'.
Proof.
  intros Hs Ha Hack Ei Hall Hdist Hr H. unfold process_status in H.
  apply res_bind_ok in H as (? & _ & H). apply res_bind_ok in H as (? & _ & H).
  pose proof (so_order _ _ Hs) as Hord.
  destruct (0 <? _); [|injection H as <-; exists a; split; [lia|done]].
  set (e1 := e <| num_nack_so := 0 |> <| num_nack_sn := 0 |>) in H.
  assert (Hs1 : sound a e1).
  { pose proof Hs as [Hok Hva Hvs _ Hq Hnx Hm He Hf]. split; try done; [|by eapply tx_queue_same].
    eapply tx_ok_same; [exact Hok|by split; try done; intros []|]. by destruct (ok_sdus _ (ok_inv _ Hok)). }
  assert (Hw1 : walking a a e1) by (split; [done|lia]).
  assert (Hgoal : exists a', a <= a' <= sent /\ sound a' e' /\ walking a' ack e').
  { change (vt_a e1) with (vt_a e) in H. rewrite (so_a _ _ Hs), Ei in H.
    destruct (nack_list i) as [|n ns] eqn:En.
    - apply (ack_all_sound 1025 ack a a e1 e'); done || lia.
    - apply (ack_nack_sound frame (n :: ns) ack Hall Hdist 2049 [] (n :: ns) a a e1 e'); done || lia. }
  destruct Hgoal as (a' & ? & ? & _). by exists a'.
Qed.
End walk.
