(* ===== verification/RlcAmSenderSpec.v ===== *)
(** RLC AM v9.3.0: what every operation of the transmitter keeps: an SDU accepted joins the
    queue, a grant sends a new PDU or one of those held again. *)
From S2P Require Import Prelude.
From S2P Require Import RlcUmEntity.
From S2P Require Import RlcUmHeader.
From S2P Require Import RlcUmSegment.
From S2P Require Import RlcUmSegmentSpec.
From S2P Require Import RlcAmEntity.
From S2P Require Import RlcAmSn.
From S2P Require Import RlcAmRetransmit.
From S2P Require Import RlcAmArqSpec.
From S2P Require Import RlcAmStatusRefine.
From S2P Require Import RlcAmReceiverSpec.
From S2P Require Import RlcAmSender.
From S2P Require Import RlcAmSegment.
From S2P Require Import RlcAmResegment.
From S2P Require Import RlcAm.
From S2P Require Import RlcAmHeaderSpec.
From S2P Require Import RlcAmPlanSpec.
From S2P Require Import RlcAmSegmentSpec.
From S2P Require Import RlcAmSendSpec.
From S2P Require Import RlcAmWalkSpec.

Local Open Scope Z_scope.
Local Open Scope c_scope.

Local Abbreviation um_rem := RlcUmEntity.sdu_remaining_size.
Local Abbreviation um_seg := RlcUmEntity.sdu_segmented_size.

(** Between two operations: VT(A) is [a], VT(S) is [sent], and [q] waits. *)
Record sender (us : Z -> umd) (sent a : Z) (q : list um_tx_sdu) (mx : Z) (s : am_send) : Prop := Sender {
  sd_sound : sound us sent (sdu_buffer_occupancy s) q (next_sdu_index (snd_tx s)) mx a (snd_tx s);
  sd_seg : segmentation_pdu_list s = [];
  sd_mac : pdus_to_mac_layer s = []
}.

(** No PDU has been given up. *)
Definition kept (e e' : am_tx) : Prop :=
  forall x, outstanding e x = true -> outstanding e' x = true.

#[export] Instance kept_preorder : PreOrder kept.
Proof. split; [by intros e x|]. intros e1 e2 e3 H1 H2 x Hx. by apply H2, H1. Qed.

Lemma kept_buffer e e' : pdu_retrans_buffer e' = pdu_retrans_buffer e -> kept e e'.
Proof. intros E x. unfold outstanding, pdu_at. by rewrite E. Qed.

Lemma kept_write e sn p : held p = true -> kept e (write_pdu e sn p).
Proof. intros Hp x. unfold outstanding. rewrite pdu_at_write. by case_decide. Qed.

Lemma kept_polled s s' : polled s s' -> kept (snd_tx s) (snd_tx s').
Proof. intros [_ E]. apply kept_buffer. by rewrite E. Qed.

(** ** SDUs *)

(** The SDU of [bytes], all of it to be sent. *)
Definition fresh_sdu (frame : Z) (bytes : list Z) : um_tx_sdu :=
  UmTxSdu bytes frame (zlen bytes) 0 (zlen bytes).

Lemma queued_add e q u s e' :
  queued e q -> zlen q < 127 -> slot_is s u ->
  input_sdus e' = <[next_sdu_index e := s]> (input_sdus e) ->
  current_sdu_index e' = current_sdu_index e -> next_sdu_index e' = slot_of (next_sdu_index e) 1 ->
  queued e' (q ++ [u]).
Proof.
  intros [Hc Hl Hn Hs] Hlt Hu Ei Ec En. pose proof (zlen_nonneg q) as Hz.
  assert (El : zlen (q ++ [u]) = zlen q + 1) by (by rewrite zlen_app).
  split; rewrite ?Ec, ?El; try done; try lia.
  - rewrite En, Hn. unfold slot_of. div_lia.
  - intros k Hk.
    assert (Eat : sdu_at e' (slot_of (current_sdu_index e) k)
      = if decide (k = zlen q) then s else sdu_at e (slot_of (current_sdu_index e) k)).
    { unfold sdu_at. rewrite Ei, Hn. case_decide as E; [subst k; by rewrite lookup_insert_eq|].
      rewrite lookup_insert_ne; [done|]. intros E2. apply E. symmetry. by apply slot_of_inj in E2; lia. }
    rewrite Eat. case_decide as E.
    + subst k. rewrite lookup_app_r by (unfold zlen; lia). unfold zlen.
      by rewrite Nat2Z.id, Nat.sub_diag.
    + specialize (Hs k Hk). destruct (Z.lt_ge_cases k (zlen q)).
      * rewrite lookup_app_l by (unfold zlen in *; lia). done.
      * rewrite lookup_ge_None_2 in Hs by (unfold zlen in *; lia).
        rewrite lookup_ge_None_2; [done|]. rewrite length_app. cbn [length]. unfold zlen in *. lia.
Qed.

Lemma data_req_ok us sent a q mx s frame sdu bytes rest :
  sender us sent a q mx s -> zlen q < 127 ->
  dr_data sdu = bytes ++ rest -> dr_size sdu = zlen bytes -> 0 < zlen bytes < 65536 ->
  (forall n, a <= n < sent -> outstanding (snd_tx s) (n mod 1024) = true ->
    unnamed (slot_of (next_sdu_index (snd_tx s)) 1) (pdu_at (snd_tx s) (n mod 1024))) ->
  exists s', rlc_am_data_req s frame sdu = Ok s' /\
    sender us sent a (q ++ [fresh_sdu frame bytes]) mx s' /\
    kept (snd_tx s) (snd_tx s').
Proof.
  intros [Hs Hseg Hmac] Hlt Hd Hsz Hb Hfree.
  pose proof Hs as [Hok Ha Hvs Hord Hq Hnx Hm He Hf]. pose proof (tx_queue_bo _ _ _ Hq) as [Hbo _].
  pose proof Hq as [Hqd Hwf Hfr Hnum Hsum]. pose proof Hqd as [Hc Hl Hn Hsl].
  unfold rlc_am_data_req. set (e := snd_tx s) in *. cbv zeta.
  assert (Hr : 0 <= next_sdu_index e < 128) by (rewrite Hn; apply slot_of_range).
  pose proof (zlen_nonneg q) as Hz.
  rewrite slot_read, res_ok_bind by done.
  assert (Hold : sdu_mem_block (sdu_at e (next_sdu_index e)) = None).
  { rewrite Hn. specialize (Hsl (zlen q) ltac:(lia)). by rewrite lookup_ge_None_2 in Hsl by (unfold zlen; lia). }
  rewrite Hold, bool_decide_true by done. cbn [andb].
  assert (Enext : (next_sdu_index e + 1) %% RLC_AM_SDU_CONTROL_BUFFER_SIZE = slot_of (next_sdu_index e) 1).
  { unfold RLC_AM_SDU_CONTROL_BUFFER_SIZE. by rewrite Z.rem_mod_nonneg by lia. }
  rewrite Enext.
  assert (Hcn : slot_of (next_sdu_index e) 1 <> current_sdu_index e).
  { rewrite Hn. replace (slot_of (slot_of (current_sdu_index e) (zlen q)) 1)
      with (slot_of (current_sdu_index e) (zlen q + 1)) by (unfold slot_of; div_lia).
    intros E. rewrite <- (slot_of_0 (current_sdu_index e) Hc) in E at 2.
    apply slot_of_inj in E; lia. }
  rewrite (proj2 (Z.eqb_neq _ _)) by done. cbn [negb].
  rewrite Hsz, u16_small by lia. rewrite slot_write, res_ok_bind by done.
  eexists. split; [reflexivity|]. split; [|by apply kept_buffer].
  set (sl := AmTxSdu _ _ _ _ _ _ _ _ _). split; try done.
  set (e' := (write_sdu e (next_sdu_index e) sl) <| nb_sdu := _ |> <| nb_sdu_no_segmented := _ |>
                                                 <| next_sdu_index := _ |>).
  assert (Hok' : am_ok e').
  { eapply tx_ok_same; [exact Hok|split; try done|]; [intros []|destruct (ok_sdus _ (ok_inv _ Hok))]; split; try done;
      apply slot_of_range. }
  split; try done.
  - split; try done.
    + eapply queued_add; [exact Hqd|done| |done|done|done].
      split; try done. exists rest. change (Some (dr_data sdu) = Some (bytes ++ rest)). by rewrite Hd.
    + apply Forall_app. split; [done|]. apply Forall_singleton. split; try done; cbn; lia.
    + destruct q as [|u q]; [by constructor|]. cbn [app tail] in *. apply Forall_app. split; [done|].
      by repeat constructor.
    + change (s32 (nb_sdu_no_segmented e + 1) = zlen (q ++ [fresh_sdu frame bytes])).
      rewrite zlen_app, Hnum, s32_small by lia. done.
    + change (s32 (sdu_buffer_occupancy s + zlen bytes) = sumZ (um_rem <$> q ++ [fresh_sdu frame bytes])).
      rewrite s32_small by lia. rewrite fmap_app, sumZ_app, Hsum. cbn. lia.
  - intros n Hn2 Ho. destruct (He n Hn2 Ho) as [E1 E2 E3 E4 E5]. split; try done.
    by apply Hfree.
Qed.

(** ** Copies *)

(** Another entry for a PDU that is held. *)
Lemma write_ok e sn p : am_ok e -> sn_ok sn -> outstanding e sn = true -> pdu_ok p -> held p = true ->
  header_and_payload_size p = header_and_payload_size (pdu_at e sn) ->
  flag_ack p = flag_ack (pdu_at e sn) -> am_ok (write_pdu e sn p).
Proof.
  intros Hok Hsn Ho Hp Hh Hsz Hfa. pose proof (ok_inv _ Hok) as Hinv.
  destruct (outstanding_inside e sn Hinv Hsn Ho) as [Hin Hack].
  assert (H : replaced e sn p (write_pdu e sn p)).
  { split; try done; try apply pdu_at_write; try apply Hinv.
    - change (retrans_num_pdus (write_pdu e sn p)) with (retrans_num_pdus e). unfold count_pdu.
      unfold outstanding in Ho. rewrite Ho, Hh. lia.
    - change (retrans_num_bytes (write_pdu e sn p)) with (retrans_num_bytes e). unfold count_bytes.
      unfold outstanding in Ho. rewrite Ho, Hh. lia.
    - by destruct (ok_sdus _ Hinv). }
  split.
  - eapply replaced_inv; [done..|intros _|lia]. by rewrite Hfa, Hack, Hh.
  - apply Hok.
  - rewrite (replaced_out _ _ _ _ _ H). intros Hne. case_decide; [done|]. by apply Hok.
Qed.

Section copies.
Context (us : Z -> umd) (sent bo : Z) (q : list um_tx_sdu) (next mx a : Z).
Local Abbreviation snd_sound := (sound us sent bo q next mx a).

Lemma sound_write e n p : snd_sound e -> a <= n < sent -> outstanding e (n mod 1024) = true ->
  pdu_ok p -> held p = true -> header_and_payload_size p = header_and_payload_size (pdu_at e (n mod 1024)) ->
  flag_ack p = flag_ack (pdu_at e (n mod 1024)) -> entry_ok next mx p (us n) (n mod 1024) ->
  snd_sound (write_pdu e (n mod 1024) p).
Proof.
  intros [Hok Ha Hvs Hord Hq Hnx Hm He Hf] Hn Ho Hp Hh Hsz Hfa Hen.
  assert (Hout : forall x, outstanding (write_pdu e (n mod 1024) p) x = outstanding e x).
  { intros x. unfold outstanding. rewrite pdu_at_write. case_decide as E; [subst x|done].
    rewrite Hh. symmetry. exact Ho. }
  split; try done.
  - by apply write_ok; try apply mod_sn_ok.
  - by eapply tx_queue_same.
  - intros m Hm2 Hom. rewrite Hout in Hom. rewrite pdu_at_write. case_decide as E; [|by apply He].
    apply (mod_inj a) in E; [|lia..]. by subst m.
  - destruct Hf as [?|[?|(m & ? & ? & ?)]]; [by left|by right; left|right; right].
    exists m. by rewrite Hout.
Qed.

Lemma sound_polled s s' : polled s s' -> snd_sound (snd_tx s) -> snd_sound (snd_tx s').
Proof.
  intros [_ E] [Hok Ha Hvs Hord Hq Hnx Hm He Hf].
  assert (Hs : same_arq (snd_tx s) (snd_tx s') /\ sdus_ok (snd_tx s')).
  { rewrite E. destruct (ok_sdus _ (ok_inv _ Hok)). by split; [split|split]. }
  destruct Hs as [Hs Hsd]. pose proof Hs as [Eb _ _ _ _ _ Er _].
  assert (Hp : forall x, pdu_at (snd_tx s') x = pdu_at (snd_tx s) x) by (intros; unfold pdu_at; by rewrite Eb).
  split; try done; rewrite ?(sa_a _ _ Hs), ?(sa_s _ _ Hs), ?Er; try done.
  - by eapply tx_ok_same.
  - eapply tx_queue_same; [exact Hq|by rewrite E..].
  - by rewrite E.
  - by rewrite E.
  - intros n Hn. unfold outstanding. rewrite Hp. by apply He.
  - destruct Hf as [?|[?|(m & ? & ? & ?)]]; [by left|by right; left|right; right].
    exists m. unfold outstanding. by rewrite Hp.
Qed.

(** The copy of a PDU that is held. *)
Lemma copy_sound mem s frame n : gives mem -> snd_sound (snd_tx s) -> a <= n < sent ->
  outstanding (snd_tx s) (n mod 1024) = true ->
  exists s' tb, rlc_am_retransmit_get_copy mem s frame (n mod 1024) = Ok (s', Some tb) /\
    conveys tb (us n) (n mod 1024) /\
    req_size tb = header_and_payload_size (pdu_at (snd_tx s) (n mod 1024)) /\
    snd_sound (snd_tx s') /\
    pdus_to_mac_layer s' = pdus_to_mac_layer s /\ segmentation_pdu_list s' = segmentation_pdu_list s /\
    sdu_buffer_occupancy s' = sdu_buffer_occupancy s /\
    (forall x, pdu_at (snd_tx s') x = if decide (n mod 1024 = x)
       then (pdu_at (snd_tx s) x) <| flag_retransmit := false |> else pdu_at (snd_tx s) x).
Proof.
  intros Hmem Hs Hn Ho. pose proof Hs as [Hok _ _ _ _ _ _ He _].
  pose proof (He n Hn Ho) as Hen. pose proof (ok_pdus _ (ok_inv _ Hok) _ (mod_sn_ok n)) as Hpo.
  destruct (get_copy_ok mem s frame (n mod 1024) (us n) Hmem (mod_sn_ok n) (en_stores _ _ _ _ _ Hen))
    as (s' & tb & -> & Htb & Hsz & Hp).
  exists s', tb. split; [done|]. split; [done|]. split; [done|].
  set (p' := (pdu_at (snd_tx s) (n mod 1024)) <| flag_retransmit := false |>) in *.
  pose proof (pd_send _ _ Hp) as Es. pose proof (pd_tx _ _ Hp) as Et.
  split; [|split; [by rewrite Es|split; [by rewrite Es|split; [by rewrite Es|]]]].
  - eapply sound_polled; [exact Hp|].
    change (snd_tx (s <| snd_tx := ?x |>)) with x. apply sound_write; try done.
    + by apply (pdu_ok_same (pdu_at (snd_tx s) (n mod 1024))).
    + by destruct Hen as [(b & junk & H1 & H2) H3 H4 H5 H6]; split; try done; exists b, junk.
  - intros x. unfold pdu_at at 1. rewrite Et.
    change (pdu_at (write_pdu (snd_tx s) (n mod 1024) p') x = if decide (n mod 1024 = x)
       then (pdu_at (snd_tx s) x) <| flag_retransmit := false |> else pdu_at (snd_tx s) x).
    rewrite pdu_at_write. case_decide as E; [subst x|]; done.
Qed.
End copies.

(** ** Retransmission *)

Lemma sender_sound us sent a q mx s next : sender us sent a q mx s -> next_sdu_index (snd_tx s) = next ->
  sound us sent (sdu_buffer_occupancy s) q next mx a (snd_tx s).
Proof. by intros [H _ _] <-. Qed.

(** No PDU is at the limit of retransmissions. *)
Definition may_repeat (a sent mx : Z) (e : am_tx) : Prop :=
  forall n, a <= n < sent -> outstanding e (n mod 1024) = true ->
    retx_count (pdu_at e (n mod 1024)) + 1 < mx.

(** The PDU to be sent again fits in the grant of [nb] bytes. *)
Definition due_fits (nb : Z) (e : am_tx) : Prop :=
  let p := pdu_at e (first_retrans_pdu_sn e) in
  0 <= first_retrans_pdu_sn e -> held p = true -> 0 <= retx_count p ->
  header_and_payload_size p <= nb \/ nb < 8.

(** A block that carries the PDU [n] on the way to MAC. *)
Record sends (us : Z -> umd) (sent a : Z) (q : list um_tx_sdu) (mx n : Z) (s' : am_send) (tb : am_tb_req)
    : Prop := Sends {
  se_sound : sound us sent (sdu_buffer_occupancy s') q (next_sdu_index (snd_tx s')) mx a (snd_tx s');
  se_seg : segmentation_pdu_list s' = [];
  se_mac : pdus_to_mac_layer s' = [tb];
  se_range : a <= n < sent;
  se_conveys : conveys tb (us n) (n mod 1024)
}.

(** The fields that do not count. *)
Record same_send (s s' : am_send) : Prop := SameSend {
  sm_tx : snd_tx s' = snd_tx s;
  sm_bo : sdu_buffer_occupancy s' = sdu_buffer_occupancy s;
  sm_seg : segmentation_pdu_list s' = segmentation_pdu_list s;
  sm_mac : pdus_to_mac_layer s' = pdus_to_mac_layer s
}.

Lemma count_by_status_same n s : same_send s (count_by_status n s).
Proof. by split. Qed.

Lemma count_retransmit_same n s : same_send s (count_retransmit n s).
Proof. by split. Qed.

#[export] Instance same_send_preorder : PreOrder same_send.
Proof. split; [by intros s|]. intros s1 s2 s3 [] []. split; congruence. Qed.

(** [list_add_tail_eurecom] of a copy. *)
Lemma to_mac_ok tb s : pdus_to_mac_layer s = [] ->
  exists s', to_mac (Some tb) s = Ok s' /\ snd_tx s' = snd_tx s /\
    sdu_buffer_occupancy s' = sdu_buffer_occupancy s /\
    segmentation_pdu_list s' = segmentation_pdu_list s /\ pdus_to_mac_layer s' = [tb].
Proof.
  intros H. unfold to_mac, add_copy. rewrite res_ok_bind, H. eexists. split; [reflexivity|]. done.
Qed.

Section grants.
Variables mem cmem : Z -> option (list Z).
Hypothesis Hmem : gives mem.
Hypothesis Hcmem : gives cmem.
Variable user_mode : bool.

Lemma get_retrans_ok us sent a q mx s nb frame :
  sender us sent a q mx s -> mx <= 127 -> may_repeat a sent mx (snd_tx s) -> due_fits nb (snd_tx s) ->
  0 <= nb < 2147483648 ->
  get_retrans_pdu cmem nb s frame = Ok None \/
  exists s' nb' n tb, get_retrans_pdu cmem nb s frame = Ok (Some (s', nb')) /\
    sends us sent a q mx n s' tb /\ kept (snd_tx s) (snd_tx s').
Proof.
  intros [Hs Hseg Hmac] Hmx Hrep Hfit Hnb. unfold get_retrans_pdu. cbv zeta.
  pose proof Hs as [Hok Ha Hvs Hord Hq Hnx Hm He Hf].
  destruct (_ && _) eqn:Econd; [|by left]. apply andb_true_iff in Econd as [Econd E3].
  apply andb_true_iff in Econd as [E1%Z.leb_le E2%Z.ltb_lt]. apply negb_true_iff, Z.eqb_neq in E3.
  destruct Hf as [E|[E|(n & Hn & E & Ho)]]; [lia|congruence|].
  pose proof (He n Hn Ho) as Hen. specialize (Hrep n Hn Ho).
  unfold due_fits in Hfit. cbv zeta in Hfit. rewrite E in *.
  rewrite pdu_read_eq, res_ok_bind by apply mod_sn_ok.
  set (p := pdu_at (snd_tx s) (n mod 1024)) in *.
  destruct (Z.leb_spec 0 (retx_count p)) as [Hr0|Hr0].
  2: { rewrite andb_false_r. cbn [andb]. by left. }
  destruct (en_nack _ _ _ _ _ Hen Hr0) as [-> ->]. change (0 =? 0) with true. rewrite Z.eqb_refl, !andb_true_r.
  specialize (Hfit E1 Ho Hr0). unfold RLC_AM_MIN_SEGMENT_SIZE_REQUEST.
  destruct (Z.leb_spec (header_and_payload_size p) nb) as [Hle|Hgt].
  2: { cbn [andb]. rewrite (proj2 (Z.leb_gt 8 nb)) by lia. by left. }
  right. destruct (copy_sound us sent (sdu_buffer_occupancy s) q (next_sdu_index (snd_tx s)) mx a cmem s frame n
    Hcmem Hs Hn Ho) as (s1 & tb & -> & Htb & Hsz & Hs1 & M1 & M2 & M3 & Hat).
  rewrite res_ok_bind. cbv beta iota.
  set (s0 := count_by_status _ _).
  assert (H0 : same_send s1 s0) by (etrans; [apply count_retransmit_same|apply count_by_status_same]).
  clearbody s0. destruct H0 as [C1 C2 C3 C4].
  destruct (to_mac_ok tb s0) as (s2 & -> & D1 & D2 & D3 & D4); [by rewrite C4, M1|].
  rewrite res_ok_bind. rewrite C1 in D1. rewrite C2 in D2. rewrite C3 in D3. rewrite D1.
  unfold count_retx. rewrite pdu_read_eq, res_ok_bind, pdu_write_eq, res_ok_bind
    by apply mod_sn_ok.
  pose proof (Hat (n mod 1024)) as Hp1. rewrite decide_True in Hp1 by done. fold p in Hp1.
  set (p1 := pdu_at (snd_tx s1) (n mod 1024)) in *.
  assert (Ho1 : outstanding (snd_tx s1) (n mod 1024) = true) by (unfold outstanding; fold p1; by rewrite Hp1).
  pose proof (so_entries _ _ _ _ _ _ _ _ Hs1 n Hn Ho1) as Hen1. fold p1 in Hen1.
  assert (Er : s8 (retx_count p1 + 1) = retx_count p + 1).
  { rewrite Hp1. change (retx_count (p <| flag_retransmit := false |>)) with (retx_count p).
    pose proof (en_retx _ _ _ _ _ Hen).
    by rewrite (wrapS_small 8) by (change (2 ^ (8 - 1)) with 128; lia). }
  set (p2 := p1 <| retx_count := _ |>).
  set (s3 := s2 <| snd_tx := _ |>). eexists s3, _, n, tb. split; [reflexivity|].
  assert (Hk : kept (snd_tx s) (snd_tx s3)).
  { transitivity (snd_tx s1); [|by apply kept_write]. intros x Hx. unfold outstanding in *.
    rewrite Hat. by case_decide. }
  split; [|done].
  assert (S1 : snd_tx s3 = write_pdu (snd_tx s1) (n mod 1024) p2) by done.
  assert (S2 : sdu_buffer_occupancy s3 = sdu_buffer_occupancy s1) by exact D2.
  split; [|by rewrite <- Hseg, <- M2, <- D3|done|done|done].
  rewrite S1, S2. change (next_sdu_index (write_pdu (snd_tx s1) (n mod 1024) p2)) with (next_sdu_index (snd_tx s1)).
  rewrite M3, (so_nxt _ _ _ _ _ _ _ _ Hs1). apply sound_write; try done.
  - pose proof (ok_pdus _ (ok_inv _ (so_ok _ _ _ _ _ _ _ _ Hs1)) _ (mod_sn_ok n)) as Hpo.
    by apply (pdu_ok_same p1).
  - destruct Hen1 as [(b & junk & H1 & H2) H3 H4 H5 H6]. split; try done.
    + by exists b, junk.
    + intros _. apply H5. rewrite Hp1. exact Hr0.
    + change (retx_count p2) with (s8 (retx_count p1 + 1)). rewrite Er. lia.
Qed.

(** ** When the poll is not answered *)

Lemma before_mod k : (k mod 1024 - 1) .& RLC_AM_SN_MASK = (k - 1) mod 1024.
Proof. rewrite (land_ones_mod _ 10) by done. change (2 ^ 10) with 1024. div_lia. Qed.

Lemma find_any_ok us sent bo q next mx a e nb :
  sound us sent bo q next mx a e -> 0 <= a ->
  (forall n, a <= n < sent -> outstanding e (n mod 1024) = true ->
    header_and_payload_size (pdu_at e (n mod 1024)) <= nb) ->
  forall fuel k, a - 1 <= k < sent -> k - (a - 1) < Z.of_nat fuel ->
  find_any_pdu fuel e nb (k mod 1024) ((a - 1) mod 1024) None = Ok None \/
  exists n, a <= n <= k /\ outstanding e (n mod 1024) = true /\
    find_any_pdu fuel e nb (k mod 1024) ((a - 1) mod 1024) None = Ok (Some (true, n mod 1024)).
Proof.
  intros Hs Ha Hall. pose proof (so_order _ _ _ _ _ _ _ _ Hs) as Hord.
  induction fuel as [|fuel IH]; intros k Hk Hf; [lia|]. cbn [find_any_pdu].
  destruct (Z.eqb_spec (k mod 1024) ((a - 1) mod 1024)) as [E|E]; [by left|].
  assert (k <> a - 1) by congruence.
  rewrite pdu_read_eq, res_ok_bind by apply mod_sn_ok. cbv zeta. rewrite before_mod.
  destruct (pdu_mem_block (pdu_at e (k mod 1024))) as [b|] eqn:Eb.
  - assert (Ho : outstanding e (k mod 1024) = true).
    { unfold outstanding, held. rewrite Eb. by apply bool_decide_true. }
    rewrite (proj2 (Z.leb_le _ _)) by (apply Hall; [lia|done]). right. exists k. split; [lia|done].
  - destruct (IH (k - 1)) as [->|(n & Hn & Ho & ->)]; [lia|lia|by left|right].
    exists n. split; [lia|done].
Qed.

Lemma start_poll_polled s frame :
  polled s ((poll_sent s) <| snd_tx := rlc_am_start_timer_poll_retransmit (snd_tx (poll_sent s)) frame |>).
Proof. split; [by destruct s|]. by destruct s as [[] ? ? ? ? ? ? ? ? ? ? ? ? ? ? ? ? ?]. Qed.

Lemma polled_fields s s' : polled s s' ->
  sdu_buffer_occupancy s' = sdu_buffer_occupancy s /\ segmentation_pdu_list s' = segmentation_pdu_list s /\
  pdus_to_mac_layer s' = pdus_to_mac_layer s /\ next_sdu_index (snd_tx s') = next_sdu_index (snd_tx s).
Proof. intros [-> E]. split; [done|]. split; [done|]. split; [done|]. by rewrite E. Qed.

(** A poll goes with the block. *)
Lemma force_poll_ok us sent a q mx n s frame size tb :
  sound us sent (sdu_buffer_occupancy s) q (next_sdu_index (snd_tx s)) mx a (snd_tx s) ->
  segmentation_pdu_list s = [] -> pdus_to_mac_layer s = [] -> a <= n < sent ->
  conveys tb (us n) (n mod 1024) ->
  exists s' tb', force_poll frame size s (Some tb) = Ok s' /\ sends us sent a q mx n s' tb' /\
    kept (snd_tx s) (snd_tx s').
Proof.
  intros Hs Hseg Hmac Hn (b & junk & ->). unfold force_poll. cbn [req_data req_size].
  destruct (polling_ok s frame (us n) b (n mod 1024) None junk size (mod_sn_ok n)) as (s1 & b1 & -> & Hp1).
  rewrite res_ok_bind. cbv beta iota.
  destruct (set_poll (us n) b1 true (n mod 1024) None junk (mod_sn_ok n)) as (x & Hr & Hw).
  rewrite Hr, res_ok_bind, Hw, res_ok_bind. cbv zeta.
  pose proof (start_poll_polled s1 frame) as Hp2.
  assert (Hk : kept (snd_tx s) (snd_tx s1)) by (by apply kept_polled).
  apply kept_polled in Hp2 as Hk2. set (s2 := (poll_sent s1) <| snd_tx := _ |>) in *.
  clearbody s2.
  pose proof (sound_polled _ _ _ _ _ _ _ _ _ Hp2 (sound_polled _ _ _ _ _ _ _ _ _ Hp1 Hs)) as Hs2.
  destruct (polled_fields _ _ Hp1) as (A1 & A2 & A3 & A4). destruct (polled_fields _ _ Hp2) as (B1 & B2 & B3 & B4).
  match goal with |- context [count_retransmit ?x s2] => set (s3 := count_retransmit x s2);
    pose proof (count_retransmit_same x s2 : same_send s2 s3) as [C1 C2 C3 C4] end. clearbody s3.
  match goal with |- context [to_mac (Some ?x) s3] => destruct (to_mac_ok x s3) as (s4 & -> & D1 & D2 & D3 & D4) end;
    [congruence|].
  exists s4. eexists. split; [reflexivity|].
  split; [|by rewrite D1, C1; etrans]. split; [|congruence|exact D4|done|].
  - rewrite D1, D2, C1, C2, B1, B4, A1, A4. exact Hs2.
  - exists true, junk. by rewrite (am_encode_poll_zlen _ b true).
Qed.

(** Every PDU held fits in the grant. *)
Definition all_fit (a sent nb : Z) (e : am_tx) : Prop :=
  forall n, a <= n < sent -> outstanding e (n mod 1024) = true ->
    header_and_payload_size (pdu_at e (n mod 1024)) <= nb.

Lemma any_pdu_ok us sent a q mx s nb frame :
  sender us sent a q mx s -> 0 <= a -> 1 <= mx <= 127 -> may_repeat a sent mx (snd_tx s) ->
  all_fit a sent nb (snd_tx s) ->
  rlc_am_retransmit_any_pdu cmem nb s frame = Ok (s, nb) \/
  exists s' n tb, rlc_am_retransmit_any_pdu cmem nb s frame = Ok (s', nb) /\
    sends us sent a q mx n s' tb /\ kept (snd_tx s) (snd_tx s').
Proof.
  intros [Hs Hseg Hmac] Ha Hmx Hrep Hfit. pose proof (so_order _ _ _ _ _ _ _ _ Hs) as Hord.
  unfold rlc_am_retransmit_any_pdu. cbv zeta.
  rewrite (so_s _ _ _ _ _ _ _ _ Hs), (so_a _ _ _ _ _ _ _ _ Hs), !before_mod.
  destruct (find_any_ok us sent _ q _ mx a (snd_tx s) nb Hs Ha Hfit 1025 (sent - 1))
    as [->|(n & Hn & Ho & ->)]; [lia|lia| |]; rewrite res_ok_bind; [by left|right]. cbv beta iota.
  assert (Hn' : a <= n < sent) by lia.
  destruct (nack_sound us sent _ q _ mx Hmx a (snd_tx s) frame n Hs Hn' Ho (Hrep n Hn' Ho))
    as (e1 & p & -> & Hs1 & _ & _ & Ho1 & _).
  rewrite res_ok_bind. cbv beta iota.
  set (s1 := s <| snd_tx := e1 |>).
  assert (Hs1' : sound us sent (sdu_buffer_occupancy s1) q (next_sdu_index (snd_tx s)) mx a (snd_tx s1)) by exact Hs1.
  destruct (copy_sound us sent _ q _ mx a cmem s1 frame n Hcmem Hs1' Hn') as (s2 & tb & -> & Htb & _ & Hs2 & M1 & M2 & M3 & Hat).
  { change (outstanding e1 (n mod 1024) = true). by rewrite Ho1. }
  rewrite res_ok_bind. cbv beta iota. rewrite pdu_read_eq, res_ok_bind by apply mod_sn_ok.
  destruct (force_poll_ok us sent a q mx n s2 frame
    (header_and_payload_size (pdu_at (snd_tx s2) (n mod 1024))) tb) as (s3 & tb' & -> & Hse & Hk); try done.
  { rewrite (so_nxt _ _ _ _ _ _ _ _ Hs2), M3. exact Hs2. }
  { rewrite M2. exact Hseg. } { rewrite M1. exact Hmac. }
  rewrite res_ok_bind. exists s3, n, tb'. split; [done|]. split; [done|].
  etrans; [|exact Hk]. intros x Hx. rewrite <- Ho1 in Hx. unfold outstanding in *. rewrite Hat.
  by case_decide.
Qed.
End grants.
