(* ===== verification/RlcAmGrantSpec.v ===== *)
(** RLC AM v9.3.0: a grant to the transmitter.  It sends a new PDU, which extends the stream
    sent so far, or one of the PDUs held, or nothing. *)
From S2P Require Import Prelude.
From S2P Require Import RlcUmEntity.
From S2P Require Import RlcUmHeader.
From S2P Require Import RlcUmSegment.
From S2P Require Import RlcUmSegmentSpec.
From S2P Require Import RlcAmEntity.
From S2P Require Import RlcAmSn.
From S2P Require Import RlcAmRetransmit.
From S2P Require Import RlcAmArqSpec.
From S2P Require Import RlcAmReceiverSpec.
From S2P Require Import RlcAmSender.
From S2P Require Import RlcAmSegment.
From S2P Require Import RlcAmResegment.
From S2P Require Import RlcAm.
From S2P Require Import RlcAmHeaderSpec.
From S2P Require Import RlcAmPlanSpec.
From S2P Require Import RlcAmSegmentSpec.
From S2P Require Import RlcAmSendSpec.
From S2P Require Import RlcAmWalkSpec.
From S2P Require Import RlcAmSenderSpec.

Local Open Scope Z_scope.
Local Open Scope c_scope.

(** ** The stream, one PDU longer *)

Definition extend (us : Z -> umd) (sent : Z) (u : umd) : Z -> umd :=
  fun n => if n =? sent then u else us n.

Lemma extend_old us sent u n : n < sent -> extend us sent u n = us n.
Proof. intros H. unfold extend. by rewrite (proj2 (Z.eqb_neq n sent)) by lia. Qed.

Lemma extend_new us sent u : extend us sent u sent = u.
Proof. unfold extend. by rewrite Z.eqb_refl. Qed.

Section sent.
Context (us : Z -> umd) (sent bo bo' : Z) (q q' : list um_tx_sdu) (next mx a : Z).
Variables (e e' : am_tx) (p : am_tx_pdu) (size : Z) (u : umd).
Hypothesis Hs : sound us sent bo q next mx a e.
Hypothesis Ht : tx_sent e e' p size.
Hypothesis Hp : pdu_stored (current_sdu_index e) q u (sent mod 1024) size p.
Hypothesis Hsize : size < 9000.
Hypothesis Hroom : sent + 1 < a + 512.

Local Abbreviation sn := (sent mod 1024).

Lemma sent_at x : pdu_at e' x = pdu_at (write_pdu e sn p) x.
Proof.
  pose proof (ts_buffer _ _ _ _ Ht) as Hb. rewrite (so_s _ _ _ _ _ _ _ _ Hs) in Hb.
  unfold pdu_at. by rewrite Hb.
Qed.

Lemma sent_entry x : pdu_at e' x = if decide (sn = x) then p else pdu_at e x.
Proof. by rewrite sent_at, pdu_at_write. Qed.

Lemma sent_held : held p = true.
Proof. destruct (st_stores _ _ _ _ _ _ Hp) as (b & junk & E & _). unfold held. rewrite E. by apply bool_decide_true. Qed.

Lemma sent_out x : outstanding e' x = if decide (sn = x) then true else outstanding e x.
Proof. unfold outstanding. rewrite sent_entry. case_decide; [apply sent_held|done]. Qed.

Lemma sent_pdu_ok : pdu_ok p.
Proof.
  destruct Hp as [(b & junk & E1 & E2) Hsz Hpay [R1 R2 R3 _] _ _ [H1 H2]].
  split; try done; rewrite ?H1, ?H2, ?Hsz; try done; lia.
Qed.

(** There was nothing in its place. *)
Lemma sent_free : outstanding e sn = false /\ held (pdu_at e sn) = false.
Proof.
  pose proof (so_order _ _ _ _ _ _ _ _ Hs). pose proof (ok_inv _ (so_ok _ _ _ _ _ _ _ _ Hs)) as Hinv.
  destruct (ok_outside _ Hinv sn (mod_sn_ok sent)) as [_ Ho]; [|by split].
  rewrite (so_s _ _ _ _ _ _ _ _ Hs). lia.
Qed.

Lemma sent_kept : kept e e'.
Proof. intros x Hx. rewrite sent_out. by case_decide. Qed.

(** The other places. *)
Lemma sent_far x : sn_ok x -> sn <> x -> dist (vt_a e) x <> sent - a.
Proof.
  intros Hx Hne E. pose proof (so_order _ _ _ _ _ _ _ _ Hs) as Hord. apply Hne.
  rewrite (so_a _ _ _ _ _ _ _ _ Hs) in E. apply (dist_inj (a mod 1024)); [apply mod_sn_ok|done|].
  by rewrite dist_count by lia.
Qed.

Lemma sent_ok : sdus_ok e' -> am_ok e'.
Proof.
  intros Hsd. pose proof (so_order _ _ _ _ _ _ _ _ Hs) as Hord. pose proof Hs as [[Hinv Hms Hfirst] Ha Hvs _ _ _ _ _ _].
  pose proof Hinv as [I1 I2 I3 I4 I5 I6 I7 I8 I9 I10]. pose proof Ht as [T1 T2 T3 T4 T5 T6 T7 T8 T9].
  destruct sent_free as [Hfree Hfree2]. destruct (counts_small e Hinv) as [Hc1 Hc2].
  assert (Evs : vt_s e' = (sent + 1) mod 1024) by (by rewrite T3, Hvs, sn_after_mod).
  assert (Ed : dist (vt_a e) (vt_s e) = sent - a) by (rewrite Ha, Hvs, dist_count; lia).
  assert (Ed' : dist (vt_a e') (vt_s e') = sent + 1 - a) by (rewrite T2, Ha, Evs, dist_count; lia).
  assert (Esn : dist (vt_a e) sn = sent - a) by (rewrite Ha, dist_count; lia).
  pose proof (st_size _ _ _ _ _ _ Hp) as Esz. pose proof (st_ack _ _ _ _ _ _ Hp) as Eack.
  split.
  - split; rewrite ?T2; try done.
    + rewrite Evs. apply mod_sn_ok.
    + rewrite T2 in Ed'. rewrite Ed'. lia.
    + intros x Hx Hlt. rewrite T2 in Ed'. rewrite Ed' in Hlt. rewrite sent_entry, sent_out.
      case_decide as E; [by rewrite Eack|]. apply I4; [done|]. pose proof (sent_far x Hx E). lia.
    + intros x Hx Hge. rewrite T2 in Ed'. rewrite Ed' in Hge. rewrite sent_entry, sent_out.
      case_decide as E; [subst x; lia|]. apply I5; [done|]. lia.
    + intros x Hx. rewrite sent_entry. case_decide; [apply sent_pdu_ok|by apply I6].
    + rewrite T5, (total_ext count_pdu (write_pdu e sn p) e') by (intros; by rewrite sent_at).
      rewrite total_write by apply mod_sn_ok. rewrite <- I8. unfold count_pdu. rewrite sent_held, Hfree2.
      rewrite s32_small by lia. lia.
    + rewrite T6, (total_ext count_bytes (write_pdu e sn p) e') by (intros; by rewrite sent_at).
      rewrite total_write by apply mod_sn_ok. rewrite <- I9. unfold count_bytes. rewrite sent_held, Hfree2, Esz.
      pose proof (po_size _ sent_pdu_ok). rewrite s32_small by lia. lia.
    + by rewrite T7.
  - by rewrite T4, T2.
  - rewrite T2. intros _. rewrite sent_out. case_decide as E; [done|]. apply Hfirst.
    intros E2. apply E. by rewrite <- Hvs.
Qed.

Lemma sent_sound : 1 <= mx -> tx_queue e' bo' q' -> sound (extend us sent u) (sent + 1) bo' q' next mx a e'.
Proof.
  intros Hmx Hq'. pose proof Hs as [Hok Ha Hvs Hord Hq Hnx Hm He Hf].
  pose proof Ht as [T1 T2 T3 T4 T5 T6 T7 T8 T9].
  assert (Hsd : sdus_ok e').
  { split; [apply (qd_cur _ _ (tq_queued _ _ _ Hq'))|]. rewrite (qd_next _ _ (tq_queued _ _ _ Hq')).
    apply slot_of_range. }
  split; try done.
  - by apply sent_ok.
  - by rewrite T2.
  - by rewrite T3, Hvs, sn_after_mod.
  - lia.
  - by rewrite T9.
  - by rewrite T8.
  - intros n Hn Ho. rewrite sent_out in Ho. rewrite sent_entry. case_decide as E.
    + apply (mod_inj a) in E; [|lia..]. subst n. rewrite extend_new.
      destruct Hp as [S1 S2 S3 [R1 R2 R3 R4] S5 S6 S7]. split; try done; try lia.
      intros j Hj E. destruct (R4 j Hj) as (k & Hk & Ek). rewrite Ek in E. injection E as E.
      rewrite <- Hnx, (qd_next _ _ (tq_queued _ _ _ Hq)) in E.
      pose proof (qd_len _ _ (tq_queued _ _ _ Hq)). apply slot_of_inj in E; lia.
    + assert (n <> sent) by congruence. rewrite extend_old by lia. apply He; [lia|done].
  - rewrite T7. destruct Hf as [->|[->|(n & Hn & -> & Ho)]]; [by left|right; right..].
    + exists sent. split; [lia|]. split; [done|]. rewrite sent_out. by rewrite decide_True.
    + exists n. split; [lia|]. split; [done|]. rewrite sent_out. by case_decide.
Qed.
End sent.

(** ** What a grant gives *)

(** The PDU [u] of [size] bytes cut from [q], and the queue left. *)
Definition new_pdu (q : list um_tx_sdu) (u : umd) (q' : list um_tx_sdu) : Prop :=
  exists size ss w tl t' pad, let c := cut (size - 2) 1 (sdu_rest <$> q) in
    cut_split (size - 2) 1 q c ss w tl t' /\ zlen pad = c_pad c /\ zlen (c_full c) <= 31 /\ size < 9000 /\
    u = cut_pdu q c pad /\ q' = queue_after (c_ends c) t' w tl /\ q <> [].

(** The poll has not been answered in time. *)
Definition poll_overdue (s : am_send) : bool := timed_out (t_poll_retransmit (snd_tx s)).

(** What the code leaves to the one who gives grants: [nb] bytes; PDUs not at the limit of
    retransmissions; PDUs to be sent again that fit, for [rlc_am_retransmit_get_subsegment] would
    send a part; for a new PDU, few SDUs in it and room in the window. *)
Record may_grant (a sent : Z) (q : list um_tx_sdu) (mx nb : Z) (s : am_send) : Prop := MayGrant {
  mg_nb : 0 <= nb < 9000;
  mg_repeat : may_repeat a sent mx (snd_tx s);
  mg_due : due_fits nb (snd_tx s);
  mg_new : q <> [] -> 2 < nb -> grant_ok q nb s /\ sent + 1 < a + 512;
  mg_poll : poll_overdue s = true -> q = [] -> all_fit a sent nb (snd_tx s)
}.

(** What has happened. *)
Inductive granted (us : Z -> umd) (sent a : Z) (q : list um_tx_sdu) (mx : Z) (s' : am_send) :
    (Z -> umd) -> Z -> list um_tx_sdu -> list am_tb_req -> Prop :=
  | GrNothing : sender us sent a q mx s' -> granted us sent a q mx s' us sent q []
  | GrAgain n tb : sends us sent a q mx n s' tb -> granted us sent a q mx s' us sent q [tb]
  | GrNew u q' tb : new_pdu q u q' -> conveys tb u (sent mod 1024) ->
      outstanding (snd_tx s') (sent mod 1024) = true ->
      sends (extend us sent u) (sent + 1) a q' mx sent s' tb ->
      granted us sent a q mx s' (extend us sent u) (sent + 1) q' [tb].

Section grants.
Variables mem cmem : Z -> option (list Z).
Hypothesis Hmem : gives mem.
Hypothesis Hcmem : gives cmem.
Variable user_mode : bool.

(** The sender has not changed but for what is counted. *)
Lemma same_sender us sent a q mx s s' : same_send s s' -> sender us sent a q mx s -> sender us sent a q mx s'.
Proof. intros [E1 E2 E3 E4] [H1 H2 H3]. split; [by rewrite E1, E2|congruence..]. Qed.

Lemma get_new_ok us sent a q mx s nb frame :
  sender us sent a q mx s -> 1 <= mx -> 0 <= nb < 9000 ->
  (q <> [] -> 2 < nb -> grant_ok q nb s /\ sent + 1 < a + 512) ->
  (exists s', get_new_pdu mem cmem user_mode nb s frame = Ok (s', false) /\ same_send s s' /\
     (q = [] \/ nb <= 2)) \/
  exists s' u q' tb, get_new_pdu mem cmem user_mode nb s frame = Ok (s', true) /\
    new_pdu q u q' /\ conveys tb u (sent mod 1024) /\
    outstanding (snd_tx s') (sent mod 1024) = true /\
    sends (extend us sent u) (sent + 1) a q' mx sent s' tb /\ kept (snd_tx s) (snd_tx s').
Proof.
  intros [Hs Hseg Hmac] Hmx Hnb Hnew. pose proof (so_order _ _ _ _ _ _ _ _ Hs) as Hord.
  unfold get_new_pdu.
  assert (Hw : (vt_s (snd_tx s) =? vt_ms (snd_tx s)) = false).
  { apply Z.eqb_neq. rewrite (so_s _ _ _ _ _ _ _ _ Hs), (ok_ms _ (so_ok _ _ _ _ _ _ _ _ Hs)),
      (so_a _ _ _ _ _ _ _ _ Hs). div_lia. }
  rewrite Hw. cbn [negb]. rewrite andb_true_r.
  destruct (Z.ltb_spec 2 nb) as [Hgt|]; [|left; exists s; split; [done|]; split; [done|by right]].
  destruct (decide (q = [])) as [->|Hne].
  - left. pose proof (so_queue _ _ _ _ _ _ _ _ Hs) as Hq.
    assert (Hbo : sdu_buffer_occupancy s = 0) by (by rewrite (tq_bo _ _ _ Hq)).
    unfold rlc_am_segment_10. rewrite Hbo. change (0 <=? 0) with true. cbv zeta iota. rewrite res_ok_bind.
    rewrite Hmac, Hseg. cbn [app].
    set (s1 := s <| pdus_to_mac_layer := [] |> <| segmentation_pdu_list := [] |>).
    exists s1. split; [done|]. split; [|by left]. split; try done.
  - right. destruct (Hnew Hne Hgt) as [Hg Hroom].
    assert (Hvs : vt_s (snd_tx s) = sent mod 1024) by apply Hs.
    destruct (segment_ok mem cmem user_mode q nb s frame Hmem Hcmem (so_queue _ _ _ _ _ _ _ _ Hs) Hne Hg)
      as (s1 & tb & -> & E1 & E2 & (ss & w & tl & t' & pad & p & P1 & P2 & P3 & P4 & P5 & P6 & P7 & P8));
      [rewrite Hvs; apply mod_sn_ok|].
    rewrite res_ok_bind. rewrite E1, E2, Hseg, Hmac. cbn [app]. cbv zeta.
    set (s2 := s1 <| pdus_to_mac_layer := [tb] |> <| segmentation_pdu_list := [] |>).
    change (pdus_to_mac_layer s2) with [tb]. cbv iota.
    set (size := am_data_pdu_size s nb) in *. set (c := cut (size - 2) 1 (sdu_rest <$> q)) in *.
    rewrite Hvs in P4, P8.
    set (s3 := s2 <| stat_tx_data_pdu := _ |> <| stat_tx_data_bytes := _ |>).
    exists s3, (cut_pdu q c pad), (queue_after (c_ends c) t' w tl), tb. split; [done|].
    split; [|split; [done|]].
    + exists size, ss, w, tl, t', pad. split_and!; try done; [apply Hg|lia].
    + assert (S1 : snd_tx s3 = snd_tx s1) by done.
      split; [rewrite S1; erewrite sent_out by done; by rewrite decide_True|].
      split; [|rewrite S1; by eapply sent_kept].
      assert (S2 : sdu_buffer_occupancy s3 = sdu_buffer_occupancy s1) by done.
      split; [|done|done|lia|by rewrite extend_new].
      rewrite S1, S2, (ts_next _ _ _ _ P7).
      apply (sent_sound us sent (sdu_buffer_occupancy s) _ q _ _ mx a (snd_tx s) (snd_tx s1) p size);
        try done. lia.
Qed.

Lemma get_data_ok us sent a q mx s nb frame :
  sender us sent a q mx s -> 0 <= a -> 1 <= mx <= 127 -> may_grant a sent q mx nb s ->
  exists s' nb' us' sent' q' tbs, get_data_pdus mem cmem user_mode nb s frame = Ok (s', nb') /\
    granted us sent a q mx s' us' sent' q' tbs /\ pdus_to_mac_layer s' = tbs /\
    kept (snd_tx s) (snd_tx s').
Proof.
  intros Hsd Ha Hmx [Hnb Hrep Hdue Hnew Hpoll]. unfold get_data_pdus.
  destruct (get_retrans_ok cmem Hcmem us sent a q mx s nb frame Hsd ltac:(lia) Hrep Hdue ltac:(lia))
    as [->|(s' & nb' & n & tb & -> & Hse & Hk)]; rewrite res_ok_bind; cbv beta iota.
  2: { exists s', nb', us, sent, q, [tb]. split; [done|]. split; [by eapply GrAgain|split; [apply Hse|done]]. }
  destruct (get_new_ok us sent a q mx s nb frame Hsd ltac:(lia) Hnb Hnew)
    as [(s1 & -> & Hsame & Hwhy)|(s1 & u & q' & tb & -> & Hn & Htb & Ho & Hse & Hk)]; rewrite res_ok_bind; cbv beta iota.
  2: { exists s1, nb, (extend us sent u), (sent + 1), q', [tb]. split; [done|]. split; [by apply GrNew|split; [apply Hse|done]]. }
  pose proof (same_sender _ _ _ _ _ _ _ Hsame Hsd) as Hsd1. pose proof Hsame as [E1 E2 E3 E4].
  rewrite (sd_mac _ _ _ _ _ _ Hsd1), bool_decide_true by done. cbn [andb].
  destruct (_ && _) eqn:Epoll.
  - apply andb_true_iff in Epoll as [Eto E2b%Z.ltb_lt].
    assert (Hq : q = []) by (destruct Hwhy; [done|lia]).
    assert (Hov : poll_overdue s = true).
    { unfold poll_overdue. unfold rlc_am_is_timer_poll_retransmit_timed_out in Eto. rewrite E1 in Eto.
      by destruct (timed_out _). }
    destruct (any_pdu_ok cmem Hcmem us sent a q mx s1 nb frame Hsd1 Ha Hmx)
      as [->|(s2 & n & tb & -> & Hse & Hk)].
    + by rewrite E1.
    + rewrite E1. by apply Hpoll.
    + exists s1, nb, us, sent, q, []. split; [done|]. split; [by apply GrNothing|]. split; [apply Hsd1|by rewrite E1].
    + exists s2, nb, us, sent, q, [tb]. split; [done|]. split; [by eapply GrAgain|].
      split; [apply Hse|by rewrite <- E1].
  - exists s1, nb, us, sent, q, []. split; [done|]. split; [by apply GrNothing|]. split; [apply Hsd1|by rewrite E1].
Qed.
End grants.
