(* ===== verification/RlcAmStream.v ===== *)
(** RLC AM v9.3.0: the PDUs cut from a queue of SDUs make a stream, which the receiver makes the
    same SDUs of; and a stream may grow while it is received. *)
From S2P Require Import Prelude.
From S2P Require Import RlcUmEntity.
From S2P Require Import RlcUmHeader.
From S2P Require Import RlcUmReassemblySpec.
From S2P Require Import RlcUmSegment.
From S2P Require Import RlcUmSegmentSpec.
From S2P Require Import RlcUmLink.
From S2P Require Import RlcAmEntity.
From S2P Require Import RlcAmRx.
From S2P Require Import RlcAmHeaderSpec.
From S2P Require Import RlcAmReassemblySpec.
From S2P Require Import RlcAmReceiverSpec.
From S2P Require Import RlcAmSegmentSpec.
From S2P Require Import RlcAmGrantSpec.

Local Open Scope Z_scope.

Local Abbreviation um_seg := RlcUmEntity.sdu_segmented_size.
Local Abbreviation um_rem := RlcUmEntity.sdu_remaining_size.
Local Abbreviation um_size := RlcUmEntity.sdu_size.

(** ** The reassembly of AM and that of UM *)

Lemma close_sdus_open full : forall p s, (close_sdus p (s :: full)).1 = [].
Proof.
  induction full as [|s' full IH]; intros p s; [done|].
  specialize (IH [] s'). cbn [close_sdus] in *. by destruct (close_sdus [] full).
Qed.

Lemma feed_close full : forall p, Forall (fun s => 0 < zlen s < 2048) full ->
  match full with [] => True | s :: _ => zlen p + zlen s <= 9000 end ->
  feed 9000 full p = close_sdus p full.
Proof.
  induction full as [|s full IH]; intros p Hf Hz; [done|].
  apply Forall_cons in Hf as [Hs Hf]. cbn [feed close_sdus]. rewrite IH.
  - destruct (close_sdus [] full). by rewrite grow_emit by lia.
  - done.
  - destruct Hf as [|s' ? Hs' _]; [done|]. change (zlen (@nil Z)) with 0. lia.
Qed.

(** Where nothing is too long, and nothing is lost, they agree. *)
Lemma ref_pdu_agrees p u : am_follows p u ->
  ref_pdu 9000 u p false = ((pdu_sdus p u).1, false, (pdu_sdus p u).2).
Proof.
  intros [Hst Hf Hl Hz].
  assert (E : feed_pdu 9000 (umd_full u) (umd_last u) (umd_ends u) p = pdu_sdus p u).
  { unfold feed_pdu, pdu_sdus.
    rewrite feed_close by (done || (destruct (umd_full u); [done|lia])).
    assert (Hp : zlen (close_sdus p (umd_full u)).1 + zlen (umd_last u) <= 9000).
    { destruct (umd_full u) as [|s full]; [done|]. rewrite close_sdus_open.
      change (zlen (@nil Z)) with 0. lia. }
    destruct (close_sdus p (umd_full u)) as [p' out]. cbn [fst] in Hp.
    destruct (umd_ends u); [by rewrite grow_emit|by rewrite grow_fits]. }
  unfold ref_pdu. destruct (umd_starts u).
  - symmetry in Hst. apply bool_decide_eq_true in Hst as ->. rewrite E. by destruct (pdu_sdus [] u).
  - rewrite E. by destruct (pdu_sdus p u).
Qed.

(** ** A PDU cut from the queue *)

Lemma tx_partial_nil q : Forall sdu_wf q -> q <> [] ->
  (match q with [] => true | s :: _ => um_seg s =? 0 end) = bool_decide (tx_partial q = []).
Proof.
  intros Hwf Hne. destruct q as [|s q]; [done|]. apply Forall_cons in Hwf as [[H1 H2 H3 H4 H5] _].
  cbn [tx_partial]. destruct (Z.eqb_spec (um_seg s) 0) as [->|Hn].
  - by rewrite bool_decide_true.
  - rewrite bool_decide_false; [done|]. intros E. apply (f_equal zlen) in E.
    rewrite zlen_take in E. change (zlen (@nil Z)) with 0 in E. lia.
Qed.

Section cut.
Context (q : list um_tx_sdu) (c : cut_res) (ss : list um_tx_sdu) (s : um_tx_sdu) (tl : list um_tx_sdu)
  (t t' : Z) (pad : list Z).
Hypothesis Hc : cut_split t 1 q c ss s tl t'.
Hypothesis Hwf : Forall sdu_wf q.
Hypothesis Hsmall : Forall (fun u => um_size u < 2048) q.
Hypothesis Hfresh : Forall (fun u => um_seg u = 0) (tail q).
Hypothesis Hpad : zlen pad = c_pad c.
Hypothesis Hnum : zlen (c_full c) <= 31.
Hypothesis Ht : t < 9000.

Local Abbreviation u := (cut_pdu q c pad).

Lemma cut_bounds : Forall (fun x => sdu_wf x /\ um_size x < 2048) ss /\ sdu_wf s /\ um_size s < 2048 /\
  0 < zlen (c_last c) <= um_rem s.
Proof.
  destruct Hc as [Hq Hfull Hrem Hpos Hcase Hp]. assert (H := conj Hwf Hsmall).
  apply Forall_and in H. rewrite Hq in H. apply Forall_app in H as [H1 H].
  apply Forall_cons in H as [[Hs Hz] _]. split; [done|]. split; [done|]. split; [done|].
  pose proof (sdu_rest_len s Hs) as Hr. destruct (c_ends c).
  - destruct Hcase as [-> ->]. lia.
  - destruct Hcase as (? & _ & ->). rewrite zlen_take. lia.
Qed.

Lemma cut_full_ok : Forall (fun x => 0 < zlen x < 2048) (c_full c).
Proof.
  destruct cut_bounds as (H & _). rewrite (cs_full _ _ _ _ _ _ _ _ Hc), Forall_fmap.
  eapply Forall_impl; [exact H|]. intros x [Hx Hz]. pose proof (sdu_rest_len x Hx) as Hl.
  destruct Hx as [H1 H2 H3 H4 H5]. cbn. lia.
Qed.

Lemma cut_pdu_ok : am_umd_ok u.
Proof.
  pose proof cut_full_ok as Hf. destruct cut_bounds as (Hss & [S1 S2 S3 S4 S5] & Hz & Hl).
  pose proof Hc as [_ Hfull Hrem Hpos _ Hp].
  change (li_bytes 1 (zlen ss)) with (li_header_len (zlen ss)) in Hrem.
  pose proof (li_header_len_bound _ (zlen_nonneg ss)) as Hlb. pose proof (zlen_nonneg ss).
  assert (Hcs : zlen (concat (c_full c)) = sumZ (um_rem <$> ss)).
  { rewrite Hfull, concat_rests_len; [done|]. eapply Forall_impl; [exact Hss|]. by intros ? []. }
  split; cbn [cut_pdu umd_full umd_last]; rewrite ?zlen_app; [|lia..].
  unfold umd_lis. cbn [cut_pdu umd_full]. rewrite Forall_fmap. eapply Forall_impl; [exact Hf|].
  intros x Hx. cbv beta in Hx. unfold li_ok, compose. lia.
Qed.

Lemma cut_follows : am_follows (tx_partial q) u.
Proof.
  pose proof cut_full_ok as Hf. destruct cut_bounds as (Hss & Hs & Hz & Hl).
  pose proof Hs as [S1 S2 S3 S4 S5].
  pose proof (cs_pad _ _ _ _ _ _ _ _ Hc) as Hp. pose proof (cs_sdus _ _ _ _ _ _ _ _ Hc) as Hq.
  assert (Hpl : forall x, sdu_wf x ->
    zlen (take (Z.to_nat (um_seg x)) (sdu_payload x)) = um_seg x).
  { intros x [H1 H2 H3 H4 H5]. rewrite zlen_take, Z2Nat.id by lia. lia. }
  split; cbn [cut_pdu umd_starts umd_full umd_last]; rewrite ?zlen_app; [|done|lia|].
  - apply tx_partial_nil; [done|]. rewrite Hq. by destruct ss.
  - rewrite (cs_full _ _ _ _ _ _ _ _ Hc). rewrite Hq. destruct ss as [|x ss'].
    + cbn [app tx_partial fmap list_fmap]. rewrite Hpl by done. lia.
    + apply Forall_cons in Hss as [[Hx Hxz] _]. cbn [app tx_partial]. rewrite fmap_cons, Hpl by done.
      pose proof (sdu_rest_len x Hx) as Hr. destruct Hx as [H1 H2 H3 H4 H5]. lia.
Qed.

Lemma cut_sdus : exists got sent,
  pdu_sdus (tx_partial q) u = (tx_partial (queue_after (c_ends c) t' s tl), got) /\
  Forall2 (padded 2) sent got /\
  sdu_payload <$> q = sent ++ (sdu_payload <$> queue_after (c_ends c) t' s tl).
Proof.
  pose proof (ref_pdu_agrees _ _ cut_follows) as Hag.
  pose proof Hc as [Hq _ _ _ Hcase Hp].
  assert (Hq0 : exists s0 q0, q = s0 :: q0).
  { rewrite Hq. destruct ss as [|x ss']; [by exists s, tl|by exists x, (ss' ++ s :: tl)]. }
  destruct Hq0 as (s0 & q0 & Hq0).
  destruct (ref_pdu_cut 9000 2 t q c ss s tl t' s0 q0 pad Hq0) as (got & Hr & sent & Hpd & Hsd); try done.
  - assert (H := conj Hwf Hsmall). apply Forall_and in H. eapply Forall_impl; [exact H|].
    intros x [Hx Hz]. split; [done|]. lia.
  - lia.
  - intros He. rewrite He in Hcase. destruct pad as [|x p]; [done|]. rewrite zlen_cons in Hpad.
    pose proof (zlen_nonneg p). lia.
  - exists got, sent. split; [|by split].
    replace (pad_umd (cut_umd s0 c) pad) with u in Hr by (by rewrite Hq0). rewrite Hag in Hr.
    destruct (pdu_sdus (tx_partial q) u). cbn [fst snd] in Hr. congruence.
Qed.

Lemma cut_small : Forall (fun x => um_size x < 2048) (queue_after (c_ends c) t' s tl).
Proof.
  pose proof Hsmall as H. rewrite (cs_sdus _ _ _ _ _ _ _ _ Hc) in H.
  apply Forall_app in H as [_ H]. apply Forall_cons in H as [H1 H2]. unfold queue_after.
  destruct (c_ends c); [done|]. by apply Forall_cons.
Qed.
End cut.

(** What a new PDU is to the stream. *)
Lemma new_pdu_stream q u q' :
  new_pdu q u q' -> Forall sdu_wf q -> Forall (fun x => um_size x < 2048) q ->
  Forall (fun x => um_seg x = 0) (tail q) ->
  am_umd_ok u /\ am_follows (tx_partial q) u /\ Forall (fun x => um_size x < 2048) q' /\
  exists got sent, pdu_sdus (tx_partial q) u = (tx_partial q', got) /\
    Forall2 (padded 2) sent got /\ sdu_payload <$> q = sent ++ (sdu_payload <$> q').
Proof.
  intros (size & ss & w & tl & t' & pad & Hc & Hpad & Hnum & Hsz & -> & -> & _) Hwf Hsm Hfr.
  split; [eapply cut_pdu_ok; done || lia|]. split; [by eapply cut_follows|]. split; [by eapply cut_small|].
  by eapply cut_sdus.
Qed.

(** ** The stream grows *)

Section grow.
Context (us : Z -> umd) (sent : Z) (u : umd).
Hypothesis Hsent : 0 <= sent.

Local Abbreviation us' := (extend us sent u).

Lemma sdus_upto_extend k : Z.of_nat k <= sent -> sdus_upto us' k = sdus_upto us k.
Proof.
  induction k as [|k IH]; intros Hk; [done|]. cbn [sdus_upto].
  rewrite IH, extend_old by lia. done.
Qed.

Lemma sdus_upto_next : sdus_upto us' (Z.to_nat (sent + 1)) =
  let '(p, out) := sdus_upto us (Z.to_nat sent) in
  let '(p', o) := pdu_sdus p u in (p', out ++ o).
Proof.
  replace (Z.to_nat (sent + 1)) with (S (Z.to_nat sent)) by lia. cbn [sdus_upto].
  rewrite sdus_upto_extend, Z2Nat.id, extend_new by lia. done.
Qed.

Lemma stream_extend : am_stream us sent -> am_umd_ok u ->
  am_follows (sdus_upto us (Z.to_nat sent)).1 u -> am_stream us' (sent + 1).
Proof.
  intros [H1 H2] Hu Hf. split.
  - intros n Hn. destruct (decide (n = sent)) as [->|]; [by rewrite extend_new|].
    rewrite extend_old by lia. apply H1. lia.
  - intros k Hk. rewrite sdus_upto_extend by lia. destruct (decide (Z.of_nat k = sent)) as [E|].
    + rewrite E, extend_new. by rewrite <- E, Nat2Z.id in Hf.
    + rewrite extend_old by lia. apply H2. lia.
Qed.

Lemma holds_extend c n : holds us sent c n -> holds us' (sent + 1) c n.
Proof.
  intros [Hn (poll & rest & ->)]. split; [lia|]. exists poll, rest.
  unfold block_of, info_of, pdu_of. by rewrite extend_old by lia.
Qed.

Lemma rel_extend got r h e : Forall (fun n => n < sent) got ->
  rx_rel us sent got r h e -> rx_rel us' (sent + 1) got r h e.
Proof.
  intros Hg [H1 H2 H3 H4 H5 H6 H7 (ns & [Hk1 Hk2 Hk3] & Hns) [H8 H9]]. split; try done.
  - exists ns. split; [|done]. split; try done.
    eapply Forall2_impl; [exact Hk1|]. apply holds_extend.
  - destruct H1 as (Hr0 & Hrg & Hall).
    assert (Hrs : r <= sent).
    { destruct (Z.le_gt_cases r sent); [done|]. rewrite Forall_forall in Hg.
      specialize (Hg sent (Hall sent ltac:(lia))). lia. }
    unfold delivers. rewrite sdus_upto_extend by lia. by split.
Qed.
End grow.

(** The SDUs of the first PDUs are the first of all. *)
Lemma sdus_upto_prefix us k : forall j, (j <= k)%nat -> (sdus_upto us j).2 `prefix_of` (sdus_upto us k).2.
Proof.
  induction k as [|k IH]; intros j Hj; [by replace j with 0%nat by lia|].
  destruct (decide (j = S k)) as [->|]; [done|]. etrans; [apply IH; lia|]. cbn [sdus_upto].
  destruct (sdus_upto us k) as [p out]. destruct (pdu_sdus p _) as [p' o]. by exists o.
Qed.
