(* ===== verification/RlcAmEnds.v ===== *)
(** RLC AM v9.3.0: what MAC calls at an entity, in terms of its two sides: a grant, and the
    arrival of a block. *)
From S2P Require Import Prelude.
From S2P Require Import RlcUmHeader.
From S2P Require Import RlcAmEntity.
From S2P Require Import RlcAmSn.
From S2P Require Import RlcAmStatus.
From S2P Require Import RlcAmStatusSpec.
From S2P Require Import RlcAmRetransmit.
From S2P Require Import RlcAmArqSpec.
From S2P Require Import RlcAmStatusRefine.
From S2P Require Import RlcAmRx.
From S2P Require Import RlcAmReceiver.
From S2P Require Import RlcAmStatusReport.
From S2P Require Import RlcAmHeaderSpec.
From S2P Require Import RlcAmReceiverSpec.
From S2P Require Import RlcAmStatusReportSpec.
From S2P Require Import RlcAmSender.
From S2P Require Import RlcAm.
From S2P Require Import RlcAmPlanSpec.
From S2P Require Import RlcAmSegmentSpec.
From S2P Require Import RlcAmSendSpec.
From S2P Require Import RlcAmWalkSpec.
From S2P Require Import RlcAmSenderSpec.
From S2P Require Import RlcAmGrantSpec.

Local Open Scope Z_scope.
Local Open Scope c_scope.

(** ** [rlc_am_mac_status_indication] *)

(** The entity when the grant is known. *)
Record ticked (e e' : rlc_am_entity) (frame nb : Z) : Prop := Ticked {
  tk_send : en_send e' = en_send (check_timers e frame);
  tk_rx : same_rx (en_rx e) (en_rx e');
  tk_nb : nb_bytes_requested_by_mac (en_rx e') = u16 nb;
  tk_requested : status_requested (en_rx e') = status_requested (en_rx e);
  tk_state : en_state e' = en_state e
}.

Lemma check_timers_rx e frame : same_rx (en_rx e) (en_rx (check_timers e frame)) /\
  status_requested (en_rx (check_timers e frame)) = status_requested (en_rx e) /\
  en_state (check_timers e frame) = en_state e.
Proof.
  unfold check_timers. destruct (negb _); [|by split].
  unfold rlc_am_check_timer_reordering, rlc_am_check_timer_status_prohibit,
    rlc_am_stop_and_reset_timer_status_prohibit.
  repeat case_match; by split.
Qed.

Lemma indication_ok e frame nb head : 0 <= current_sdu_index (snd_tx (en_send (check_timers e frame))) < 128 ->
  exists e' r, rlc_am_mac_status_indication e frame nb head = Ok (e', r) /\ ticked e e' frame nb.
Proof.
  intros Hc. unfold rlc_am_mac_status_indication.
  destruct (check_timers_rx e frame) as (Hs & Hr & Hst).
  remember (check_timers e frame) as e0 eqn:E0.
  set (e1 := e0 <| last_frame_status_indication := frame |> <| en_rx := _ |>).
  assert (He : en_send e1 = en_send e0) by done.
  assert (Ht : ticked e e1 frame nb).
  { split; try done; [by rewrite He, E0|]. eapply same_trans; [exact Hs|]. by split. }
  clearbody e1. cbv zeta. rewrite He, slot_read, res_ok_bind by done.
  by eexists e1, _.
Qed.

(** The timer of polls is all the transmitter has of time. *)
Lemma sound_timed us sent bo q next mx a e frame :
  sound us sent bo q next mx a e -> sound us sent bo q next mx a (rlc_am_check_timer_poll_retransmit e frame).
Proof.
  intros [Hok Ha Hvs Hord Hq Hnx Hm He Hf]. unfold rlc_am_check_timer_poll_retransmit.
  destruct (_ && _); [|by split]. split; try done; [|by eapply tx_queue_same].
  eapply tx_ok_same; [exact Hok|by split; try done; intros []|]. by destruct (ok_sdus _ (ok_inv _ Hok)).
Qed.

Lemma check_timers_send e frame : en_send (check_timers e frame) = en_send e \/
  en_send (check_timers e frame) =
    (en_send e) <| snd_tx := rlc_am_check_timer_poll_retransmit (snd_tx (en_send e)) frame |>.
Proof. unfold check_timers. destruct (negb _); [right|left]; done. Qed.

Lemma sender_timed us sent a q mx e frame : sender us sent a q mx (en_send e) ->
  sender us sent a q mx (en_send (check_timers e frame)).
Proof.
  intros [Hs Hseg Hmac]. destruct (check_timers_send e frame) as [->| ->]; [by split|].
  set (tx := rlc_am_check_timer_poll_retransmit _ _).
  split; [|done|done]. change (snd_tx (_ <| snd_tx := tx |>)) with tx.
  apply (sound_timed _ _ _ _ _ _ _ _ frame) in Hs. fold tx in Hs.
  by rewrite (so_nxt _ _ _ _ _ _ _ _ Hs).
Qed.

(** ** [rlc_am_mac_data_request] *)

Section request.
Variables mem cmem : Z -> option (list Z).
Hypothesis Hmem : gives mem.
Hypothesis Hcmem : gives cmem.
Variable user_mode : bool.

Local Abbreviation request := (rlc_am_mac_data_request mem cmem true user_mode).

(** MAC has taken the blocks. *)
Definition taken (s : am_send) : am_send := s <| pdus_to_mac_layer := [] |>.

Lemma granted_sender us sent a q mx s us' sent' q' tbs : granted us sent a q mx s us' sent' q' tbs ->
  sender us' sent' a q' mx (taken s).
Proof.
  assert (H : forall us sent q n tb, sends us sent a q mx n s tb -> sender us sent a q mx (taken s)).
  { intros us0 sent0 q0 n tb [Hs Hseg _ _ _]. by split. }
  intros [[H1 H2 _]|n tb Hse|u q1 tb _ _ _ Hse]; [by split|by eapply H..].
Qed.

(** No STATUS PDU is due. *)
Definition report_due (r : am_rx) : bool :=
  (2 <? nb_bytes_requested_by_mac r) && status_requested r && negb (running (t_status_prohibit r)).

Lemma grant_data us sent a q mx e frame :
  en_state e = RLC_DATA_TRANSFER_READY_STATE -> report_due (en_rx e) = false ->
  sender us sent a q mx (en_send e) -> 0 <= a -> 1 <= mx <= 127 ->
  may_grant a sent q mx (nb_bytes_requested_by_mac (en_rx e)) (en_send e) ->
  exists e' d us' sent' q' s, request e frame = Ok (e', d) /\
    granted us sent a q mx s us' sent' q' (mdr_data d) /\ en_send e' = taken s /\
    kept (snd_tx (en_send e)) (snd_tx s) /\
    same_rx (en_rx e) (en_rx e') /\ status_requested (en_rx e') = status_requested (en_rx e) /\
    en_state e' = en_state e.
Proof.
  intros Hst Hdue Hs Ha Hmx Hg. unfold rlc_am_mac_data_request, rlc_am_get_pdus. rewrite Hst.
  unfold get_status_pdu. fold (report_due (en_rx e)). rewrite Hdue, res_ok_bind.
  destruct (get_data_ok mem cmem Hmem Hcmem user_mode us sent a q mx (en_send e) _ frame Hs Ha Hmx Hg)
    as (s & nb' & us' & sent' & q' & tbs & -> & Hgr & Htbs & Hk).
  rewrite !res_ok_bind. cbv beta iota zeta.
  eexists _, _, us', sent', q', s. split; [reflexivity|]. cbn [mdr_data].
  change (pdus_to_mac_layer (en_send _)) with (pdus_to_mac_layer s). rewrite Htbs.
  split; [exact Hgr|]. split; [done|]. split; [done|]. split; [by split|]. by split.
Qed.

(** A STATUS PDU is due. *)
Lemma grant_status us sent got r h e frame :
  en_state e = RLC_DATA_TRANSFER_READY_STATE -> report_due (en_rx e) = true ->
  rx_rel us sent got r h (en_rx e) -> nb_bytes_requested_by_mac (en_rx e) < 2 ^ 28 ->
  pdus_to_mac_layer (en_send e) = [] ->
  exists ack pdu pad e' d, request e frame = Ok (e', d) /\ mdr_data d = [AmTbReq pdu (zlen pdu)] /\
    r <= ack <= h /\ zlen pdu = status_len (status_of got r ack) /\ all_bytes pdu /\
    mem_bits pdu = status_bits (status_of got r ack) ++ pad /\
    en_send e' = en_send e /\ same_rx (en_rx e) (en_rx e') /\ en_state e' = en_state e.
Proof.
  intros Hst Hdue Hrx Hnb Hmac. unfold rlc_am_mac_data_request, rlc_am_get_pdus. rewrite Hst.
  unfold get_status_pdu. fold (report_due (en_rx e)). rewrite Hdue.
  assert (H2 : 2 < nb_bytes_requested_by_mac (en_rx e)).
  { unfold report_due in Hdue. apply andb_true_iff in Hdue as [Hdue _].
    apply andb_true_iff in Hdue as [Hdue%Z.ltb_lt _]. done. }
  destruct (send_status_ok us sent got r h (en_rx e) Hrx ltac:(lia))
    as (ack & pdu & pad & r' & -> & [Hack _] & _ & Hl & _ & _ & Hsame & Hlen & Hb & Hbits).
  rewrite !res_ok_bind, Hl. rewrite res_ok_bind. cbv beta iota zeta. rewrite res_ok_bind. rewrite Hmac.
  exists ack, pdu, pad. eexists _, _. split; [reflexivity|].
  split; [done|]. split; [done|]. split; [done|]. split; [done|]. split; [done|].
  split; [|split; [|done]].
  - change (taken (en_send e) = en_send e). unfold taken. rewrite <- Hmac at 1. by destruct (en_send e).
  - eapply same_trans; [exact Hsame|].
    match goal with |- same_rx _ (en_rx (?x <| en_send := _ |>)) => change (same_rx r' (en_rx x)) end.
    match goal with |- same_rx _ (en_rx (_ <| en_rx := ?x |>)) => change (same_rx r' x) end.
    unfold rlc_am_start_timer_status_prohibit. case_match; by split.
Qed.
End request.

(** ** [rlc_am_mac_data_indication] *)

(** The first bit of a block tells data from control. *)
Lemma high_bit b : in_u 8 b -> b .& 0x80 = if 128 <=? b then 0x80 else 0.
Proof.
  intros H. apply Z.eqb_eq. revert b H.
  by apply (byte_forall (fun b => (b .& 0x80) =? if 128 <=? b then 0x80 else 0)).
Qed.

Lemma high_testbit b : in_u 8 b -> Z.testbit b 7 = (128 <=? b).
Proof.
  intros H. apply Bool.eqb_prop. revert b H.
  by apply (byte_forall (fun b => Bool.eqb (Z.testbit b 7) (128 <=? b))).
Qed.

Lemma data_first u poll n rest : exists b l,
  am_encode u poll (n mod 1024) None ++ rest = b :: l /\ b .& 0x80 = 0x80.
Proof.
  unfold am_encode, am_fixed. eexists _, _. split; [reflexivity|].
  pose proof (fi_of_range (umd_starts u) (umd_ends u)) as Hfi. change (seg_rf None) with 0.
  match goal with |- ?b .& _ = _ => assert (Hb : 128 <= b < 256) end.
  { destruct poll; cbn [Z.b2z]; case_decide; div_lia. }
  rewrite high_bit by (unfold in_u; change (2 ^ 8) with 256; lia). by rewrite (proj2 (Z.leb_le _ _)) by lia.
Qed.

Lemma status_first i pdu pad : 0 < zlen pdu -> all_bytes pdu -> mem_bits pdu = status_bits i ++ pad ->
  exists b l, pdu = b :: l /\ b .& 0x80 = 0.
Proof.
  intros Hz Hb E. destruct pdu as [|b l]; [done|]. exists b, l. split; [done|].
  apply Forall_cons in Hb as [Hb _]. rewrite high_bit, <- high_testbit by done.
  rewrite mem_bits_cons, status_bits_split in E. apply (f_equal (List.hd true)) in E.
  change (Z.testbit b 7 = false) in E. by rewrite E.
Qed.

(** A block with data. *)
Lemma arrive_data us sent got r h e n tb frame stale : am_stream us sent ->
  en_state e = RLC_DATA_TRANSFER_READY_STATE -> rx_rel us sent got r h (en_rx e) ->
  timely sent got n -> conveys tb (us n) (n mod 1024) ->
  exists e' r' h', rlc_am_mac_data_indication e frame [AmTbInd (req_data tb) (req_size tb) stale] = Ok e' /\
    rx_rel us sent (n :: got) r' h' (en_rx e') /\ r <= r' /\ en_send e' = en_send e /\ en_state e' = en_state e.
Proof.
  intros Hstr Hst Hrx Ht (poll & junk & ->). cbn [req_data req_size].
  unfold rlc_am_mac_data_indication, rlc_am_rx. cbn [protocol_state]. rewrite Hst.
  cbn [rlc_am_receive_routing receive_block ind_size ind_data ind_stale].
  destruct (data_first (us n) poll n junk) as (b & l & El & Eb). rewrite El.
  assert (Hz : 0 < zlen (am_encode (us n) poll (n mod 1024) None)).
  { rewrite am_encode_zlen. pose proof (zlen_nonneg (umd_full (us n))) as H0.
    pose proof (li_header_len_bound _ H0). pose proof (zlen_nonneg (concat (umd_full (us n)))).
    pose proof (zlen_nonneg (umd_last (us n))). change (am_fixed_len None) with 2. lia. }
  rewrite (proj2 (Z.ltb_lt _ _)) by done.
  change (rd (b :: l) 0) with (Ok b). rewrite res_ok_bind, Eb. change (0x80 =? 0x80) with true.
  cbv iota zeta. rewrite <- El.
  set (e1 := (en_rx e) <| stat_rx_data_bytes := _ |> <| stat_rx_data_pdu := _ |>).
  assert (Hs1 : same_rx (en_rx e) e1) by (by split). clearbody e1.
  destruct (receive_step us sent Hstr got r h e1 poll n junk frame stale (rel_same _ _ _ _ _ _ _ Hs1 Hrx) Ht)
    as (rx & r' & h' & E & Hrx' & Hle).
  unfold pdu_of in E. rewrite E, !res_ok_bind.
  eexists _, r', h'. split; [reflexivity|]. split; [exact Hrx'|]. split; [done|].
  split; [|done]. by destruct e as [? [] ? ? ? ? ? ? ? ? ?].
Qed.

(** A STATUS PDU. *)
Lemma arrive_status e i pdu pad frame stale tx :
  en_state e = RLC_DATA_TRANSFER_READY_STATE -> info_ok i -> num_nack i < 1023 -> zlen pdu = status_len i ->
  all_bytes pdu -> mem_bits pdu = status_bits i ++ pad ->
  process_status (snd_tx (en_send e)) frame i = Ok tx ->
  exists e', rlc_am_mac_data_indication e frame [AmTbInd pdu (zlen pdu) stale] = Ok e' /\
    en_send e' = (en_send e) <| snd_tx := tx |> /\ same_rx (en_rx e) (en_rx e') /\
    status_requested (en_rx e') = status_requested (en_rx e) /\ en_state e' = en_state e.
Proof.
  intros Hst Hi Hnum Hlen Hb Hbits Hp.
  unfold rlc_am_mac_data_indication, rlc_am_rx. cbn [protocol_state]. rewrite Hst.
  cbn [rlc_am_receive_routing receive_block ind_size ind_data].
  assert (Hz : 0 < zlen pdu).
  { rewrite Hlen. unfold status_len. rewrite status_bits_split, !zlen_app, !zlen_to_bits.
    pose proof (zlen_nonneg (nacks_bits (nack_list i))). div_lia. }
  rewrite (proj2 (Z.ltb_lt _ _)) by done.
  destruct (status_first i pdu pad Hz Hb Hbits) as (b & l & El & Eb).
  assert (Hrd : rd pdu 0 = Ok b) by (by rewrite El). rewrite Hrd, res_ok_bind, Eb. change (0 =? 0x80) with false.
  cbv iota zeta. unfold rlc_am_receive_process_control_pdu.
  rewrite (parse_status_ok i pdu pad (zlen pdu) Hi Hb Hbits), res_ok_bind.
  change (0 <=? 0) with true. cbv iota beta. rewrite Hp, !res_ok_bind. rewrite Hlen, Z.sub_diag.
  change (s32 0 =? 0) with true. cbn [res_guard]. rewrite !res_ok_bind.
  eexists. split; [reflexivity|]. split; [done|]. split; [by split|]. by split.
Qed.
