(* ===== verification/RlcAmLink.v ===== *)
(** RLC AM v9.3.0: two entities, a transmitter and a receiver, over a medium that may lose,
    repeat and reorder blocks.  What is delivered is what has been accepted. *)
From S2P Require Import Prelude.
From S2P Require Import RlcUmEntity.
From S2P Require Import RlcUmHeader.
From S2P Require Import RlcUmReassemblySpec.
From S2P Require Import RlcUmSegment.
From S2P Require Import RlcUmSegmentSpec.
From S2P Require Import RlcUmLink.
From S2P Require Import RlcAmEntity.
From S2P Require Import RlcAmSn.
From S2P Require Import RlcAmStatus.
From S2P Require Import RlcAmStatusSpec.
From S2P Require Import RlcAmRetransmit.
From S2P Require Import RlcAmArqSpec.
From S2P Require Import RlcAmStatusRefine.
From S2P Require Import RlcAmRx.
From S2P Require Import RlcAmReceiver.
From S2P Require Import RlcAmStatusReport.
From S2P Require Import RlcAmHeaderSpec.
From S2P Require Import RlcAmReassemblySpec.
From S2P Require Import RlcAmReceiverSpec.
From S2P Require Import RlcAmStatusReportSpec.
From S2P Require Import RlcAmSender.
From S2P Require Import RlcAmSegment.
From S2P Require Import RlcAm.
From S2P Require Import RlcAmPlanSpec.
From S2P Require Import RlcAmSegmentSpec.
From S2P Require Import RlcAmSendSpec.
From S2P Require Import RlcAmWalkSpec.
From S2P Require Import RlcAmSenderSpec.
From S2P Require Import RlcAmGrantSpec.
From S2P Require Import RlcAmStream.
From S2P Require Import RlcAmEnds.
From stdpp Require Import sorting.

Local Open Scope Z_scope.

Local Abbreviation um_size := RlcUmEntity.sdu_size.
Local Abbreviation um_seg := RlcUmEntity.sdu_segmented_size.

(** ** The link *)

(** Two entities: [end_a] is given SDUs, [end_b] delivers them.  Of the past there are: how
    many PDUs [end_a] has made, the blocks it has given to MAC with the numbers of
    their PDUs counted without wrapping, the numbers of the PDUs that have reached
    [end_b], and the SDUs accepted. *)
Record link := Link {
  end_a : rlc_am_entity;
  end_b : rlc_am_entity;
  made : Z;
  air : list (Z * am_tb_req);
  arrived : list Z;
  accepted : list (list Z)
}.
#[export] Instance link_eta : Eta link := fun L =>
  Link (end_a L) (end_b L) (made L) (air L) (arrived L) (accepted L).

(** An SDU for [end_a]; a grant of [nb] bytes to it; the arrival at [end_b] of any block given to
    MAC before, so that blocks may be lost, late, or come twice; a grant to [end_b], what it
    sends reaching [end_a] or not. *)
Inductive link_op :=
  | OpSdu (frameP : Z) (sdu : am_data_req)
  | OpGrant (frameP nb : Z) (head : head_sdu)
  | OpArrive (frameP : Z) (i : nat) (stale : Z)
  | OpReport (frameP nb : Z) (head : head_sdu) (lost : bool) (stale : Z).

(** The number of a block, when [made] PDUs have been made: the last with its sequence number. *)
Definition block_sn (tb : am_tb_req) : Z :=
  match req_data tb with b0 :: b1 :: _ => b0 mod 4 * 256 + b1 | _ => 0 end.
Definition number_of (made : Z) (tb : am_tb_req) : Z := made - 1 - (made - 1 - block_sn tb) mod 1024.

(** What MAC makes of a block. *)
Definition am_carry (stale : Z) (tb : am_tb_req) : am_tb_ind := AmTbInd (req_data tb) (req_size tb) stale.

Section link.
Variables mem cmem : Z -> option (list Z).
Variable user_mode : bool.

(** A grant is MAC's pair of calls. *)
Definition am_grant (e : rlc_am_entity) (frameP nb : Z) (head : head_sdu)
    : res (rlc_am_entity * list am_tb_req) :=
  '(e, _) ← rlc_am_mac_status_indication e frameP nb head;
  '(e, d) ← rlc_am_mac_data_request mem cmem true user_mode e frameP;
  Ok (e, mdr_data d).

Definition vt_s_of (e : rlc_am_entity) : Z := vt_s (snd_tx (en_send e)).

Definition link_step (op : link_op) (L : link) : res link :=
  match op with
  | OpSdu frameP sdu =>
      s ← rlc_am_data_req (en_send (end_a L)) frameP sdu;
      Ok (L <| end_a := (end_a L) <| en_send := s |> |>
            <| accepted := accepted L ++ [take (Z.to_nat (dr_size sdu)) (dr_data sdu)] |>)
  | OpGrant frameP nb head =>
      '(e, tbs) ← am_grant (end_a L) frameP nb head;
      let made' := made L + dist (vt_s_of (end_a L)) (vt_s_of e) in
      Ok (L <| end_a := e |> <| made := made' |>
            <| air := air L ++ ((fun tb => (number_of made' tb, tb)) <$> tbs) |>)
  | OpArrive frameP i stale =>
      match air L !! i with
      | None => Ok L
      | Some (n, tb) =>
          e ← rlc_am_mac_data_indication (end_b L) frameP [am_carry stale tb];
          Ok (L <| end_b := e |> <| arrived := n :: arrived L |>)
      end
  | OpReport frameP nb head lost stale =>
      '(b, tbs) ← am_grant (end_b L) frameP nb head;
      a ← (if (lost : bool) then Ok (end_a L)
           else rlc_am_mac_data_indication (end_a L) frameP (am_carry stale <$> tbs));
      Ok (L <| end_a := a |> <| end_b := b |>)
  end.

Fixpoint link_run (ops : list link_op) (L : link) : res link :=
  match ops with
  | [] => Ok L
  | op :: ops => L ← link_step op L; link_run ops L
  end.

(** ** What is left to those who use it *)

(** All the PDUs held have the property [P]. *)
Definition held_all (P : am_tx_pdu -> bool) (e : am_tx) : bool :=
  forallb (fun sn => negb (outstanding e sn) || P (pdu_at e sn)) (seqZ 0 1024).

(** A PDU sent again is not given up. *)
Definition may_resend (e : am_tx) : bool :=
  held_all (fun p => retx_count p + 1 <? max_retx_threshold e) e.

(** The PDU does not refer to the slot [i]. *)
Definition not_naming (i : Z) (p : am_tx_pdu) : bool :=
  forallb (fun j => bool_decide (sdus_index p !! Z.to_nat j <> Some i)) (seqZ 0 (nb_sdus p)).

(** An SDU: less than 2048 bytes, a free slot, and no PDU held that refers to the slot
    behind it, for the code overwrites what such a PDU would confirm. *)
Definition sdu_allowed (e : am_tx) (sdu : am_data_req) : bool :=
  (0 <? dr_size sdu) && (dr_size sdu <? 2048) && (dr_size sdu <=? zlen (dr_data sdu))
  && (nb_sdu_no_segmented e <? 127) && held_all (not_naming (slot_of (next_sdu_index e) 1)) e.

(** A new PDU: few SDUs wait, each of them in few PDUs, and there is room in the window. *)
Definition new_allowed (e : am_tx) : bool :=
  (nb_sdu_no_segmented e <=? 31) && (dist (vt_a e) (vt_s e) + 1 <? 512)
  && forallb (fun k => let n := nb_pdus (sdu_at e (slot_of (current_sdu_index e) k)) in
                       (0 <=? n) && (n <? 31)) (seqZ 0 (nb_sdu_no_segmented e)).

(** The PDU to be sent again fits in the grant, or the grant is too small for a part of it. *)
Definition due_allowed (nb : Z) (e : am_tx) : bool :=
  let p := pdu_at e (first_retrans_pdu_sn e) in
  (first_retrans_pdu_sn e <? 0) || negb (held p) || (retx_count p <? 0)
  || (header_and_payload_size p <=? nb) || (nb <? 8).

(** A grant of [nb] bytes: no PDU is given up or sent in parts. *)
Definition grant_allowed (nb : Z) (s : am_send) : bool :=
  let e := snd_tx s in
  (0 <=? nb) && (nb <? 9000) && may_resend e && due_allowed nb e
  && ((nb_sdu_no_segmented e =? 0) || (nb <=? 2) || new_allowed e)
  && (negb (poll_overdue s) || negb (nb_sdu_no_segmented e =? 0)
      || held_all (fun p => header_and_payload_size p <=? nb) e).

Definition op_allowed (op : link_op) (L : link) : Prop :=
  match op with
  | OpSdu frameP sdu => sdu_allowed (snd_tx (en_send (end_a L))) sdu = true
  | OpGrant frameP nb head => grant_allowed nb (en_send (check_timers (end_a L) frameP)) = true
  | OpArrive frameP i stale =>
      match air L !! i with Some (n, tb) => timely (made L) (arrived L) n | None => True end
  | OpReport frameP nb head lost stale =>
      0 <= nb < 9000 /\ may_resend (snd_tx (en_send (end_a L))) = true
  end.

Fixpoint run_allowed (ops : list link_op) (L : link) : Prop :=
  match ops with
  | [] => True
  | op :: ops =>
      op_allowed op L /\
      match link_step op L with Ok L' => run_allowed ops L' | Err _ => True end
  end.

(** Both ends are initialised and configured, and nothing has happened. *)
Definition started (e : rlc_am_entity) : Prop :=
  exists e0 c, initialized e0 = false /\ e = rlc_am_configure (rlc_am_init e0) c /\
    1 <= max_retx_threshold_ c <= 127.

Record link_start (L : link) : Prop := LinkStart {
  start_a : started (end_a L);
  start_b : started (end_b L);
  start_pool : Forall (eq true) (pool (en_rx (end_b L)));
  start_none : delivered (en_rx (end_b L)) = [] /\ made L = 0 /\ air L = [] /\ arrived L = [] /\
    accepted L = []
}.

(** ** The invariant *)

(** [us] are the PDUs made, [a] the number that VT(A) stands for, [r] and [h] those of VR(R) and
    VR(H), and [q] waits. *)
Record linked (us : Z -> umd) (a r h : Z) (q : list um_tx_sdu) (mx : Z) (L : link) : Prop := Linked {
  ln_stream : am_stream us (made L);
  ln_ready : en_state (end_a L) = RLC_DATA_TRANSFER_READY_STATE /\
             en_state (end_b L) = RLC_DATA_TRANSFER_READY_STATE;
  ln_sender : sender us (made L) a q mx (en_send (end_a L));
  ln_max : 1 <= mx <= 127;
  ln_small : Forall (fun x => um_size x < 2048) q;
  ln_quiet : status_requested (en_rx (end_a L)) = false;
  ln_rx : rx_rel us (made L) (arrived L) r h (en_rx (end_b L));
  ln_idle : exists us0 mx0, 1 <= mx0 <= 127 /\ sender us0 0 0 [] mx0 (en_send (end_b L));
  ln_order : a <= r;
  ln_arrived : Forall (fun n => 0 <= n < made L) (arrived L);
  ln_keeps n : a <= n < made L -> n ∉ arrived L ->
    outstanding (snd_tx (en_send (end_a L))) (n mod 1024) = true;
  ln_air : Forall (fun b => 0 <= b.1 < made L /\ conveys b.2 (us b.1) (b.1 mod 1024)) (air L);
  ln_sdus : exists got sent, sdus_upto us (Z.to_nat (made L)) = (tx_partial q, got) /\
    Forall2 (padded 2) sent got /\ accepted L = sent ++ (sdu_payload <$> q)
}.
End link.

(** ** The conditions *)

Lemma held_all_ok P e n : held_all P e = true -> outstanding e (n mod 1024) = true ->
  P (pdu_at e (n mod 1024)) = true.
Proof.
  unfold held_all. rewrite forallb_forall. intros H Ho.
  specialize (H (n mod 1024)). rewrite Ho in H. apply H, list_elem_of_In, elem_of_seqZ. div_lia.
Qed.

Lemma not_naming_ok i p : not_naming i p = true -> unnamed i p.
Proof.
  unfold not_naming. rewrite forallb_forall. intros H j Hj.
  specialize (H j). apply bool_decide_eq_true in H; [done|]. apply list_elem_of_In, elem_of_seqZ. lia.
Qed.

Lemma cut_full_len l : forall t li, zlen (c_full (cut t li l)) <= zlen l.
Proof.
  induction l as [|s l IH]; intros t li; [by vm_compute|]. cbn [cut]. rewrite zlen_cons.
  pose proof (zlen_nonneg l). case_match; [by change (0 <= 1 + zlen l); lia|].
  case_match; [by change (0 <= 1 + zlen l); lia|]. cbv zeta. cbn [c_full]. rewrite zlen_cons.
  specialize (IH (t - zlen s - (3 - li)) (3 - li)). lia.
Qed.

(** The conditions, in terms of what the transmitter holds and of the queue. *)
Lemma may_resend_ok us sent bo q next mx a e :
  sound us sent bo q next mx a e -> may_resend e = true -> may_repeat a sent mx e.
Proof.
  intros Hs H n _ Ho. apply (held_all_ok _ _ n) in H; [|done].
  apply Z.ltb_lt in H. by rewrite (so_max _ _ _ _ _ _ _ _ Hs) in H.
Qed.

Lemma new_allowed_ok us sent a q mx nb s :
  sender us sent a q mx s -> Forall (fun x => um_size x < 2048) q -> 2 < nb < 9000 ->
  new_allowed (snd_tx s) = true -> grant_ok q nb s /\ sent + 1 < a + 512.
Proof.
  intros [Hs _ _] Hsm Hnb H. pose proof (so_queue _ _ _ _ _ _ _ _ Hs) as [Hq Hwf _ Hnum _].
  pose proof (so_order _ _ _ _ _ _ _ _ Hs) as Hord. unfold new_allowed in H.
  apply andb_true_iff in H as [H H3]. apply andb_true_iff in H as [H1%Z.leb_le H2%Z.ltb_lt].
  rewrite Hnum in H1, H3. rewrite (so_a _ _ _ _ _ _ _ _ Hs), (so_s _ _ _ _ _ _ _ _ Hs), dist_count in H2 by lia.
  split; [|lia]. split; [done|..].
  - assert (Hb := conj Hwf Hsm). apply Forall_and in Hb. eapply Forall_impl; [exact Hb|].
    intros x [[X1 X2 X3 X4 X5] Hx]. cbn. lia.
  - intros k Hk. rewrite forallb_forall in H3. specialize (H3 k).
    apply andb_true_iff in H3 as [? ?]; [lia|]. apply list_elem_of_In, elem_of_seqZ. lia.
  - pose proof (cut_full_len (sdu_rest <$> q) (am_data_pdu_size s nb - 2) 1) as Hl.
    assert (El : zlen (sdu_rest <$> q) = zlen q) by (unfold zlen; by rewrite length_fmap). lia.
Qed.

Lemma due_allowed_ok nb e : due_allowed nb e = true -> due_fits nb e.
Proof.
  unfold due_allowed, due_fits. cbv zeta. intros H H0 H1 H2. rewrite H1 in H. cbn [negb] in H.
  rewrite (proj2 (Z.ltb_ge _ _)) in H by lia. rewrite (proj2 (Z.ltb_ge (retx_count _) _)) in H by lia.
  cbn [orb] in H. lia.
Qed.

Lemma grant_allowed_ok us sent a q mx nb s :
  sender us sent a q mx s -> Forall (fun x => um_size x < 2048) q -> grant_allowed nb s = true ->
  may_grant a sent q mx nb s.
Proof.
  intros Hsd Hsm H. pose proof Hsd as [Hs _ _]. unfold grant_allowed in H.
  repeat (apply andb_true_iff in H as [H ?H']).
  pose proof (tq_num _ _ _ (so_queue _ _ _ _ _ _ _ _ Hs)) as Hnum. split.
  - lia.
  - by eapply may_resend_ok.
  - by apply due_allowed_ok.
  - intros Hne Hnb. rewrite Hnum in H'0. destruct q as [|x q]; [done|]. rewrite zlen_cons in H'0.
    pose proof (zlen_nonneg q). rewrite (proj2 (Z.eqb_neq _ _)) in H'0 by lia.
    rewrite (proj2 (Z.leb_gt _ _)) in H'0 by lia. cbn [orb] in H'0.
    eapply new_allowed_ok; done || lia.
  - intros Hpo ->. rewrite Hpo in H'. rewrite Hnum in H'. cbn [negb orb] in H'.
    change (zlen (@nil um_tx_sdu) =? 0) with true in H'. cbn [negb orb] in H'.
    intros n _ Ho. apply (held_all_ok _ _ n) in H'; [|done]. by apply Z.leb_le in H'.
Qed.

(** ** The steps *)

Lemma rx_bounds us sent got r h e : rx_rel us sent got r h e -> Forall (fun n => 0 <= n < sent) got ->
  0 <= sent -> 0 <= r <= sent /\ h <= sent.
Proof.
  intros [(Hr0 & _ & Hall) _ _ _ _ _ Hhi _ _] Hg Hs. rewrite Forall_forall in Hg.
  assert (Hr : r <= sent).
  { destruct (Z.le_gt_cases r sent); [done|]. specialize (Hg sent (Hall sent ltac:(lia))). lia. }
  split; [lia|]. destruct Hhi as [->|Hhi]; [lia|]. specialize (Hg _ Hhi). lia.
Qed.

Lemma block_sn_ok u poll n junk size : block_sn (AmTbReq (am_encode u poll (n mod 1024) None ++ junk) size) = n mod 1024.
Proof.
  unfold block_sn, am_encode, am_fixed. cbn [req_data app]. change (seg_rf None) with 0.
  pose proof (fi_of_range (umd_starts u) (umd_ends u)) as Hfi.
  destruct poll; cbn [Z.b2z]; case_decide; div_lia.
Qed.

Lemma number_of_ok us made n tb : conveys tb (us n) (n mod 1024) -> made - 1024 <= n < made ->
  number_of made tb = n.
Proof.
  intros (poll & junk & ->) Hn. unfold number_of. rewrite block_sn_ok. div_lia.
Qed.

Section steps.
Context (mem cmem : Z -> option (list Z)) (user_mode : bool).
Hypothesis Hmem : gives mem.
Hypothesis Hcmem : gives cmem.
Context (us : Z -> umd) (a r h : Z) (q : list um_tx_sdu) (mx : Z) (L : link).
Hypothesis HL : linked us a r h q mx L.

Local Abbreviation step := (link_step mem cmem user_mode).

Lemma linked_bounds : 0 <= a <= made L /\ made L < a + 512 /\ 0 <= r <= made L /\ h <= made L.
Proof.
  pose proof (so_order _ _ _ _ _ _ _ _ (sd_sound _ _ _ _ _ _ (ln_sender _ _ _ _ _ _ _ HL))) as Ho.
  pose proof (rx_bounds _ _ _ _ _ _ (ln_rx _ _ _ _ _ _ _ HL) (ln_arrived _ _ _ _ _ _ _ HL)). lia.
Qed.

Lemma am_sdu_step frame sdu : sdu_allowed (snd_tx (en_send (end_a L))) sdu = true ->
  exists L' q', step (OpSdu frame sdu) L = Ok L' /\ linked us a r h q' mx L'.
Proof.
  intros H. destruct HL as [H1 H2 H3 H4 H5 H6 H7 H8 H9 H10 H11 H12 (got & sent & E1 & E2 & E3)].
  unfold sdu_allowed in H. repeat (apply andb_true_iff in H as [H ?H']).
  apply Z.ltb_lt in H, H'2. apply Z.leb_le in H'1. apply Z.ltb_lt in H'0.
  set (bytes := take (Z.to_nat (dr_size sdu)) (dr_data sdu)).
  assert (Hz : zlen bytes = dr_size sdu) by (subst bytes; rewrite zlen_take; lia).
  pose proof (sd_sound _ _ _ _ _ _ H3) as Hs. pose proof (so_queue _ _ _ _ _ _ _ _ Hs) as Hq.
  destruct (data_req_ok us (made L) a q mx (en_send (end_a L)) frame sdu bytes
    (drop (Z.to_nat (dr_size sdu)) (dr_data sdu)) H3) as (s' & Es & Hs' & Hk).
  - by rewrite <- (tq_num _ _ _ Hq).
  - symmetry. apply take_drop.
  - by rewrite Hz.
  - lia.
  - intros n _ Ho. apply not_naming_ok. by apply (held_all_ok _ _ n) in H'.
  - cbn [link_step]. rewrite Es, res_ok_bind. eexists _, (q ++ [fresh_sdu frame bytes]).
    split; [reflexivity|]. split; try done.
    + apply Forall_app. split; [done|]. apply Forall_singleton. change (zlen bytes < 2048). lia.
    + intros n Hn Hg. apply Hk. by apply H11.
    + exists got, sent. rewrite tx_partial_snoc by done. split; [done|]. split; [done|].
      change (accepted L ++ [bytes] = sent ++ (sdu_payload <$> q ++ [fresh_sdu frame bytes])).
      by rewrite E3, fmap_app, app_assoc.
Qed.

Lemma arrive_step frame i stale : op_allowed (OpArrive frame i stale) L ->
  exists L' r' h', step (OpArrive frame i stale) L = Ok L' /\ linked us a r' h' q mx L'.
Proof.
  intros H. cbn [op_allowed link_step] in *. destruct (air L !! i) as [[n tb]|] eqn:Ei.
  2: { by exists L, r, h. }
  destruct HL as [H1 [H2a H2] H3 H4 H5 H6 H7 H8 H9 H10 H11 H12 H13].
  pose proof H12 as Hair. rewrite Forall_forall in Hair. apply list_elem_of_lookup_2 in Ei.
  destruct (Hair _ Ei) as [Hn Htb]. cbn [fst snd] in Hn, Htb.
  destruct (arrive_data us (made L) (arrived L) r h (end_b L) n tb frame stale H1 H2 H7 H Htb)
    as (e' & r' & h' & E & Hrx & Hle & Es & Est).
  unfold am_carry. rewrite E, res_ok_bind. eexists _, r', h'. split; [reflexivity|].
  split; try done.
  - split; [done|]. by rewrite <- H2, <- Est.
  - change (exists us0 mx0, 1 <= mx0 <= 127 /\ sender us0 0 0 [] mx0 (en_send e')). by rewrite Es.
  - lia.
  - by constructor.
  - intros m Hm Hg. apply H11; [done|]. intros Hin. apply Hg. by right.
Qed.

(** The bytes granted. *)
Lemma grant_call e frame nb head : 0 <= nb < 65536 ->
  0 <= current_sdu_index (snd_tx (en_send (check_timers e frame))) < 128 ->
  exists e1, ticked e e1 frame nb /\ nb_bytes_requested_by_mac (en_rx e1) = nb /\
    am_grant mem cmem user_mode e frame nb head =
      ('(e', d) ← rlc_am_mac_data_request mem cmem true user_mode e1 frame; Ok (e', mdr_data d)).
Proof.
  intros Hnb Hc. destruct (indication_ok e frame nb head Hc) as (e1 & x & E & Ht).
  exists e1. split; [done|]. split; [rewrite (tk_nb _ _ _ _ Ht); by apply u16_small|].
  unfold am_grant. by rewrite E, res_ok_bind.
Qed.

Lemma sender_cur us0 sent a0 q0 mx0 s : sender us0 sent a0 q0 mx0 s -> 0 <= current_sdu_index (snd_tx s) < 128.
Proof.
  intros [Hs _ _]. apply (qd_cur _ _ (tq_queued _ _ _ (so_queue _ _ _ _ _ _ _ _ Hs))).
Qed.

(** What the grant does to the stream. *)
Lemma grant_linked e us' sent' q' s tbs :
  granted us (made L) a q mx s us' sent' q' tbs -> en_send e = taken s ->
  kept (snd_tx (en_send (end_a L))) (snd_tx s) ->
  status_requested (en_rx e) = false -> en_state e = RLC_DATA_TRANSFER_READY_STATE ->
  linked us' a r h q' mx (L <| end_a := e |> <| made := sent' |>
    <| air := air L ++ ((fun tb => (number_of sent' tb, tb)) <$> tbs) |>).
Proof.
  intros Hg Ee Hk Hq Hst. destruct linked_bounds as (Ho1 & Ho2 & Ho3 & Ho4).
  assert (Hsd : sender us' sent' a q' mx (en_send e)) by (rewrite Ee; by eapply granted_sender).
  assert (Hk' : forall x, outstanding (snd_tx (en_send (end_a L))) x = true -> outstanding (snd_tx (en_send e)) x = true).
  { rewrite Ee. exact Hk. }
  destruct HL as [H1 [H2a H2] H3 H4 H5 H6 H7 H8 H9 H10 H11 H12 (got & sent & E1 & E2 & E3)].
  destruct Hg as [_|n tb Hse|u q' tb Hn Htb Ho Hse].
  - split; try done; [intros n Hn Hg; apply Hk'; by apply H11| |by exists got, sent].
    change (Forall (fun b => 0 <= b.1 < made L /\ conveys b.2 (us b.1) (b.1 mod 1024)) (air L ++ [])).
    by rewrite app_nil_r.
  - destruct Hse as [_ _ _ Hn Htb].
    split; try done; [intros m Hm Hg; apply Hk'; by apply H11| |by exists got, sent].
    apply Forall_app. split; [done|]. apply Forall_singleton. cbn [fst snd].
    rewrite (number_of_ok us _ n) by (done || lia). split; [|done]. change (0 <= n < made L). lia.
  - pose proof (sd_sound _ _ _ _ _ _ H3) as Hs. pose proof (so_queue _ _ _ _ _ _ _ _ Hs) as [_ Hwf Hfr _ _].
    destruct (new_pdu_stream q u q' Hn Hwf H5 Hfr) as (Hu & Hfo & Hsm & got1 & sent1 & F1 & F2 & F3).
    split; try done.
    + apply stream_extend; [done|done|]. by rewrite E1.
    + apply rel_extend; [lia| |exact H7]. eapply Forall_impl; [exact H10|]. cbv beta. lia.
    + eapply Forall_impl; [exact H10|]. cbv beta. intros x Hx. change (0 <= x < made L + 1). lia.
    + intros n Hn2 Hg. change (a <= n < made L + 1) in Hn2. destruct (decide (n = made L)) as [->|].
      * change (outstanding (snd_tx (en_send e)) (made L mod 1024) = true). by rewrite Ee.
      * apply Hk', H11; [lia|done].
    + apply Forall_app. split.
      * eapply Forall_impl; [exact H12|]. intros [n b] [Hn1 Hb]. cbn [fst snd] in *.
        split; [change (0 <= n < made L + 1); lia|]. by rewrite extend_old by lia.
      * apply Forall_singleton. cbn [fst snd].
        rewrite (number_of_ok (extend us (made L) u) _ (made L)); [|by rewrite extend_new|lia].
        split; [change (0 <= made L < made L + 1); lia|]. by rewrite extend_new.
    + exists (got ++ got1), (sent ++ sent1). rewrite sdus_upto_next, E1, F1 by lia.
      split; [done|]. split; [by apply Forall2_app|].
      change (accepted L = (sent ++ sent1) ++ (sdu_payload <$> q')). by rewrite E3, F3, app_assoc.
Qed.

Lemma am_grant_step frame nb head : op_allowed (OpGrant frame nb head) L ->
  exists L' us' q', step (OpGrant frame nb head) L = Ok L' /\ linked us' a r h q' mx L'.
Proof.
  intros H. cbn [op_allowed link_step] in *. destruct linked_bounds as (Ho1 & Ho2 & _ & _).
  pose proof HL as [_ [H2 _] H3 H4 H5 H6 _ _ _ _ _ _ _].
  pose proof (sender_timed us (made L) a q mx (end_a L) frame H3) as Hsd.
  pose proof (grant_allowed_ok _ _ _ _ _ _ _ Hsd H5 H) as Hg. pose proof (mg_nb _ _ _ _ _ _ Hg) as Hnb.
  destruct (grant_call (end_a L) frame nb head ltac:(lia) (sender_cur _ _ _ _ _ _ Hsd))
    as (e1 & Ht & Enb & ->).
  rewrite <- (tk_send _ _ _ _ Ht) in Hsd, Hg. rewrite <- Enb in Hg.
  assert (Hdue : report_due (en_rx e1) = false).
  { unfold report_due. rewrite (tk_requested _ _ _ _ Ht), H6. by rewrite andb_false_r. }
  destruct (grant_data mem cmem Hmem Hcmem user_mode us (made L) a q mx e1 frame)
    as (e2 & d & us' & sent' & q' & s & -> & Hgr & Es & Hk & _ & Er & Est); try done; [|lia|].
  { by rewrite (tk_state _ _ _ _ Ht). }
  rewrite !res_ok_bind.
  assert (Hk' : kept (snd_tx (en_send (end_a L))) (snd_tx s)).
  { etrans; [|exact Hk]. rewrite (tk_send _ _ _ _ Ht).
    destruct (check_timers_send (end_a L) frame) as [->| ->]; [done|]. apply kept_buffer.
    unfold rlc_am_check_timer_poll_retransmit. by case_match. }
  assert (Hm : made L + dist (vt_s_of (end_a L)) (vt_s_of e2) = sent').
  { pose proof (granted_sender _ _ _ _ _ _ _ _ _ _ Hgr) as [Hs' _ _].
    unfold vt_s_of. rewrite Es, (so_s _ _ _ _ _ _ _ _ Hs').
    pose proof (so_s _ _ _ _ _ _ _ _ (sd_sound _ _ _ _ _ _ H3)) as ->.
    assert (made L <= sent' <= made L + 1) by (inversion Hgr; lia). rewrite dist_count; lia. }
  rewrite Hm. eexists _, us', q'. split; [reflexivity|].
  apply (grant_linked e2 us' sent' q' s (mdr_data d)); try done.
  - by rewrite Er, (tk_requested _ _ _ _ Ht).
  - by rewrite Est, (tk_state _ _ _ _ Ht).
Qed.

(** ** The exchange of a STATUS PDU *)

Lemma close_nacks_whole ns : Forall (fun n => so_start n = 0 /\ so_end n = 0x7FFF) ns ->
  Forall (fun n => so_start n = 0 /\ so_end n = 0x7FFF) (close_nacks ns).
Proof.
  induction 1 as [|n ns H Hs IH]; [done|]. destruct Hs as [|m ns Hm Hs].
  - constructor; [exact H|constructor].
  - constructor; [exact H|exact IH].
Qed.

Lemma status_nacks got ack : Forall (fun n => so_start n = 0 /\ so_end n = 0x7FFF) (nack_list (status_of got r ack)).
Proof.
  cbn [status_of nack_list]. apply close_nacks_whole. rewrite Forall_fmap. by apply Forall_forall.
Qed.

Lemma status_distinct got ack : ack < r + 1024 -> distinct_next (nack_list (status_of got r ack)).
Proof.
  intros Hack l m n l' E. apply (f_equal (fmap nack_sn_)) in E.
  cbn [status_of nack_list] in E. rewrite close_sns, <- list_fmap_compose in E.
  pose proof (missing_sorted got r ack) as Hs.
  assert (Hr : Forall (fun x => r <= x < ack) (missing got r ack)).
  { apply Forall_forall. intros x Hx%missing_elem. lia. }
  revert E Hs Hr. generalize (missing got r ack). clear -Hack. induction l as [|k l IH]; intros ms E Hs Hr.
  - destruct ms as [|x [|y ms]]; [done..|]. rewrite !fmap_cons in E. injection E as E1 E2 _.
    apply StronglySorted_inv in Hs as [_ Hs]. apply Forall_cons in Hs as [Hs _].
    apply Forall_cons in Hr as [Hx Hr]. apply Forall_cons in Hr as [Hy _].
    unfold compose in *. cbn in E1, E2. rewrite <- E1, <- E2. intros E. apply (mod_inj r) in E; lia.
  - destruct ms as [|x ms]; [done|]. rewrite fmap_app, !fmap_cons in E. injection E as _ E.
    apply StronglySorted_inv in Hs as [Hs _]. apply Forall_cons in Hr as [_ Hr].
    eapply (IH ms); [|done|done]. by rewrite E, fmap_app, !fmap_cons.
Qed.

(** What [end_a] does with it. *)
Lemma status_taken ack frame :
  r <= ack <= h -> may_resend (snd_tx (en_send (end_a L))) = true ->
  exists tx a', process_status (snd_tx (en_send (end_a L))) frame (status_of (arrived L) r ack) = Ok tx /\
    sender us (made L) a' q mx ((en_send (end_a L)) <| snd_tx := tx |>) /\ a <= a' <= r /\
    forall n, a' <= n < made L -> n ∉ arrived L -> outstanding tx (n mod 1024) = true.
Proof.
  intros Hack Hre. destruct linked_bounds as (Ho1 & Ho2 & Ho3 & Ho4).
  pose proof HL as [_ _ [Hs Hseg Hmac] H4 _ _ H7 _ H9 _ H11 _ _].
  set (tx0 := snd_tx (en_send (end_a L))) in *. pose proof (so_ok _ _ _ _ _ _ _ _ Hs) as Hok.
  assert (Harq : arq us (made L) (arrived L) a (made L) r h tx0 (en_rx (end_b L))).
  { split; try done; [apply Hs|apply Hs|lia]. }
  pose proof (rel_range _ _ _ _ _ _ H7) as Hrange.
  destruct (process_ok (arrived L) r ack tx0 frame Hok ltac:(lia)) as (tx & Hp & Hok' & Hef).
  assert (Hacks : forall n, a <= n < made L ->
    outstanding tx (n mod 1024) = outstanding tx0 (n mod 1024) && negb (bool_decide (n ∈ arrived L /\ n < ack)) /\
    (n ∉ arrived L -> n < ack -> flag_retransmit (pdu_at tx (n mod 1024)) = true)).
  { intros n Hn. destruct (status_acks_count us (made L) _ a (made L) r h tx0 _ ack n Harq Hack Hn) as (_ & En & Ea).
    destruct Hef as [_ _ Eo Ek]. pose proof (Eo _ (mod_sn_ok n)) as E. rewrite Ea in E. split; [exact E|].
    intros Hg Hlt. destruct (Ek _ (mod_sn_ok n)) as [_ Hf].
    { rewrite E, H11 by done. rewrite bool_decide_false by tauto. done. }
    rewrite En, bool_decide_true in Hf by done. exact Hf. }
  destruct (moved us (made L) _ a (made L) r h tx0 tx _ ack Harq Hack Hok' Hef Hacks) as (a2 & Ha2 & Hle & Hno & _).
  destruct (process_sound us (made L) _ q _ mx H4 frame (status_of (arrived L) r ack) a ack tx0 tx Hs)
    as (a1 & Ha1 & Hs'); try done; [lia|lia|apply status_nacks|apply status_distinct; lia| |].
  { by eapply may_resend_ok. }
  assert (a1 = a2) as ->.
  { apply (mod_inj a); [lia|lia|]. rewrite <- Ha2. symmetry. apply Hs'. }
  exists tx, a2. split; [exact Hp|]. split; [|split; [lia|]].
  - split; [|done|done]. change (snd_tx (_ <| snd_tx := tx |>)) with tx.
    by rewrite (so_nxt _ _ _ _ _ _ _ _ Hs').
  - intros n Hn Hg. destruct (Hacks n) as [-> _]; [lia|]. rewrite H11 by (done || lia).
    by rewrite bool_decide_false by tauto.
Qed.

(** A grant to [end_b], which has no SDUs. *)
Lemma idle_grant us0 mx0 : 1 <= mx0 <= 127 -> forall e frame,
  sender us0 0 0 [] mx0 (en_send e) -> en_state e = RLC_DATA_TRANSFER_READY_STATE ->
  report_due (en_rx e) = false -> 0 <= nb_bytes_requested_by_mac (en_rx e) < 9000 ->
  exists e' d us1, rlc_am_mac_data_request mem cmem true user_mode e frame = Ok (e', d) /\ mdr_data d = [] /\
    sender us1 0 0 [] mx0 (en_send e') /\ same_rx (en_rx e) (en_rx e') /\ en_state e' = en_state e.
Proof.
  intros Hmx e frame Hsd Hst Hdue Hnb. pose proof Hsd as [Hs _ _].
  assert (Hnone : forall x, sn_ok x -> outstanding (snd_tx (en_send e)) x = false).
  { intros x Hx. apply (ok_outside _ (ok_inv _ (so_ok _ _ _ _ _ _ _ _ Hs)) x Hx).
    rewrite (so_a _ _ _ _ _ _ _ _ Hs), (so_s _ _ _ _ _ _ _ _ Hs). unfold dist. div_lia. }
  destruct (grant_data mem cmem Hmem Hcmem user_mode us0 0 0 [] mx0 e frame)
    as (e' & d & us1 & sent' & q' & s & E & Hgr & Es & _ & Hrx & _ & Est); try done.
  { split; [done|intros n; lia| |done|intros _ _ n; lia].
    intros H0 Hh. pose proof (ok_retrans _ (ok_inv _ (so_ok _ _ _ _ _ _ _ _ Hs))) as Hf.
    unfold outstanding in Hnone. rewrite Hnone in Hh; [done|]. unfold sn_ok. lia. }
  exists e', d. pose proof (granted_sender _ _ _ _ _ _ _ _ _ _ Hgr) as Hs'. rewrite <- Es in Hs'.
  inversion Hgr as [? E1 E2 E3 E4|n tb [_ _ _ Hn _]|u q1 tb (? & ? & ? & ? & ? & ? & Hn)]; subst.
  - by exists us1.
  - lia.
  - by destruct Hn as (_ & _ & _ & _ & _ & _ & ?).
Qed.

Lemma report_step frame nb head lost stale : op_allowed (OpReport frame nb head lost stale) L ->
  exists L' a', step (OpReport frame nb head lost stale) L = Ok L' /\ linked us a' r h q mx L'.
Proof.
  intros [Hnb Hre]. cbn [link_step].
  pose proof HL as [H1 [H2a H2b] H3 H4 H5 H6 H7 (us0 & mx0 & Hmx0 & Hb) H9 H10 H11 H12 H13].
  pose proof (sender_timed us0 0 0 [] mx0 (end_b L) frame Hb) as Hb1.
  destruct (grant_call (end_b L) frame nb head ltac:(lia) (sender_cur _ _ _ _ _ _ Hb1))
    as (e1 & Ht & Enb & ->).
  rewrite <- (tk_send _ _ _ _ Ht) in Hb1.
  assert (Hst1 : en_state e1 = RLC_DATA_TRANSFER_READY_STATE) by (by rewrite (tk_state _ _ _ _ Ht)).
  destruct (report_due (en_rx e1)) eqn:Hdue.
  - destruct (grant_status mem cmem user_mode us (made L) (arrived L) r h e1 frame Hst1 Hdue)
      as (ack & pdu & pad & e2 & d & -> & Ed & Hack & Hlen & Hbytes & Hbits & Es & Hrx & Est).
    { eapply rel_same; [apply Ht|done]. } { rewrite Enb. lia. } { apply Hb1. }
    rewrite !res_ok_bind, Ed.
    assert (Hrx2 : rx_rel us (made L) (arrived L) r h (en_rx e2)).
    { eapply rel_same; [exact Hrx|]. eapply rel_same; [apply Ht|done]. }
    destruct lost.
    + rewrite res_ok_bind. eexists _, a. split; [reflexivity|]. split; try done; [|exists us0, mx0; split; [done|]].
      * split; [done|]. by rewrite <- Hst1, <- Est.
      * change (sender us0 0 0 [] mx0 (en_send e2)). by rewrite Es.
    + pose proof (rel_range _ _ _ _ _ _ H7) as Hrange.
      destruct (status_taken ack frame Hack Hre) as (tx & a' & Hp & Hs' & Ha' & Hk').
      destruct (arrive_status (end_a L) (status_of (arrived L) r ack) pdu pad frame stale tx)
        as (e3 & E3 & Es3 & _ & Eq3 & Est3); try done.
      { apply status_of_ok. lia. }
      { unfold num_nack, zlen. cbn [status_of nack_list]. rewrite close_length, length_fmap.
        pose proof (missing_zlen (arrived L) r ack). unfold zlen in *. lia. }
      cbn [fmap list_fmap]. unfold am_carry. cbn [req_data req_size]. rewrite E3, res_ok_bind.
      eexists _, a'. split; [reflexivity|]. split; try done.
      * split; [by rewrite <- H2a, <- Est3|by rewrite <- Hst1, <- Est].
      * change (sender us (made L) a' q mx (en_send e3)). by rewrite Es3.
      * change (status_requested (en_rx e3) = false). by rewrite Eq3.
      * exists us0, mx0. split; [done|]. change (sender us0 0 0 [] mx0 (en_send e2)). by rewrite Es.
      * lia.
      * change (forall n, a' <= n < made L -> n ∉ arrived L ->
          outstanding (snd_tx (en_send e3)) (n mod 1024) = true). by rewrite Es3.
  - destruct (idle_grant us0 mx0 Hmx0 e1 frame Hb1 Hst1 Hdue ltac:(lia))
      as (e2 & d & us1 & -> & Ed & Hb2 & Hrx & Est).
    rewrite !res_ok_bind, Ed. cbn [fmap list_fmap].
    assert (Hrx2 : rx_rel us (made L) (arrived L) r h (en_rx e2)).
    { eapply rel_same; [exact Hrx|]. eapply rel_same; [apply Ht|done]. }
    assert (Ha : (if lost then Ok (end_a L) else rlc_am_mac_data_indication (end_a L) frame []) = Ok (end_a L)).
    { destruct lost; [done|]. unfold rlc_am_mac_data_indication, rlc_am_rx. cbn [protocol_state].
      rewrite H2a. cbn [rlc_am_receive_routing]. rewrite res_ok_bind, <- H2a. by destruct (end_a L) as [? [] ? ? ? ? ? ? ? ? ?]. }
    rewrite Ha, res_ok_bind. eexists _, a. split; [reflexivity|]. split; try done.
    + split; [done|]. by rewrite <- Hst1, <- Est.
    + by exists us1, mx0.
Qed.

Lemma link_step_ok op : op_allowed op L ->
  exists L' us' a' r' h' q', step op L = Ok L' /\ linked us' a' r' h' q' mx L'.
Proof.
  intros H. destruct op as [frame sdu|frame nb head|frame i stale|frame nb head lost stale].
  - destruct (am_sdu_step frame sdu H) as (L' & q' & E & HL'). by exists L', us, a, r, h, q'.
  - destruct (am_grant_step frame nb head H) as (L' & us' & q' & E & HL'). by exists L', us', a, r, h, q'.
  - destruct (arrive_step frame i stale H) as (L' & r' & h' & E & HL'). by exists L', us, a, r', h', q.
  - destruct (report_step frame nb head lost stale H) as (L' & a' & E & HL'). by exists L', us, a', r, h, q.
Qed.
End steps.

(** ** The beginning *)

Lemma total_none f e : pdu_retrans_buffer e = ∅ -> f am_pdu0 = 0 -> RlcAmArqSpec.total f e = 0.
Proof.
  intros He Hf. unfold RlcAmArqSpec.total. generalize (seqZ 0 1024). intros l.
  induction l as [|x l IH]; [done|]. cbn [foldr]. rewrite IH. unfold pdu_at. rewrite He, lookup_empty.
  cbn [default]. lia.
Qed.

Lemma fresh_sound us mx e : pdu_retrans_buffer e = ∅ -> input_sdus e = ∅ ->
  vt_a e = 0 /\ vt_s e = 0 /\ vt_ms e = 512 /\ first_retrans_pdu_sn e = -1 ->
  current_sdu_index e = 0 /\ next_sdu_index e = 0 /\ nb_sdu_no_segmented e = 0 ->
  retrans_num_pdus e = 0 /\ retrans_num_bytes e = 0 -> max_retx_threshold e = mx ->
  sound us 0 0 [] (next_sdu_index e) mx 0 e.
Proof.
  intros Hb Hsd (F1 & F2 & F3 & F4) (G1 & G2 & G3) (N1 & N2) Hmx.
  assert (Hp : forall x, pdu_at e x = am_pdu0) by (intros x; unfold pdu_at; by rewrite Hb, lookup_empty).
  assert (Hout : forall x, outstanding e x = false) by (intros x; unfold outstanding; by rewrite Hp).
  assert (Hq : queued e []).
  { split; rewrite ?G1, ?G2; try done. intros k Hk. unfold sdu_at. by rewrite Hsd, lookup_empty, lookup_nil. }
  assert (Hinv : tx_inv e).
  { split; rewrite ?F1, ?F2, ?F4; try done.
    - intros sn Hsn Hd. pose proof (dist_range 0 sn). change (dist 0 0) with 0 in Hd. lia.
    - intros sn _ _. by rewrite Hout, Hp.
    - intros sn _. rewrite Hp. apply pdu0_ok.
    - split; rewrite ?G1, ?G2; lia.
    - by rewrite total_none.
    - by rewrite total_none. }
  split; try done.
  - by split; rewrite ?F1, ?F2, ?F3.
  - by intros n ?; lia.
  - by left.
Qed.

(** What [rlc_am_init] and [rlc_am_configure] leave. *)
Lemma started_sender e us : started e -> exists mx, 1 <= mx <= 127 /\ sender us 0 0 [] mx (en_send e).
Proof.
  intros (e0 & c & Hi & -> & Hmx). exists (max_retx_threshold_ c). split; [done|].
  unfold rlc_am_configure, rlc_am_init. rewrite Hi. cbv zeta.
  match goal with |- context [if ?b then _ else _] => change b with false end. cbv iota.
  split; [|done|done]. apply fresh_sound; try done.
  match goal with |- max_retx_threshold ?x = _ => change (max_retx_threshold x) with (u16 (max_retx_threshold_ c)) end.
  by rewrite u16_small by lia.
Qed.

Lemma started_fields e : started e ->
  en_state e = RLC_DATA_TRANSFER_READY_STATE /\ status_requested (en_rx e) = false.
Proof.
  intros (e0 & c & Hi & -> & _). unfold rlc_am_configure, rlc_am_init. rewrite Hi. cbv zeta.
  by match goal with |- context [if ?b then _ else _] => change b with false end.
Qed.

Lemma started_fresh e : started e -> Forall (eq true) (pool (en_rx e)) -> delivered (en_rx e) = [] ->
  am_fresh (en_rx e).
Proof.
  intros (e0 & c & Hi & -> & _). unfold rlc_am_configure, rlc_am_init. rewrite Hi. cbv zeta.
  match goal with |- context [if ?b then _ else _] => change b with false end. cbv iota.
  intros Hp Hd. by split.
Qed.

(** No PDU has been made. *)
Definition no_pdus : Z -> umd := fun _ => Umd true true [] [].

Lemma start_linked L : link_start L -> exists mx, linked no_pdus 0 0 0 [] mx L.
Proof.
  intros [Ha Hb Hpool (Hd & Hm & Hair & Harr & Hacc)].
  destruct (started_sender (end_a L) no_pdus Ha) as (mx & Hmx & Hsd).
  destruct (started_sender (end_b L) no_pdus Hb) as (mx0 & Hmx0 & Hsd0).
  destruct (started_fields _ Ha) as [Ea Eq]. destruct (started_fields _ Hb) as [Eb _].
  assert (Hstr : am_stream no_pdus 0) by (split; [intros n Hn; lia|intros k Hk; lia]).
  pose proof (fresh_rel no_pdus 0 Hstr _ (started_fresh _ Hb Hpool Hd)) as Hrx.
  exists mx. split; rewrite ?Hm, ?Hair, ?Harr, ?Hacc; try done.
  - by exists no_pdus, mx0.
  - intros n Hn. lia.
  - by exists [], [].
Qed.

(** ** Runs *)

Section runs.
Context (mem cmem : Z -> option (list Z)) (user_mode : bool).
Hypothesis Hmem : gives mem.
Hypothesis Hcmem : gives cmem.

Lemma link_run_ok ops : forall us a r h q mx L,
  linked us a r h q mx L -> run_allowed mem cmem user_mode ops L ->
  exists L' us' a' r' h' q', link_run mem cmem user_mode ops L = Ok L' /\ linked us' a' r' h' q' mx L'.
Proof.
  induction ops as [|op ops IH]; intros us a r h q mx L HL H; cbn [link_run run_allowed] in *.
  { by exists L, us, a, r, h, q. }
  destruct H as [Hop H].
  destruct (link_step_ok mem cmem user_mode Hmem Hcmem us a r h q mx L HL op Hop)
    as (L1 & us1 & a1 & r1 & h1 & q1 & E & HL1).
  rewrite E in H. rewrite E, res_ok_bind. by apply (IH us1 a1 r1 h1 q1).
Qed.

(** What has been delivered is the beginning of what has been accepted. *)
Lemma linked_delivered us a r h q mx L : linked us a r h q mx L ->
  exists sent waiting, accepted L = sent ++ waiting /\
    Forall2 (padded 2) sent (delivered (en_rx (end_b L))) /\
    ((forall n, 0 <= n < made L -> n ∈ arrived L) ->
     nb_sdu_no_segmented (snd_tx (en_send (end_a L))) = 0 -> waiting = []).
Proof.
  intros HL. destruct (linked_bounds _ _ _ _ _ _ _ HL) as (_ & _ & Hr & _).
  pose proof HL as [_ _ H3 _ _ _ H7 _ _ _ _ _ (got & sent & E1 & E2 & E3)].
  pose proof (rel_delivers _ _ _ _ _ _ H7) as [_ Hd].
  destruct (sdus_upto_prefix us (Z.to_nat (made L)) (Z.to_nat r)) as [rest Hrest]; [lia|].
  rewrite E1, <- Hd in Hrest. cbn [snd] in Hrest. rewrite Hrest in E2.
  apply Forall2_app_inv_r in E2 as (s1 & s2 & F1 & F2 & ->).
  exists s1, (s2 ++ (sdu_payload <$> q)). split; [by rewrite E3, <- app_assoc|]. split; [done|].
  intros Hall Hnum.
  assert (Er : r = made L).
  { destruct (rel_missing _ _ _ _ _ _ H7) as (_ & Hrg & _). destruct (decide (r = made L)); [done|].
    destruct Hrg. apply Hall. lia. }
  rewrite Er in Hd. rewrite E1, Hrest in Hd. cbn [snd] in Hd.
  assert (rest = []) as ->.
  { apply (f_equal length) in Hd. rewrite length_app in Hd. destruct rest; [done|]. cbn [length] in Hd. lia. }
  apply Forall2_nil_inv_r in F2 as ->.
  rewrite (tq_num _ _ _ (so_queue _ _ _ _ _ _ _ _ (sd_sound _ _ _ _ _ _ H3))) in Hnum.
  by destruct q as [|x q]; [|rewrite zlen_cons in Hnum; pose proof (zlen_nonneg q); lia].
Qed.

End runs.
