(* ===== verification/RlcAmTxExamples.v ===== *)
(** RLC AM v9.3.0, the transmitting side and the link: the theorems at concrete inputs, and
    what the model showed of the code. *)
From S2P Require Import Prelude.
From S2P Require Import RlcUmEntity.
From S2P Require Import RlcUmHeader.
From S2P Require Import RlcUmSegment.
From S2P Require Import RlcUmSegmentSpec.
From S2P Require Import RlcAmEntity.
From S2P Require Import RlcAmSn.
From S2P Require Import RlcAmRetransmit.
From S2P Require Import RlcAmArqSpec.
From S2P Require Import RlcAmRx.
From S2P Require Import RlcAmReceiver.
From S2P Require Import RlcAmReceiverSpec.
From S2P Require Import RlcAmSender.
From S2P Require Import RlcAmSegment.
From S2P Require Import RlcAm.
From S2P Require Import RlcAmHeaderSpec.
From S2P Require Import RlcAmPlanSpec.
From S2P Require Import RlcAmSegmentSpec.
From S2P Require Import RlcAmSendSpec.
From S2P Require Import RlcAmSenderSpec.
From S2P Require Import RlcAmGrantSpec.
From S2P Require Import RlcAmRxExamples.
From S2P Require Import RlcAmLink.

Local Open Scope Z_scope.

(** ** Two entities *)

(** An entity before [rlc_am_init]; its memory is cleared by it. *)
Definition tx_blank : am_tx := AmTx ∅ 0 0 0 0 ∅ 0 0 0 0 0 0 0 0 0 am_timer0 0 0 0 0 0 [].
Definition send_blank : am_send := AmSend tx_blank 0 0 0 0 0 0 0 [] [] 0 0 0 0 0 0 0 0.
Definition am_blank : rlc_am_entity :=
  RlcAmEntityT RLC_NULL_STATE send_blank am_rx0 0 false false 0 0 0 false false.

(** Four retransmissions; a poll every eight PDUs or 500 bytes. *)
Definition am_config : rlc_am_info := RlcAmInfo 4 8 500 40 0 0.
Definition am_end : rlc_am_entity := rlc_am_configure (rlc_am_init am_blank) am_config.

Definition memory (size : Z) : option (list Z) := Some (replicate (Z.to_nat (Z.max 4 size)) 0).

Lemma memory_gives : gives memory.
Proof.
  intros size. exists (replicate (Z.to_nat (Z.max 4 size)) 0). split; [done|].
  unfold zlen. rewrite length_replicate. lia.
Qed.

Definition no_head : head_sdu := HeadSdu 0 0 0.
Definition link0 : link := Link am_end am_end 0 [] [] [].

Lemma link0_start : link_start link0.
Proof.
  assert (H : started am_end).
  { exists am_blank, am_config. split; [done|]. split; [done|]. change (1 <= 4 <= 127). lia. }
  split; [done|done|constructor|done].
Qed.

(** Two SDUs and two PDUs.  The first PDU is lost; the report of the receiver has it sent again. *)
Definition lossy_run : list link_op :=
  [OpSdu 1 (AmDataReq 1 3 [1; 2; 3]); OpSdu 1 (AmDataReq 2 4 [4; 5; 6; 7]);
   OpGrant 2 7 no_head; OpGrant 3 20 no_head; OpArrive 4 1 0;
   OpReport 5 20 no_head false 0; OpGrant 6 20 no_head; OpArrive 7 2 0].

Lemma timely_few sent got n : 0 <= n < sent -> sent <= 512 -> Forall (fun m => 0 <= m < 512) got ->
  timely sent got n.
Proof.
  intros Hn Hs Hg. rewrite Forall_forall in Hg. split; [done|]. intros r (Hr0 & Hr & Hall).
  assert (Hle : r <= 512).
  { destruct (Z.le_gt_cases r 512); [done|]. specialize (Hg 512 (Hall 512 ltac:(lia))). lia. }
  split; [lia|]. intros (H1 & _ & (m & Hm & Hrm) & _). specialize (Hg m Hm). revert H1. div_lia.
Qed.

(** The conditions of a short run, decided. *)
Definition op_allowed_small (op : link_op) (L : link) : bool :=
  match op with
  | OpSdu frameP sdu => sdu_allowed (snd_tx (en_send (end_a L))) sdu
  | OpGrant frameP nb head => grant_allowed nb (en_send (check_timers (end_a L) frameP))
  | OpArrive frameP i stale =>
      match air L !! i with
      | Some (n, tb) =>
          (0 <=? n) && (n <? made L) && (made L <=? 512)
          && forallb (fun m => (0 <=? m) && (m <? 512)) (arrived L)
      | None => true
      end
  | OpReport frameP nb head lost stale =>
      (0 <=? nb) && (nb <? 9000) && may_resend (snd_tx (en_send (end_a L)))
  end.

Fixpoint run_allowed_small (ops : list link_op) (L : link) : bool :=
  match ops with
  | [] => true
  | op :: ops =>
      op_allowed_small op L &&
      match link_step memory memory false op L with Ok L' => run_allowed_small ops L' | Err _ => true end
  end.

Lemma op_allowed_small_ok op L : op_allowed_small op L = true -> op_allowed op L.
Proof.
  destruct op as [frame sdu|frame nb head|frame i stale|frame nb head lost stale];
    cbn [op_allowed_small op_allowed]; [done..| |].
  - destruct (air L !! i) as [[n tb]|]; [|done]. intros H.
    apply andb_true_iff in H as [H Hg]. rewrite forallb_forall in Hg.
    apply timely_few; [lia|lia|]. apply Forall_forall. intros m Hm. apply list_elem_of_In, Hg in Hm. lia.
  - intros H. apply andb_true_iff in H as [H Hr]. split; [lia|done].
Qed.

Lemma run_allowed_small_ok ops : forall L, run_allowed_small ops L = true ->
  run_allowed memory memory false ops L.
Proof.
  induction ops as [|op ops IH]; intros L; cbn [run_allowed_small run_allowed]; [done|].
  intros [H1 H2]%andb_true_iff. split; [by apply op_allowed_small_ok|].
  destruct (link_step memory memory false op L); [by apply IH|done].
Qed.

Lemma lossy_run_allowed : run_allowed memory memory false lossy_run link0.
Proof. apply run_allowed_small_ok. vm_compute. reflexivity. Qed.


(** A queue of two SDUs and a grant that holds the first and a byte of the second. *)
Definition two_sdus : am_send :=
  match (s ← rlc_am_data_req (en_send am_end) 1 (AmDataReq 1 3 [1; 2; 3]);
         rlc_am_data_req s 1 (AmDataReq 2 4 [4; 5; 6; 7])) with
  | Ok s => s
  | Err _ => en_send am_end
  end.

Definition two_waiting : list um_tx_sdu := [fresh_sdu 1 [1; 2; 3]; fresh_sdu 1 [4; 5; 6; 7]].


(** ** What the model showed *)

(** Runs which may fail, and what is looked at. *)
Definition after (ops : list link_op) {A} (f : link -> A) : res A :=
  L ← link_run memory memory false ops link0; Ok (f L).

Definition sender_of (L : link) : am_send := en_send (end_a L).
Definition grant (n : Z) : link_op := OpGrant n 20 no_head.
Definition one_sdu (n : Z) : link_op := OpSdu n (AmDataReq n 3 [n; n; n]).

(** A new PDU counts twice for polling and for the statistics: [rlc_am_segment_10] polls the
    original, [rlc_am_retransmit_get_copy] the copy. *)
Example poll_counts_twice :
  after [one_sdu 1; one_sdu 2; OpGrant 2 7 no_head]
    (fun L => (c_pdu_without_poll (sender_of L), c_byte_without_poll (sender_of L),
               stat_tx_data_pdu (sender_of L)))
  = Ok (2, 6, 2).
Proof. vm_compute. reflexivity. Qed.

(** A PDU that is asked for again is sent at every grant until the next STATUS PDU: the way out of
    [rlc_am_get_pdus] leaves [first_retrans_pdu_sn] where it is.  An SDU that waits
    is not sent. *)
Example retransmission_repeats :
  after [one_sdu 1; one_sdu 2; OpGrant 2 7 no_head; grant 3; OpArrive 4 1 0; OpReport 5 20 no_head false 0;
         one_sdu 6; grant 6; grant 7; grant 8]
    (fun L => (fst <$> air L, sdu_buffer_occupancy (sender_of L)))
  = Ok ([0; 1; 0; 0; 0], 3).
Proof. vm_compute. reflexivity. Qed.

(** Up to two bytes left of the grant go with an SDU, and are delivered with it. *)
Example am_excess_delivered :
  after [one_sdu 1; one_sdu 2; OpGrant 2 7 no_head; OpArrive 3 0 0]
    (fun L => (accepted L, delivered (en_rx (end_b L))))
  = Ok ([[1; 1; 1]; [2; 2; 2]], [[1; 1; 1; 0; 0]]).
Proof. vm_compute. reflexivity. Qed.

(** [rlc_am_data_req] looks at the data of a slot only: the record of an SDU that has been sent and
    waits for its acknowledgement is overwritten when 128 others have been accepted. *)
Definition send_one (n : Z) : list link_op := [one_sdu n; grant n].

Example confirmation_lost :
  after (concat (send_one <$> seqZ 0 128))
    (fun L => (sdu_mui (sdu_at (snd_tx (sender_of L)) 0), zlen (confirms (snd_tx (sender_of L)))))
  = Ok (0, 0) /\
  after (concat (send_one <$> seqZ 0 128) ++ [one_sdu 128])
    (fun L => (sdu_mui (sdu_at (snd_tx (sender_of L)) 0), zlen (confirms (snd_tx (sender_of L)))))
  = Ok (128, 0).
Proof. split; vm_compute; reflexivity. Qed.

(** The number of entries in the last STATUS PDU received is taken for that of the one to be sent:
    an occupancy of 81 bytes for a report of two. *)
Example report_size_of_the_other :
  rlc_am_get_buffer_occupancy_in_bytes
    ((en_send am_end) <| snd_tx := (snd_tx (en_send am_end)) <| num_nack_sn := 57 |> |>)
    ((en_rx am_end) <| status_requested := true |>) = 81.
Proof. vm_compute. reflexivity. Qed.

(** [config_req_rlc_am] gives the arguments of [rlc_am_set_debug_infos] in another order than it
    takes them: an entity of bearer 3, a data bearer of module 0 and UE 1, is
    noted as that of module 1, UE 3 and bearer 0. *)
Example config_arguments_shifted :
  let names e := (enb_module_id e, ue_module_id e, rb_id e) in
  option_map names (config_req_rlc_am (Some am_blank) 0 1 1 0 am_config 3) = Some (1, 3, 0) /\
  (o ← config_req_rlc_am_asn1 7 7 15 55 31 56 (Some am_blank) 0 1 1 0 (RlcAmInfo 0 0 0 0 0 0) 3;
   Ok (option_map names o)) = Ok (Some (0, 1, 3)).
Proof. split; vm_compute; reflexivity. Qed.

(** [rlc_am_reestablish] keeps the SDUs and the PDUs which wait. *)
Example reestablish_keeps :
  after [one_sdu 1; one_sdu 2; OpGrant 2 7 no_head]
    (fun L => let e := snd_tx (en_send (rlc_am_reestablish (end_a L))) in
              (nb_sdu e, retrans_num_pdus e, outstanding e 0, vt_s e))
  = Ok (2, 1, true, 0).
Proof. vm_compute. reflexivity. Qed.
